(* ===== verification/_CoqProject ===== *)
-Q . S2P
Prelude.v
PyData.v
PyText.v
Json.v
JsonFacts.v
PyValue.v
Sha256.v
Status.v
Progress.v
Domain.v
DomainFacts.v
Ports.v
History.v
Dto.v
Engine.v
Memory.v
MemoryFacts.v
Worker.v
WorkerSafety.v
WorkerTotal.v
WorkerFacts.v
FileValidation.v
Messaging.v
MessagingFacts.v
Services.v
ServiceSafety.v
ServiceFacts.v
EndToEnd.v
Retention.v
RetentionFacts.v
Readiness.v
LoggerClient.v
Config.v
Preprocessor.v
Schema.v
Persistence.v
PersistenceFacts.v
PersistenceRows.v
PgRetention.v
ApiKeys.v
Http.v
HttpFacts.v
HttpStream.v
Consumer.v
ConsumerFacts.v
ConsumerDelivery.v
Storage.v
StorageFacts.v
Outbox.v
RetentionMain.v
SandboxCommand.v
StatusGenerator.v
Container.v
Sandbox.v
SandboxBox.v
SandboxHeartbeat.v
SandboxExchange.v
