(* ===== verification/Prelude.v ===== *)
(** * MonkeyOCR backend: a verified model (root file)

    MonkeyOCR is an asynchronous OCR service.  A client uploads a document,
    creates a job for it and reads the job's events and artifacts; a worker
    process takes the job from Kafka, has the document rendered to pages in a
    network-isolated sandbox, sends each page to the OCR engine, and stores the
    results; a cleanup process deletes what has expired.  This library models
    the Python code of [backend/src], the sandbox's two programs
    ([backend/infrastructure/sandbox]), the schema of [backend/alembic] and the
    generator of the status codes ([backend/scripts]).  Names of files below are
    relative to [src/backend/src] unless they begin with [backend/].

    ** How the code is modelled

    A coroutine is a function [M E W A] from the world [W] it runs in to its
    outcome (it returns, raises, or runs out of fuel) and the next world
    ([outcome], below).  A [Protocol] of the code is a type class over [W]
    ([Ports] for [application/ports.py]; [KafkaConsumer], [S3Client],
    [FileSystem], [Processes], ... next to their users), so that the service and
    the worker are proved once for every adapter.  [try]/[except]/[else]/[finally]
    are combinators ([try_else], [try_except], [try_finally]); the local state a
    handler sees is carried by the exception ([at_local]).

    Two program logics are defined below and used throughout.  [total P m Q X]:
    from [P], [m] ends, returning with [Q] or raising with [X]; it never runs
    out of fuel.  [rg I R P m Q X]: rely/guarantee; [m] keeps the invariant [I],
    every step of it (and every step other tasks are allowed between) is in the
    preorder [R], and [Q] or [X] hold where it ends.  Interference is real: the
    instances of the in-memory adapters exist over [Memory.World] (nothing else
    runs) and over [Memory.Shared] (an arbitrary permitted step of other tasks
    runs before each of the program's own).

    ** The parts

    Foundations.  [PyData], [PyText], [PyValue], [Json], [Progress], [Sha256]:
    the Python data, text and number operations the code uses, [json.dumps] and
    [json.loads] ([JsonFacts.loads_dumps_wf]), correctly rounded progress values,
    the hash functions.

    Domain.  [Domain] ([contexts/ocr/domain/models.py]): uploads, pages,
    artifacts, jobs, events.  [DomainFacts]: the transition graph, the invariant
    [wf] of every reachable job ([reachable_wf]), finality of success
    ([succeeded_final]).  [Status] ([shared/*.py], [application/exceptions.py]):
    status codes, the exception classes and their resolution order, the API
    envelope; [StatusGenerator] ([backend/scripts/generate_internal_status_codes.py]):
    the program that writes the enumerations, which agree with [Status].

    Contracts.  [Ports] ([application/ports.py]); [History]: what a repository
    promises about the committed revisions of a job ([JobStore], a refinement
    interface: [evolves] says how the store may change, [derived] which working
    copies may be committed).  The worker and the service are clients of it; the
    in-memory repositories ([Memory], [MemoryFacts]; [infrastructure/memory.py])
    and PostgreSQL ([Schema], [Persistence], [PersistenceFacts],
    [PersistenceRows]; [infrastructure/persistence.py] and [backend/alembic])
    implement it ([pg_refines_store]).

    Worker.  [Worker] ([application/worker.py], [OCRWorker.process] and all it
    calls); [WorkerSafety.process_safe]: under any interference it commits legal
    next revisions only; [WorkerTotal.process_completes]: alone it finishes every
    resumable job; [WorkerFacts]: retries, redeliveries, and what two workers on
    one attempt can do.

    Service.  [Dto], [FileValidation], [Services] ([application/dto.py],
    [services.py], [infrastructure/file_validation.py]); [ServiceSafety.service_safe]
    (the counterpart of [process_safe]); [ServiceFacts]: the outcome of every
    request, isolation of owners, idempotent creation, integrity of uploads.

    Messages.  [Messaging] ([infrastructure/messaging.py]): the outbox dispatcher
    and the Kafka message ([MessagingFacts.message_roundtrip]); [Outbox]: its
    background task under an advisory lock ([outbox_guarded]).  [EndToEnd]: from
    the request through the outbox, the message and the worker to the result
    ([end_to_end]).

    Engines and documents.  [Engine] ([infrastructure/engine.py]); [Preprocessor]
    and [SandboxCommand] ([infrastructure/preprocessor.py]: HTTP, exchange
    directory, subprocess), with [prepare_contained] and [command_contained]: what
    an untrusted sandbox can make the backend read; [Sandbox], [SandboxBox],
    [SandboxExchange], [SandboxHeartbeat]: the sandbox's own programs, and both
    ends of the mailbox together ([exchange_inspects], [heartbeat_fresh]).

    Storage.  [Storage], [StorageFacts] ([infrastructure/storage.py]): the S3 and
    storage-service adapters ([s3_refines_memory], [upload_plan],
    [service_absent]).

    Retention.  [Retention], [RetentionFacts] ([application/retention.py]): no row
    is deleted before its objects ([batch_safe]); [PgRetention]: the claims
    ([claims_exclusive], [cleanup_allowed]); [RetentionMain] ([retention_main.py]).

    Interfaces and processes.  [Http], [HttpFacts], [HttpStream] ([main.py],
    [interfaces/http]): every answer ([answers_valid], [controlled_answers]) and
    the event stream ([stream_exactly_once]); [ApiKeys] ([infrastructure/api_keys.py]
    and the command line tool): [key_lifecycle]; [LoggerClient]
    ([infrastructure/logger_client.py]): [log_noninterference]; [Readiness];
    [Config] ([config.py]): [load_spec]; [Container] ([container.py]):
    [production_wires]; [Consumer], [ConsumerFacts], [ConsumerDelivery]
    ([worker_main.py]): keep-alive polls and at-least-once delivery
    ([safe_polls], [commit_after_handling]).

    ** Fuel and bounds

    Integers of Python are unbounded ([Z]).  A loop that ends has a proof that
    its fuel is enough: the page loop gets [max_page_retries + 2] rounds, one more
    than it can use ([process_completes], [retry_budget]); the wait for the
    sandbox [timeout / poll_interval + 3] ([prepare_contained]); [base] is
    followed 8 steps, more than the depth of the class tree (checked over all
    classes in [Status]); [loads] and [format_map] get the length of their text.
    Loops that are meant to run for ever ([generate], [consume], [poll_loop],
    [serve], [heartbeat_loop], [run_outbox], [RetentionMain.run]) take any fuel,
    and their theorems hold for every amount of it: what a program that runs on
    has done so far.

    ** Limits

    A [str] is its UTF-8 encoding; [lower], [strip] and the parsing of numbers
    cover ASCII; JSON texts with [NaN], infinities or invalid UTF-8 are left out,
    and the message round trip is stated for what the service writes.  Times are
    integers (microseconds), floats the rationals they denote (progress values are
    exact doubles).  A statement or transaction of PostgreSQL is one step, with the
    locks that justify it named in [Persistence]; its text columns are ordered by
    bytes, and [jsonb] is a parameter with laws ([JsonbLaws]).  The token of an
    upload's retention claim is drawn before the transaction that may use it.

    Parameters of the model, with their documented behaviour as named hypotheses
    where a theorem needs it: FastAPI and Starlette (routing, parsing), Kafka,
    PostgreSQL, the S3 and HTTP clients, PyMuPDF, Pillow, libmagic, the file
    system, processes, the clock, random numbers, and the scheduling of
    [asyncio.gather] and [asyncio.wait_for].

    Not modelled: the gateway, the logging and storage services and the frontend
    (Go and TypeScript); [argparse] front ends and signal handlers; the document
    FastAPI generates for OpenAPI; reading the environment in [config.py]
    (pydantic-settings). *)

From Stdlib Require Export ZArith Lia.
From stdpp Require Export base tactics gmap strings pretty numbers list.


#[export] Set Warnings "-clear-no-such-hyp".

(** ** Outcomes and the state-and-exception monad

    A coroutine of the program is a function of the world [W] it runs in: it
    returns, raises, or (only for a [while True] loop translated with fuel)
    runs out of fuel.  Running out of fuel is not an exception of the program
    and no [except] clause catches it. *)

Inductive outcome (E A : Type) : Type :=
  | Ret (a : A)
  | Exn (e : E)
  | NoFuel.
Arguments Ret {E A} a.
Arguments Exn {E A} e.
Arguments NoFuel {E A}.

Definition M (E W A : Type) : Type := W → outcome E A * W.

Section monad.
Context {E W : Type}.

#[global] Instance M_ret : MRet (M E W) := λ A a w, (Ret a, w).
#[global] Instance M_bind : MBind (M E W) := λ A B k m w,
  match m w with
  | (Ret a, w') => k a w'
  | (Exn e, w') => (Exn e, w')
  | (NoFuel, w') => (NoFuel, w')
  end.

Definition raise {A} (e : E) : M E W A := λ w, (Exn e, w).
Definition out_of_fuel {A} : M E W A := λ w, (NoFuel, w).
Definition gets {A} (f : W → A) : M E W A := λ w, (Ret (f w), w).
Definition modify (f : W → W) : M E W () := λ w, (Ret (), f w).

(** A pure computation that may raise, used inside a coroutine. *)
Definition lift {A} (r : E + A) : M E W A :=
  match r with inl e => raise e | inr a => mret a end.

(** [try: m except ...: h else: k].  [h e = None] is the case in which no
    clause matches and the exception propagates.  The handler and the [else]
    part are outside the [try]. *)
Definition try_else {A B} (m : M E W A) (h : E → option (M E W B))
    (k : A → M E W B) : M E W B := λ w,
  match m w with
  | (Ret a, w') => k a w'
  | (Exn e, w') =>
      match h e with Some r => r w' | None => (Exn e, w') end
  | (NoFuel, w') => (NoFuel, w')
  end.

Definition try_except {A} (m : M E W A) (h : E → option (M E W A)) : M E W A :=
  try_else m h mret.

(** [try: m finally: f] *)
Definition try_finally {A} (m : M E W A) (f : M E W ()) : M E W A := λ w,
  match m w with
  | (Ret a, w') => (_ ← f; mret a) w'
  | (Exn e, w') => (_ ← f; raise e) w'
  | (NoFuel, w') => (NoFuel, w')
  end.

(** [for x in l: body x] *)
Fixpoint foreach {A} (l : list A) (body : A → M E W ()) : M E W () :=
  match l with
  | [] => mret ()
  | x :: l' => _ ← body x; foreach l' body
  end.

(** [for x in l: body x], a body that may [return]: [inl] is the returned value
    and [inr] the loop's state. *)
Fixpoint foreach_ret {A S B} (l : list A) (s : S) (body : A → S → M E W (B + S)) : M E W (B + S) :=
  match l with
  | [] => mret (inr s)
  | x :: l' =>
      r ← body x s;
      match r with inl b => mret (inl b) | inr s' => foreach_ret l' s' body end
  end.

(** [[f x for x in l]] with an awaiting [f] *)
Fixpoint collect {A B} (f : A → M E W B) (l : list A) : M E W (list B) :=
  match l with
  | [] => mret []
  | x :: l' => b ← f x; bs ← collect f l'; mret (b :: bs)
  end.
End monad.

(** Exceptions carried with further data: the values of the local variables of
    the function an exception leaves. *)
Definition map_exn {E E' W A} (f : E → E') (m : M E W A) : M E' W A := λ w,
  match m w with
  | (Ret a, w') => (Ret a, w')
  | (Exn e, w') => (Exn (f e), w')
  | (NoFuel, w') => (NoFuel, w')
  end.
Definition at_local {E W L A} (l : L) (m : M E W A) : M (E * L) W A := map_exn (λ e, (e, l)) m.

(** The outcome of a coroutine as a value: what leaves it as an exception is [inl]. *)
Definition attempt {E E' W A} (m : M E W A) : M E' W (E + A) := λ w,
  match m w with
  | (Ret a, w') => (Ret (inr a), w')
  | (Exn e, w') => (Ret (inl e), w')
  | (NoFuel, w') => (NoFuel, w')
  end.

(** ** Results: a value or the exception a call raised *)

#[export] Instance result_ret {E} : MRet (sum E) := λ A a, inr a.
#[export] Instance result_bind {E} : MBind (sum E) := λ A B k r,
  match r with inl e => inl e | inr a => k a end.

Lemma result_bind_inr {E A B} (r : E + A) (k : A → E + B) b :
  r ≫= k = inr b ↔ ∃ a, r = inr a ∧ k a = inr b.
Proof. destruct r; unfold mbind, result_bind; naive_solver. Qed.

(** ** Equality of coroutines, pointwise in the world *)

Definition mequiv {E W A} : relation (M E W A) := λ m1 m2, ∀ w, m1 w = m2 w.

#[export] Instance mequiv_equivalence {E W A} : Equivalence (@mequiv E W A).
Proof.
  split; [done | intros ?? H w; by rewrite H | intros ??? H1 H2 w; by rewrite H1, H2].
Qed.

#[export] Instance bind_mequiv_proper {E W A B} :
  Proper (pointwise_relation A mequiv ==> mequiv ==> mequiv)
    (@mbind (M E W) _ A B).
Proof.
  intros k1 k2 Hk m1 m2 Hm w. unfold mbind, M_bind. rewrite Hm.
  destruct (m2 w) as [[a|e|] w']; [apply Hk | done | done].
Qed.

Section monad_laws.
Context {E W : Type}.

Lemma bind_ret_l {A B} (a : A) (k : A → M E W B) : mequiv (mret a ≫= k) (k a).
Proof. done. Qed.

Lemma bind_ret_r {A} (m : M E W A) : mequiv (m ≫= mret) m.
Proof. intros w. unfold mbind, M_bind. by destruct (m w) as [[]]. Qed.

Lemma bind_assoc {A B C} (m : M E W A) (k : A → M E W B) (h : B → M E W C) :
  mequiv ((m ≫= k) ≫= h) (m ≫= (λ a, k a ≫= h)).
Proof. intros w. unfold mbind, M_bind. by destruct (m w) as [[]]. Qed.

Lemma bind_raise {A B} (e : E) (k : A → M E W B) : mequiv (raise e ≫= k) (raise e).
Proof. done. Qed.

Lemma bind_run {A B} (m : M E W A) (k : A → M E W B) w a w' :
  m w = (Ret a, w') → (m ≫= k) w = k a w'.
Proof. intros H. unfold mbind, M_bind. by rewrite H. Qed.

Lemma bind_run_exn {A B} (m : M E W A) (k : A → M E W B) w e w' :
  m w = (Exn e, w') → (m ≫= k) w = (Exn e, w').
Proof. intros H. unfold mbind, M_bind. by rewrite H. Qed.

Lemma bind_lift_run {A B} (a : A) (k : A → M E W B) w : (lift (inr a) ≫= k) w = k a w.
Proof. done. Qed.

Lemma try_else_run {A B} (m : M E W A) (h : E → option (M E W B))
    (k : A → M E W B) w a w' :
  m w = (Ret a, w') → try_else m h k w = k a w'.
Proof. intros H. unfold try_else. by rewrite H. Qed.

Lemma try_else_run_exn {A B} (m : M E W A) (h : E → option (M E W B))
    (k : A → M E W B) w e w' r :
  m w = (Exn e, w') → h e = Some r → try_else m h k w = r w'.
Proof. intros H Hh. unfold try_else. by rewrite H, Hh. Qed.
End monad_laws.

Lemma map_exn_run {E E' W A} (f : E → E') (m : M E W A) w a w' :
  m w = (Ret a, w') → map_exn f m w = (Ret a, w').
Proof. intros H. unfold map_exn. by rewrite H. Qed.

Lemma at_local_run {E W L A} (l : L) (m : M E W A) w a w' :
  m w = (Ret a, w') → at_local l m w = (Ret a, w').
Proof. apply map_exn_run. Qed.

(** ** A rely/guarantee logic

    [rg I R P m Q X]: started in a world satisfying the invariant [I] and [P],
    [m] keeps [I] and changes the world only along the guarantee [R]; if it
    returns [a] the world satisfies [Q a], and if it raises [e] it satisfies
    [X e]. *)

Section rely_guarantee.
Context {E W : Type} (I : W → Prop) (R : relation W) `{!PreOrder R}.

Definition rg {A} (P : W → Prop) (m : M E W A)
    (Q : A → W → Prop) (X : E → W → Prop) : Prop :=
  ∀ w, I w → P w →
    I (m w).2 ∧ R w (m w).2 ∧
    match (m w).1 with
    | Ret a => Q a (m w).2
    | Exn e => X e (m w).2
    | NoFuel => True
    end.

Lemma rg_ret {A} (P : W → Prop) (a : A) (Q : A → W → Prop) X :
  (∀ w, P w → Q a w) → rg P (mret a) Q X.
Proof. intros H w Hi Hw. split_and!; [done | reflexivity | by apply H]. Qed.

Lemma rg_raise {A} (P : W → Prop) (e : E) (Q : A → W → Prop) (X : E → W → Prop) :
  (∀ w, P w → X e w) → rg P (raise e) Q X.
Proof. intros H w Hi Hw. split_and!; [done | reflexivity | by apply H]. Qed.

Lemma rg_out_of_fuel {A} (P : W → Prop) (Q : A → W → Prop) X :
  rg P out_of_fuel Q X.
Proof. intros w Hi _. by split_and!. Qed.

Lemma rg_lift {A} (P : W → Prop) (r : E + A) Q X :
  match r with
  | inl e => ∀ w, P w → X e w
  | inr a => ∀ w, P w → Q a w
  end → rg P (lift r) Q X.
Proof. destruct r; [apply rg_raise | apply rg_ret]. Qed.

Lemma rg_bind {A B} P (m : M E W A) (k : A → M E W B) Q Q' X :
  rg P m Q X → (∀ a, rg (Q a) (k a) Q' X) → rg P (m ≫= k) Q' X.
Proof.
  intros Hm Hk w Hi Hw. specialize (Hm w Hi Hw).
  unfold mbind, M_bind. destruct (m w) as [[a|e|] w']; simpl in *; [|done|done].
  destruct Hm as (Hi' & HR & HQ). destruct (Hk a w' Hi' HQ) as (? & HR' & Hpost).
  split_and!; [done | by etrans | done].
Qed.

Lemma rg_conseq {A} (P P' : W → Prop) (m : M E W A) (Q Q' : A → W → Prop)
    (X X' : E → W → Prop) :
  rg P m Q X → (∀ w, P' w → P w) →
  (∀ a w, Q a w → Q' a w) → (∀ e w, X e w → X' e w) → rg P' m Q' X'.
Proof.
  intros Hm HP HQ HX w Hi Hw. destruct (Hm w Hi (HP w Hw)) as (? & HR & Hpost).
  split_and!; [done..|]. destruct ((m w).1); eauto.
Qed.

Lemma rg_pre {A} (P P' : W → Prop) (m : M E W A) Q X :
  rg P m Q X → (∀ w, P' w → P w) → rg P' m Q X.
Proof. intros; eapply rg_conseq; eauto. Qed.

Lemma rg_bind_lift {A B} P (r : E + A) (k : A → M E W B) Q X :
  match r with
  | inl e => ∀ w, P w → X e w
  | inr a => rg P (k a) Q X
  end → rg P (lift r ≫= k) Q X.
Proof. destruct r as [e|a]; intros H; [|exact H]. intros w Hi Hw. split_and!; [done | reflexivity | by apply H]. Qed.

(** A pure fact of the precondition. *)
Lemma rg_fact {A} (G : Prop) P (m : M E W A) Q X :
  (G → rg P m Q X) → rg (λ w, G ∧ P w) m Q X.
Proof. intros H w Hi [HG HP]. by apply H. Qed.

(** A part that depends on the present world. *)
Lemma rg_bind_gets {A B} (P : W → Prop) (f : W → A) (k : A → M E W B) Q X :
  (∀ w, I w → P w → rg (λ w', w' = w) (k (f w)) Q X) → rg P (gets f ≫= k) Q X.
Proof. intros H w Hi Hw. by apply (H w Hi Hw w Hi). Qed.

Lemma rg_modify (P : W → Prop) (f : W → W) Q (X : E → W → Prop) :
  (∀ w, I w → P w → I (f w) ∧ R w (f w) ∧ Q () (f w)) → rg P (modify f) Q X.
Proof. intros H w Hi Hw. by apply H. Qed.

Lemma rg_try_else {A B} P (m : M E W A) (h : E → option (M E W B)) (k : A → M E W B)
    Q Q' (X X' : E → W → Prop) :
  rg P m Q X → (∀ a, rg (Q a) (k a) Q' X') →
  (∀ e, match h e with
        | Some r => rg (X e) r Q' X'
        | None => ∀ w, X e w → X' e w
        end) →
  rg P (try_else m h k) Q' X'.
Proof.
  intros Hm Hk Hh w Hi Hw. specialize (Hm w Hi Hw). unfold try_else.
  destruct (m w) as [[a|e|] w']; simpl in *; destruct Hm as (Hi' & HR & Hpost); [| |done].
  - destruct (Hk a w' Hi' Hpost) as (? & HR' & ?). split_and!; [done | by etrans | done].
  - specialize (Hh e). destruct (h e) as [r|]; simpl; [|by eauto].
    destruct (Hh w' Hi' Hpost) as (? & HR' & ?). split_and!; [done | by etrans | done].
Qed.

Lemma rg_try_except {A} P (m : M E W A) (h : E → option (M E W A))
    Q (X X' : E → W → Prop) :
  rg P m Q X →
  (∀ e, match h e with
        | Some r => rg (X e) r Q X'
        | None => ∀ w, X e w → X' e w
        end) →
  rg P (try_except m h) Q X'.
Proof. intros Hm Hh. eapply rg_try_else; [done | | done]. intros a. by apply rg_ret. Qed.

(** A loop invariant [J] carried through [foreach] and [collect]. *)
Lemma rg_foreach {A} (l : list A) (body : A → M E W ()) (J : W → Prop) X :
  (∀ x, x ∈ l → rg J (body x) (λ _, J) X) →
  rg J (foreach l body) (λ _, J) X.
Proof.
  induction l as [|x l IH]; intros H; simpl; [by apply rg_ret|].
  eapply rg_bind; [apply H; left|]. intros ?. apply IH. intros y Hy. apply H. by right.
Qed.

Lemma rg_collect {A B} (l : list A) (f : A → M E W B) (J : W → Prop) X :
  (∀ x, x ∈ l → rg J (f x) (λ _, J) X) →
  rg J (collect f l) (λ _, J) X.
Proof.
  induction l as [|x l IH]; intros H; simpl; [by apply rg_ret|].
  eapply rg_bind; [apply H; left|]. intros b.
  eapply rg_bind; [apply IH; intros y Hy; apply H; by right|].
  intros bs. by apply rg_ret.
Qed.

(** Collected results, each with what is known of it. *)
Lemma rg_collect_all {A B} (l : list A) (f : A → M E W B) (J : W → Prop) (G : A → B → Prop) X :
  (∀ x, x ∈ l → rg J (f x) (λ b w, J w ∧ G x b) X) →
  rg J (collect f l) (λ bs w, J w ∧ Forall2 G l bs) X.
Proof.
  intros H. induction l as [|x l IH]; simpl.
  { eapply rg_conseq; [by apply (rg_ret J [] (λ bs w, J w ∧ bs = [])) | done | | done].
    intros ? w [? ->]. by split. }
  eapply rg_bind; [apply H; left|]. intros b. apply (rg_pre (λ w, G x b ∧ J w)); [|tauto].
  apply rg_fact. intros Hb.
  eapply rg_bind; [apply IH; intros y Hy; apply H; by right|]. intros bs. apply rg_ret. intros w [? ?]. split; [done|by constructor].
Qed.

Lemma rg_foreach_ret {A S B} (l : list A) (s : S) (body : A → S → M E W (B + S))
    (J : S → W → Prop) (Q : B → W → Prop) X :
  (∀ x s, x ∈ l → rg (J s) (body x s) (λ r w, match r with inl b => Q b w | inr s' => J s' w end) X) →
  rg (J s) (foreach_ret l s body) (λ r w, match r with inl b => Q b w | inr s' => J s' w end) X.
Proof.
  revert s. induction l as [|x l IH]; intros s H; simpl; [by apply rg_ret|].
  eapply rg_bind; [apply H; left|]. intros [b|s']; [by apply rg_ret|].
  apply IH. intros y s0 Hy. apply H. by right.
Qed.

Lemma rg_try_finally {A} P (m : M E W A) (f : M E W ()) Q Q' (X X' : E → W → Prop) :
  rg P m Q X → (∀ a, rg (Q a) f (λ _, Q' a) X') → (∀ e, rg (X e) f (λ _, X' e) X') →
  rg P (try_finally m f) Q' X'.
Proof.
  intros Hm Ha He w Hi Hw. specialize (Hm w Hi Hw). unfold try_finally.
  destruct (m w) as [[a|e|] w']; simpl in *; destruct Hm as (Hi' & HR & Hpost); [| |done].
  - destruct (rg_bind (Q a) f (λ _, mret a) (λ _, Q' a) Q' X' (Ha a)
      (λ _, rg_ret _ _ _ _ (λ _ H, H)) w' Hi' Hpost) as (? & ? & ?).
    split_and!; [done | by etrans | done].
  - destruct (rg_bind (X e) f (λ _, raise e) (λ _, X' e) Q' X' (He e)
      (λ _, rg_raise _ _ _ _ (λ _ H, H)) w' Hi' Hpost) as (? & ? & ?).
    split_and!; [done | by etrans | done].
Qed.

(** A loop invariant about what is left of the list. *)
Lemma rg_foreach_rest {A} (l : list A) (body : A → M E W ()) (J : list A → W → Prop) X :
  (∀ x l', x ∈ l → rg (J (x :: l')) (body x) (λ _, J l') X) →
  rg (J l) (foreach l body) (λ _, J []) X.
Proof.
  induction l as [|x l IH]; intros H; simpl; [by apply rg_ret|].
  eapply rg_bind; [apply H; left|]. intros ?. apply IH. intros y l' Hy. apply H. by right.
Qed.
End rely_guarantee.
Arguments rg {E W} I R {A} P m Q X.

Lemma rg_map_exn {E E' W A} (I : W → Prop) (R : relation W) (f : E → E') P (m : M E W A) Q X :
  rg I R P m Q (λ e, X (f e)) → rg I R P (map_exn f m) Q X.
Proof.
  intros H w Hi Hw. specialize (H w Hi Hw). unfold map_exn.
  by destruct (m w) as [[a|e|] w'].
Qed.

Lemma rg_attempt {E E' W A} (I : W → Prop) (R : relation W) P (m : M E W A) Q X (X' : E' → W → Prop) :
  rg I R P m Q X →
  rg I R P (attempt m) (λ r w, match r with inl e => X e w | inr a => Q a w end) X'.
Proof.
  intros H w Hi Hw. specialize (H w Hi Hw). unfold attempt.
  by destruct (m w) as [[a|e|] w'].
Qed.

Lemma rg_at_local {E W L A} (I : W → Prop) (R : relation W) (l : L) P (m : M E W A) Q X :
  rg I R P m Q (λ e, X (e, l)) → rg I R P (at_local l m) Q X.
Proof. apply rg_map_exn. Qed.

(** Apply a rule, finding the [PreOrder] instance of the guarantee. *)
Tactic Notation "rule" uconstr(r) := eapply r; [typeclasses eauto|..].
Tactic Notation "rule_bind" := rule rg_bind.
(** ... with the assertion between the two parts given. *)
Tactic Notation "rule_bind" "mid" uconstr(m) :=
  eapply rg_bind with (Q := m); [typeclasses eauto|..].

(** ** A total-correctness logic for a coroutine that runs alone

    [total P m Q X]: from [P], [m] does not run out of fuel; it returns into [Q]
    or raises into [X].  [never] is the [X] of a coroutine that does not raise. *)

Section total.
Context {E W : Type}.

Definition total {A} (P : W → Prop) (m : M E W A) (Q : A → W → Prop) (X : E → W → Prop) : Prop :=
  ∀ w, P w →
    match m w with
    | (Ret a, w') => Q a w'
    | (Exn e, w') => X e w'
    | (NoFuel, _) => False
    end.

Definition never : E → W → Prop := λ _ _, False.

Lemma total_ret {A} (P : W → Prop) (a : A) (Q : A → W → Prop) X :
  (∀ w, P w → Q a w) → total P (mret a) Q X.
Proof. intros H w. apply H. Qed.

Lemma total_raise {A} (P : W → Prop) (e : E) (Q : A → W → Prop) (X : E → W → Prop) :
  (∀ w, P w → X e w) → total P (raise e) Q X.
Proof. intros H w. apply H. Qed.

Lemma total_bind {A B} P (m : M E W A) (k : A → M E W B) Q Q' X :
  total P m Q X → (∀ a, total (Q a) (k a) Q' X) → total P (m ≫= k) Q' X.
Proof.
  intros Hm Hk w Hw. specialize (Hm w Hw). unfold mbind, M_bind.
  destruct (m w) as [[a|e|] w']; [by apply Hk | done | done].
Qed.

(** A first part whose value is known, or known up to a pure property. *)
Lemma total_bind_eq {A B} P P' (m : M E W A) a (k : A → M E W B) Q X :
  total P m (λ r w, r = a ∧ P' w) X → total P' (k a) Q X → total P (m ≫= k) Q X.
Proof. intros Hm Hk. eapply total_bind; [exact Hm|]. intros r w [-> Hw]. by apply Hk. Qed.

Lemma total_bind_pure {A B} P P' (G : A → Prop) (m : M E W A) (k : A → M E W B) Q X :
  total P m (λ r w, P' w ∧ G r) X → (∀ r, G r → total P' (k r) Q X) → total P (m ≫= k) Q X.
Proof. intros Hm Hk. eapply total_bind; [exact Hm|]. intros r w [Hw HG]. by apply Hk. Qed.

Lemma total_conseq {A} (P P' : W → Prop) (m : M E W A) (Q Q' : A → W → Prop)
    (X X' : E → W → Prop) :
  total P m Q X → (∀ w, P' w → P w) →
  (∀ a w, Q a w → Q' a w) → (∀ e w, X e w → X' e w) → total P' m Q' X'.
Proof.
  intros Hm HP HQ HX w Hw. specialize (Hm w (HP w Hw)).
  destruct (m w) as [[a|e|] w']; eauto.
Qed.

Lemma total_pre {A} (P P' : W → Prop) (m : M E W A) Q X :
  total P m Q X → (∀ w, P' w → P w) → total P' m Q X.
Proof. intros; eapply total_conseq; eauto. Qed.

(** A pure consequence of the precondition. *)
Lemma total_fact {A} (F : Prop) P (m : M E W A) Q X :
  (∀ w, P w → F) → (F → total P m Q X) → total P m Q X.
Proof. intros HF Hm w Hw. by apply (Hm (HF w Hw)). Qed.

(** A witness of the precondition. *)
Lemma total_ex {A B} (P : B → W → Prop) (m : M E W A) Q X :
  (∀ x, total (P x) m Q X) → total (λ w, ∃ x, P x w) m Q X.
Proof. intros Hm w [x Hw]. by apply (Hm x). Qed.

(** A coroutine that does not raise, where exceptions have any postcondition. *)
Lemma total_never {A} P (m : M E W A) Q X : total P m Q never → total P m Q X.
Proof. intros; eapply total_conseq; [done..|]. by intros ???. Qed.

Lemma total_lift {A} (P : W → Prop) (r : E + A) Q X :
  match r with
  | inl e => ∀ w, P w → X e w
  | inr a => ∀ w, P w → Q a w
  end → total P (lift r) Q X.
Proof. destruct r; [apply total_raise | apply total_ret]. Qed.

Lemma total_try_except {A} P (m : M E W A) (h : E → option (M E W A)) Q (X X' : E → W → Prop) :
  total P m Q X →
  (∀ e, match h e with
        | Some r => total (X e) r Q X'
        | None => ∀ w, X e w → X' e w
        end) →
  total P (try_except m h) Q X'.
Proof.
  intros Hm Hh w Hw. specialize (Hm w Hw). unfold try_except, try_else.
  destruct (m w) as [[a|e|] w']; [done | | done].
  specialize (Hh e). destruct (h e); [by apply Hh | by apply Hh].
Qed.

Lemma total_try_finally {A} P (m : M E W A) (f : M E W ()) Q Q' (X X' : E → W → Prop) :
  total P m Q X →
  (∀ a, total (Q a) f (λ _, Q' a) X') → (∀ e, total (X e) f (λ _, X' e) X') →
  total P (try_finally m f) Q' X'.
Proof.
  intros Hm Ha He w Hw. specialize (Hm w Hw). unfold try_finally.
  destruct (m w) as [[a|e|] w']; [| |done].
  - apply (total_bind (Q a) f (λ _, mret a) (λ _, Q' a)); [apply Ha | | done].
    intros ?. by apply total_ret.
  - apply (total_bind (X e) f (λ _, raise e) (λ _, X' e)); [apply He | | done].
    intros ?. by apply total_raise.
Qed.

Lemma total_foreach_ret {A S B} (l : list A) (s : S) (body : A → S → M E W (B + S))
    (J : list A → S → W → Prop) (Q : B → W → Prop) X :
  (∀ x l s, total (J (x :: l) s) (body x s)
     (λ r w, match r with inl b => Q b w | inr s' => J l s' w end) X) →
  total (J l s) (foreach_ret l s body)
    (λ r w, match r with inl b => Q b w | inr s' => J [] s' w end) X.
Proof.
  intros H. revert s. induction l as [|x l IH]; intros s; simpl; [by apply total_ret|].
  eapply total_bind; [apply H|]. intros [b|s']; [by apply total_ret | apply IH].
Qed.

Lemma total_collect {A B} (l : list A) (f : A → M E W B) (J : W → Prop) (G : A → B → Prop) X :
  (∀ x, x ∈ l → total J (f x) (λ b w, J w ∧ G x b) X) →
  total J (collect f l) (λ bs w, J w ∧ Forall2 G l bs) X.
Proof.
  induction l as [|x l IH]; intros H; simpl.
  { apply total_ret. intros w Hw. split; [done | constructor]. }
  eapply total_bind; [apply H; left|]. intros b.
  eapply total_bind.
  - instantiate (1 := λ bs w, (J w ∧ Forall2 G l bs) ∧ G x b). intros w [Hw Hb].
    assert (total J (collect f l) (λ bs w, J w ∧ Forall2 G l bs) X) as IH'
      by (apply IH; intros y Hy; apply H; by right).
    specialize (IH' w Hw). destruct (collect f l w) as [[bs|e|] w']; [by split | done | done].
  - intros bs. apply total_ret. intros w [[Hw Hbs] Hb]. split; [done | by constructor].
Qed.

(** ... with an assertion about the results so far. *)
Lemma total_collect_acc {A B} (l : list A) (f : A → M E W B) (J : list B → W → Prop) X acc :
  (∀ x bs, x ∈ l → total (J bs) (f x) (λ b, J (bs ++ [b])) X) →
  total (J acc) (collect f l) (λ bs, J (acc ++ bs)) X.
Proof.
  revert acc. induction l as [|x l IH]; intros acc H; simpl.
  { apply total_ret. intros w. by rewrite app_nil_r. }
  eapply total_bind; [apply H; left|]. intros b.
  eapply total_bind; [apply IH; intros y bs Hy; apply H; by right|]. intros bs.
  apply total_ret. intros w. by rewrite <- app_assoc.
Qed.
End total.

Lemma total_map_exn {E E' W A} (f : E → E') P (m : M E W A) Q (X : E' → W → Prop) :
  total P m Q (λ e, X (f e)) → total P (map_exn f m) Q X.
Proof.
  intros H w Hw. specialize (H w Hw). unfold map_exn. by destruct (m w) as [[a|e|] w'].
Qed.

Lemma total_at_local {E W L A} (l : L) P (m : M E W A) Q (X : E * L → W → Prop) :
  total P m Q (λ e, X (e, l)) → total P (at_local l m) Q X.
Proof. apply total_map_exn. Qed.

Lemma total_attempt {E E' W A} P (m : M E W A) Q X (X' : E' → W → Prop) :
  total P m Q X →
  total P (attempt m) (λ r w, match r with inl e => X e w | inr a => Q a w end) X'.
Proof.
  intros H w Hw. specialize (H w Hw). unfold attempt. by destruct (m w) as [[a|e|] w'].
Qed.

(** ** Generic tactics *)

(** Case analysis on the first [match] or [if] of the goal or a hypothesis. *)
Ltac case_any :=
  match goal with
  | |- context [match ?x with _ => _ end] => destruct x eqn:?
  | H : context [match ?x with _ => _ end] |- _ => destruct x eqn:?
  end.

(** Solve a goal about the fields of updated records: reduce the projections. *)
Ltac fields := simpl in *; simplify_eq/=; auto.
