(* ===== verification/PyData.v ===== *)
(** * Python containers: ordered dictionaries and stable sorting

    - a [dict] is an association list in insertion order ([dget], [dset],
      [dpop], [dupdate]): assigning to an existing key keeps the key's position,
      as Python does;
    - [py_sorted key rev l]: [sorted(l, key=key, reverse=rev)] for an integer
      key, stable in both directions. *)

From Stdlib Require Import Ascii Sorted.
From S2P Require Import Prelude.

(** ** Ordered dictionaries *)

Section odict.
Context {K V : Type} `{!EqDecision K}.

Fixpoint dget (d : list (K * V)) (k : K) : option V :=
  match d with
  | [] => None
  | (k', v) :: d' => if decide (k' = k) then Some v else dget d' k
  end.

(** [d[k] = v] *)
Fixpoint dset (d : list (K * V)) (k : K) (v : V) : list (K * V) :=
  match d with
  | [] => [(k, v)]
  | (k', v') :: d' =>
      if decide (k' = k) then (k', v) :: d' else (k', v') :: dset d' k v
  end.

(** [d.pop(k, None)] *)
Fixpoint dpop (d : list (K * V)) (k : K) : list (K * V) :=
  match d with
  | [] => []
  | (k', v') :: d' => if decide (k' = k) then d' else (k', v') :: dpop d' k
  end.

(** [{**d, **d'}] *)
Definition dupdate (d d' : list (K * V)) : list (K * V) :=
  foldl (λ d kv, dset d kv.1 kv.2) d d'.

Definition dvalues (d : list (K * V)) : list V := d.*2.

Lemma dget_dset_eq d k v : dget (dset d k v) k = Some v.
Proof.
  induction d as [|[k' v'] d IH]; simpl; [by rewrite decide_True|].
  case_decide; simpl; [by rewrite decide_True | by rewrite decide_False].
Qed.

Lemma dget_dset_ne d k k' v : k ≠ k' → dget (dset d k v) k' = dget d k'.
Proof.
  intros Hne. induction d as [|[k1 v1] d IH]; simpl; [by rewrite decide_False|].
  destruct (decide (k1 = k)) as [->|]; simpl; [by rewrite !decide_False|].
  by case_decide.
Qed.

Lemma dget_dset d k k' v :
  dget (dset d k v) k' = if decide (k = k') then Some v else dget d k'.
Proof. case_decide; subst; [apply dget_dset_eq | by apply dget_dset_ne]. Qed.

Lemma dset_dset d k v v' : dset (dset d k v) k v' = dset d k v'.
Proof.
  induction d as [|[k' v1] d IH]; simpl; [by rewrite decide_True|].
  destruct (decide (k' = k)) eqn:E; simpl; rewrite E; [done|]. by rewrite IH.
Qed.

Lemma dset_id d k v : dget d k = Some v → dset d k v = d.
Proof.
  induction d as [|[k' v'] d IH]; simpl; [done|].
  case_decide; intros; simplify_eq; [done|]. f_equal. auto.
Qed.

Lemma dset_fresh d k v : dget d k = None → dset d k v = d ++ [(k, v)].
Proof.
  induction d as [|[k' v'] d IH]; simpl; [done|].
  case_decide; [done|]. intros ?. by rewrite IH.
Qed.

Lemma dget_Some_elem d k v : dget d k = Some v → (k, v) ∈ d.
Proof.
  induction d as [|[k' v'] d IH]; simpl; [done|].
  case_decide; intros; simplify_eq; [left | right; auto].
Qed.

Lemma dget_None d k : dget d k = None ↔ k ∉ d.*1.
Proof.
  induction d as [|[k' v'] d IH]; simpl; [set_solver|].
  rewrite not_elem_of_cons, <- IH. case_decide; subst.
  - split; [done | by intros [? _]].
  - split; [by intros ? | by intros [_ ?]].
Qed.

Lemma dget_elem d k v : NoDup d.*1 → (k, v) ∈ d → dget d k = Some v.
Proof.
  induction d as [|[k' v'] d IH]; simpl; [set_solver|].
  intros [Hn Hd]%NoDup_cons [?|?]%elem_of_cons; simplify_eq.
  - by rewrite decide_True.
  - rewrite decide_False; [auto|]. intros ->. apply Hn. apply list_elem_of_fmap.
    by exists (k, v).
Qed.

Lemma dset_keys d k v :
  (dset d k v).*1 = if decide (k ∈ d.*1) then d.*1 else d.*1 ++ [k].
Proof.
  induction d as [|[k' v'] d IH]; csimpl.
  - done.
  - destruct (decide (k' = k)) as [->|Hne]; csimpl.
    + rewrite decide_True; [done | set_solver].
    + rewrite IH. repeat case_decide; set_solver.
Qed.

Lemma dset_NoDup d k v : NoDup d.*1 → NoDup (dset d k v).*1.
Proof.
  intros H. rewrite dset_keys. case_decide; [done|].
  apply NoDup_app; split_and!; [done | set_solver | apply NoDup_singleton].
Qed.

Lemma dpop_keys d k : NoDup d.*1 → NoDup (dpop d k).*1.
Proof.
  induction d as [|[k' v'] d IH]; csimpl; [done|].
  intros [Hn Hd]%NoDup_cons. case_decide; [done|]. csimpl. apply NoDup_cons.
  split; [|auto]. contradict Hn. clear -Hn. induction d as [|[k1 v1] d IH]; csimpl in *;
    [done|]. case_decide; set_solver.
Qed.

Lemma dget_dpop_ne d k k' : k ≠ k' → dget (dpop d k) k' = dget d k'.
Proof.
  intros Hne. induction d as [|[k1 v1] d IH]; simpl; [done|].
  repeat (case_decide; simpl); subst; naive_solver.
Qed.

Lemma dget_dpop d k k' : NoDup d.*1 →
  dget (dpop d k) k' = if decide (k = k') then None else dget d k'.
Proof.
  intros Hd. case_decide as Hk; [subst k'|by apply dget_dpop_ne].
  induction d as [|[k1 v1] d IH]; [done|]. simpl in *. apply NoDup_cons in Hd as [Hn Hd].
  case_decide; subst; simpl; [by apply dget_None | rewrite decide_False by done; by apply IH].
Qed.
End odict.

(** ** Stable sorting: [sorted(l, key=key, reverse=rev)] *)

Section sorting.
Context {A : Type} (key : A → Z).

Definition before (rev : bool) (x y : A) : bool :=
  if rev then Z.leb (key y) (key x) else Z.leb (key x) (key y).

Fixpoint sort_insert (rev : bool) (x : A) (l : list A) : list A :=
  match l with
  | [] => [x]
  | y :: l' => if before rev x y then x :: l else y :: sort_insert rev x l'
  end.

Definition py_sorted (rev : bool) (l : list A) : list A :=
  foldr (sort_insert rev) [] l.

Lemma sort_insert_perm rev x l : sort_insert rev x l ≡ₚ x :: l.
Proof.
  induction l as [|y l IH]; simpl; [done|].
  case_match; [done|]. rewrite IH. apply Permutation_swap.
Qed.

Lemma py_sorted_perm rev l : py_sorted rev l ≡ₚ l.
Proof.
  induction l as [|x l IH]; simpl; [done|]. by rewrite sort_insert_perm, IH.
Qed.

Lemma before_total rev x y : before rev x y = false → before rev y x = true.
Proof. destruct rev; simpl; rewrite Z.leb_gt, Z.leb_le; lia. Qed.

Lemma sort_insert_sorted rev x l :
  Sorted (λ a b, before rev a b = true) l →
  Sorted (λ a b, before rev a b = true) (sort_insert rev x l).
Proof.
  induction 1 as [|y l Hl IH Hhd]; simpl; [by repeat constructor|].
  destruct (before rev x y) eqn:E; [by repeat constructor|].
  constructor; [done|]. apply before_total in E.
  destruct Hhd as [|z l ?]; simpl; [by constructor|]. by case_match; constructor.
Qed.

Lemma py_sorted_sorted rev l : Sorted (λ a b, before rev a b = true) (py_sorted rev l).
Proof. induction l; simpl; [constructor | by apply sort_insert_sorted]. Qed.

Lemma py_sorted_id rev l : Sorted (λ a b, before rev a b = true) l → py_sorted rev l = l.
Proof.
  induction 1 as [|x l Hl IH Hhd]; simpl; [done|]. rewrite IH.
  destruct Hhd as [|y l Hxy]; simpl; [done|]. by rewrite Hxy.
Qed.
End sorting.

(** ** Slices *)

(** A slice bound: a negative one counts from the end, and both are clipped. *)
Definition slice_bound (n i : Z) : nat :=
  Z.to_nat (Z.min n (if decide (i < 0)%Z then Z.max 0 (n + i) else i)).

(** [l[i:j]] *)
Definition py_slice {A} (i j : Z) (l : list A) : list A :=
  let n := Z.of_nat (length l) in
  take (slice_bound n j - slice_bound n i) (drop (slice_bound n i) l).

Lemma py_slice_nonneg {A} i j (l : list A) :
  (0 ≤ i)%Z → (i ≤ j)%Z → py_slice i j l = take (Z.to_nat (j - i)) (drop (Z.to_nat i) l).
Proof.
  intros Hi Hj. unfold py_slice, slice_bound. rewrite !decide_False by lia.
  destruct (Z.le_gt_cases (Z.of_nat (length l)) i).
  - rewrite !drop_ge by lia. by rewrite !take_nil.
  - rewrite (Z.min_r _ i) by lia. destruct (Z.le_gt_cases (Z.of_nat (length l)) j).
    + rewrite !take_ge; rewrite ?length_drop; lia || done.
    + rewrite Z.min_r by lia. f_equal. lia.
Qed.

(** [[f(x) for x in l]] *)
Fixpoint traverse {E A B} (f : A → E + B) (l : list A) : E + list B :=
  match l with
  | [] => inr []
  | x :: l => b ← f x; bs ← traverse f l; inr (b :: bs)
  end.

Lemma traverse_error {E A B} (f : A → E + B) l e :
  traverse f l = inl e → ∃ x, x ∈ l ∧ f x = inl e.
Proof.
  induction l as [|x l IH]; simpl; [done|]. unfold mbind, result_bind.
  destruct (f x) as [e'|b] eqn:Hx; [intros [= ->]; exists x; split; [left | done]|].
  destruct (traverse f l) as [e'|bs]; [|done]. intros [= ->].
  destruct IH as (y & ? & ?); [done|]. exists y. split; [by right | done].
Qed.

(** A stable sort by a comparison ([sorted] of tuples, [ORDER BY] several columns) *)
Fixpoint order_insert {A} (before : A → A → bool) (x : A) (l : list A) : list A :=
  match l with
  | [] => [x]
  | y :: l' => if before x y then x :: l else y :: order_insert before x l'
  end.
Definition order_by {A} (before : A → A → bool) (l : list A) : list A :=
  foldr (order_insert before) [] l.
