(* ===== verification/PyText.v ===== *)
(** * Python text: [str] and [bytes] operations, number and UUID formatting

    [bytes] is a [string] of bytes and [str] is its UTF-8 encoding, so
    [s.encode("utf-8")] is the identity; lengths and slices count code points.
    [lower] and [strip] act on the ASCII characters of the text. *)

From Stdlib Require Import Ascii.
From Stdlib Require String.
From S2P Require Import Prelude.

Abbreviation chars := String.list_ascii_of_string.
Abbreviation of_chars := String.string_of_list_ascii.

Lemma chars_app s t : chars (s +:+ t) = chars s ++ chars t.
Proof. induction s as [|c s IH]; simpl; [done|]. by f_equal. Qed.

Lemma of_chars_chars s : of_chars (chars s) = s.
Proof. induction s; simpl; congruence. Qed.

Lemma chars_of_chars l : chars (of_chars l) = l.
Proof. induction l; simpl; congruence. Qed.

Lemma chars_inj s t : chars s = chars t → s = t.
Proof. intros H. by rewrite <- (of_chars_chars s), H, of_chars_chars. Qed.

Lemma chars_length s : length (chars s) = String.length s.
Proof. induction s; simpl; congruence. Qed.

Lemma of_chars_app l k : of_chars (l ++ k) = of_chars l +:+ of_chars k.
Proof. apply chars_inj. by rewrite chars_app, !chars_of_chars. Qed.

Definition code (c : ascii) : N := N_of_ascii c.

Lemma code_bound c : (code c < 256)%N.
Proof. apply N_ascii_bounded. Qed.

Lemma ascii_code c : ascii_of_N (code c) = c.
Proof. apply ascii_N_embedding. Qed.

(** A UTF-8 continuation byte: it starts no code point. *)
Definition is_cont (c : ascii) : bool := ((128 <=? code c) && (code c <? 192))%N.

Fixpoint count_points (l : list ascii) : nat :=
  match l with
  | [] => 0
  | c :: l' => if is_cont c then count_points l' else S (count_points l')
  end.

(** [len(s)] of a [str], and [len(b)] of [bytes] *)
Definition py_len (s : string) : Z := Z.of_nat (count_points (chars s)).
Definition bytes_len (b : string) : Z := Z.of_nat (String.length b).

Fixpoint take_points (n : nat) (l : list ascii) : list ascii :=
  match l with
  | [] => []
  | c :: l' =>
      if is_cont c then c :: take_points n l'
      else match n with 0 => [] | S n' => c :: take_points n' l' end
  end.

(** [s[:n]] of a [str] *)
Definition take_str (n : nat) (s : string) : string := of_chars (take_points n (chars s)).

(** [b[i:j]] of [bytes] for [0 <= i <= j] *)
Definition slice (i j : nat) (b : string) : string := of_chars (take (j - i) (drop i (chars b))).

(** [s.startswith(p)], [s.endswith(p)] *)
Definition startswith (p s : string) : bool := bool_decide (take (length (chars p)) (chars s) = chars p).
Definition endswith (p s : string) : bool :=
  bool_decide (drop (String.length s - String.length p) (chars s) = chars p).

(** [p in s] *)
Fixpoint contains_chars (p s : list ascii) : bool :=
  bool_decide (take (length p) s = p) ||
  match s with [] => false | _ :: s' => contains_chars p s' end.
Definition contains (p s : string) : bool := contains_chars (chars p) (chars s).

(** [s.removesuffix(p)] *)
Definition removesuffix (p s : string) : string :=
  if endswith p s then slice 0 (String.length s - String.length p) s else s.

Definition is_upper (c : ascii) : bool := ((65 <=? code c) && (code c <=? 90))%N.

Definition lower_char (c : ascii) : ascii :=
  if is_upper c then ascii_of_N (code c + 32) else c.

(** [s.lower()] *)
Definition lower (s : string) : string := of_chars (lower_char <$> chars s).

(** The ASCII characters for which [str.isspace] holds. *)
Definition is_space (c : ascii) : bool :=
  let n := code c in ((9 <=? n) && (n <=? 13) || (28 <=? n) && (n <=? 32))%N.

Fixpoint lstrip_chars (l : list ascii) : list ascii :=
  match l with
  | c :: l' => if is_space c then lstrip_chars l' else l
  | [] => []
  end.

(** [s.strip()] *)
Definition strip (s : string) : string :=
  of_chars (reverse (lstrip_chars (reverse (lstrip_chars (chars s))))).

(** [s.lstrip("/")] and [s.rstrip("/")] *)
Fixpoint lstrip_slash (l : list ascii) : list ascii :=
  match l with
  | c :: l' => if decide (c = "/"%char) then lstrip_slash l' else l
  | [] => []
  end.

Definition rstrip_slash (s : string) : string :=
  of_chars (reverse (lstrip_slash (reverse (chars s)))).

(** [if s:] for a [str] or [bytes] value *)
Definition truthy (s : string) : bool := negb (bool_decide (s = "")).
Definition truthy_opt (s : option string) : bool :=
  match s with Some s => truthy s | None => false end.
(** [a or b] on an optional string *)
Definition or_str (a : option string) (b : string) : string :=
  match a with Some s => if truthy s then s else b | None => b end.

(** [s.split(sep, n)] for a one-character separator *)
Fixpoint split_chars (sep : ascii) (n : nat) (cur : list ascii) (s : list ascii) : list string :=
  match s with
  | [] => [of_chars (reverse cur)]
  | c :: s' =>
      match n with
      | S n' => if decide (c = sep) then of_chars (reverse cur) :: split_chars sep n' [] s'
                else split_chars sep n (c :: cur) s'
      | 0 => [of_chars (reverse cur ++ s)]
      end
  end.
Definition split_n (sep : ascii) (n : nat) (s : string) : list string :=
  split_chars sep n [] (chars s).

(** [sep.join(l)] *)
Fixpoint join (sep : string) (l : list string) : string :=
  match l with
  | [] => ""
  | [s] => s
  | s :: l' => s +:+ sep +:+ join sep l'
  end.

(** ** Numbers *)

Definition digit_char (n : N) : ascii := ascii_of_N (48 + n).
Definition is_digit (c : ascii) : bool := ((48 <=? code c) && (code c <=? 57))%N.

(** Decimal digits, most significant first; [fuel] bounds their number. *)
Fixpoint dec (fuel : nat) (n : N) : list ascii :=
  match fuel with
  | 0 => []
  | S f => (if (n <? 10)%N then [] else dec f (n / 10)) ++ [digit_char (n mod 10)]
  end.
Definition dec_N (n : N) : list ascii := dec (S (N.size_nat n)) n.

(** [int(digits)] *)
Definition undec (l : list ascii) : N := foldl (λ a c, a * 10 + (code c - 48))%N 0%N l.

(** [str(n)] *)
Definition str_Z (n : Z) : string :=
  of_chars ((if (n <? 0)%Z then ["-"%char] else []) ++ dec_N (Z.abs_N n)).

Definition zpad (w : nat) (s : string) : string :=
  of_chars (replicate (w - String.length s) "0"%char ++ chars s).

(** [f"{n:06d}"]: zero padding after the sign, total width 6 *)
Definition fmt06 (n : Z) : string :=
  if decide (n < 0)%Z then "-" +:+ zpad 5 (str_Z (- n)) else zpad 6 (str_Z n).

(** ** UUIDs: a 128-bit number; [str(uuid)] is its 8-4-4-4-12 hexadecimal form *)

Abbreviation UUID := N.

Definition hex_digit (n : N) : ascii :=
  if (n <? 10)%N then ascii_of_N (48 + n) else ascii_of_N (87 + n).

(** [w] hexadecimal digits, most significant first *)
Fixpoint hex (w : nat) (n : N) : list ascii :=
  match w with
  | 0 => []
  | S w' => hex w' (n / 16) ++ [hex_digit (n mod 16)]
  end.

Definition uuid_str (u : UUID) : string :=
  let h := hex 32 u in
  of_chars (take 8 h ++ ["-"%char] ++ take 4 (drop 8 h) ++ ["-"%char] ++
            take 4 (drop 12 h) ++ ["-"%char] ++ take 4 (drop 16 h) ++
            ["-"%char] ++ drop 20 h).

Example uuid_str_ex : uuid_str 0x0190a1b2c3d47e5f8091a2b3c4d5e6f7 = "0190a1b2-c3d4-7e5f-8091-a2b3c4d5e6f7".
Proof. vm_compute. reflexivity. Qed.
Example fmt06_ex : (fmt06 7, fmt06 1234567, fmt06 (-3)) = ("000007", "1234567", "-00003").
Proof. vm_compute. reflexivity. Qed.
Example strip_lower_ex : (strip "  Ab c ", lower "AbZ") = ("Ab c", "abz").
Proof. vm_compute. reflexivity. Qed.
Example split_ex : split_n "_" 2 "mocr_ab_c_d" = ["mocr"; "ab"; "c_d"].
Proof. vm_compute. reflexivity. Qed.

(** ** Injectivity of the formatters *)

Lemma undec_app l c : undec (l ++ [c]) = (undec l * 10 + (code c - 48))%N.
Proof. unfold undec. by rewrite foldl_app. Qed.

Lemma code_digit n : (n < 10)%N → (code (digit_char n) = 48 + n)%N.
Proof. intros. unfold code, digit_char. apply N_ascii_embedding. lia. Qed.

Lemma undec_dec fuel n : (n < 2 ^ N.of_nat fuel)%N → undec (dec (S fuel) n) = n.
Proof.
  revert n. induction fuel as [|f IH]; intros n Hn.
  - assert (n = 0%N) as -> by lia. done.
  - remember (S f) as m. simpl. subst m. rewrite undec_app, code_digit by (by apply N.mod_lt).
    pose proof (N.div_mod n 10 ltac:(done)).
    destruct (N.ltb_spec n 10); [unfold undec; simpl; rewrite N.mod_small by done; lia|]. 
    rewrite IH; [rewrite (N.add_comm 48), N.add_sub; lia|]. apply N.Div0.div_lt_upper_bound.
    rewrite Nat2N.inj_succ, N.pow_succ_r' in Hn. lia.
Qed.

Lemma size_nat_bound n : (n < 2 ^ N.of_nat (N.size_nat n))%N.
Proof.
  destruct n as [|p]; [done|]. simpl. induction p; simpl; [| |done];
    rewrite Nat2N.inj_succ, N.pow_succ_r'; lia.
Qed.

Lemma undec_dec_N n : undec (dec_N n) = n.
Proof. apply undec_dec, size_nat_bound. Qed.

Lemma is_digit_digit_char n : (n < 10)%N → is_digit (digit_char n) = true.
Proof. intros. unfold is_digit. rewrite code_digit by done.
  apply andb_true_intro. split; apply N.leb_le; lia.
Qed.

Lemma dec_digits fuel n : Forall (λ c, is_digit c = true) (dec fuel n).
Proof.
  revert n. induction fuel as [|f IH]; intros n; simpl; [constructor|].
  apply Forall_app. split; [by case_match|]. constructor; [|done].
  by apply is_digit_digit_char, N.mod_lt.
Qed.

(** The first digit: [0] only for the number 0. *)
Lemma dec_head fuel n :
  (0 < n)%N → (n < 2 ^ N.of_nat fuel)%N →
  ∃ d l, dec (S fuel) n = digit_char d :: l ∧ (0 < d < 10)%N.
Proof.
  revert n. induction fuel as [|f IH]; intros n Hp Hn; [simpl in Hn; lia|].
  remember (S f) as m. simpl. subst m.
  destruct (N.ltb_spec n 10) as [Hlt|Hge].
  - exists n, []. rewrite N.mod_small by done. split; [done | lia].
  - assert (0 < n / 10)%N by (apply N.div_str_pos; lia).
    destruct (IH (n / 10)%N) as (d & l & -> & ?); [done| |].
    { apply N.Div0.div_lt_upper_bound.
      rewrite Nat2N.inj_succ, N.pow_succ_r' in Hn. lia. }
    by exists d, (l ++ [digit_char (n mod 10)]).
Qed.

Lemma dec_N_head n :
  n = 0%N ∧ dec_N n = ["0"%char] ∨ ∃ d l, dec_N n = digit_char d :: l ∧ (0 < d < 10)%N.
Proof.
  destruct (decide (n = 0%N)) as [->|]; [by left|]. right.
  apply dec_head; [lia | apply size_nat_bound].
Qed.

Lemma dec_N_inj m n : dec_N m = dec_N n → m = n.
Proof. intros H. by rewrite <- (undec_dec_N m), H, undec_dec_N. Qed.

Lemma digit_not_minus c : is_digit c = true → c ≠ "-"%char.
Proof. by intros H ->. Qed.

Lemma str_Z_inj m n : str_Z m = str_Z n → m = n.
Proof.
  intros H. apply (f_equal chars) in H. unfold str_Z in H. rewrite !chars_of_chars in H.
  assert (∀ k, dec_N k ≠ [] ∧ head (dec_N k) ≠ Some "-"%char) as Hd.
  { intros k. pose proof (dec_digits (S (N.size_nat k)) k) as HF. fold (dec_N k) in HF.
    destruct (dec_N_head k) as [[_ E]|(d & l & E & ?)]; rewrite E in *; [done|].
    split; [done|]. simpl. intros [= Hm]. inversion_clear HF.
    by eapply digit_not_minus. }
  destruct (Z.ltb_spec m 0), (Z.ltb_spec n 0); simpl in H.
  - injection H as H. apply dec_N_inj in H. lia.
  - destruct (Hd (Z.abs_N n)) as [_ Hh]. rewrite <- H in Hh. done.
  - destruct (Hd (Z.abs_N m)) as [_ Hh]. rewrite H in Hh. done.
  - apply dec_N_inj in H. lia.
Qed.

Lemma hex_length w n : length (hex w n) = w.
Proof.
  revert n. induction w as [|w IH]; intros n; simpl; [done|].
  rewrite length_app, IH. simpl. lia.
Qed.

Lemma hex_digit_inj m n : (m < 16)%N → (n < 16)%N → hex_digit m = hex_digit n → m = n.
Proof.
  intros Hm Hn H. apply (f_equal N_of_ascii) in H. unfold hex_digit in H.
  destruct (N.ltb_spec m 10), (N.ltb_spec n 10);
    rewrite !N_ascii_embedding in H by lia; lia.
Qed.

Lemma hex_inj w m n :
  (m < 16 ^ N.of_nat w)%N → (n < 16 ^ N.of_nat w)%N → hex w m = hex w n → m = n.
Proof.
  revert m n. induction w as [|w IH]; intros m n Hm Hn H; simpl in *; [lia|].
  apply app_inj_2 in H as [H1 H2]; [|done]. injection H2 as H2.
  apply hex_digit_inj in H2; [|apply N.mod_lt; lia..].
  rewrite Nat2N.inj_succ, N.pow_succ_r' in Hm, Hn.
  apply IH in H1; [|apply N.Div0.div_lt_upper_bound; lia..].
  rewrite (N.div_mod m 16), (N.div_mod n 16) by lia. congruence.
Qed.

Lemma take_drop_inj {A} n (l k : list A) :
  take n l = take n k → drop n l = drop n k → l = k.
Proof. intros H1 H2. by rewrite <- (take_drop n l), H1, H2, take_drop. Qed.

(** Peel one group of [n] digits and the hyphen after it. *)
Lemma group_inj {A} n (l k r r' : list A) (sep : A) :
  length (take n l) = length (take n k) →
  take n l ++ [sep] ++ r = take n k ++ [sep] ++ r' → take n l = take n k ∧ r = r'.
Proof. intros HL H. apply app_inj_1 in H as [? H]; [|done]. by simplify_eq/=. Qed.

Lemma uuid_str_inj u v :
  (u < 2 ^ 128)%N → (v < 2 ^ 128)%N → uuid_str u = uuid_str v → u = v.
Proof.
  intros Hu Hv H. apply (hex_inj 32); [exact Hu | exact Hv |].
  apply (f_equal chars) in H. unfold uuid_str in H. rewrite !chars_of_chars in H.
  pose proof (hex_length 32 u) as Lu. pose proof (hex_length 32 v) as Lv.
  revert Lu Lv H. generalize (hex 32 u), (hex 32 v). intros l k Ll Lk H.
  do 4 (apply group_inj in H as [? H]; [|rewrite !length_take, ?length_drop; lia]).
  apply (take_drop_inj 8); [done|]. apply (take_drop_inj 4); [done|].
  rewrite !drop_drop. apply (take_drop_inj 4); [done|].
  rewrite !drop_drop. by apply (take_drop_inj 4); [|rewrite !drop_drop].
Qed.

Lemma uuid_str_length u : String.length (uuid_str u) = 36.
Proof.
  rewrite <- chars_length. unfold uuid_str. rewrite chars_of_chars.
  repeat rewrite length_app || rewrite length_take || rewrite length_drop.
  rewrite hex_length. done.
Qed.

(** Two texts built from prefixes of equal length agree piecewise. *)
Lemma append_inj_l (a b x y : string) :
  String.length a = String.length b → a +:+ x = b +:+ y → a = b ∧ x = y.
Proof.
  intros HL H. apply (f_equal chars) in H. rewrite !chars_app in H.
  apply app_inj_1 in H as [? ?]; [|by rewrite !chars_length].
  split; by apply chars_inj.
Qed.

Lemma str_append_inj_l (a x y : string) : a +:+ x = a +:+ y → x = y.
Proof. intros H. by apply append_inj_l in H as [_ ?]. Qed.

Lemma startswith_app p s : startswith p (p +:+ s) = true.
Proof.
  unfold startswith. apply bool_decide_eq_true. rewrite chars_app. apply take_app_length.
Qed.

Lemma length_append a b : String.length (a +:+ b) = String.length a + String.length b.
Proof. by rewrite <- !chars_length, chars_app, length_app. Qed.

(** A suffix of the last part decides [endswith]. *)
Lemma endswith_app p a b :
  String.length p ≤ String.length b → endswith p (a +:+ b) = endswith p b.
Proof.
  intros H. unfold endswith. rewrite chars_app, length_append.
  rewrite drop_app_ge by (rewrite chars_length; lia). rewrite chars_length.
  by replace (String.length a + String.length b - String.length p - String.length a)
    with (String.length b - String.length p) by lia.
Qed.
