(* ===== verification/Json.v ===== *)
(** * JSON values, [json.dumps] and [json.loads]

    - [dumps ea j]: [json.dumps(j, ensure_ascii=ea, separators=(",", ":"))].
      The non-ASCII escapes of [ensure_ascii=True] are produced for Latin-1
      and other BMP code points by decoding the UTF-8 text.
    - [loads b]: [json.loads(b)], [None] for [json.JSONDecodeError].  [NaN] and
      the infinities are not covered.
    - [py_eq]: Python's [==] on these values (key order of a [dict] is ignored,
      [True == 1]).
    The round trip [loads (dumps false j) = Some j] is [JsonFacts.loads_dumps_wf]. *)

From Stdlib Require Import Ascii.
From Stdlib Require String.
From S2P Require Import Prelude PyData PyText.

#[local] Set Warnings "-register-all".
#[local] Open Scope char_scope.

Inductive json : Type :=
  | JNull
  | JBool (b : bool)
  | JInt (n : Z)
  | JFloat (lit : string)
  | JStr (s : string)
  | JList (l : list json)
  | JObj (l : list (string * json)).

Section json_ind.
Variable P : json → Prop.
Hypothesis Hnull : P JNull.
Hypothesis Hbool : ∀ b, P (JBool b).
Hypothesis Hint : ∀ n, P (JInt n).
Hypothesis Hfloat : ∀ lit, P (JFloat lit).
Hypothesis Hstr : ∀ s, P (JStr s).
Hypothesis Hlist : ∀ l, Forall P l → P (JList l).
Hypothesis Hobj : ∀ l, Forall (λ kv, P kv.2) l → P (JObj l).

Fixpoint json_ind' (j : json) : P j :=
  match j with
  | JNull => Hnull
  | JBool b => Hbool b
  | JInt n => Hint n
  | JFloat lit => Hfloat lit
  | JStr s => Hstr s
  | JList l => Hlist l ((fix go l := match l return Forall P l with
      | [] => Forall_nil_2 P | x :: l => Forall_cons_2 P x l (json_ind' x) (go l) end) l)
  | JObj l => Hobj l ((fix go l := match l return Forall (λ kv, P kv.2) l with
      | [] => Forall_nil_2 _ | (k, x) :: l =>
          Forall_cons_2 (λ kv, P kv.2) (k, x) l (json_ind' x) (go l) end) l)
  end.
End json_ind.

#[export] Instance json_eq_dec : EqDecision json.
Proof.
  unfold EqDecision, RelDecision. fix go 1. intros x y.
  destruct x as [|a|a|a|a|a|a], y as [|b|b|b|b|b|b]; try (right; discriminate).
  - by left.
  - destruct (decide (a = b)); [left; congruence | right; congruence].
  - destruct (decide (a = b)); [left; congruence | right; congruence].
  - destruct (decide (a = b)); [left; congruence | right; congruence].
  - destruct (decide (a = b)); [left; congruence | right; congruence].
  - destruct (@list_eq_dec json go a b); [left; congruence | right; congruence].
  - destruct (@list_eq_dec (string * json) (@prod_eq_dec string _ json go) a b);
      [left; congruence | right; congruence].
Defined.

(** ** Writing *)

Definition dquote : ascii := ascii_of_N 34.
Definition backslash : ascii := ascii_of_N 92.

Definition u_escape (n : N) : list ascii := backslash :: "u" :: hex 4 n.

(** The escape sequence of an ASCII character, [None] when it stands for itself. *)
Definition escape (c : ascii) : option (list ascii) :=
  if decide (c = dquote) then Some [backslash; dquote]
  else if decide (c = backslash) then Some [backslash; backslash]
  else if (code c <? 32)%N then
    Some (match code c with
          | 8 => [backslash; "b"] | 9 => [backslash; "t"] | 10 => [backslash; "n"]
          | 12 => [backslash; "f"] | 13 => [backslash; "r"]
          | n => u_escape n
          end)%N
  else None.

Definition escape_char (c : ascii) : list ascii := default [c] (escape c).

(** [ensure_ascii=True]: the escapes of the code points from 127 on.  [acc] is
    the code point read so far and [k] the number of continuation bytes left. *)
Fixpoint escape_ascii (k : nat) (acc : N) (s : list ascii) : list ascii :=
  match s with
  | [] => []
  | c :: s' =>
      let n := code c in
      if (n <? 127)%N then escape_char c ++ escape_ascii 0 0 s'
      else if (n =? 127)%N then u_escape n ++ escape_ascii 0 0 s'
      else if (n <? 192)%N then
        let acc' := (acc * 64 + (n - 128))%N in
        match k with
        | S (S k') => escape_ascii (S k') acc' s'
        | _ => (if (acc' <? 65536)%N then u_escape acc'
                else u_escape (55296 + (acc' - 65536) / 1024) ++
                     u_escape (56320 + (acc' - 65536) mod 1024)) ++ escape_ascii 0 0 s'
        end
      else if (n <? 224)%N then escape_ascii 1 (n - 192) s'
      else if (n <? 240)%N then escape_ascii 2 (n - 224) s'
      else escape_ascii 3 (n - 240) s'
  end.

Definition write_str (ea : bool) (s : string) : list ascii :=
  dquote :: (if ea then escape_ascii 0 0 (chars s)
             else chars s ≫= escape_char) ++ [dquote].

(** [sep.join] on character lists *)
Fixpoint commas (l : list (list ascii)) : list ascii :=
  match l with
  | [] => []
  | [s] => s
  | s :: l' => s ++ "," :: commas l'
  end.

Fixpoint write (ea : bool) (j : json) : list ascii :=
  match j with
  | JNull => ["n"; "u"; "l"; "l"]
  | JBool true => ["t"; "r"; "u"; "e"]
  | JBool false => ["f"; "a"; "l"; "s"; "e"]
  | JInt n => chars (str_Z n)
  | JFloat lit => chars lit
  | JStr s => write_str ea s
  | JList l => "[" :: commas (map (write ea) l) ++ ["]"]
  | JObj l =>
      "{" :: commas (map (λ '(k, v), write_str ea k ++ ":" :: write ea v) l) ++ ["}"]
  end.

(** [json.dumps(j, ensure_ascii=ea, separators=(",", ":"))] *)
Definition dumps (ea : bool) (j : json) : string := of_chars (write ea j).

(** ** Reading *)

Definition is_ws (c : ascii) : bool :=
  let n := code c in ((n =? 32) || (n =? 9) || (n =? 10) || (n =? 13))%N.

Fixpoint skip_ws (s : list ascii) : list ascii :=
  match s with
  | c :: s' => if is_ws c then skip_ws s' else s
  | [] => []
  end.

Fixpoint span_digits (s : list ascii) : list ascii * list ascii :=
  match s with
  | c :: s' => if is_digit c then let '(ds, r) := span_digits s' in (c :: ds, r) else ([], s)
  | [] => ([], [])
  end.

(** The optional [.digits] and [e[+-]digits] parts of a number. *)
Definition read_frac (s : list ascii) : list ascii * list ascii :=
  match s with
  | c :: s' =>
      if decide (c = ".") then
        match span_digits s' with ([], _) => ([], s) | (ds, r) => ("." :: ds, r) end
      else ([], s)
  | [] => ([], [])
  end.

Definition read_exp (s : list ascii) : list ascii * list ascii :=
  match s with
  | c :: s' =>
      if decide (c = "e" ∨ c = "E") then
        let '(sg, s'') := match s' with
                          | d :: q => if decide (d = "+" ∨ d = "-") then ([d], q) else ([], s')
                          | [] => ([], []) end in
        match span_digits s'' with ([], _) => ([], s) | (ds, r) => (c :: sg ++ ds, r) end
      else ([], s)
  | [] => ([], [])
  end.

Definition read_number_tail (neg : bool) (ip s : list ascii) : json * list ascii :=
  let '(fr, s1) := read_frac s in
  let '(ex, s2) := read_exp s1 in
  match fr, ex with
  | [], [] => (JInt (if neg then - Z.of_N (undec ip) else Z.of_N (undec ip))%Z, s2)
  | _, _ => (JFloat (of_chars ((if neg then ["-"] else []) ++ ip ++ fr ++ ex)), s2)
  end.

Definition read_number (s : list ascii) : option (json * list ascii) :=
  let '(neg, s1) := match s with
                    | c :: s' => if decide (c = "-") then (true, s') else (false, s)
                    | [] => (false, []) end in
  match s1 with
  | c :: s2 =>
      if decide (c = "0") then Some (read_number_tail neg ["0"] s2)
      else if is_digit c then
        let '(ds, r) := span_digits s2 in Some (read_number_tail neg (c :: ds) r)
      else None
  | [] => None
  end.

Definition hex_value (c : ascii) : option N :=
  let n := code c in
  if is_digit c then Some (n - 48)%N
  else if ((97 <=? n) && (n <=? 102))%N then Some (n - 87)%N
  else if ((65 <=? n) && (n <=? 70))%N then Some (n - 55)%N
  else None.

Definition read_hex4 (s : list ascii) : option (N * list ascii) :=
  match s with
  | a :: b :: c :: d :: s' =>
      x ← hex_value a; y ← hex_value b; z ← hex_value c; t ← hex_value d;
      Some ((x * 4096 + y * 256 + z * 16 + t)%N, s')
  | _ => None
  end.

(** UTF-8 encoding of a code point. *)
Definition utf8 (n : N) : list ascii :=
  (if n <? 128 then [ascii_of_N n]
   else if n <? 2048 then [ascii_of_N (192 + n / 64); ascii_of_N (128 + n mod 64)]
   else if n <? 65536 then
     [ascii_of_N (224 + n / 4096); ascii_of_N (128 + n / 64 mod 64); ascii_of_N (128 + n mod 64)]
   else [ascii_of_N (240 + n / 262144); ascii_of_N (128 + n / 4096 mod 64);
         ascii_of_N (128 + n / 64 mod 64); ascii_of_N (128 + n mod 64)])%N.

(** A [\uXXXX] escape, joined with a second one for a surrogate pair. *)
Definition read_unicode (s : list ascii) : option (list ascii * list ascii) :=
  '(n, s1) ← read_hex4 s;
  if ((55296 <=? n) && (n <? 56320))%N then
    match s1 with
    | b :: u :: s2 =>
        if decide (b = backslash ∧ u = "u") then
          '(m, s3) ← read_hex4 s2;
          if ((56320 <=? m) && (m <? 57344))%N
          then Some (utf8 (65536 + (n - 55296) * 1024 + (m - 56320)), s3)
          else Some (utf8 n, s1)
        else Some (utf8 n, s1)
    | _ => Some (utf8 n, s1)
    end
  else Some (utf8 n, s1).

Definition unescape (c : ascii) : option ascii :=
  if decide (c = dquote ∨ c = backslash ∨ c = "/") then Some c
  else if decide (c = "b") then Some (ascii_of_N 8)
  else if decide (c = "t") then Some (ascii_of_N 9)
  else if decide (c = "n") then Some (ascii_of_N 10)
  else if decide (c = "f") then Some (ascii_of_N 12)
  else if decide (c = "r") then Some (ascii_of_N 13)
  else None.

(** The rest of a string literal after its opening quote. *)
Fixpoint read_str (fuel : nat) (s : list ascii) : option (list ascii * list ascii) :=
  match fuel, s with
  | S f, c :: s' =>
      if decide (c = dquote) then Some ([], s')
      else if decide (c = backslash) then
        match s' with
        | e :: s'' =>
            if decide (e = "u") then
              '(u, r) ← read_unicode s''; '(t, r') ← read_str f r; Some (u ++ t, r')
            else u ← unescape e; '(t, r') ← read_str f s''; Some (u :: t, r')
        | [] => None
        end
      else if (code c <? 32)%N then None
      else '(t, r) ← read_str f s'; Some (c :: t, r)
  | _, _ => None
  end.

Definition strip_prefix (p s : list ascii) : option (list ascii) :=
  if decide (take (length p) s = p) then Some (drop (length p) s) else None.

(** Values, the elements of an array and the members of an object; [fuel]
    bounds the depth of the recursion by the length of the text. *)
Fixpoint read (fuel : nat) (s : list ascii) : option (json * list ascii) :=
  match fuel, s with
  | S f, c :: s' =>
      if decide (c = dquote) then
        '(t, r) ← read_str (length s') s'; Some (JStr (of_chars t), r)
      else if decide (c = "{") then
        match skip_ws s' with
        | d :: r => if decide (d = "}") then Some (JObj [], r)
                    else '(kvs, r') ← read_members f (d :: r);
                         Some (JObj (foldl (λ d '(k, v), dset d k v) [] kvs), r')
        | [] => None
        end
      else if decide (c = "[") then
        match skip_ws s' with
        | d :: r => if decide (d = "]") then Some (JList [], r)
                    else '(l, r') ← read_elems f (d :: r); Some (JList l, r')
        | [] => None
        end
      else if decide (c = "n") then r ← strip_prefix ["u"; "l"; "l"] s'; Some (JNull, r)
      else if decide (c = "t") then r ← strip_prefix ["r"; "u"; "e"] s'; Some (JBool true, r)
      else if decide (c = "f") then r ← strip_prefix ["a"; "l"; "s"; "e"] s'; Some (JBool false, r)
      else read_number s
  | _, _ => None
  end
with read_elems (fuel : nat) (s : list ascii) : option (list json * list ascii) :=
  match fuel with
  | 0 => None
  | S f =>
      '(v, r) ← read f s;
      match skip_ws r with
      | c :: r' =>
          if decide (c = "]") then Some ([v], r')
          else if decide (c = ",") then
            '(l, r'') ← read_elems f (skip_ws r'); Some (v :: l, r'')
          else None
      | [] => None
      end
  end
with read_members (fuel : nat) (s : list ascii) : option (list (string * json) * list ascii) :=
  match fuel, s with
  | S f, q :: s' =>
      if decide (q = dquote) then
        '(k, r) ← read_str (length s') s';
        match skip_ws r with
        | c :: r1 =>
            if decide (c = ":") then
              '(v, r2) ← read f (skip_ws r1);
              match skip_ws r2 with
              | d :: r3 =>
                  if decide (d = "}") then Some ([(of_chars k, v)], r3)
                  else if decide (d = ",") then
                    '(l, r4) ← read_members f (skip_ws r3); Some ((of_chars k, v) :: l, r4)
                  else None
              | [] => None
              end
            else None
        | [] => None
        end
      else None
  | _, _ => None
  end.

(** [json.loads(b)] *)
Definition loads (b : string) : option json :=
  let s := skip_ws (chars b) in
  '(j, r) ← read (2 * length s + 2) s;
  match skip_ws r with [] => Some j | _ => None end.

#[local] Open Scope string_scope.

(** ** Python equality *)

(** [n == x] for an integer and a float given by its [repr] (integers below
    [10**16] in absolute value, beyond which [repr] has an exponent). *)
Definition int_eq_float (n : Z) (lit : string) : bool :=
  bool_decide (lit = str_Z n +:+ ".0") || bool_decide (n = 0%Z ∧ lit = "-0.0").

Definition int_of_bool (b : bool) : Z := if b then 1 else 0.

Fixpoint py_eq (a b : json) : bool :=
  match a, b with
  | JNull, JNull => true
  | JBool a, JBool b => Bool.eqb a b
  | JBool a, JInt n | JInt n, JBool a => bool_decide (int_of_bool a = n)
  | JBool a, JFloat x | JFloat x, JBool a => int_eq_float (int_of_bool a) x
  | JInt m, JInt n => bool_decide (m = n)
  | JInt n, JFloat x | JFloat x, JInt n => int_eq_float n x
  | JFloat x, JFloat y => bool_decide (x = y)
  | JStr s, JStr t => bool_decide (s = t)
  | JList l, JList k =>
      (fix go l k := match l, k with
        | [], [] => true
        | x :: l, y :: k => py_eq x y && go l k
        | _, _ => false
        end) l k
  | JObj l, JObj k =>
      Nat.eqb (length l) (length k) &&
      (fix go l := match l with
        | [] => true
        | (key, x) :: l =>
            match dget k key with Some y => py_eq x y | None => false end && go l
        end) l
  | _, _ => false
  end.

Definition ex_json : json :=
  JObj [("schema_version", JInt 1); ("page", JInt (-20)); ("md", JStr ("a" +:+ of_chars [dquote; backslash; ascii_of_N 10; ascii_of_N 1]));
        ("l", JList [JNull; JBool true; JFloat "1.0"; JObj []; JList []]); ("f", JFloat "-2.5e-07")].

Example py_eq_ex :
  py_eq (JObj [("a", JInt 1); ("b", JFloat "2.0")]) (JObj [("b", JInt 2); ("a", JBool true)]) = true.
Proof. vm_compute. reflexivity. Qed.

Example dumps_ex :
  dumps false (JObj [("a", JInt 10); ("b", JList [JNull; JBool false])])
  = of_chars (["{"; dquote; "a"; dquote; ":"; "1"; "0"; ","; dquote; "b"; dquote; ":"; "[";
     "n"; "u"; "l"; "l"; ","; "f"; "a"; "l"; "s"; "e"; "]"; "}"])%char.
Proof. vm_compute. reflexivity. Qed.

Example roundtrip_ex : loads (dumps false ex_json) = Some ex_json.
Proof. vm_compute. reflexivity. Qed.

Example roundtrip_ascii_ex :
  let j := JStr (of_chars (utf8 233 ++ utf8 20320 ++ utf8 128512)) in
  loads (dumps true j) = Some j.
Proof. vm_compute. reflexivity. Qed.
