(* ===== verification/JsonFacts.v ===== *)
(** * The JSON round trip: what [dumps] writes, [loads] reads back *)

From Stdlib Require Import Ascii.
From Stdlib Require String.
From S2P Require Import Prelude PyData PyText Json.

#[local] Open Scope char_scope.

(** The values [json.dumps] accepts and [json.loads] returns: floats are literals
    the reader takes for floats, the keys of an object are distinct. *)
Fixpoint wf_json (j : json) : bool :=
  match j with
  | JFloat lit => bool_decide (read_number (chars lit) = Some (JFloat lit, []))
  | JList l => forallb wf_json l
  | JObj l => bool_decide (NoDup l.*1) && forallb (λ kv, wf_json kv.2) l
  | _ => true
  end.

(** What may follow a value inside a document. *)
Definition delim (r : list ascii) : Prop :=
  match r with [] => True | c :: _ => c = "," ∨ c = "]" ∨ c = "}" end.

(** ** Strings *)

Lemma escape_spec c :
  (escape c = None ∧ c ≠ dquote ∧ c ≠ backslash ∧ (code c <? 32)%N = false) ∨
  (∃ d, escape c = Some [backslash; d] ∧ d ≠ "u" ∧ unescape d = Some c) ∨
  (∃ h1 h2, escape c = Some [backslash; "u"; "0"; "0"; h1; h2] ∧
            ∀ r, read_unicode ("0" :: "0" :: h1 :: h2 :: r) = Some ([c], r)).
Proof.
  destruct c as [[] [] [] [] [] [] [] []];
  first [ left; split_and!; [reflexivity | discriminate | discriminate | reflexivity]
        | right; left; eexists; split_and!; [reflexivity | discriminate | reflexivity]
        | right; right; do 2 eexists; split; [reflexivity | intros; reflexivity] ].
Qed.

Lemma read_str_write t rest f :
  length (t ≫= escape_char) < f →
  read_str f ((t ≫= escape_char) ++ dquote :: rest) = Some (t, rest).
Proof.
  revert f. induction t as [|c t IH]; intros f Hf.
  - destruct f; [simpl in Hf; lia | reflexivity].
  - rewrite bind_cons, <- app_assoc in *. rewrite length_app in Hf.
    assert (escape_char c = default [c] (escape c)) as Hc by done.
    destruct (escape_spec c) as [(He & H1 & H2 & H3)|[(d & He & H1 & H2)|(h1 & h2 & He & H1)]];
      rewrite He in Hc; simpl in Hc; rewrite Hc in Hf |- *;
      simpl in Hf; (destruct f as [|f]; [lia|]); simpl.
    + rewrite !decide_False by done. rewrite H3. by rewrite IH by lia.
    + rewrite (decide_False (P:=d = "u")) by done. rewrite H2. simpl. by rewrite IH by lia.
    + rewrite H1. simpl. by rewrite IH by lia.
Qed.

(** ** Numbers *)

Lemma span_digits_all l : Forall (λ c, is_digit c = true) l → span_digits l = (l, []).
Proof. induction 1 as [|c l Hc Hl IH]; simpl; [done|]. by rewrite Hc, IH. Qed.

Lemma span_digits_delim r : delim r → span_digits r = ([], r).
Proof. destruct r as [|c r]; [done|]. by intros [->|[->| ->]]. Qed.

Lemma span_digits_app l r ds q :
  delim r → span_digits l = (ds, q) → span_digits (l ++ r) = (ds, q ++ r).
Proof.
  intros Hr. revert ds q. induction l as [|c l IH]; simpl; intros ds q H.
  - simplify_eq/=. by apply span_digits_delim.
  - destruct (is_digit c); [|by simplify_eq/=].
    destruct (span_digits l) as [ds' q']. simplify_eq/=. by rewrite (IH _ _ eq_refl).
Qed.

Lemma read_frac_app l r fr q :
  delim r → read_frac l = (fr, q) → read_frac (l ++ r) = (fr, q ++ r).
Proof.
  intros Hr. destruct l as [|c l]; simpl.
  - intros ?; simplify_eq/=. destruct r as [|c r]; [done|].
    by destruct Hr as [->|[->| ->]].
  - case_decide; [|by intros ?; simplify_eq/=].
    destruct (span_digits l) as [ds q'] eqn:E.
    rewrite (span_digits_app _ _ _ _ Hr E). by destruct ds; intros ?; simplify_eq/=.
Qed.

Lemma read_exp_app l r ex q :
  delim r → read_exp l = (ex, q) → read_exp (l ++ r) = (ex, q ++ r).
Proof.
  intros Hr. destruct l as [|c l]; simpl.
  - intros ?; simplify_eq/=. destruct r as [|c r]; [done|].
    by destruct Hr as [->|[->| ->]].
  - case_decide; [|by intros ?; simplify_eq/=]. destruct l as [|d l]; simpl.
    + intros ?; simplify_eq/=. destruct r as [|d r]; [done|].
      destruct Hr as [->|[->| ->]]; simpl; done.
    + case_decide.
      * destruct (span_digits l) as [ds q'] eqn:E.
        rewrite (span_digits_app _ _ _ _ Hr E). by destruct ds; intros ?; simplify_eq/=.
      * destruct (span_digits (d :: l)) as [ds q'] eqn:E.
        change (d :: l ++ r) with ((d :: l) ++ r).
        rewrite (span_digits_app _ _ _ _ Hr E). by destruct ds; intros ?; simplify_eq/=.
Qed.

Lemma read_number_tail_app neg ip l r v q :
  delim r → read_number_tail neg ip l = (v, q) →
  read_number_tail neg ip (l ++ r) = (v, q ++ r).
Proof.
  intros Hr. unfold read_number_tail.
  destruct (read_frac l) as [fr s1] eqn:E1. rewrite (read_frac_app _ _ _ _ Hr E1).
  destruct (read_exp s1) as [ex s2] eqn:E2. rewrite (read_exp_app _ _ _ _ Hr E2).
  by destruct fr, ex; intros ?; simplify_eq/=.
Qed.

Lemma read_number_app l r v q :
  delim r → read_number l = Some (v, q) → read_number (l ++ r) = Some (v, q ++ r).
Proof.
  intros Hr.
  assert (∀ neg s, match s with
    | c :: s2 => if decide (c = "0") then Some (read_number_tail neg ["0"] s2)
                 else if is_digit c then let '(ds, r) := span_digits s2 in
                   Some (read_number_tail neg (c :: ds) r) else None
    | [] => None end = Some (v, q) →
    match s ++ r with
    | c :: s2 => if decide (c = "0") then Some (read_number_tail neg ["0"] s2)
                 else if is_digit c then let '(ds, r) := span_digits s2 in
                   Some (read_number_tail neg (c :: ds) r) else None
    | [] => None end = Some (v, q ++ r)) as Haux.
  { intros neg [|c s]; simpl; [done|]. case_decide.
    - intros [= H1]. f_equal. by apply read_number_tail_app.
    - destruct (is_digit c); [|done]. destruct (span_digits s) as [ds q'] eqn:E.
      rewrite (span_digits_app _ _ _ _ Hr E). intros [= H1]. f_equal.
      by apply read_number_tail_app. }
  unfold read_number. destruct l as [|c l]; simpl; [done|].
  case_decide; [apply (Haux true) | apply (Haux false (c :: l))].
Qed.

Lemma read_dec neg n :
  match dec_N n with
  | c :: s2 => if decide (c = "0") then Some (read_number_tail neg ["0"] s2)
               else if is_digit c then let '(ds, r) := span_digits s2 in
                 Some (read_number_tail neg (c :: ds) r) else None
  | [] => None end = Some (JInt (if neg then - Z.of_N n else Z.of_N n)%Z, []).
Proof.
  pose proof (dec_digits (S (N.size_nat n)) n) as HF. fold (dec_N n) in HF.
  pose proof (undec_dec_N n) as HU.
  destruct (dec_N_head n) as [[-> E]|(d & l & E & Hd)]; rewrite E in *; [by destruct neg|].
  inversion_clear HF as [|? ? H1 H2]. rewrite decide_False.
  - rewrite H1, span_digits_all by done. unfold read_number_tail. simpl. by rewrite HU.
  - intros Hc. apply (f_equal code) in Hc. rewrite code_digit in Hc by lia.
    unfold code in Hc. simpl in Hc. lia.
Qed.

Lemma read_number_int n : read_number (chars (str_Z n)) = Some (JInt n, []).
Proof.
  unfold str_Z. rewrite chars_of_chars. unfold read_number.
  destruct (Z.ltb_spec n 0); simpl.
  - rewrite (read_dec true). do 3 f_equal. lia.
  - pose proof (read_dec false (Z.abs_N n)) as HR.
    pose proof (dec_digits (S (N.size_nat (Z.abs_N n))) (Z.abs_N n)) as HF.
    fold (dec_N (Z.abs_N n)) in HF. destruct (dec_N (Z.abs_N n)) as [|c l]; [done|].
    inversion_clear HF. rewrite decide_False by (by apply digit_not_minus).
    rewrite HR. do 3 f_equal. lia.
Qed.

Lemma read_number_head c s v q :
  read_number (c :: s) = Some (v, q) → c = "-" ∨ is_digit c = true.
Proof.
  unfold read_number. case_decide; [by left|].
  case_decide; [subst; by right|]. destruct (is_digit c); [by right | done].
Qed.

(** A character that starts a number starts no other value. *)
Lemma number_head_not c :
  c = "-" ∨ is_digit c = true →
  c ≠ dquote ∧ c ≠ "{" ∧ c ≠ "[" ∧ c ≠ "n" ∧ c ≠ "t" ∧ c ≠ "f" ∧
  is_ws c = false ∧ c ≠ "]" ∧ c ≠ "}".
Proof.
  destruct c as [[] [] [] [] [] [] [] []]; intros [H|H]; try discriminate H;
    split_and!; first [discriminate | reflexivity].
Qed.

(** ** Values *)

Lemma dset_foldl_fresh {V} (l d : list (string * V)) :
  NoDup (d ++ l).*1 → foldl (λ d '(k, v), dset d k v) d l = d ++ l.
Proof.
  revert d. induction l as [|[k v] l IH]; intros d Hd; simpl; [by rewrite app_nil_r|].
  assert (dget d k = None) as Hk.
  { apply dget_None. rewrite fmap_app in Hd. apply NoDup_app in Hd as (_ & Hd & _).
    intros Hin. apply (Hd k Hin). left. }
  rewrite dset_fresh by done. rewrite IH; by rewrite <- app_assoc.
Qed.

Lemma skip_ws_nows c s : is_ws c = false → skip_ws (c :: s) = c :: s.
Proof. intros H. simpl. by rewrite H. Qed.

(** The first character of a written value. *)
Lemma write_head j : wf_json j = true →
  ∃ c s, write false j = c :: s ∧ is_ws c = false ∧ c ≠ "]" ∧ c ≠ "}".
Proof.
  assert (∀ l v, read_number l = Some (v, []) → ∃ c s, l = c :: s ∧ is_ws c = false ∧ c ≠ "]" ∧ c ≠ "}") as Hnum.
  { intros [|c l] v H; [done|]. pose proof (read_number_head _ _ _ _ H) as Hh.
    apply number_head_not in Hh as (_&_&_&_&_&_&?&?&?). eauto 10. }
  destruct j as [|[]|n|lit|s|l|l]; simpl; intros Hwf; try by (do 2 eexists; split_and!).
  - eapply Hnum, read_number_int.
  - apply bool_decide_eq_true in Hwf. by eapply Hnum.
Qed.

(** What the reader needs to know of a value to read it back. *)
Definition reads_back (j : json) : Prop :=
  wf_json j = true →
  ∀ r f, delim r → 2 * length (write false j) ≤ f →
         read f (write false j ++ r) = Some (j, r).

Lemma read_elems_write l r f :
  l ≠ [] → Forall reads_back l → forallb wf_json l = true →
  2 * length (commas (map (write false) l)) < f →
  read_elems f (commas (map (write false) l) ++ "]" :: r) = Some (l, r).
Proof.
  intros Hne Hl. revert f Hne. induction Hl as [|v l Hv Hl IH]; intros f Hne Hwf Hf; [done|].
  simpl in Hwf. apply andb_prop in Hwf as [Hwv Hwl]. destruct f as [|f]; [lia|].
  destruct l as [|v' l].
  - simpl in *. rewrite Hv; [done | done | simpl; tauto | lia].
  - remember (v' :: l) as vs. assert (map (write false) vs ≠ []) as Hne' by by subst.
    assert (commas (map (write false) (v :: vs)) =
            write false v ++ "," :: commas (map (write false) vs)) as Hc.
    { simpl. by destruct (map (write false) vs). }
    rewrite Hc, length_app in Hf. simpl in Hf. rewrite Hc, <- app_assoc. simpl.
    rewrite Hv; [|done|simpl; tauto|lia]. simpl.
    assert (∃ c s, commas (map (write false) vs) = c :: s ∧ is_ws c = false) as (c & s & Hs & Hws).
    { subst vs. simpl in Hwl. apply andb_prop in Hwl as [Hw' _].
      destruct (write_head v' Hw') as (c & s & Hs & Hws & _). simpl. rewrite Hs.
      destruct (map (write false) l); eauto. }
    rewrite Hs. simpl. rewrite Hws. change (c :: s ++ "]" :: r) with ((c :: s) ++ "]" :: r).
    rewrite <- Hs. rewrite IH; [done | by subst | done | lia].
Qed.

Definition write_member (kv : string * json) : list ascii :=
  write_str false kv.1 ++ ":" :: write false kv.2.

Lemma read_members_write l r f :
  l ≠ [] → Forall (λ kv, reads_back kv.2) l → forallb (λ kv, wf_json kv.2) l = true →
  2 * length (commas (map write_member l)) < f →
  read_members f (commas (map write_member l) ++ "}" :: r) = Some (l, r).
Proof.
  intros Hne Hl. revert f Hne. induction Hl as [|[k v] l Hv Hl IH]; intros f Hne Hwf Hf; [done|].
  simpl in Hwf. apply andb_prop in Hwf as [Hwv Hwl]. destruct f as [|f]; [lia|].
  destruct (write_head v Hwv) as (c0 & s0 & Hs0 & Hws0 & _).
  assert (∀ rest, delim rest → 2 * length (write false v) ≤ f →
    read_members (S f) (write_member (k, v) ++ rest) =
    match rest with
    | d :: r3 =>
        if decide (d = "}") then Some ([(k, v)], r3)
        else if decide (d = ",") then
          '(l, r4) ← read_members f (skip_ws r3); Some ((k, v) :: l, r4)
        else None
    | [] => None
    end) as Hmember.
  { intros rest Hrest Hlen. unfold write_member. simpl. rewrite <- !app_assoc. simpl.
    rewrite read_str_write by (rewrite !length_app; simpl; lia). simpl.
    rewrite Hs0 at 1. simpl. rewrite Hws0. change (c0 :: s0 ++ rest) with ((c0 :: s0) ++ rest).
    rewrite <- Hs0. rewrite Hv by done. simpl. rewrite of_chars_chars.
    destruct rest as [|d rest]; [done|]. by destruct Hrest as [->|[->| ->]]. }
  assert (2 * length (write false v) + 2 ≤ 2 * length (write_member (k, v))) as Hlen.
  { unfold write_member. rewrite length_app. simpl. lia. }
  destruct l as [|kv' l].
  - change (commas (map write_member [(k, v)])) with (write_member (k, v)) in *.
    rewrite Hmember; [done | simpl; tauto | lia].
  - remember (kv' :: l) as kvs.
    assert (commas (map write_member ((k, v) :: kvs)) =
            write_member (k, v) ++ "," :: commas (map write_member kvs)) as Hc.
    { subst kvs. done. }
    rewrite Hc, length_app in Hf. cbn [length] in Hf. rewrite Hc, <- app_assoc.
    cbn [app]. rewrite Hmember; [|simpl; tauto|lia]. simpl.
    assert (skip_ws (commas (map write_member kvs) ++ "}" :: r) =
            commas (map write_member kvs) ++ "}" :: r) as ->.
    { subst kvs. simpl. by destruct (map write_member l). }
    rewrite IH; [done | by subst | done | lia].
Qed.

Lemma read_literal l j r f :
  delim r → read_number l = Some (j, []) → read (S f) (l ++ r) = Some (j, r).
Proof.
  intros Hr HR. destruct l as [|c l]; [done|].
  pose proof (read_number_head _ _ _ _ HR) as (?&?&?&?&?&?&_)%number_head_not.
  apply (read_number_app _ r) in HR; [|done].
  change ((c :: l) ++ r) with (c :: l ++ r) in *. cbn [read].
  do 6 (rewrite decide_False by done). exact HR.
Qed.

Lemma read_write j : reads_back j.
Proof.
  induction j as [| [] | n | lit | s | l IH | l IH] using json_ind';
    intros Hwf r f Hr Hf;
    (destruct f as [|f];
     [destruct (write_head _ Hwf) as (? & ? & Hs & _); rewrite Hs in Hf; simpl in Hf; lia|]).
  - done.
  - done.
  - done.
  - apply read_literal; [done | apply read_number_int].
  - simpl in Hwf. apply bool_decide_eq_true in Hwf. by apply read_literal.
  - change (write false (JStr s)) with (dquote :: (chars s ≫= escape_char) ++ [dquote]).
    cbn [app read]. rewrite decide_True by done. rewrite <- app_assoc. cbn [app].
    rewrite read_str_write by (rewrite !length_app; simpl; lia).
    cbn. by rewrite of_chars_chars.
  - simpl in Hwf, Hf |- *. rewrite length_app in Hf. simpl in Hf. rewrite <- app_assoc.
    destruct l as [|v l]; [done|].
    destruct (write_head v) as (c & s & Hs & Hws & Hb & _).
    { by apply andb_prop in Hwf as [? _]. }
    assert (∃ s', commas (map (write false) (v :: l)) = c :: s') as [s' Hc].
    { simpl. rewrite Hs. destruct (map (write false) l); eauto. }
    rewrite Hc at 1. simpl. rewrite Hws, decide_False by done.
    change (c :: s' ++ "]" :: r) with ((c :: s') ++ "]" :: r). rewrite <- Hc.
    rewrite read_elems_write; [done | done | done | done | lia].
  - change (write false (JObj l)) with ("{" :: commas (map (λ '(k, v), write_str false k ++ ":" :: write false v) l) ++ ["}"]) in *.
    assert (map (λ '(k, v), write_str false k ++ ":" :: write false v) l = map write_member l) as Hm.
    { apply map_ext. by intros []. }
    rewrite Hm in *. cbn [length] in Hf. rewrite length_app in Hf. simpl in Hf.
    apply andb_prop in Hwf as [Hnd Hwf]. apply bool_decide_eq_true in Hnd.
    cbn [app]. rewrite <- app_assoc.
    destruct l as [|[k v] l]; [done|].
    assert (∃ s', commas (map write_member ((k, v) :: l)) = dquote :: s') as [s' Hc].
    { simpl. destruct (map write_member l); eauto. }
    simpl read. rewrite Hc at 1. simpl.
    change (dquote :: s' ++ "}" :: r) with ((dquote :: s') ++ "}" :: r).
    rewrite <- Hc. rewrite read_members_write; [|done|done|done|lia].
    simpl. rewrite dset_foldl_fresh by done. done.
Qed.

(** Every well-formed value is read back from what is written. *)
Lemma loads_dumps_wf j : wf_json j = true → loads (dumps false j) = Some j.
Proof.
  intros Hwf. unfold loads, dumps. rewrite chars_of_chars.
  destruct (write_head j Hwf) as (c & s & Hs & Hws & _).
  assert (skip_ws (write false j) = write false j) as -> by (rewrite Hs; simpl; by rewrite Hws).
  pose proof (read_write j Hwf [] (2 * length (write false j) + 2)) as HR.
  rewrite app_nil_r in HR. rewrite HR; [done | done | lia].
Qed.

(** Equality is reflexive on well-formed values. *)
Lemma py_eq_refl j : wf_json j = true → py_eq j j = true.
Proof.
  induction j as [| b | n | lit | s | l IH | l IH] using json_ind'; intros Hwf; simpl;
    [done | apply eqb_reflx | by apply bool_decide_eq_true .. | |].
  - simpl in Hwf. induction IH as [|v l Hv Hl IHl]; [done|]. simpl in Hwf.
    apply andb_prop in Hwf as [H1 H2]. rewrite Hv by done. simpl. auto.
  - rewrite Nat.eqb_refl. simpl. simpl in Hwf. apply andb_prop in Hwf as [Hnd Hwf].
    apply bool_decide_eq_true in Hnd.
    assert (∀ k, k ∈ l → dget l k.1 = Some k.2) as Hget.
    { intros [k v] Hk. by apply dget_elem. }
    revert Hget. generalize l at 2 3 as d. intros d Hget. clear Hnd.
    induction IH as [|[k v] l Hv Hl IHl]; [done|]. simpl in Hwf.
    apply andb_prop in Hwf as [H1 H2]. pose proof (Hget (k, v) ltac:(left)) as E. simpl in E, Hv.
    rewrite E, Hv by done.
    simpl. apply IHl; [done|]. intros ? ?. apply Hget. by right.
Qed.
