(* ===== verification/PyValue.v ===== *)
(** * [str], [repr] and truth of JSON-like values, and [datetime.isoformat] *)

From Stdlib Require Import Ascii.
From Stdlib Require String.
From S2P Require Import Prelude PyData PyText Json.

(** ** [bool(v)] *)

(** A float literal denotes zero: its mantissa has no digit from 1 to 9. *)
Fixpoint zero_mantissa (l : list ascii) : bool :=
  match l with
  | [] => true
  | c :: l' =>
      if decide (c = "e"%char ∨ c = "E"%char) then true
      else if is_digit c && negb (bool_decide (c = "0"%char)) then false
      else zero_mantissa l'
  end.

Definition json_truthy (v : json) : bool :=
  match v with
  | JNull => false
  | JBool b => b
  | JInt n => negb (bool_decide (n = 0%Z))
  | JFloat lit => negb (zero_mantissa (chars lit))
  | JStr s => truthy s
  | JList l => negb (bool_decide (l = []))
  | JObj l => negb (bool_decide (l = []))
  end.

(** ** [repr(v)] and [str(v)] *)

Definition quote : ascii := "'"%char.

(** The escapes of [repr] of a [str]; characters from code point 128 on are
    printed as they are. *)
Definition repr_char (q c : ascii) : list ascii :=
  let n := code c in
  if decide (c = q ∨ c = backslash) then [backslash; c]
  else if (n =? 9)%N then [backslash; "t"%char]
  else if (n =? 10)%N then [backslash; "n"%char]
  else if (n =? 13)%N then [backslash; "r"%char]
  else if ((n <? 32) || (n =? 127))%N then backslash :: "x"%char :: hex 2 n
  else [c].

Definition repr_str (s : string) : string :=
  let l := chars s in
  let q := if bool_decide (quote ∈ l) && negb (bool_decide (dquote ∈ l)) then dquote else quote in
  of_chars (q :: (l ≫= repr_char q) ++ [q]).

Fixpoint py_repr (v : json) : string :=
  match v with
  | JNull => "None"
  | JBool true => "True"
  | JBool false => "False"
  | JInt n => str_Z n
  | JFloat lit => lit
  | JStr s => repr_str s
  | JList l => "[" +:+ join ", " (map py_repr l) +:+ "]"
  | JObj l =>
      "{" +:+ join ", " (map (λ '(k, x), repr_str k +:+ ": " +:+ py_repr x) l) +:+ "}"
  end.

Definition py_str (v : json) : string :=
  match v with JStr s => s | _ => py_repr v end.

Example py_str_ex :
  (py_str (JStr "v1"), py_str (JList [JStr "a'b"; JInt 3; JBool true]), py_str (JObj [("k", JNull)])) =
  ("v1", "[" +:+ of_chars [dquote] +:+ "a'b" +:+ of_chars [dquote] +:+ ", 3, True]", "{'k': None}").
Proof. vm_compute. reflexivity. Qed.

(** ** [t.isoformat()] of a UTC [datetime], in microseconds since the epoch *)

(** [d.get(k)] *)
Definition jget (d : list (string * json)) (k : string) : json := default JNull (dget d k).

(** [a or b] *)
Definition or_json (a b : json) : json := if json_truthy a then a else b.

#[local] Open Scope Z_scope.

(** Year, month and day of a day number since 1970-01-01 (proleptic Gregorian). *)
Definition civil (days : Z) : Z * Z * Z :=
  let z := days + 719468 in
  let era := z / 146097 in
  let doe := z mod 146097 in
  let yoe := (doe - doe / 1460 + doe / 36524 - doe / 146096) / 365 in
  let doy := doe - (365 * yoe + yoe / 4 - yoe / 100) in
  let mp := (5 * doy + 2) / 153 in
  let d := doy - (153 * mp + 2) / 5 + 1 in
  let m := if decide (mp < 10) then mp + 3 else mp - 9 in
  (yoe + era * 400 + (if decide (m ≤ 2) then 1 else 0), m, d).

Definition isoformat (t : Z) : string :=
  let us := t mod 1000000 in
  let s := t / 1000000 in
  let '(y, m, d) := civil (s / 86400) in
  let r := s mod 86400 in
  zpad 4 (str_Z y) +:+ "-" +:+ zpad 2 (str_Z m) +:+ "-" +:+ zpad 2 (str_Z d) +:+ "T" +:+
  zpad 2 (str_Z (r / 3600)) +:+ ":" +:+ zpad 2 (str_Z (r / 60 mod 60)) +:+ ":" +:+
  zpad 2 (str_Z (r mod 60)) +:+
  (if decide (us = 0) then "" else "." +:+ zpad 6 (str_Z us)) +:+ "+00:00".

Example isoformat_ex :
  (isoformat 0, isoformat 1783728000000123, isoformat 951782400000000) =
  ("1970-01-01T00:00:00+00:00", "2026-07-11T00:00:00.000123+00:00", "2000-02-29T00:00:00+00:00").
Proof. vm_compute. reflexivity. Qed.
