(* ===== verification/Sha256.v ===== *)
(** * [hashlib.sha256] and [hashlib.pbkdf2_hmac]

    The hash functions of the standard library the code relies on, written on
    32-bit words ([N] below [2^32]), with the test vectors of FIPS 180-4 and
    published vectors of PBKDF2-HMAC-SHA256.  The properties use their lengths and
    their determinism only. *)

From Stdlib Require Import Ascii.
From S2P Require Import Prelude PyText.

#[local] Open Scope N_scope.

Definition w32 (n : N) : N := N.land n 0xffffffff.
Definition add32 (a b : N) : N := w32 (a + b).
Definition rotr (k n : N) : N := N.lor (N.shiftr n k) (w32 (N.shiftl n (32 - k))).

Definition Ch (x y z : N) : N := N.lxor (N.land x y) (N.land (N.lxor x 0xffffffff) z).
Definition Maj (x y z : N) : N := N.lxor (N.lxor (N.land x y) (N.land x z)) (N.land y z).
Definition Sigma0 (x : N) : N := N.lxor (N.lxor (rotr 2 x) (rotr 13 x)) (rotr 22 x).
Definition Sigma1 (x : N) : N := N.lxor (N.lxor (rotr 6 x) (rotr 11 x)) (rotr 25 x).
Definition sigma0 (x : N) : N := N.lxor (N.lxor (rotr 7 x) (rotr 18 x)) (N.shiftr x 3).
Definition sigma1 (x : N) : N := N.lxor (N.lxor (rotr 17 x) (rotr 19 x)) (N.shiftr x 10).

(** The constants are the first 32 bits of the fractional parts of the roots of
    the first primes.  [iroot k n] is the integer part of the [k]th root of [n],
    found bit by bit. *)
Definition iroot (k n : N) : N :=
  foldl (λ r i, let c := r + 2 ^ i in if c ^ k <=? n then c else r) 0
    (reverse (map N.of_nat (seq 0 40))).

Definition is_prime (n : nat) : bool :=
  (1 <? n)%nat && forallb (λ d, negb (Nat.modulo n d =? 0)%nat) (seq 2 (n - 2)).

Definition first_primes (count : nat) : list N :=
  map N.of_nat (take count (filter (λ n, is_prime n = true) (seq 0 320))).

Definition root_bits (k p : N) : N := w32 (iroot k (p * 2 ^ (32 * k))).

Definition K256 : list N := Eval vm_compute in map (root_bits 3) (first_primes 64).

Record state := St { sa : N; sb : N; sc : N; sd : N; se : N; sf : N; sg : N; sh : N }.

Definition init : state := Eval vm_compute in
  match map (root_bits 2) (first_primes 8) with
  | [a; b; c; d; e; f; g; h] => St a b c d e f g h
  | _ => St 0 0 0 0 0 0 0 0
  end.

(** The message schedule, the last word first. *)
Fixpoint expand (n : nat) (ws : list N) : list N :=
  match n with
  | O => ws
  | S n' =>
      let w := add32 (add32 (sigma1 (nth 1 ws 0)) (nth 6 ws 0))
                     (add32 (sigma0 (nth 14 ws 0)) (nth 15 ws 0)) in
      expand n' (w :: ws)
  end.

Definition round (s : state) (kw : N * N) : state :=
  let t1 := w32 (sh s + Sigma1 (se s) + Ch (se s) (sf s) (sg s) + kw.1 + kw.2) in
  let t2 := add32 (Sigma0 (sa s)) (Maj (sa s) (sb s) (sc s)) in
  St (add32 t1 t2) (sa s) (sb s) (sc s) (add32 (sd s) t1) (se s) (sf s) (sg s).

Definition block (s : state) (ws : list N) : state :=
  let r := foldl round s (zip K256 (reverse (expand 48 (reverse ws)))) in
  St (add32 (sa s) (sa r)) (add32 (sb s) (sb r)) (add32 (sc s) (sc r)) (add32 (sd s) (sd r))
     (add32 (se s) (se r)) (add32 (sf s) (sf r)) (add32 (sg s) (sg r)) (add32 (sh s) (sh r)).

Fixpoint words (l : list N) : list N :=
  match l with
  | a :: b :: c :: d :: l' => (a * 0x1000000 + b * 0x10000 + c * 0x100 + d) :: words l'
  | _ => []
  end.

Fixpoint blocks (n : nat) (s : state) (ws : list N) : state :=
  match n with
  | O => s
  | S n' => blocks n' (block s (take 16 ws)) (drop 16 ws)
  end.

Definition be64 (n : N) : list N :=
  map (λ k, N.land (N.shiftr n (8 * k)) 255) [7; 6; 5; 4; 3; 2; 1; 0].

Definition pad (bs : list N) : list N :=
  let len := length bs in
  let zeros := Nat.modulo (119 - Nat.modulo len 64)%nat 64 in
  bs ++ [128] ++ replicate zeros 0 ++ be64 (8 * N.of_nat len).

Definition hexdigest_chars (s : state) : list ascii :=
  concat (map (hex 8) [sa s; sb s; sc s; sd s; se s; sf s; sg s; sh s]).

(** The state after all blocks of the padded message. *)
Definition final (bs : list N) : state :=
  let p := pad bs in blocks (Nat.div (length p) 64) init (words p).

(** [hashlib.sha256(data).hexdigest()] *)
Definition sha256 (data : string) : string :=
  of_chars (hexdigest_chars (final (map code (chars data)))).

Example sha256_abc :
  sha256 "abc" = "ba7816bf8f01cfea414140de5dae2223b00361a396177a9cb410ff61f20015ad".
Proof. vm_compute. reflexivity. Qed.
Example sha256_empty :
  sha256 "" = "e3b0c44298fc1c149afbf4c8996fb92427ae41e4649b934ca495991b7852b855".
Proof. vm_compute. reflexivity. Qed.
Example sha256_two_blocks :
  sha256 "abcdbcdecdefdefgefghfghighijhijkijkljklmklmnlmnomnopnopq" =
  "248d6a61d20638b8e5c026930c3e6039a33ce45964ff2167f6ecedd419db06c1".
Proof. vm_compute. reflexivity. Qed.

Lemma sha256_length d : String.length (sha256 d) = 64%nat.
Proof.
  unfold sha256. rewrite <- chars_length, chars_of_chars. unfold hexdigest_chars.
  cbn [map concat]. by rewrite !length_app, !hex_length.
Qed.

Lemma sha256_truthy d : truthy (sha256 d) = true.
Proof.
  pose proof (sha256_length d) as H. unfold truthy. apply negb_true_iff, bool_decide_eq_false.
  intros E. by rewrite E in H.
Qed.

(** ** [hashlib.pbkdf2_hmac("sha256", ...)] for one block of output *)

Definition be32 (n : N) : list N := map (λ k, N.land (N.shiftr n (8 * k)) 255) [3; 2; 1; 0].

(** [hashlib.sha256(data).digest()], on bytes *)
Definition digest (bs : list N) : list N :=
  let s := final bs in
  concat (map be32 [sa s; sb s; sc s; sd s; se s; sf s; sg s; sh s]).

Definition hmac (key msg : list N) : list N :=
  let key := if (64 <? length key)%nat then digest key else key in
  let key := key ++ replicate (64 - length key) 0 in
  digest (map (N.lxor 0x5c) key ++ digest (map (N.lxor 0x36) key ++ msg)).

(** [hashlib.pbkdf2_hmac("sha256", password, salt, iterations, dklen=32)] *)
Definition pbkdf2_hmac (password salt : string) (iterations : N) : string :=
  let password := map code (chars password) in
  let u := hmac password (map code (chars salt) ++ be32 1) in
  let step := λ '(u, t), let u := hmac password u in (u, zip_with N.lxor t u) in
  of_chars (map ascii_of_N (N.iter (iterations - 1) step (u, u)).2).

Definition hexdigits (bytes : string) : string :=
  of_chars (concat (map (λ c, hex 2 (code c)) (chars bytes))).

Example pbkdf2_vectors :
  hexdigits (pbkdf2_hmac "password" "salt" 1) =
  "120fb6cffcf8b32c43e7225256c4f837a86548c92ccc35480805987cb70be17b" ∧
  hexdigits (pbkdf2_hmac "password" "salt" 2) =
  "ae4d0c95af6b46d32d0adff928f06dd02a303f8ef3c251dfd6e2d85a95474c43".
Proof. split; vm_compute; reflexivity. Qed.
