(* ===== verification/Status.v ===== *)
(** * Status codes, the exception hierarchy and the API envelope

    Models [shared/internal_status_codes.py], [shared/errors.py],
    [shared/api.py] and [application/exceptions.py], with the classes of the
    standard library the code raises or catches.

    An exception class is a value of [cls]; [base] is the class statement's
    base, so that [isinstance] and the lookup of a class attribute follow the
    method resolution order.  A class of another package is [Foreign name]. *)

From S2P Require Import Prelude PyData PyText Json.

(** ** [InternalStatusCode] *)

Inductive InternalStatusCode :=
  | SUCCESS
  | COMMON_INVALID_ARGUMENT
  | COMMON_RESOURCE_NOT_FOUND
  | COMMON_STATE_CONFLICT
  | COMMON_IDEMPOTENCY_CONFLICT
  | UPLOAD_NOT_FOUND
  | UPLOAD_NOT_COMPLETED
  | UPLOAD_HASH_MISMATCH
  | UPLOAD_UNSUPPORTED_FILE_TYPE
  | UPLOAD_FILE_TOO_LARGE
  | UPLOAD_SECURITY_REJECTED
  | JOB_NOT_FOUND
  | JOB_NOT_CANCELLABLE
  | JOB_NOT_RETRYABLE
  | JOB_PROCESSING_FAILED
  | JOB_RESULT_NOT_READY
  | USER_UNAUTHORIZED
  | API_KEY_REVOKED
  | API_KEY_RATE_LIMITED
  | ENGINE_UNAVAILABLE
  | ENGINE_TIMEOUT
  | STORAGE_UNAVAILABLE
  | QUEUE_UNAVAILABLE
  | DATABASE_UNAVAILABLE
  | INTERNAL_CONTROLLED_ERROR
  | TRANSPORT_INTERNAL_ERROR
  | TRANSPORT_BAD_GATEWAY
  | TRANSPORT_GATEWAY_TIMEOUT.

#[export] Instance InternalStatusCode_eq_dec : EqDecision InternalStatusCode.
Proof. solve_decision. Defined.

(** [int(code)] *)
Definition code_value (c : InternalStatusCode) : Z :=
  match c with
  | SUCCESS => 0
  | COMMON_INVALID_ARGUMENT => 10001
  | COMMON_RESOURCE_NOT_FOUND => 10002
  | COMMON_STATE_CONFLICT => 10003
  | COMMON_IDEMPOTENCY_CONFLICT => 10004
  | UPLOAD_NOT_FOUND => 20001
  | UPLOAD_NOT_COMPLETED => 20002
  | UPLOAD_HASH_MISMATCH => 20003
  | UPLOAD_UNSUPPORTED_FILE_TYPE => 20004
  | UPLOAD_FILE_TOO_LARGE => 20005
  | UPLOAD_SECURITY_REJECTED => 20006
  | JOB_NOT_FOUND => 30001
  | JOB_NOT_CANCELLABLE => 30002
  | JOB_NOT_RETRYABLE => 30003
  | JOB_PROCESSING_FAILED => 30004
  | JOB_RESULT_NOT_READY => 30005
  | USER_UNAUTHORIZED => 40001
  | API_KEY_REVOKED => 40002
  | API_KEY_RATE_LIMITED => 40003
  | ENGINE_UNAVAILABLE => 50001
  | ENGINE_TIMEOUT => 50002
  | STORAGE_UNAVAILABLE => 50003
  | QUEUE_UNAVAILABLE => 50004
  | DATABASE_UNAVAILABLE => 50005
  | INTERNAL_CONTROLLED_ERROR => 59999
  | TRANSPORT_INTERNAL_ERROR => 90000
  | TRANSPORT_BAD_GATEWAY => 90002
  | TRANSPORT_GATEWAY_TIMEOUT => 90004
  end.

#[export] Instance code_value_inj : Inj (=) (=) code_value.
Proof. intros [] []; simpl; congruence. Qed.

(** [code.name] *)
Definition code_name (c : InternalStatusCode) : string :=
  match c with
  | SUCCESS => "SUCCESS"
  | COMMON_INVALID_ARGUMENT => "COMMON_INVALID_ARGUMENT"
  | COMMON_RESOURCE_NOT_FOUND => "COMMON_RESOURCE_NOT_FOUND"
  | COMMON_STATE_CONFLICT => "COMMON_STATE_CONFLICT"
  | COMMON_IDEMPOTENCY_CONFLICT => "COMMON_IDEMPOTENCY_CONFLICT"
  | UPLOAD_NOT_FOUND => "UPLOAD_NOT_FOUND"
  | UPLOAD_NOT_COMPLETED => "UPLOAD_NOT_COMPLETED"
  | UPLOAD_HASH_MISMATCH => "UPLOAD_HASH_MISMATCH"
  | UPLOAD_UNSUPPORTED_FILE_TYPE => "UPLOAD_UNSUPPORTED_FILE_TYPE"
  | UPLOAD_FILE_TOO_LARGE => "UPLOAD_FILE_TOO_LARGE"
  | UPLOAD_SECURITY_REJECTED => "UPLOAD_SECURITY_REJECTED"
  | JOB_NOT_FOUND => "JOB_NOT_FOUND"
  | JOB_NOT_CANCELLABLE => "JOB_NOT_CANCELLABLE"
  | JOB_NOT_RETRYABLE => "JOB_NOT_RETRYABLE"
  | JOB_PROCESSING_FAILED => "JOB_PROCESSING_FAILED"
  | JOB_RESULT_NOT_READY => "JOB_RESULT_NOT_READY"
  | USER_UNAUTHORIZED => "USER_UNAUTHORIZED"
  | API_KEY_REVOKED => "API_KEY_REVOKED"
  | API_KEY_RATE_LIMITED => "API_KEY_RATE_LIMITED"
  | ENGINE_UNAVAILABLE => "ENGINE_UNAVAILABLE"
  | ENGINE_TIMEOUT => "ENGINE_TIMEOUT"
  | STORAGE_UNAVAILABLE => "STORAGE_UNAVAILABLE"
  | QUEUE_UNAVAILABLE => "QUEUE_UNAVAILABLE"
  | DATABASE_UNAVAILABLE => "DATABASE_UNAVAILABLE"
  | INTERNAL_CONTROLLED_ERROR => "INTERNAL_CONTROLLED_ERROR"
  | TRANSPORT_INTERNAL_ERROR => "TRANSPORT_INTERNAL_ERROR"
  | TRANSPORT_BAD_GATEWAY => "TRANSPORT_BAD_GATEWAY"
  | TRANSPORT_GATEWAY_TIMEOUT => "TRANSPORT_GATEWAY_TIMEOUT"
  end.

(** ** Exception classes *)

Inductive cls :=
  (* the standard library *)
  | BaseException | CancelledError | Exception_
  | RuntimeError | ValueError | TypeError | AssertionError | AttributeError | UnboundLocalError
  | LookupError | KeyError | IndexError
  | OSError | FileNotFoundError | TimeoutError
  | JSONDecodeError
  (* shared/errors.py *)
  | BusinessError
  (* application/exceptions.py *)
  | DependencyError
  | DatabaseUnavailableError
  | StorageUnavailableError
  | QueueUnavailableError
  | EngineError
  | TransientEngineError
  | EngineUnavailableError
  | EngineTimeoutError
  | EngineProtocolError
  | PreprocessingError
  | ConcurrentJobUpdateError
  | DuplicateIdempotencyKeyError
  (* classes of other packages, all derived from [Exception] *)
  | Foreign (name : string).

#[export] Instance cls_eq_dec : EqDecision cls.
Proof. solve_decision. Defined.

Definition base (c : cls) : option cls :=
  match c with
  | BaseException => None
  | CancelledError | Exception_ => Some BaseException
  | RuntimeError | ValueError | TypeError | AssertionError | AttributeError
  | UnboundLocalError | LookupError | OSError | BusinessError | Foreign _ => Some Exception_
  | KeyError | IndexError => Some LookupError
  | FileNotFoundError | TimeoutError => Some OSError
  | JSONDecodeError => Some ValueError
  | DependencyError | PreprocessingError
  | ConcurrentJobUpdateError | DuplicateIdempotencyKeyError => Some RuntimeError
  | DatabaseUnavailableError | StorageUnavailableError
  | QueueUnavailableError | EngineError => Some DependencyError
  | TransientEngineError | EngineProtocolError => Some EngineError
  | EngineUnavailableError | EngineTimeoutError => Some TransientEngineError
  end.

(** The method resolution order; 8 exceeds the depth of the hierarchy
    ([mro_complete]). *)
Fixpoint mro_fuel (n : nat) (c : cls) : list cls :=
  match n with
  | 0 => []
  | S n => c :: match base c with Some b => mro_fuel n b | None => [] end
  end.
Definition mro (c : cls) : list cls := mro_fuel 8 c.

Lemma mro_complete c n : 8 ≤ n → mro_fuel n c = mro c.
Proof.
  intros Hn. do 8 (destruct n as [|n]; [lia|]). unfold mro.
  by destruct c; simpl; destruct n.
Qed.

Definition issubclass (c d : cls) : bool := bool_decide (d ∈ mro c).

(** ** Exceptions *)

Record exc := Exc {
  exc_cls : cls;
  exc_msg : string;
  (* the attributes of a [BusinessError] *)
  exc_business : option (InternalStatusCode * string * option json)
}.

(** [Cls(msg)] *)
Definition mk_exc (c : cls) (msg : string) : exc := Exc c msg None.

(** [BusinessError(code, message, reason, data=data)] *)
Definition business_error (code : InternalStatusCode) (message reason : string)
    (data : option json) : exc :=
  Exc BusinessError message (Some (code, reason, data)).

Definition isinstance (e : exc) (c : cls) : bool := issubclass (exc_cls e) c.

(** [except (c1, c2, ...)] *)
Definition isinstance_any (e : exc) (cs : list cls) : bool := existsb (isinstance e) cs.

(** [type(e).__name__] *)
Definition cls_name (c : cls) : string :=
  match c with
  | BaseException => "BaseException"
  | CancelledError => "CancelledError"
  | Exception_ => "Exception"
  | RuntimeError => "RuntimeError"
  | ValueError => "ValueError"
  | TypeError => "TypeError"
  | AssertionError => "AssertionError"
  | AttributeError => "AttributeError"
  | UnboundLocalError => "UnboundLocalError"
  | LookupError => "LookupError"
  | KeyError => "KeyError"
  | IndexError => "IndexError"
  | OSError => "OSError"
  | FileNotFoundError => "FileNotFoundError"
  | TimeoutError => "TimeoutError"
  | JSONDecodeError => "JSONDecodeError"
  | BusinessError => "BusinessError"
  | DependencyError => "DependencyError"
  | DatabaseUnavailableError => "DatabaseUnavailableError"
  | StorageUnavailableError => "StorageUnavailableError"
  | QueueUnavailableError => "QueueUnavailableError"
  | EngineError => "EngineError"
  | TransientEngineError => "TransientEngineError"
  | EngineUnavailableError => "EngineUnavailableError"
  | EngineTimeoutError => "EngineTimeoutError"
  | EngineProtocolError => "EngineProtocolError"
  | PreprocessingError => "PreprocessingError"
  | ConcurrentJobUpdateError => "ConcurrentJobUpdateError"
  | DuplicateIdempotencyKeyError => "DuplicateIdempotencyKeyError"
  | Foreign name => name
  end.

(** *** The class attributes of the [DependencyError] family *)

(** What the class body itself assigns; [None]: inherited. *)
Definition own_internal_code (c : cls) : option InternalStatusCode :=
  match c with
  | DependencyError => Some INTERNAL_CONTROLLED_ERROR
  | DatabaseUnavailableError => Some DATABASE_UNAVAILABLE
  | StorageUnavailableError => Some STORAGE_UNAVAILABLE
  | QueueUnavailableError => Some QUEUE_UNAVAILABLE
  | EngineError => Some ENGINE_UNAVAILABLE
  | EngineTimeoutError => Some ENGINE_TIMEOUT
  | _ => None
  end.

Definition own_error_reason (c : cls) : option string :=
  match c with
  | DependencyError => Some "dependency_unavailable"
  | DatabaseUnavailableError => Some "database_unavailable"
  | StorageUnavailableError => Some "storage_unavailable"
  | QueueUnavailableError => Some "queue_unavailable"
  | EngineError => Some "engine_unavailable"
  | EngineTimeoutError => Some "engine_timeout"
  | EngineProtocolError => Some "engine_protocol_error"
  | _ => None
  end.

Definition own_public_message (c : cls) : option string :=
  match c with
  | DependencyError => Some "依赖服务暂时不可用"
  | DatabaseUnavailableError => Some "数据库暂时不可用"
  | StorageUnavailableError => Some "对象存储暂时不可用"
  | QueueUnavailableError => Some "消息队列暂时不可用"
  | EngineError => Some "OCR 引擎暂时不可用"
  | EngineTimeoutError => Some "OCR 引擎响应超时"
  | _ => None
  end.

(** Attribute lookup along the method resolution order. *)
Definition class_attr {A} (own : cls → option A) (c : cls) : option A :=
  head (omap own (mro c)).

Definition internal_code (e : exc) : option InternalStatusCode := class_attr own_internal_code (exc_cls e).
Definition error_reason (e : exc) : option string := class_attr own_error_reason (exc_cls e).
Definition public_message (e : exc) : option string := class_attr own_public_message (exc_cls e).

(** ** [ApiEnvelope] *)

Section ApiEnvelope.
Context {T : Type}.

Record ApiEnvelope := MkApiEnvelope {
  env_internal_code : InternalStatusCode;
  env_message : string;
  env_data : option T;
  env_timestamp : Z;
  env_request_id : string;
  env_error_reason : option string
}.

(** The field constraints and [validate_success_failure_semantics]. *)
Definition validate_envelope (e : ApiEnvelope) : exc + ApiEnvelope :=
  if negb (truthy (env_message e) && truthy (env_request_id e))
  then inl (mk_exc ValueError "string_too_short")
  else if decide (env_internal_code e = SUCCESS) then
    match env_error_reason e with
    | Some _ => inl (mk_exc ValueError "successful envelope cannot have error_reason")
    | None => inr e
    end
  else if truthy_opt (env_error_reason e) then inr e
  else inl (mk_exc ValueError "failed envelope requires error_reason").

(** [ApiEnvelope.success]; [now] is the default factory of [timestamp]. *)
Definition envelope_success (now : Z) (data : T) (request_id message : string) :
    exc + ApiEnvelope :=
  validate_envelope (MkApiEnvelope SUCCESS message (Some data) now request_id None).

Definition envelope_failure (now : Z) (code : InternalStatusCode)
    (message request_id reason : string) (data : option T) : exc + ApiEnvelope :=
  validate_envelope (MkApiEnvelope code message data now request_id (Some reason)).
End ApiEnvelope.
Arguments ApiEnvelope T : clear implicits.

(** ** Facts *)

Lemma issubclass_refl c : issubclass c c = true.
Proof. apply bool_decide_eq_true. unfold mro. simpl. left. Qed.

Lemma issubclass_trans c d e :
  issubclass c d = true → issubclass d e = true → issubclass c e = true.
Proof.
  unfold issubclass. rewrite !bool_decide_eq_true.
  destruct c; cbv [mro mro_fuel base]; intros Hd He;
    repeat (apply elem_of_cons in Hd as [->|Hd]; [cbv [mro mro_fuel base] in He; set_solver|]);
    by apply not_elem_of_nil in Hd.
Qed.

(** [isinstance(e, DependencyError)] decides whether the attributes exist. *)
Lemma dependency_attrs e :
  isinstance e DependencyError = true →
  ∃ code reason msg,
    internal_code e = Some code ∧ error_reason e = Some reason ∧
    public_message e = Some msg ∧
    code ≠ SUCCESS ∧ truthy reason = true ∧ truthy msg = true.
Proof.
  unfold isinstance, internal_code, error_reason, public_message.
  destruct (exc_cls e); intros H; try (vm_compute in H; discriminate H);
    do 3 eexists; split_and!; (reflexivity || discriminate).
Qed.
