(* ===== verification/Progress.v ===== *)
(** * [round(completed / total, 4)] on binary64 floats

    A progress value is the double nearest to [k / 10000] and is represented by
    the integer [k] (ten-thousandths).  [fdiv] is Python's correctly rounded
    quotient of two integers (53-bit significand, ties to even), [round4] rounds
    the exact value of that double to four decimals, ties to even. *)

From Stdlib Require Import Ascii.
From S2P Require Import Prelude PyText Json.

#[local] Open Scope Z_scope.

(** The integer nearest to [a / b], ties to even. *)
Definition div_half_even (a b : Z) : Z :=
  let q := a / b in
  match 2 * (a mod b) ?= b with
  | Lt => q
  | Gt => q + 1
  | Eq => if Z.even q then q else q + 1
  end.

(** The binary exponent for which [c * 2^s / n] has 53 bits. *)
Definition fdiv_scale (c n : Z) : Z :=
  let s0 := 55 + Z.log2 n - Z.log2 c in
  s0 - (Z.log2 (c * 2 ^ s0 / n) - 52).

(** [c / n] for [0 < c <= n]: the double is [m * 2^-s]. *)
Definition fdiv (c n : Z) : Z * Z :=
  let s := fdiv_scale c n in (div_half_even (c * 2 ^ s) n, s).

(** [round(x, 4)] of the double [m * 2^-s], in ten-thousandths. *)
Definition round4 (x : Z * Z) : Z := let '(m, s) := x in div_half_even (m * 10000) (2 ^ s).

Definition ratio4 (c n : Z) : Z := if decide (c = 0) then 0 else round4 (fdiv c n).

Fixpoint drop_zeros (l : list ascii) : list ascii :=
  match l with
  | c :: l' => if decide (c = "0"%char) then drop_zeros l' else l
  | [] => []
  end.

(** [repr] of the double nearest to [k / 10000], [0 <= k <= 10000]. *)
Definition repr4 (k : Z) : string :=
  let kept := reverse (drop_zeros (reverse (chars (zpad 4 (str_Z (k mod 10000)))))) in
  str_Z (k / 10000) +:+ "." +:+ of_chars (match kept with [] => ["0"%char] | _ => kept end).

Example ratio4_ex :
  (ratio4 1 3, ratio4 1 2, ratio4 3 3, ratio4 1 32, ratio4 3 32, ratio4 1 160) =
  (3333, 5000, 10000, 312, 938, 63).
Proof. vm_compute. reflexivity. Qed.
Example repr4_ex : map repr4 [0; 10000; 3333; 2500; 1; 5000] = ["0.0"; "1.0"; "0.3333"; "0.25"; "0.0001"; "0.5"].
Proof. vm_compute. reflexivity. Qed.

(** ** Bounds *)

Lemma div_half_even_near a b : 0 < b → Z.abs (2 * (b * div_half_even a b - a)) ≤ b.
Proof.
  intros Hb. unfold div_half_even. pose proof (Z.div_mod a b). pose proof (Z.mod_pos_bound a b).
  destruct (Z.compare_spec (2 * (a mod b)) b); [destruct (Z.even _)| |]; lia.
Qed.

Lemma div_half_even_upper a b k : 0 < b → a ≤ k * b → div_half_even a b ≤ k.
Proof. intros Hb Ha. pose proof (div_half_even_near a b Hb). nia. Qed.

Lemma div_half_even_lower a b k : 0 < b → k * b ≤ a → k ≤ div_half_even a b.
Proof. intros Hb Ha. pose proof (div_half_even_near a b Hb). nia. Qed.

Lemma fdiv_scale_ge c n : 0 < c ≤ n → 52 ≤ fdiv_scale c n.
Proof.
  intros Hc. unfold fdiv_scale.
  set (s0 := 55 + Z.log2 n - Z.log2 c).
  assert (Z.log2 c ≤ Z.log2 n) by (apply Z.log2_le_mono; lia).
  assert (Z.log2 (c * 2 ^ s0 / n) ≤ s0); [|lia].
  transitivity (Z.log2 (2 ^ s0)); [|rewrite Z.log2_pow2; lia].
  apply Z.log2_le_mono, Z.div_le_upper_bound; [lia|].
  apply Z.mul_le_mono_nonneg_r; [apply Z.pow_nonneg; lia | lia].
Qed.

(** [ratio4] is the real quotient rounded to the nearest ten-thousandth. *)
Lemma ratio4_near c n : 0 ≤ c ≤ n → 0 < n < 2 ^ 32 →
  Z.abs (2 * (n * ratio4 c n - 10000 * c)) ≤ n.
Proof.
  intros Hc Hn. unfold ratio4. case_decide; [subst; lia|].
  unfold fdiv, round4. pose proof (fdiv_scale_ge c n ltac:(lia)) as Hs.
  set (s := fdiv_scale c n) in *.
  assert (2 ^ 52 ≤ 2 ^ s) as Hp by (apply Z.pow_le_mono_r; lia).
  pose proof (div_half_even_near (c * 2 ^ s) n ltac:(lia)) as H1.
  set (m := div_half_even (c * 2 ^ s) n) in *.
  pose proof (div_half_even_near (m * 10000) (2 ^ s) ltac:(lia)) as H2.
  set (k := div_half_even (m * 10000) (2 ^ s)) in *.
  set (p := 2 ^ s) in *. clearbody m k p s.
  assert (2 ^ 32 = 4294967296) as E1 by done. rewrite E1 in Hn.
  assert (2 ^ 52 = 4503599627370496) as E2 by done. rewrite E2 in Hp.
  assert (Z.abs (2 * (n * k - 10000 * c)) * p ≤ n * p + 10000 * n); [|nia].
  rewrite <- (Z.abs_eq p) at 1 by lia. rewrite <- Z.abs_mul. nia.
Qed.

Lemma ratio4_bounds c n : 0 ≤ c ≤ n → 0 < n < 2 ^ 32 → 0 ≤ ratio4 c n ≤ 10000.
Proof. intros Hc Hn. pose proof (ratio4_near c n Hc Hn). nia. Qed.

Lemma ratio4_full c n : 0 ≤ c ≤ n → 0 < n < 20000 → ratio4 c n = 10000 ↔ c = n.
Proof.
  intros Hc Hn. pose proof (ratio4_near c n Hc ltac:(lia)). split; intros; nia.
Qed.

Lemma ratio4_mono c c' n : 0 ≤ c ≤ c' → c' ≤ n → 0 < n < 10000 → c < c' → ratio4 c n < ratio4 c' n.
Proof.
  intros Hc Hc' Hn Hlt. pose proof (ratio4_near c n ltac:(lia) ltac:(lia)).
  pose proof (ratio4_near c' n ltac:(lia) ltac:(lia)). nia.
Qed.
