(* ===== verification/Domain.v ===== *)
(** * The domain model: uploads, pages, artifacts, jobs and job events

    Models [contexts/ocr/domain/models.py].  An entity is a record; a method
    that mutates [self] is a function to the updated record, and one that may
    raise returns [exc + t].  A method takes one [datetime] per call of
    [utc_now()] it makes, in the order of the calls.  Setters [with_<field>]
    stand for the assignments [self.<field> = v].

    [progress] is in ten-thousandths ([Progress.ratio4]). *)

From S2P Require Import Prelude PyData PyText Json Status Progress.

#[local] Open Scope Z_scope.

(** Microseconds since the epoch. *)
Abbreviation datetime := Z.

Abbreviation dict := (list (string * json)).

Inductive UploadState := UploadState_UPLOADING | UploadState_COMPLETED | UploadState_REJECTED.

Inductive JobState :=
  | QUEUED | PREPROCESSING | RUNNING | ASSEMBLING | CANCEL_REQUESTED
  | CANCELLED | RETRYING | SUCCEEDED | FAILED.

Inductive PageState := Page_PENDING | Page_RUNNING | Page_SUCCEEDED | Page_FAILED.

Inductive ArtifactKind := MARKDOWN | JSON | PAGE_IMAGE | VISUALIZATION | MANIFEST.

#[export] Instance UploadState_eq_dec : EqDecision UploadState.
Proof. solve_decision. Defined.
#[export] Instance JobState_eq_dec : EqDecision JobState.
Proof. solve_decision. Defined.
#[export] Instance PageState_eq_dec : EqDecision PageState.
Proof. solve_decision. Defined.
#[export] Instance ArtifactKind_eq_dec : EqDecision ArtifactKind.
Proof. solve_decision. Defined.

(** The values of the [StrEnum]s, which are also what [str] and [f"{...}"] print. *)
Definition job_state_str (s : JobState) : string :=
  match s with
  | QUEUED => "queued"
  | PREPROCESSING => "preprocessing"
  | RUNNING => "running"
  | ASSEMBLING => "assembling"
  | CANCEL_REQUESTED => "cancel_requested"
  | CANCELLED => "cancelled"
  | RETRYING => "retrying"
  | SUCCEEDED => "succeeded"
  | FAILED => "failed"
  end.

Definition artifact_kind_str (k : ArtifactKind) : string :=
  match k with
  | MARKDOWN => "markdown"
  | JSON => "json"
  | PAGE_IMAGE => "page_image"
  | VISUALIZATION => "visualization"
  | MANIFEST => "manifest"
  end.

Definition upload_state_str (s : UploadState) : string :=
  match s with
  | UploadState_UPLOADING => "uploading"
  | UploadState_COMPLETED => "completed"
  | UploadState_REJECTED => "rejected"
  end.

Definition page_state_str (s : PageState) : string :=
  match s with
  | Page_PENDING => "pending"
  | Page_RUNNING => "running"
  | Page_SUCCEEDED => "succeeded"
  | Page_FAILED => "failed"
  end.

Module Upload.

Record t := Mk {
  owner_id : string;
  filename : string;
  size_bytes : Z;
  content_type : string;
  sha256 : string;
  object_key : string;
  id : UUID;
  state : UploadState;
  created_at : datetime;
  completed_at : option datetime;
  detected_content_type : option string;
  multipart_upload_id : option string
}.

Definition with_state (v : UploadState) (u : t) : t :=
  {| owner_id := owner_id u; filename := filename u; size_bytes := size_bytes u;
     content_type := content_type u; sha256 := sha256 u; object_key := object_key u;
     id := id u; state := v; created_at := created_at u; completed_at := completed_at u;
     detected_content_type := detected_content_type u;
     multipart_upload_id := multipart_upload_id u |}.
Definition with_completed_at (v : option datetime) (u : t) : t :=
  {| owner_id := owner_id u; filename := filename u; size_bytes := size_bytes u;
     content_type := content_type u; sha256 := sha256 u; object_key := object_key u;
     id := id u; state := state u; created_at := created_at u; completed_at := v;
     detected_content_type := detected_content_type u;
     multipart_upload_id := multipart_upload_id u |}.
Definition with_detected_content_type (v : option string) (u : t) : t :=
  {| owner_id := owner_id u; filename := filename u; size_bytes := size_bytes u;
     content_type := content_type u; sha256 := sha256 u; object_key := object_key u;
     id := id u; state := state u; created_at := created_at u; completed_at := completed_at u;
     detected_content_type := v; multipart_upload_id := multipart_upload_id u |}.
Definition with_multipart_upload_id (v : option string) (u : t) : t :=
  {| owner_id := owner_id u; filename := filename u; size_bytes := size_bytes u;
     content_type := content_type u; sha256 := sha256 u; object_key := object_key u;
     id := id u; state := state u; created_at := created_at u; completed_at := completed_at u;
     detected_content_type := detected_content_type u; multipart_upload_id := v |}.

Definition complete (detected_content_type : string) (now : datetime) (self : t) : exc + t :=
  if decide (state self = UploadState_UPLOADING) then
    let self := with_state UploadState_COMPLETED self in
    let self := with_detected_content_type (Some detected_content_type) self in
    inr (with_completed_at (Some now) self)
  else inl (mk_exc ValueError "upload is not awaiting completion").

Definition reject (self : t) : t := with_state UploadState_REJECTED self.

End Upload.

Module Page.

Record t := Mk {
  page_number : Z;
  input_object_key : string;
  state : PageState;
  processing_attempts : Z;
  markdown : option string;
  structured : option dict;
  result_object_key : option string;
  result_sha256 : option string;
  visualization_object_key : option string;
  internal_code : Z;
  error_reason : option string
}.

Definition with_state (v : PageState) (p : t) : t :=
  {| page_number := page_number p; input_object_key := input_object_key p; state := v;
     processing_attempts := processing_attempts p; markdown := markdown p;
     structured := structured p; result_object_key := result_object_key p;
     result_sha256 := result_sha256 p; visualization_object_key := visualization_object_key p;
     internal_code := internal_code p; error_reason := error_reason p |}.
Definition with_processing_attempts (v : Z) (p : t) : t :=
  {| page_number := page_number p; input_object_key := input_object_key p; state := state p;
     processing_attempts := v; markdown := markdown p; structured := structured p;
     result_object_key := result_object_key p; result_sha256 := result_sha256 p;
     visualization_object_key := visualization_object_key p; internal_code := internal_code p;
     error_reason := error_reason p |}.
Definition with_markdown (v : option string) (p : t) : t :=
  {| page_number := page_number p; input_object_key := input_object_key p; state := state p;
     processing_attempts := processing_attempts p; markdown := v; structured := structured p;
     result_object_key := result_object_key p; result_sha256 := result_sha256 p;
     visualization_object_key := visualization_object_key p; internal_code := internal_code p;
     error_reason := error_reason p |}.
Definition with_structured (v : option dict) (p : t) : t :=
  {| page_number := page_number p; input_object_key := input_object_key p; state := state p;
     processing_attempts := processing_attempts p; markdown := markdown p; structured := v;
     result_object_key := result_object_key p; result_sha256 := result_sha256 p;
     visualization_object_key := visualization_object_key p; internal_code := internal_code p;
     error_reason := error_reason p |}.
Definition with_result_object_key (v : option string) (p : t) : t :=
  {| page_number := page_number p; input_object_key := input_object_key p; state := state p;
     processing_attempts := processing_attempts p; markdown := markdown p;
     structured := structured p; result_object_key := v; result_sha256 := result_sha256 p;
     visualization_object_key := visualization_object_key p; internal_code := internal_code p;
     error_reason := error_reason p |}.
Definition with_result_sha256 (v : option string) (p : t) : t :=
  {| page_number := page_number p; input_object_key := input_object_key p; state := state p;
     processing_attempts := processing_attempts p; markdown := markdown p;
     structured := structured p; result_object_key := result_object_key p; result_sha256 := v;
     visualization_object_key := visualization_object_key p; internal_code := internal_code p;
     error_reason := error_reason p |}.
Definition with_visualization_object_key (v : option string) (p : t) : t :=
  {| page_number := page_number p; input_object_key := input_object_key p; state := state p;
     processing_attempts := processing_attempts p; markdown := markdown p;
     structured := structured p; result_object_key := result_object_key p;
     result_sha256 := result_sha256 p; visualization_object_key := v;
     internal_code := internal_code p; error_reason := error_reason p |}.
Definition with_internal_code (v : Z) (p : t) : t :=
  {| page_number := page_number p; input_object_key := input_object_key p; state := state p;
     processing_attempts := processing_attempts p; markdown := markdown p;
     structured := structured p; result_object_key := result_object_key p;
     result_sha256 := result_sha256 p; visualization_object_key := visualization_object_key p;
     internal_code := v; error_reason := error_reason p |}.
Definition with_error_reason (v : option string) (p : t) : t :=
  {| page_number := page_number p; input_object_key := input_object_key p; state := state p;
     processing_attempts := processing_attempts p; markdown := markdown p;
     structured := structured p; result_object_key := result_object_key p;
     result_sha256 := result_sha256 p; visualization_object_key := visualization_object_key p;
     internal_code := internal_code p; error_reason := v |}.

(** [Page(page_number=n, input_object_key=k)] *)
Definition new (n : Z) (k : string) : t :=
  Mk n k Page_PENDING 0 None None None None None 0 None.

Definition start (self : t) : t :=
  if decide (state self = Page_SUCCEEDED) then self else
  let self := with_state Page_RUNNING self in
  let self := with_processing_attempts (processing_attempts self + 1) self in
  let self := with_internal_code 0 self in
  with_error_reason None self.

Definition succeed (markdown : string) (structured : dict)
    (result_object_key result_sha256 : string)
    (visualization_object_key : option string) (self : t) : t :=
  let self := with_state Page_SUCCEEDED self in
  let self := with_markdown (Some markdown) self in
  let self := with_structured (Some structured) self in
  let self := with_result_object_key (Some result_object_key) self in
  let self := with_result_sha256 (Some result_sha256) self in
  let self := with_visualization_object_key visualization_object_key self in
  let self := with_internal_code 0 self in
  with_error_reason None self.

Definition fail (reason : string) (internal_code : Z) (self : t) : t :=
  let self := with_state Page_FAILED self in
  let self := with_internal_code internal_code self in
  with_error_reason (Some reason) self.

Definition prepare_retry (self : t) : t :=
  if decide (state self = Page_SUCCEEDED) then self else
  let self := with_state Page_PENDING self in
  let self := with_processing_attempts 0 self in
  let self := with_error_reason None self in
  let self := with_markdown None self in
  let self := with_structured None self in
  let self := with_result_object_key None self in
  let self := with_result_sha256 None self in
  let self := with_visualization_object_key None self in
  with_internal_code 0 self.

(** [page.state is PageState.SUCCEEDED] *)
Definition done (self : t) : bool := bool_decide (state self = Page_SUCCEEDED).

End Page.

Module Artifact.

Record t := Mk {
  kind : ArtifactKind;
  object_key : string;
  sha256 : string;
  size_bytes : Z;
  content_type : string;
  page_number : option Z
}.

End Artifact.

Module Job.

Record t := Mk {
  owner_id : string;
  upload_id : UUID;
  request_id : string;
  options : dict;
  id : UUID;
  state : JobState;
  attempt : Z;
  revision : Z;
  pages : list Page.t;
  artifacts : list Artifact.t;
  idempotency_key : option string;
  engine_name : option string;
  engine_version : option string;
  model_name : option string;
  internal_code : Z;
  error_reason : option string;
  created_at : datetime;
  updated_at : datetime;
  started_at : option datetime;
  completed_at : option datetime
}.

Definition with_request_id (v : string) (j : t) : t :=
  {| owner_id := owner_id j; upload_id := upload_id j; request_id := v; options := options j;
     id := id j; state := state j; attempt := attempt j; revision := revision j;
     pages := pages j; artifacts := artifacts j; idempotency_key := idempotency_key j;
     engine_name := engine_name j; engine_version := engine_version j;
     model_name := model_name j; internal_code := internal_code j;
     error_reason := error_reason j; created_at := created_at j; updated_at := updated_at j;
     started_at := started_at j; completed_at := completed_at j |}.
Definition with_state (v : JobState) (j : t) : t :=
  {| owner_id := owner_id j; upload_id := upload_id j; request_id := request_id j;
     options := options j; id := id j; state := v; attempt := attempt j;
     revision := revision j; pages := pages j; artifacts := artifacts j;
     idempotency_key := idempotency_key j; engine_name := engine_name j;
     engine_version := engine_version j; model_name := model_name j;
     internal_code := internal_code j; error_reason := error_reason j;
     created_at := created_at j; updated_at := updated_at j; started_at := started_at j;
     completed_at := completed_at j |}.
Definition with_attempt (v : Z) (j : t) : t :=
  {| owner_id := owner_id j; upload_id := upload_id j; request_id := request_id j;
     options := options j; id := id j; state := state j; attempt := v; revision := revision j;
     pages := pages j; artifacts := artifacts j; idempotency_key := idempotency_key j;
     engine_name := engine_name j; engine_version := engine_version j;
     model_name := model_name j; internal_code := internal_code j;
     error_reason := error_reason j; created_at := created_at j; updated_at := updated_at j;
     started_at := started_at j; completed_at := completed_at j |}.
Definition with_revision (v : Z) (j : t) : t :=
  {| owner_id := owner_id j; upload_id := upload_id j; request_id := request_id j;
     options := options j; id := id j; state := state j; attempt := attempt j; revision := v;
     pages := pages j; artifacts := artifacts j; idempotency_key := idempotency_key j;
     engine_name := engine_name j; engine_version := engine_version j;
     model_name := model_name j; internal_code := internal_code j;
     error_reason := error_reason j; created_at := created_at j; updated_at := updated_at j;
     started_at := started_at j; completed_at := completed_at j |}.
Definition with_pages (v : list Page.t) (j : t) : t :=
  {| owner_id := owner_id j; upload_id := upload_id j; request_id := request_id j;
     options := options j; id := id j; state := state j; attempt := attempt j;
     revision := revision j; pages := v; artifacts := artifacts j;
     idempotency_key := idempotency_key j; engine_name := engine_name j;
     engine_version := engine_version j; model_name := model_name j;
     internal_code := internal_code j; error_reason := error_reason j;
     created_at := created_at j; updated_at := updated_at j; started_at := started_at j;
     completed_at := completed_at j |}.
Definition with_artifacts (v : list Artifact.t) (j : t) : t :=
  {| owner_id := owner_id j; upload_id := upload_id j; request_id := request_id j;
     options := options j; id := id j; state := state j; attempt := attempt j;
     revision := revision j; pages := pages j; artifacts := v;
     idempotency_key := idempotency_key j; engine_name := engine_name j;
     engine_version := engine_version j; model_name := model_name j;
     internal_code := internal_code j; error_reason := error_reason j;
     created_at := created_at j; updated_at := updated_at j; started_at := started_at j;
     completed_at := completed_at j |}.
Definition with_engine_name (v : option string) (j : t) : t :=
  {| owner_id := owner_id j; upload_id := upload_id j; request_id := request_id j;
     options := options j; id := id j; state := state j; attempt := attempt j;
     revision := revision j; pages := pages j; artifacts := artifacts j;
     idempotency_key := idempotency_key j; engine_name := v;
     engine_version := engine_version j; model_name := model_name j;
     internal_code := internal_code j; error_reason := error_reason j;
     created_at := created_at j; updated_at := updated_at j; started_at := started_at j;
     completed_at := completed_at j |}.
Definition with_engine_version (v : option string) (j : t) : t :=
  {| owner_id := owner_id j; upload_id := upload_id j; request_id := request_id j;
     options := options j; id := id j; state := state j; attempt := attempt j;
     revision := revision j; pages := pages j; artifacts := artifacts j;
     idempotency_key := idempotency_key j; engine_name := engine_name j; engine_version := v;
     model_name := model_name j; internal_code := internal_code j;
     error_reason := error_reason j; created_at := created_at j; updated_at := updated_at j;
     started_at := started_at j; completed_at := completed_at j |}.
Definition with_model_name (v : option string) (j : t) : t :=
  {| owner_id := owner_id j; upload_id := upload_id j; request_id := request_id j;
     options := options j; id := id j; state := state j; attempt := attempt j;
     revision := revision j; pages := pages j; artifacts := artifacts j;
     idempotency_key := idempotency_key j; engine_name := engine_name j;
     engine_version := engine_version j; model_name := v; internal_code := internal_code j;
     error_reason := error_reason j; created_at := created_at j; updated_at := updated_at j;
     started_at := started_at j; completed_at := completed_at j |}.
Definition with_internal_code (v : Z) (j : t) : t :=
  {| owner_id := owner_id j; upload_id := upload_id j; request_id := request_id j;
     options := options j; id := id j; state := state j; attempt := attempt j;
     revision := revision j; pages := pages j; artifacts := artifacts j;
     idempotency_key := idempotency_key j; engine_name := engine_name j;
     engine_version := engine_version j; model_name := model_name j; internal_code := v;
     error_reason := error_reason j; created_at := created_at j; updated_at := updated_at j;
     started_at := started_at j; completed_at := completed_at j |}.
Definition with_error_reason (v : option string) (j : t) : t :=
  {| owner_id := owner_id j; upload_id := upload_id j; request_id := request_id j;
     options := options j; id := id j; state := state j; attempt := attempt j;
     revision := revision j; pages := pages j; artifacts := artifacts j;
     idempotency_key := idempotency_key j; engine_name := engine_name j;
     engine_version := engine_version j; model_name := model_name j;
     internal_code := internal_code j; error_reason := v; created_at := created_at j;
     updated_at := updated_at j; started_at := started_at j; completed_at := completed_at j |}.
Definition with_updated_at (v : datetime) (j : t) : t :=
  {| owner_id := owner_id j; upload_id := upload_id j; request_id := request_id j;
     options := options j; id := id j; state := state j; attempt := attempt j;
     revision := revision j; pages := pages j; artifacts := artifacts j;
     idempotency_key := idempotency_key j; engine_name := engine_name j;
     engine_version := engine_version j; model_name := model_name j;
     internal_code := internal_code j; error_reason := error_reason j;
     created_at := created_at j; updated_at := v; started_at := started_at j;
     completed_at := completed_at j |}.
Definition with_started_at (v : option datetime) (j : t) : t :=
  {| owner_id := owner_id j; upload_id := upload_id j; request_id := request_id j;
     options := options j; id := id j; state := state j; attempt := attempt j;
     revision := revision j; pages := pages j; artifacts := artifacts j;
     idempotency_key := idempotency_key j; engine_name := engine_name j;
     engine_version := engine_version j; model_name := model_name j;
     internal_code := internal_code j; error_reason := error_reason j;
     created_at := created_at j; updated_at := updated_at j; started_at := v;
     completed_at := completed_at j |}.
Definition with_completed_at (v : option datetime) (j : t) : t :=
  {| owner_id := owner_id j; upload_id := upload_id j; request_id := request_id j;
     options := options j; id := id j; state := state j; attempt := attempt j;
     revision := revision j; pages := pages j; artifacts := artifacts j;
     idempotency_key := idempotency_key j; engine_name := engine_name j;
     engine_version := engine_version j; model_name := model_name j;
     internal_code := internal_code j; error_reason := error_reason j;
     created_at := created_at j; updated_at := updated_at j; started_at := started_at j;
     completed_at := v |}.

(** [Job(owner_id=.., upload_id=.., request_id=.., options=.., idempotency_key=..)]
    with the values of the three default factories. *)
Definition new (owner_id : string) (upload_id : UUID) (request_id : string) (options : dict)
    (idempotency_key : option string) (id : UUID) (created_at updated_at : datetime) : t :=
  Mk owner_id upload_id request_id options id QUEUED 1 0 [] [] idempotency_key
     None None None 0 None created_at updated_at None None.

Definition total_pages (self : t) : Z := Z.of_nat (length (pages self)).

Definition completed_pages (self : t) : Z :=
  Z.of_nat (length (filter (λ p, Page.done p = true) (pages self))).

Definition progress (self : t) : Z :=
  match pages self with
  | [] => 0
  | _ => ratio4 (completed_pages self) (total_pages self)
  end.

Definition terminal_state (s : JobState) : bool :=
  bool_decide (s ∈ [CANCELLED; SUCCEEDED; FAILED]).
Definition terminal (self : t) : bool := terminal_state (state self).

Definition transition (target : JobState) (allowed : list JobState) (now : datetime)
    (self : t) : exc + t :=
  if decide (state self ∈ allowed) then
    inr (with_updated_at now (with_state target self))
  else inl (mk_exc ValueError
    ("cannot transition job from " +:+ job_state_str (state self) +:+
     " to " +:+ job_state_str target)).

Definition begin_preprocessing (now1 now2 : datetime) (self : t) : exc + t :=
  self ← transition PREPROCESSING [QUEUED; RETRYING] now1 self;
  mret (with_started_at (Some (default now2 (started_at self))) self).

Definition set_pages (new_pages : list Page.t) (now : datetime) (self : t) : exc + t :=
  if negb (bool_decide (state self = PREPROCESSING))
  then inl (mk_exc ValueError "pages may only be prepared while preprocessing")
  else if bool_decide (new_pages = [])
  then inl (mk_exc ValueError "document must contain at least one page")
  else inr (with_updated_at now (with_pages new_pages self)).

Definition begin_running (now : datetime) (self : t) : exc + t :=
  transition RUNNING [PREPROCESSING] now self.

Definition request_cancel (now : datetime) (self : t) : exc + t :=
  transition CANCEL_REQUESTED [QUEUED; PREPROCESSING; RUNNING; ASSEMBLING; RETRYING] now self.

Definition cancel (now1 now2 : datetime) (self : t) : exc + t :=
  self ← transition CANCELLED [CANCEL_REQUESTED] now1 self;
  mret (with_completed_at (Some now2) self).

Definition begin_assembling (now : datetime) (self : t) : exc + t :=
  transition ASSEMBLING [RUNNING] now self.

Definition succeed (new_artifacts : list Artifact.t) (now1 now2 : datetime) (self : t) : exc + t :=
  if bool_decide (pages self = []) || existsb (λ p, negb (Page.done p)) (pages self)
  then inl (mk_exc ValueError "all pages must be complete before job success")
  else
    self ← transition SUCCEEDED [ASSEMBLING] now1 self;
    let self := with_artifacts new_artifacts self in
    let self := with_completed_at (Some now2) self in
    let self := with_internal_code 0 self in
    mret (with_error_reason None self).

Definition fail (reason : string) (code : Z) (now1 now2 : datetime) (self : t) : exc + t :=
  self ← transition FAILED
    [QUEUED; PREPROCESSING; RUNNING; ASSEMBLING; RETRYING; CANCEL_REQUESTED] now1 self;
  let self := with_internal_code code self in
  let self := with_error_reason (Some reason) self in
  mret (with_completed_at (Some now2) self).

Definition retry (new_request_id : string) (now : datetime) (self : t) : exc + t :=
  self ← transition RETRYING [FAILED; CANCELLED] now self;
  let self := with_attempt (attempt self + 1) self in
  let self := with_request_id new_request_id self in
  let self := with_internal_code 0 self in
  let self := with_error_reason None self in
  let self := with_started_at None self in
  let self := with_completed_at None self in
  let self := with_artifacts [] self in
  mret (with_pages (Page.prepare_retry <$> pages self) self).

(** [job.pages[i] = page], the index being in range *)
Definition update_page (i : nat) (page : Page.t) (self : t) : t :=
  with_pages (<[i := page]> (pages self)) self.

End Job.

Module JobEvent.

Record t := Mk {
  job_id : UUID;
  event_type : string;
  state : JobState;
  progress : Z;
  request_id : string;
  payload : dict;
  sequence : Z;
  occurred_at : datetime
}.

Definition with_sequence (n : Z) (self : t) : t :=
  Mk (job_id self) (event_type self) (state self) (progress self) (request_id self)
     (payload self) n (occurred_at self).

End JobEvent.
