(* ===== verification/DomainFacts.v ===== *)
(** * The job life cycle: correctness of the domain model

    - [edge]: the transition graph the methods of [Job] realise
      ([job_step_graph]);
    - [job_step]: one method call on a job or on one of its pages, [wf] the
      invariant of every job the methods can produce ([reachable_wf]);
    - [succeeded_final], [retry_checkpoints], [job_guards]: what is final, what a
      retry keeps, and when each method refuses. *)

From S2P Require Import Prelude PyData PyText Json Status Progress Domain.

#[local] Open Scope Z_scope.

(** ** Boolean views *)

Lemma terminal_state_spec s :
  Job.terminal_state s = true ↔ s = CANCELLED ∨ s = SUCCEEDED ∨ s = FAILED.
Proof. unfold Job.terminal_state. rewrite bool_decide_eq_true. set_solver. Qed.

Lemma page_done_spec p : Page.done p = true ↔ Page.state p = Page_SUCCEEDED.
Proof. unfold Page.done. by rewrite bool_decide_eq_true. Qed.

Lemma not_existsb_done ps :
  existsb (λ p, negb (Page.done p)) ps = false ↔ Forall (λ p, Page.state p = Page_SUCCEEDED) ps.
Proof.
  induction ps as [|p ps IH]; simpl; [by split|].
  rewrite orb_false_iff, IH, Forall_cons, negb_false_iff, page_done_spec. done.
Qed.

(** ** The transition graph *)

Definition edge (s s' : JobState) : bool :=
  match s, s' with
  | (QUEUED | RETRYING), (PREPROCESSING | CANCEL_REQUESTED | FAILED)
  | PREPROCESSING, (RUNNING | CANCEL_REQUESTED | FAILED)
  | RUNNING, (ASSEMBLING | CANCEL_REQUESTED | FAILED)
  | ASSEMBLING, (SUCCEEDED | CANCEL_REQUESTED | FAILED)
  | CANCEL_REQUESTED, (CANCELLED | FAILED)
  | (FAILED | CANCELLED), RETRYING => true
  | _, _ => false
  end.

(** Case analysis of a successful method: the guard it passed and the fields it set. *)
Lemma transition_inr target allowed now j j' :
  Job.transition target allowed now j = inr j' →
  Job.state j ∈ allowed ∧ j' = Job.with_updated_at now (Job.with_state target j).
Proof. unfold Job.transition. case_decide; naive_solver. Qed.

Lemma transition_inl target allowed now j e :
  Job.transition target allowed now j = inl e → (Job.state j ∉ allowed) ∧ exc_cls e = ValueError.
Proof. unfold Job.transition. case_decide; naive_solver. Qed.

Ltac invert_method H :=
  unfold Job.begin_preprocessing, Job.begin_running, Job.begin_assembling,
    Job.request_cancel, Job.cancel, Job.fail, Job.retry, Job.succeed, Job.set_pages,
    Upload.complete in H;
  repeat match type of H with
  | (if ?b then inl _ else _) = inr _ => destruct b eqn:?; [discriminate H|]
  end;
  lazymatch type of H with
  | Job.transition _ _ _ _ = inr _ => apply transition_inr in H as [? ->]
  | Job.transition _ _ _ _ ≫= _ = inr _ =>
      let Hx := fresh in
      apply result_bind_inr in H as (? & [Hx ->]%transition_inr & H);
      injection H as <-
  | inr _ = inr _ => injection H as <-
  end.

(** ** Steps *)

(** A mutator of one page, in any state of the page: none of them has a guard
    ([start] returns at once on a page that is done). *)
Inductive page_step : Page.t → Page.t → Prop :=
  | page_start p : page_step p (Page.start p)
  | page_succeed p md st key sha vis : page_step p (Page.succeed md st key sha vis p)
  | page_fail p reason code : page_step p (Page.fail reason code p)
  | page_note_error p code reason :
      page_step p (Page.with_error_reason (Some reason) (Page.with_internal_code code p)).

Inductive job_step : Job.t → Job.t → Prop :=
  | step_begin_preprocessing n1 n2 j j' : Job.begin_preprocessing n1 n2 j = inr j' → job_step j j'
  | step_set_pages ps n j j' : Job.set_pages ps n j = inr j' → job_step j j'
  | step_begin_running n j j' : Job.begin_running n j = inr j' → job_step j j'
  | step_request_cancel n j j' : Job.request_cancel n j = inr j' → job_step j j'
  | step_cancel n1 n2 j j' : Job.cancel n1 n2 j = inr j' → job_step j j'
  | step_begin_assembling n j j' : Job.begin_assembling n j = inr j' → job_step j j'
  | step_succeed arts n1 n2 j j' : Job.succeed arts n1 n2 j = inr j' → job_step j j'
  | step_fail r c n1 n2 j j' : Job.fail r c n1 n2 j = inr j' → job_step j j'
  | step_retry rid n j j' : Job.retry rid n j = inr j' → job_step j j'
  | step_page i p p' j :
      Job.pages j !! i = Some p → page_step p p' → job_step j (Job.update_page i p' j)
  | step_engine e v m j :
      job_step j (Job.with_model_name m (Job.with_engine_version v (Job.with_engine_name e j)))
  | step_request_id rid j : job_step j (Job.with_request_id rid j)
  | step_commit j : job_step j (Job.with_revision (Job.revision j + 1) j).

Inductive created : Job.t → Prop :=
  created_new o u r opts k i c up : created (Job.new o u r opts k i c up).

Definition reachable (j : Job.t) : Prop := ∃ j0, created j0 ∧ rtc job_step j0 j.

(** ** The invariant *)

Record wf (j : Job.t) : Prop := {
  wf_attempt : 1 ≤ Job.attempt j;
  wf_revision : 0 ≤ Job.revision j;
  wf_succeeded : Job.state j = SUCCEEDED → Job.pages j ≠ [];
  wf_running : Job.terminal j = false → Job.completed_at j = None;
  wf_terminal : Job.terminal j = true → is_Some (Job.completed_at j);
  wf_artifacts : Job.artifacts j ≠ [] → Job.state j = SUCCEEDED;
  wf_ok : Job.state j ≠ FAILED → Job.internal_code j = 0 ∧ Job.error_reason j = None;
  wf_failed : Job.state j = FAILED → is_Some (Job.error_reason j);
  wf_queued : Job.state j = QUEUED → Job.pages j = [] ∧ Job.attempt j = 1
}.

Lemma wf_created j : created j → wf j.
Proof. destruct 1. by split; simpl. Qed.

(** [Page.fail] is the only call that takes a page away from [SUCCEEDED]. *)
Lemma page_step_done p p' :
  page_step p p' → Page.state p = Page_SUCCEEDED →
  Page.state p' = Page_SUCCEEDED ∨ ∃ reason code, p' = Page.fail reason code p.
Proof.
  destruct 1; simpl; [|by left|by right; do 2 eexists|by left].
  unfold Page.start. intros ?. left. by rewrite decide_True.
Qed.

Lemma Forall_pages_step P i (p p' : Page.t) ps :
  ps !! i = Some p → Forall P ps → (P p → P p') → Forall P (<[i := p']> ps).
Proof.
  intros Hi HF HP. apply Forall_insert; [done|]. apply HP.
  by eapply Forall_lookup_1 in HF.
Qed.

Lemma insert_not_nil {A} i (x : A) l : l ≠ [] → <[i := x]> l ≠ [].
Proof. destruct l, i; done. Qed.

(** Split a guard [s ∈ [s1; ..; sn]] into its cases. *)
Ltac guard_cases :=
  repeat match goal with
  | H : _ ∈ _ :: _ |- _ => apply elem_of_cons in H as [H|H]
  | H : _ ∈ [] |- _ => by apply not_elem_of_nil in H
  end.

(** What is known of a job still being worked on. *)
Lemma wf_not_terminal j : wf j → Job.terminal j = false →
  Job.completed_at j = None ∧ Job.artifacts j = [] ∧
  Job.internal_code j = 0 ∧ Job.error_reason j = None.
Proof.
  intros Hw Ht. pose proof (wf_running j Hw Ht).
  assert (Job.state j ≠ SUCCEEDED ∧ Job.state j ≠ FAILED) as [Hs Hf].
  { unfold Job.terminal in Ht. split; intros E; by rewrite E in Ht. }
  destruct (wf_ok j Hw Hf). split_and!; try done.
  destruct (Job.artifacts j) eqn:E; [done|]. exfalso. apply Hs, (wf_artifacts j Hw). by rewrite E.
Qed.

Lemma guard_not_terminal allowed j :
  Job.state j ∈ allowed → existsb Job.terminal_state allowed = false → Job.terminal j = false.
Proof.
  intros Hin Hall. unfold Job.terminal. apply not_true_iff_false. intros Ht.
  assert (existsb Job.terminal_state allowed = true) as Hc; [|congruence].
  apply existsb_exists. exists (Job.state j). by rewrite <- list_elem_of_In.
Qed.

(** The invariant depends on these fields only. *)
Lemma wf_ext j j' :
  wf j → Job.state j' = Job.state j → Job.attempt j' = Job.attempt j →
  Job.revision j ≤ Job.revision j' → Job.pages j' = Job.pages j →
  Job.artifacts j' = Job.artifacts j → Job.completed_at j' = Job.completed_at j →
  Job.internal_code j' = Job.internal_code j → Job.error_reason j' = Job.error_reason j → wf j'.
Proof.
  intros [] Es Ea Er Ep Er' Ec Ei Ee.
  constructor; unfold Job.terminal in *; rewrite ?Es, ?Ea, ?Ep, ?Er', ?Ec, ?Ei, ?Ee; auto. lia.
Qed.

(** Moving a job that is not terminal to a state that is not terminal either. *)
Lemma wf_move s now j :
  wf j → Job.terminal j = false → Job.terminal_state s = false → s ≠ QUEUED →
  wf (Job.with_updated_at now (Job.with_state s j)).
Proof.
  intros Hw Ht Hs Hq. destruct (wf_not_terminal j Hw Ht) as (?&Ha&?&?). destruct Hw.
  constructor; unfold Job.terminal; simpl; try done; intros; subst; done || congruence.
Qed.

Lemma wf_step j j' : job_step j j' → wf j → wf j'.
Proof.
  intros Hs Hw.
  destruct Hs as [n1 n2 j j' H|ps n j j' H|n j j' H|n j j' H|n1 n2 j j' H|n j j' H
    |arts n1 n2 j j' H|r c n1 n2 j j' H|rid n j j' H|i p p' j Hi Hp|e v m j|rid j|j].
  1-9: invert_method H.
  - eapply wf_ext; [eapply (wf_move PREPROCESSING n1 j)| ..]; try done.
    by eapply guard_not_terminal.
  - apply negb_false_iff, bool_decide_eq_true in Heqb.
    assert (Job.terminal j = false) as Ht by (unfold Job.terminal; by rewrite Heqb).
    destruct (wf_not_terminal j Hw Ht) as (?&Ha&?&?). destruct Hw.
    constructor; unfold Job.terminal; simpl; rewrite ?Heqb; done || congruence.
  - apply wf_move; try done. by eapply guard_not_terminal.
  - apply wf_move; try done. by eapply guard_not_terminal.
  - assert (Job.terminal j = false) as Ht by by eapply guard_not_terminal.
    destruct (wf_not_terminal j Hw Ht) as (?&Ha&?&?). destruct Hw.
    constructor; simpl; done || congruence.
  - apply wf_move; try done. by eapply guard_not_terminal.
  - assert (Job.terminal j = false) as Ht by by eapply guard_not_terminal.
    apply orb_false_iff in Heqb as [Hn%bool_decide_eq_false Hd%not_existsb_done].
    destruct Hw. constructor; simpl; done.
  - assert (Job.terminal j = false) as Ht by by eapply guard_not_terminal.
    destruct (wf_not_terminal j Hw Ht) as (?&Ha&?&?). destruct Hw.
    constructor; simpl; done || congruence.
  - destruct Hw. constructor; simpl; done || lia.
  - destruct Hw. constructor; simpl; try done.
    + intros E. by apply insert_not_nil, wf_succeeded0.
    + intros E. destruct (wf_queued0 E) as [E' ?]. by rewrite E' in Hi.
  - by eapply wf_ext.
  - by eapply wf_ext.
  - eapply wf_ext; try done; simpl. lia.
Qed.

(** ** Properties of the life cycle *)

Lemma job_step_edge j j' :
  job_step j j' → Job.state j' = Job.state j ∨ edge (Job.state j) (Job.state j') = true.
Proof.
  intros Hs.
  destruct Hs as [n1 n2 j j' H|ps n j j' H|n j j' H|n j j' H|n1 n2 j j' H|n j j' H
    |arts n1 n2 j j' H|r c n1 n2 j j' H|rid n j j' H|i p p' j Hi Hp|e v m j|rid j|j];
    try invert_method H; simpl; auto;
    guard_cases; match goal with E : Job.state j = _ |- _ => rewrite E end; auto.
Qed.

(** The guards of the methods, each of them exactly. *)
Definition raised {A} (r : exc + A) : option cls :=
  match r with inl e => Some (exc_cls e) | inr _ => None end.

(** [ValueError] unless [b] *)
Definition unless (b : bool) : option cls := if b then None else Some ValueError.

Lemma raised_bind_ret {A B} (r : exc + A) (f : A → B) : raised (a ← r; mret (f a)) = raised r.
Proof. by destruct r. Qed.

Lemma transition_raised target allowed now j :
  raised (Job.transition target allowed now j) = unless (bool_decide (Job.state j ∈ allowed)).
Proof.
  unfold Job.transition. case_decide; simpl.
  - by rewrite bool_decide_eq_true_2.
  - by rewrite bool_decide_eq_false_2.
Qed.

Definition all_done (j : Job.t) : bool :=
  bool_decide (Job.pages j ≠ []) && forallb Page.done (Job.pages j).

Lemma all_done_spec j :
  all_done j = true ↔
  Job.pages j ≠ [] ∧ Forall (λ p, Page.state p = Page_SUCCEEDED) (Job.pages j).
Proof.
  unfold all_done. rewrite andb_true_iff, bool_decide_eq_true, forallb_forall, Forall_forall.
  setoid_rewrite page_done_spec. by setoid_rewrite <- list_elem_of_In.
Qed.

Lemma succeed_guard j :
  bool_decide (Job.pages j = []) || existsb (λ p, negb (Page.done p)) (Job.pages j) =
  negb (all_done j).
Proof.
  unfold all_done. rewrite negb_andb. f_equal; [by rewrite <- bool_decide_not, bool_decide_decide;
    destruct (Job.pages j); simpl; repeat case_decide; naive_solver|].
  induction (Job.pages j) as [|p ps IH]; simpl; [done|]. by rewrite negb_andb, IH.
Qed.

(** Which calls a job accepts.  A method succeeds exactly in the states of
    its guard ([set_pages] also needs a page, [succeed] every page checkpointed)
    and raises [ValueError] in all the others. *)
Theorem job_guards j n1 n2 ps arts r c rid :
  raised (Job.begin_preprocessing n1 n2 j) =
    unless (bool_decide (Job.state j ∈ [QUEUED; RETRYING])) ∧
  raised (Job.set_pages ps n1 j) =
    unless (bool_decide (Job.state j = PREPROCESSING) && bool_decide (ps ≠ [])) ∧
  raised (Job.begin_running n1 j) = unless (bool_decide (Job.state j = PREPROCESSING)) ∧
  raised (Job.begin_assembling n1 j) = unless (bool_decide (Job.state j = RUNNING)) ∧
  raised (Job.succeed arts n1 n2 j) =
    unless (all_done j && bool_decide (Job.state j = ASSEMBLING)) ∧
  raised (Job.request_cancel n1 j) =
    unless (negb (Job.terminal j) && bool_decide (Job.state j ≠ CANCEL_REQUESTED)) ∧
  raised (Job.cancel n1 n2 j) = unless (bool_decide (Job.state j = CANCEL_REQUESTED)) ∧
  raised (Job.fail r c n1 n2 j) = unless (negb (Job.terminal j)) ∧
  raised (Job.retry rid n1 j) =
    unless (Job.terminal j && bool_decide (Job.state j ≠ SUCCEEDED)).
Proof.
  unfold Job.begin_preprocessing, Job.begin_running, Job.begin_assembling,
    Job.request_cancel, Job.cancel, Job.fail, Job.retry, Job.succeed, Job.set_pages, Job.terminal.
  cbv zeta. rewrite succeed_guard, !raised_bind_ret, !transition_raised.
  destruct (all_done j), (decide (ps = [])) as [->|];
    [| rewrite (bool_decide_eq_false_2 (ps = [])), (bool_decide_eq_true_2 (ps ≠ [])) by done
     | | rewrite (bool_decide_eq_false_2 (ps = [])), (bool_decide_eq_true_2 (ps ≠ [])) by done];
    simpl; rewrite ?raised_bind_ret, ?transition_raised;
    destruct (Job.state j); by vm_compute.
Qed.

(** *** Success and the pages *)

Lemma all_done_page i p p' j :
  all_done j = true → Job.pages j !! i = Some p → Page.state p' = Page_SUCCEEDED →
  all_done (Job.update_page i p' j) = true.
Proof.
  rewrite !all_done_spec. intros [Hn Hd] Hi Hp. split; simpl; [by apply insert_not_nil|].
  by eapply Forall_pages_step.
Qed.

(** A step after which a job is [SUCCEEDED] with a page that is not: the job was
    so before, or [Page.fail] was called on a page of the job. *)
Lemma job_step_all_done j j' :
  job_step j j' → Job.state j' = SUCCEEDED → all_done j' = true ∨
  Job.state j = SUCCEEDED ∧
  (all_done j = false ∨ ∃ i p reason code, Job.pages j !! i = Some p ∧
     j' = Job.update_page i (Page.fail reason code p) j).
Proof.
  intros Hs E.
  destruct Hs as [n1 n2 j j' H|ps n j j' H|n j j' H|n j j' H|n1 n2 j j' H|n j j' H
    |arts n1 n2 j j' H|r c n1 n2 j j' H|rid n j j' H|i p p' j Hi Hp|e v m j|rid j|j];
    try (by invert_method H);
    try (destruct (all_done j) eqn:Ed; [by left | right; split; [done | by left]]).
  - invert_method H. simpl in E. apply negb_false_iff, bool_decide_eq_true in Heqb. congruence.
  - invert_method H. left. rewrite succeed_guard in Heqb. by apply negb_false_iff in Heqb.
  - destruct (all_done j) eqn:Ed; [|right; split; [done | by left]].
    pose proof Ed as [_ Hd]%all_done_spec. eapply Forall_lookup_1 in Hd; [|exact Hi].
    destruct (page_step_done _ _ Hp Hd) as [Hd'|(reason & code & ->)].
    + left. by eapply all_done_page.
    + right. split; [done|]. right. by exists i, p, reason, code.
Qed.

Lemma reachable_step j j' : reachable j → job_step j j' → reachable j'.
Proof. intros (j0 & Hc & Hr) Hs. exists j0. split; [done|]. eapply rtc_r; eauto. Qed.

(** C5: the invariant.  Every job that a sequence of domain calls can produce
    from a newly created one, the mutators of its pages being called in any order
    and in any state, is well formed: it has pages if it is [SUCCEEDED], a
    completion time exactly in a terminal state, artifacts only when [SUCCEEDED],
    an error reason exactly when [FAILED], and its attempt and revision never
    leave their range.  A job that is [SUCCEEDED] became so with every page
    [SUCCEEDED], and from then on only a call of [Page.fail] on a page of the
    succeeded job can have changed that. *)
Theorem reachable_wf j :
  reachable j →
  wf j ∧
  (Job.state j = SUCCEEDED → ∃ j1, reachable j1 ∧ Job.state j1 = SUCCEEDED ∧ all_done j1 = true ∧
     rtc job_step j1 j) ∧
  (∀ j', job_step j j' → Job.state j' = SUCCEEDED → all_done j' = false →
     Job.state j = SUCCEEDED ∧
     (all_done j = false ∨ ∃ i p reason code, Job.pages j !! i = Some p ∧
        j' = Job.update_page i (Page.fail reason code p) j)).
Proof.
  intros (j0 & Hc & Hr). split_and!.
  - apply wf_created in Hc. induction Hr as [|j0 j1 j2 Hs _ IH]; eauto using wf_step.
  - assert (Job.state j0 ≠ SUCCEEDED) as H0 by by destruct Hc.
    assert (reachable j0) as Hj0 by by exists j0; split; [|apply rtc_refl].
    clear Hc. intros E. revert H0 Hj0. induction Hr as [j|j0 j1 j2 Hs Hr IH]; intros H0 Hj0; [done|].
    pose proof (reachable_step _ _ Hj0 Hs) as Hj1.
    destruct (decide (Job.state j1 = SUCCEEDED)) as [E1|E1]; [|by apply IH].
    destruct (job_step_all_done _ _ Hs E1) as [Hd|[? _]]; [by exists j1 | done].
  - intros j' Hs E Hd. destruct (job_step_all_done _ _ Hs E) as [?|?]; [congruence | done].
Qed.

Lemma raised_None {A} (r : exc + A) : raised r = None → ∃ a, r = inr a.
Proof. destruct r; naive_solver. Qed.

Lemma transition_run target allowed now j :
  Job.state j ∈ allowed →
  Job.transition target allowed now j = inr (Job.with_updated_at now (Job.with_state target j)).
Proof. intros. unfold Job.transition. by rewrite decide_True. Qed.

Ltac realise HT step method j :=
  eexists; split;
  [eapply step; unfold method; rewrite HT; [done | destruct (Job.state j); set_solver] | done].

(** The transition graph is exactly [edge]: a step keeps the state or
    follows an edge, and every edge is taken by a method from every job in its
    source state (into [SUCCEEDED]: with all pages done). *)
Theorem job_step_graph j :
  (∀ j', job_step j j' → Job.state j' = Job.state j ∨ edge (Job.state j) (Job.state j') = true) ∧
  (∀ s, edge (Job.state j) s = true → (s = SUCCEEDED → all_done j = true) →
        ∃ j', job_step j j' ∧ Job.state j' = s).
Proof.
  split; [apply job_step_edge|]. intros s He Hs.
  assert (∀ target allowed, Job.state j ∈ allowed →
    Job.transition target allowed 0 j = inr (Job.with_updated_at 0 (Job.with_state target j)))
    as HT by (intros; by apply transition_run).
  destruct s; try (by destruct (Job.state j)).
  - realise HT (step_begin_preprocessing 0 0) Job.begin_preprocessing j.
  - realise HT (step_begin_running 0) Job.begin_running j.
  - realise HT (step_begin_assembling 0) Job.begin_assembling j.
  - realise HT (step_request_cancel 0) Job.request_cancel j.
  - realise HT (step_cancel 0 0) Job.cancel j.
  - realise HT (step_retry "" 0) Job.retry j.
  - eexists. split; [eapply (step_succeed [] 0 0); unfold Job.succeed;
      rewrite succeed_guard, Hs, HT; [done | destruct (Job.state j); set_solver | done] | done].
  - realise HT (step_fail "" 0 0 0) Job.fail j.
Qed.

(** What no step can undo once a job has [SUCCEEDED]. *)
Definition delivered (j j' : Job.t) : Prop :=
  Job.state j' = SUCCEEDED ∧ Job.attempt j' = Job.attempt j ∧
  Job.artifacts j' = Job.artifacts j ∧ Job.completed_at j' = Job.completed_at j ∧
  length (Job.pages j') = length (Job.pages j).

Lemma job_step_delivered j j' : job_step j j' → Job.state j = SUCCEEDED → delivered j j'.
Proof.
  intros Hs E.
  destruct Hs as [n1 n2 j j' H|ps n j j' H|n j j' H|n j j' H|n1 n2 j j' H|n j j' H
    |arts n1 n2 j j' H|r c n1 n2 j j' H|rid n j j' H|i p p' j Hi Hp|e v m j|rid j|j];
    try (invert_method H; guard_cases; congruence);
    try (by split_and!).
  - invert_method H. apply negb_false_iff, bool_decide_eq_true in Heqb. congruence.
  - split_and!; try done. simpl. by rewrite length_insert.
Qed.

(** C6: success is final.  Whatever is called on a [SUCCEEDED] job, it stays
    [SUCCEEDED] in the same attempt, with the same artifacts, completion time
    and number of pages. *)
Theorem succeeded_final j j' :
  rtc job_step j j' → Job.state j = SUCCEEDED → delivered j j'.
Proof.
  intros Hr. induction Hr as [j|j0 j1 j2 Hs _ IH]; intros E; [by split_and!|].
  destruct (job_step_delivered _ _ Hs E) as (E1&?&?&?&?).
  destruct (IH E1) as (?&?&?&?&?). split_and!; congruence.
Qed.

(** A retry keeps every page checkpoint that [SUCCEEDED], byte for byte,
    resets all other pages to a fresh [PENDING] state with a full retry budget,
    starts the next attempt and clears the outcome of the last one. *)
Lemma retry_checkpoints rid now j j' :
  Job.retry rid now j = inr j' →
  (Job.state j = FAILED ∨ Job.state j = CANCELLED) ∧
  Job.state j' = RETRYING ∧ Job.attempt j' = Job.attempt j + 1 ∧ Job.request_id j' = rid ∧
  Job.error_reason j' = None ∧ Job.internal_code j' = 0 ∧ Job.artifacts j' = [] ∧
  Job.started_at j' = None ∧ Job.completed_at j' = None ∧ Job.updated_at j' = now ∧
  Job.completed_pages j' = Job.completed_pages j ∧
  Forall2 (λ p p',
    if decide (Page.state p = Page_SUCCEEDED) then p' = p
    else p' = Page.new (Page.page_number p) (Page.input_object_key p))
    (Job.pages j) (Job.pages j').
Proof.
  intros H. invert_method H. split; [guard_cases; auto|]. split_and!; try done.
  - unfold Job.completed_pages. simpl. f_equal.
    induction (Job.pages j) as [|p ps IH]; [done|]. csimpl. rewrite !filter_cons.
    assert (Page.done (Page.prepare_retry p) = Page.done p) as ->.
    { unfold Page.prepare_retry, Page.done. case_decide as E; [done|].
      simpl. by rewrite bool_decide_eq_false_2. }
    case_decide; simpl; congruence.
  - simpl. apply Forall2_fmap_r, Forall_Forall2_diag, Forall_true. intros p.
    unfold compose, Page.prepare_retry. by case_decide.
Qed.

(** *** Progress *)

Lemma completed_le j : 0 ≤ Job.completed_pages j ≤ Job.total_pages j.
Proof.
  unfold Job.completed_pages, Job.total_pages.
  pose proof (length_filter (λ p, Page.done p = true) (Job.pages j)). lia.
Qed.

Lemma completed_all j :
  Job.completed_pages j = Job.total_pages j ↔
  Forall (λ p, Page.state p = Page_SUCCEEDED) (Job.pages j).
Proof.
  unfold Job.completed_pages, Job.total_pages. induction (Job.pages j) as [|p ps IH]; [done|].
  rewrite filter_cons, Forall_cons, <- page_done_spec, <- IH.
  pose proof (length_filter (λ p, Page.done p = true) ps).
  case_decide; csimpl; [rewrite !Nat2Z.inj_succ; naive_solver lia|]. split; [lia | naive_solver].
Qed.

(** The progress of a job lies between 0 and 1, is 1 exactly when there is
    a page and all of them are done, and finishing one more page of the same
    document increases it.  (Pages are below 10,000, where four decimals
    separate consecutive counts.) *)
Theorem progress_spec j :
  Job.total_pages j < 10000 →
  0 ≤ Job.progress j ≤ 10000 ∧
  (Job.progress j = 10000 ↔ all_done j = true) ∧
  (∀ j', Job.total_pages j' = Job.total_pages j →
     Job.completed_pages j < Job.completed_pages j' → Job.progress j < Job.progress j').
Proof.
  intros Hn. pose proof (completed_le j) as Hc. rewrite all_done_spec, <- completed_all.
  assert (∀ k, Job.pages k ≠ [] → Job.progress k = ratio4 (Job.completed_pages k) (Job.total_pages k))
    as Hp by (intros k Hk; unfold Job.progress; by destruct (Job.pages k)).
  destruct (decide (Job.pages j = [])) as [E|Hne].
  - unfold Job.progress at 1 2 3 4. rewrite E. split_and!; [lia | lia | |].
    + split; [lia | by intros [? _]].
    + intros j' Ht Hlt. pose proof (completed_le j').
      unfold Job.total_pages in Ht. rewrite E in Ht. simpl in *.
      unfold Job.total_pages, Job.completed_pages in *. lia.
  - assert (0 < Job.total_pages j) as Hpos.
    { unfold Job.total_pages. destruct (Job.pages j); [done | simpl; lia]. }
    rewrite Hp by done. split_and!.
    + apply ratio4_bounds; lia.
    + apply ratio4_bounds; lia.
    + rewrite ratio4_full by lia. naive_solver.
    + intros j' Ht Hlt. pose proof (completed_le j').
      assert (Job.pages j' ≠ []) by (intros E; unfold Job.total_pages in Ht at 1; rewrite E in Ht; simpl in Ht; lia).
      rewrite Hp, Ht by done. apply ratio4_mono; lia.
Qed.

(** ** A concrete job *)

Module SampleJob.

Definition get (r : exc + Job.t) : Job.t :=
  match r with inr j => j | inl _ => Job.new "" 0 "" [] None 0 0 0 end.

Definition new : Job.t := Job.new "owner" 2 "req" [] None 7 1 1.
Definition preprocessing : Job.t := get (Job.begin_preprocessing 2 3 new).
Definition prepared : Job.t := get (Job.set_pages [Page.new 1 "p1"; Page.new 2 "p2"] 4 preprocessing).
Definition running : Job.t := get (Job.begin_running 5 prepared).
Definition page (n : Z) (key : string) : Page.t :=
  Page.succeed "text" [] "r.json" "digest" None (Page.start (Page.new n key)).
Definition half : Job.t := Job.update_page 0 (page 1 "p1") running.
Definition failed : Job.t := get (Job.fail "engine_timeout" 50002 6 7 half).
Definition retried : Job.t := get (Job.retry "req-2" 8 failed).
Definition full : Job.t := Job.update_page 1 (page 2 "p2") half.
Definition assembling : Job.t := get (Job.begin_assembling 9 full).
Definition succeeded : Job.t :=
  get (Job.succeed [Artifact.Mk MANIFEST "m" "d" 1 "application/json" None] 10 11 assembling).

Lemma steps_half : rtc job_step new half.
Proof.
  eapply rtc_l; [exact (step_begin_preprocessing 2 3 new preprocessing eq_refl)|].
  eapply rtc_l; [exact (step_set_pages [Page.new 1 "p1"; Page.new 2 "p2"] 4 preprocessing prepared eq_refl)|].
  eapply rtc_l; [exact (step_begin_running 5 prepared running eq_refl)|].
  eapply rtc_l; [exact (step_page 0 (Page.new 1 "p1") (Page.start (Page.new 1 "p1")) running eq_refl (page_start _))|].
  apply rtc_once.
  exact (step_page 0 (Page.start (Page.new 1 "p1")) (page 1 "p1")
    (Job.update_page 0 (Page.start (Page.new 1 "p1")) running) eq_refl
    (page_succeed _ "text" [] "r.json" "digest" None)).
Qed.

Lemma failed_reachable : reachable failed.
Proof.
  exists new. split; [apply created_new|]. etransitivity; [apply steps_half|].
  apply rtc_once. exact (step_fail "engine_timeout" 50002 6 7 half failed eq_refl).
Qed.

End SampleJob.

Lemma reachable_wf_witness : reachable SampleJob.failed ∧ wf SampleJob.failed.
Proof. split; [apply SampleJob.failed_reachable | apply reachable_wf, SampleJob.failed_reachable]. Defined.

Lemma succeeded_final_witness :
  delivered SampleJob.succeeded (Job.with_request_id "req-3" SampleJob.succeeded).
Proof. apply succeeded_final; [apply rtc_once, step_request_id | reflexivity]. Defined.

Lemma retry_checkpoints_witness :
  Job.completed_pages SampleJob.retried = Job.completed_pages SampleJob.failed ∧
  Job.state SampleJob.retried = RETRYING.
Proof.
  destruct (retry_checkpoints "req-2" 8 SampleJob.failed SampleJob.retried eq_refl)
    as (_ & Hs & _ & _ & _ & _ & _ & _ & _ & _ & Hc & _).
  split; [exact Hc | exact Hs].
Defined.

Example retried_pages :
  Page.state <$> Job.pages SampleJob.retried = [Page_SUCCEEDED; Page_PENDING] ∧
  Job.progress SampleJob.retried = 5000.
Proof. vm_compute. by split. Qed.

Lemma progress_spec_witness :
  0 ≤ Job.progress SampleJob.half ≤ 10000 ∧
  (Job.progress SampleJob.half = 10000 ↔ all_done SampleJob.half = true) ∧
  (∀ j', Job.total_pages j' = Job.total_pages SampleJob.half →
     Job.completed_pages SampleJob.half < Job.completed_pages j' →
     Job.progress SampleJob.half < Job.progress j').
Proof. apply progress_spec. reflexivity. Defined.
