(* ===== verification/Ports.v ===== *)
(** * The ports of the application layer

    Models [contexts/ocr/application/ports.py]: its dataclasses, and one type
    class per [Protocol].  A method of a protocol is a coroutine in the monad
    [M exc W] over the world [W] the adapter lives in.

    A repository method that updates the entity it is given (the revision of
    the saved job) returns the updated entity next to its result.  [Runtime] is
    what the code takes from the platform: the clock, [uuid7] and the worker's
    [sleeper]. *)

From Stdlib Require Import QArith.
From S2P Require Import Prelude PyData PyText Json Status Domain.

#[local] Open Scope Z_scope.

(** ** Data *)

Record UploadTarget := MkUploadTarget {
  target_url : string;
  target_method : string;
  target_headers : list (string * string);
  target_upload_id : option string;
  target_part_size_bytes : option Z;
  target_part_urls : list (Z * string)
}.

Record ObjectInfo := MkObjectInfo {
  info_object_key : string;
  info_size_bytes : Z;
  info_sha256 : option string;
  info_content_type : string
}.

Record StoredObject := MkStoredObject {
  stored_object_key : string;
  stored_size_bytes : Z;
  stored_sha256 : string;
  stored_content_type : string
}.

Record FileValidationResult := MkFileValidationResult {
  detected_content_type : string
}.

Record PreparedPage := MkPreparedPage {
  prepared_page_number : Z;
  prepared_object_key : string
}.

Record OCRResult := MkOCRResult {
  result_markdown : string;
  result_structured : dict;
  result_visualization : option string;
  result_visualization_content_type : string;
  result_engine_metadata : dict
}.

Record JobWorkMessage := MkJobWorkMessage {
  msg_job_id : UUID;
  msg_attempt : Z;
  msg_request_id : string;
  msg_schema_version : Z
}.

Record OutboxEvent := MkOutboxEvent {
  outbox_aggregate_id : UUID;
  outbox_event_type : string;
  outbox_payload : dict;
  outbox_request_id : string;
  outbox_id : UUID;
  outbox_created_at : datetime;
  outbox_published_at : option datetime
}.

Inductive AggregateKind := AggregateJob | AggregateUpload.

Definition aggregate_kind_str (k : AggregateKind) : string :=
  match k with AggregateJob => "job" | AggregateUpload => "upload" end.

Record RetentionCandidate := MkRetentionCandidate {
  cand_aggregate_kind : AggregateKind;
  cand_aggregate_id : UUID;
  cand_claim_token : UUID;
  cand_object_keys : list string;
  cand_multipart_upload_id : option string
}.

#[export] Instance AggregateKind_eq_dec : EqDecision AggregateKind.
Proof. solve_decision. Defined.
#[export] Instance JobWorkMessage_eq_dec : EqDecision JobWorkMessage.
Proof. solve_decision. Defined.

(** ** Protocols *)

Class UploadRepository (W : Type) := {
  uploads_add : Upload.t → M exc W ();
  uploads_get : UUID → M exc W (option Upload.t);
  uploads_save : Upload.t → M exc W ()
}.

Class JobRepository (W : Type) := {
  jobs_add : Job.t → M exc W ();
  jobs_get : UUID → M exc W (option Job.t);
  jobs_save : Job.t → M exc W Job.t;
  jobs_save_with_event : Job.t → JobEvent.t → M exc W (Job.t * JobEvent.t);
  jobs_find_by_idempotency_key : string → string → M exc W (option Job.t);
  jobs_list : string → Z → Z → M exc W (list Job.t * Z);
  jobs_add_with_outbox_and_event : Job.t → OutboxEvent → JobEvent.t → M exc W JobEvent.t;
  jobs_save_with_outbox_and_event :
    Job.t → OutboxEvent → JobEvent.t → M exc W (Job.t * JobEvent.t)
}.

Class JobEventRepository (W : Type) := {
  events_append : JobEvent.t → M exc W JobEvent.t;
  events_list_after : UUID → Z → M exc W (list JobEvent.t);
  events_wait_after : UUID → Z → Z → M exc W (list JobEvent.t)
}.

Class OutboxRepository (W : Type) := {
  outbox_add : OutboxEvent → M exc W ();
  outbox_pending : Z → M exc W (list OutboxEvent);
  outbox_mark_published : UUID → M exc W ()
}.

Class RetentionRepository (W : Type) := {
  retention_claim_expired : datetime → Z → Z → M exc W (list RetentionCandidate);
  retention_complete : RetentionCandidate → M exc W bool;
  retention_defer : RetentionCandidate → datetime → M exc W ()
}.

Class ObjectStorage (W : Type) := {
  storage_create_upload_target : string → string → Z → string → M exc W UploadTarget;
  storage_stat : string → M exc W (option ObjectInfo);
  storage_complete_upload : string → option string → list (Z * string) → M exc W ();
  storage_get_bytes : string → M exc W string;
  storage_put_bytes : string → string → string → M exc W StoredObject;
  storage_delete_object : string → M exc W ();
  storage_abort_multipart_upload : string → string → M exc W ();
  storage_create_download_url : string → M exc W string
}.

Class FileValidator (W : Type) :=
  validator_validate : Upload.t → string → M exc W FileValidationResult.

Class DocumentPreprocessor (W : Type) :=
  preprocessor_prepare : Upload.t → Job.t → M exc W (list PreparedPage).

Class OCREngine (W : Type) :=
  engine_recognize : string → Z → dict → string → M exc W OCRResult.

Class QueuePublisher (W : Type) :=
  publisher_publish : JobWorkMessage → M exc W ().

Class StructuredLogger (W : Type) := {
  logger_info : string → dict → M exc W ();
  logger_error : string → dict → M exc W ()
}.

(** The clock, [uuid7()] and the injected [sleeper] (its argument in seconds). *)
Class Runtime (W : Type) := {
  utc_now : M exc W datetime;
  uuid7 : M exc W UUID;
  sleeper : Q → M exc W ()
}.

(** The event loop's clock and [asyncio.sleep], in microseconds. *)
Class EventLoop (W : Type) := {
  loop_time : M exc W Z;
  loop_sleep : Z → M exc W ()
}.
