(* ===== verification/History.v ===== *)
(** * The history of a stored job

    What the program promises about the committed revisions of a job, whatever
    runs concurrently.  A store is seen through [view]: per job id [Fresh] (not
    created yet), [Live j] (the committed revision) or [Retired] (deleted by the
    retention cleanup; ids are [uuid7]s and not used again).

    - [derived j0 j]: [j] is a working copy of the revision [j0], changed by
      domain calls only;
    - [slot_step] and [evolves]: one commit, and any number of commits of any
      jobs;
    - [JobStore]: what a repository guarantees to the worker and the service,
      as rules of the rely/guarantee logic of [Prelude]. *)

From Stdlib Require Import Relations.
From S2P Require Import Prelude PyData PyText Json Status Domain DomainFacts Ports.

#[local] Open Scope Z_scope.

(** ** The life of a job: its state and attempt *)

Inductive life : JobState * Z → JobState * Z → Prop :=
  | life_move s s' a : edge s s' = true → s' ≠ RETRYING → life (s, a) (s', a)
  | life_retry s a : edge s RETRYING = true → life (s, a) (RETRYING, a + 1).

(** How far a state is within an attempt. *)
Definition rank (s : JobState) : Z :=
  match s with
  | QUEUED | RETRYING => 0
  | PREPROCESSING => 1
  | RUNNING => 2
  | ASSEMBLING => 3
  | CANCEL_REQUESTED => 4
  | CANCELLED | SUCCEEDED | FAILED => 5
  end.

(** The position of a job in its history; [life] increases it ([life_position]). *)
Definition position (x : JobState * Z) : Z := 6 * x.2 + rank x.1.

Lemma life_position x y : life x y → position x < position y.
Proof.
  destruct 1 as [s s' a He Hr|s a He]; unfold position; simpl;
    [destruct s, s'; simpl in *; done || lia | destruct s; simpl in *; done || lia].
Qed.

Lemma rtc_life_position x y : rtc life x y → position x ≤ position y.
Proof. induction 1 as [|x y z H _ IH]; [lia|]. apply life_position in H. lia. Qed.

Lemma life_final a y : rtc life (SUCCEEDED, a) y → y = (SUCCEEDED, a).
Proof.
  remember (SUCCEEDED, a) as x eqn:E. induction 1 as [|x y z H _ IH]; [done|]. subst.
  inversion H as [s s' b He _|s b He]; subst; by try destruct s'.
Qed.

(** ** Working copies and commits *)

Record derived (j0 j : Job.t) : Prop := {
  derived_id : Job.id j = Job.id j0;
  derived_owner : Job.owner_id j = Job.owner_id j0;
  derived_upload : Job.upload_id j = Job.upload_id j0;
  derived_options : Job.options j = Job.options j0;
  derived_key : Job.idempotency_key j = Job.idempotency_key j0;
  derived_created : Job.created_at j = Job.created_at j0;
  derived_revision : Job.revision j = Job.revision j0;
  derived_life : rtc life (Job.state j0, Job.attempt j0) (Job.state j, Job.attempt j)
}.

#[export] Instance derived_preorder : PreOrder derived.
Proof.
  split; [by intros j; split; try apply rtc_refl|].
  intros j1 j2 j3 [] []. split; try congruence. by etrans.
Qed.

Definition committed (j : Job.t) : Job.t := Job.with_revision (Job.revision j + 1) j.

Definition legal (j0 j1 : Job.t) : Prop := ∃ j, derived j0 j ∧ j1 = committed j.

Record birth (j : Job.t) : Prop := {
  birth_state : Job.state j = QUEUED;
  birth_attempt : Job.attempt j = 1;
  birth_revision : Job.revision j = 0
}.

Inductive slot := Fresh | Live (j : Job.t) | Retired.

Inductive slot_step : slot → slot → Prop :=
  | slot_create j : birth j → slot_step Fresh (Live j)
  | slot_commit j j' : legal j j' → slot_step (Live j) (Live j')
  | slot_retire j : slot_step (Live j) Retired.

Lemma legal_revision j j' : legal j j' → Job.revision j' = Job.revision j + 1.
Proof. intros (k & [] & ->). simpl. lia. Qed.

Lemma legal_life j j' :
  legal j j' → rtc life (Job.state j, Job.attempt j) (Job.state j', Job.attempt j').
Proof. by intros (k & [] & ->). Qed.

Lemma legal_id j j' : legal j j' → Job.id j' = Job.id j.
Proof. by intros (k & [] & ->). Qed.

Lemma retired_final s : rtc slot_step Retired s → s = Retired.
Proof. inversion 1 as [|? ? ? H']; [done|]. inversion H'. Qed.

(** A later revision of a job is the job itself, or has a larger number, and
    its life continues the earlier one. *)
Lemma live_order j j' :
  rtc slot_step (Live j) (Live j') →
  (j' = j ∨ Job.revision j < Job.revision j') ∧
  (Job.id j' = Job.id j ∧ Job.owner_id j' = Job.owner_id j) ∧
  rtc life (Job.state j, Job.attempt j) (Job.state j', Job.attempt j').
Proof.
  remember (Live j) as x eqn:Ex. remember (Live j') as y eqn:Ey. intros H. revert j Ex.
  induction H as [x|x y z Hs Hr IH]; intros j Ex; subst.
  - simplify_eq. by split; [left|].
  - inversion Hs as [|j0 j1 Hl|j0]; subst.
    + destruct (IH eq_refl j1 eq_refl) as (Hrev & [Hid Ho] & Hlife).
      pose proof (legal_revision _ _ Hl). split; [right; destruct Hrev; subst; lia|].
      split; [rewrite Hid, Ho; split; [by apply legal_id | by destruct Hl as (k & [] & ->)]|]. etrans; [by apply legal_life | done].
    + by apply retired_final in Hr.
Qed.

(** The idempotency key of a job never changes. *)
Lemma live_key j j' :
  rtc slot_step (Live j) (Live j') → Job.idempotency_key j' = Job.idempotency_key j.
Proof.
  remember (Live j) as x eqn:Ex. remember (Live j') as y eqn:Ey. intros H. revert j Ex.
  induction H as [x|x y z Hs Hr IH]; intros j Ex; subst; [by simplify_eq|].
  inversion Hs as [|j0 j1 (k & [] & ->)|j0]; subst.
  - rewrite (IH eq_refl _ eq_refl). done.
  - by apply retired_final in Hr.
Qed.

(** ** Stores *)

(** What a store keeps of a job, the owners it accepts and the ids it takes for
    new jobs ([uuid7] does not hand out the id of a deleted job). *)
Record Contract := MkContract {
  kept : Job.t → Job.t;
  owner_ok : string → Prop;
  new_id : UUID → Prop
}.

(** A store that keeps every field and accepts every owner and id. *)
Definition exact : Contract := MkContract (λ j, j) (λ _, True) (λ _, True).

Section store.
Context {W : Type} (inv : W → Prop) (view : W → UUID → slot) (K : Contract).

Definition evolves : relation W := λ w w', ∀ i, rtc slot_step (view w i) (view w' i).

#[export] Instance evolves_preorder : PreOrder evolves.
Proof.
  split; [intros w i; apply rtc_refl|]. intros w1 w2 w3 H1 H2 i. etransitivity; [apply H1|apply H2].
Qed.

(** [j], as far as the store keeps it, was the committed revision of its job at
    some time. *)
Definition snapshot (j : Job.t) (w : W) : Prop := rtc slot_step (Live (kept K j)) (view w (Job.id j)).

(** [j] is a working copy of a committed revision. *)
Definition tracked (j : Job.t) (w : W) : Prop := ∃ j0, derived j0 j ∧ snapshot j0 w.

Definition stable (P : W → Prop) : Prop := ∀ w w', evolves w w' → P w → P w'.

Lemma stable_snapshot j : stable (snapshot j).
Proof. intros w w' H Hj. unfold snapshot. etransitivity; [apply Hj | apply H]. Qed.

Lemma stable_tracked j : stable (tracked j).
Proof. intros w w' H (j0 & ? & Hj). exists j0. split; [done|]. by eapply stable_snapshot. Qed.

Lemma stable_retired i : stable (λ w, view w i = Retired).
Proof. intros w w' H Hi. specialize (H i). rewrite Hi in H. by apply retired_final. Qed.

(** A job that was committed once and is not stored any more has been deleted. *)
Lemma tracked_gone j w : tracked j w → (∀ j', view w (Job.id j) ≠ Live j') → view w (Job.id j) = Retired.
Proof.
  intros (j0 & Hd & Hs) Hn. unfold snapshot in Hs. rewrite <- (derived_id _ _ Hd) in Hs.
  destruct (view w (Job.id j)) as [|j'|]; [|by destruct (Hn j')|done].
  exfalso. clear -Hs. remember (Live (kept K j0)) as x eqn:Ex. remember Fresh as y eqn:Ey.
  revert Ex. generalize (kept K j0) as j1. induction Hs as [x|x y z Hs Hr IH]; intros j1 ->; [done|].
  inversion Hs; subst; [by eapply IH|]. by apply retired_final in Hr.
Qed.

Lemma stable_and P Q : stable P → stable Q → stable (λ w, P w ∧ Q w).
Proof. intros HP HQ w w' H [??]. split; eauto. Qed.

Lemma stable_True : stable (λ _, True).
Proof. by intros w w'. Qed.

Lemma snapshot_tracked j w : snapshot j w → tracked j w.
Proof. intros H. by exists j. Qed.

Lemma tracked_derived j j' w : derived j j' → tracked j w → tracked j' w.
Proof. intros Hd (j0 & ? & ?). exists j0. split; [by etrans | done]. Qed.

(** A coroutine that only lets other tasks change jobs. *)
Definition quiet {A} (m : M exc W A) : Prop :=
  rg inv evolves (λ _, True) m (λ _ _, True) (λ _ _, True).
Existing Class quiet.

(** What a job repository guarantees. *)
Class JobStore `{!JobRepository W} := {
  get_rg i :
    rg inv evolves (λ _, True) (jobs_get i)
      (λ r w, (∀ j, r = Some j → Job.id j = i ∧ snapshot j w) ∧
              (r = None → ∀ j, view w i ≠ Live j)) (λ _ _, True);
  find_rg o k :
    owner_ok K o →
    rg inv evolves (λ _, True) (jobs_find_by_idempotency_key o k)
      (λ r w, ∀ j, r = Some j →
        Job.owner_id j = o ∧ Job.idempotency_key j = Some k ∧ snapshot j w) (λ _ _, True);
  list_quiet o f l :: quiet (jobs_list o f l);
  list_rg o f l :
    owner_ok K o →
    rg inv evolves (λ _, True) (jobs_list o f l)
      (λ r w, Forall (λ j, Job.owner_id j = o ∧ snapshot j w) r.1) (λ _ _, True);
  save_with_event_rg j e :
    rg inv evolves (tracked j) (jobs_save_with_event j e)
      (λ r w, r.1 = committed j ∧ snapshot (committed j) w) (λ _ _, True);
  save_with_outbox_and_event_rg j o e :
    rg inv evolves (tracked j) (jobs_save_with_outbox_and_event j o e)
      (λ r w, r.1 = committed j ∧ snapshot (committed j) w) (λ _ _, True);
  add_with_outbox_and_event_rg j o e :
    birth j → owner_ok K (Job.owner_id j) → new_id K (Job.id j) →
    rg inv evolves (λ _, True) (jobs_add_with_outbox_and_event j o e)
      (λ _, snapshot j) (λ _ _, True)
}.

(** The other ports leave the jobs to the repository. *)
Class QuietUploads `{!UploadRepository W} := {
  quiet_uploads_add u :: quiet (uploads_add u);
  quiet_uploads_get i :: quiet (uploads_get i);
  quiet_uploads_save u :: quiet (uploads_save u)
}.

Class QuietEvents `{!JobEventRepository W} := {
  quiet_events_append e :: quiet (events_append e)
}.

Class QuietStorage `{!ObjectStorage W} := {
  quiet_create_upload_target k c n h :: quiet (storage_create_upload_target k c n h);
  quiet_stat k :: quiet (storage_stat k);
  quiet_complete_upload k u p :: quiet (storage_complete_upload k u p);
  quiet_get_bytes k :: quiet (storage_get_bytes k);
  quiet_put_bytes k d c :: quiet (storage_put_bytes k d c);
  quiet_create_download_url k :: quiet (storage_create_download_url k)
}.

Class QuietLogger `{!StructuredLogger W} := {
  quiet_logger_info e f :: quiet (logger_info e f);
  quiet_logger_error e f :: quiet (logger_error e f)
}.

Class QuietRuntime `{!Runtime W} := {
  quiet_utc_now :: quiet utc_now;
  quiet_uuid7 :: quiet uuid7;
  quiet_sleeper n :: quiet (sleeper n)
}.

Class NewIds `{!Runtime W} :=
  new_id_rg : rg inv evolves (λ _, True) uuid7 (λ i _, new_id K i) (λ _ _, True).

Class QuietPreprocessor `{!DocumentPreprocessor W} :=
  quiet_prepare u j :: quiet (preprocessor_prepare u j).

Class QuietEngine `{!OCREngine W} :=
  quiet_recognize b n o r :: quiet (engine_recognize b n o r).

Class QuietValidator `{!FileValidator W} :=
  quiet_validate u d :: quiet (validator_validate u d).

(** Framing a stable assertion. *)
Lemma rg_frame {E A} (F : W → Prop) P (m : M E W A) Q X :
  stable F → rg inv evolves P m Q X →
  rg inv evolves (λ w, P w ∧ F w) m (λ a w, Q a w ∧ F w) (λ e w, X e w ∧ F w).
Proof.
  intros HF Hm w Hi [HP HFw]. destruct (Hm w Hi HP) as (? & HR & Hpost). split_and!; [done..|].
  assert (F (m w).2) by (by eapply HF). by destruct ((m w).1).
Qed.

Lemma rg_quiet {A} (F : W → Prop) (m : M exc W A) `{Hm : !quiet m} :
  stable F → rg inv evolves F m (λ _, F) (λ _, F).
Proof.
  intros HF. eapply rg_conseq; [by apply (rg_frame F) | | |]; simpl; tauto.
Qed.

Lemma rg_quiet_any {A} (F : W → Prop) (m : M exc W A) `{Hm : !quiet m} :
  stable F → rg inv evolves F m (λ _, F) (λ _ _, True).
Proof. intros HF. eapply rg_conseq; [by apply (rg_quiet F) | done..]. Qed.

(** Coroutines composed of quiet parts. *)
#[export] Instance quiet_ret {A} (a : A) : quiet (mret a).
Proof. by rule rg_ret. Qed.

#[export] Instance quiet_raise {A} (e : exc) : quiet (raise e : M exc W A).
Proof. by rule rg_raise. Qed.

#[export] Instance quiet_lift {A} (r : exc + A) : quiet (lift r : M exc W A).
Proof. destruct r; apply _. Qed.

#[export] Instance quiet_bind {A B} (m : M exc W A) (k : A → M exc W B) :
  quiet m → (∀ a, quiet (k a)) → quiet (m ≫= k).
Proof. intros Hm Hk. rule_bind; [exact Hm | exact Hk]. Qed.

#[export] Instance quiet_try {A} (m : M exc W A) h :
  quiet m → (∀ e, match h e with Some r => quiet r | None => True end) → quiet (try_except m h).
Proof.
  intros Hm Hh. rule rg_try_except; [exact Hm|]. intros e. specialize (Hh e).
  by destruct (h e).
Qed.

#[export] Instance quiet_collect {A B} (f : A → M exc W B) l :
  (∀ a, quiet (f a)) → quiet (collect f l).
Proof. intros Hf. rule rg_collect. intros x _. apply Hf. Qed.
End store.

(** *** What evolution means for a job *)

Section evolution.
Context {W : Type} (view : W → UUID → slot).

(** A step of the repository moves the slot of a job along its life. *)
Lemma evolves_job w w' i j j' :
  evolves view w w' → view w i = Live j → view w' i = Live j' →
  Job.id j' = Job.id j ∧
  (j' = j ∨ Job.revision j < Job.revision j') ∧
  Job.attempt j ≤ Job.attempt j' ∧
  (Job.attempt j' = Job.attempt j → rank (Job.state j) ≤ rank (Job.state j')) ∧
  (Job.state j = SUCCEEDED → Job.state j' = SUCCEEDED ∧ Job.attempt j' = Job.attempt j).
Proof.
  intros He Hv Hv'. specialize (He i). rewrite Hv, Hv' in He.
  apply live_order in He as (Hr & [Hid _] & Hl). pose proof (rtc_life_position _ _ Hl) as Hp.
  unfold position in Hp. simpl in Hp.
  assert (∀ s, 0 ≤ rank s ≤ 5) as Hrank by (by intros []).
  pose proof (Hrank (Job.state j)). pose proof (Hrank (Job.state j')).
  split_and!; [done | done | lia | lia |].
  intros E. rewrite E in Hl. apply life_final in Hl. naive_solver.
Qed.
End evolution.

(** ** Domain calls keep a working copy *)

Lemma derived_same j j' :
  Job.id j' = Job.id j → Job.owner_id j' = Job.owner_id j → Job.upload_id j' = Job.upload_id j →
  Job.options j' = Job.options j → Job.idempotency_key j' = Job.idempotency_key j →
  Job.created_at j' = Job.created_at j → Job.revision j' = Job.revision j →
  Job.state j' = Job.state j → Job.attempt j' = Job.attempt j → derived j j'.
Proof. intros ??????? Hs Ha. split; try done. rewrite Hs, Ha. apply rtc_refl. Qed.

Lemma derived_update_page i p j : derived j (Job.update_page i p j).
Proof. by apply derived_same. Qed.

Lemma derived_engine e v m j :
  derived j (Job.with_model_name m (Job.with_engine_version v (Job.with_engine_name e j))).
Proof. by apply derived_same. Qed.

(** A method moves along one edge and changes fields that are not tracked. *)
Lemma derived_move j j' :
  Job.id j' = Job.id j → Job.owner_id j' = Job.owner_id j → Job.upload_id j' = Job.upload_id j →
  Job.options j' = Job.options j → Job.idempotency_key j' = Job.idempotency_key j →
  Job.created_at j' = Job.created_at j → Job.revision j' = Job.revision j →
  edge (Job.state j) (Job.state j') = true →
  Job.attempt j' = (if decide (Job.state j' = RETRYING) then Job.attempt j + 1 else Job.attempt j) →
  derived j j'.
Proof.
  intros ??????? He Ha. split; try done. apply rtc_once. rewrite Ha.
  case_decide as E; [rewrite E in *; by constructor | by constructor].
Qed.

Ltac solve_move :=
  guard_cases; apply derived_move; simpl; try done;
  match goal with E : Job.state _ = _ |- _ => by rewrite E end.

Lemma derived_begin_preprocessing n1 n2 j j' : Job.begin_preprocessing n1 n2 j = inr j' → derived j j'.
Proof. intros H. invert_method H. solve_move. Qed.

Lemma derived_set_pages ps n j j' : Job.set_pages ps n j = inr j' → derived j j'.
Proof. intros H. invert_method H. by apply derived_same. Qed.

Lemma derived_begin_running n j j' : Job.begin_running n j = inr j' → derived j j'.
Proof. intros H. invert_method H. solve_move. Qed.

Lemma derived_request_cancel n j j' : Job.request_cancel n j = inr j' → derived j j'.
Proof. intros H. invert_method H. solve_move. Qed.

Lemma derived_cancel n1 n2 j j' : Job.cancel n1 n2 j = inr j' → derived j j'.
Proof. intros H. invert_method H. solve_move. Qed.

Lemma derived_begin_assembling n j j' : Job.begin_assembling n j = inr j' → derived j j'.
Proof. intros H. invert_method H. solve_move. Qed.

Lemma derived_succeed arts n1 n2 j j' : Job.succeed arts n1 n2 j = inr j' → derived j j'.
Proof. intros H. invert_method H. solve_move. Qed.

Lemma derived_fail r c n1 n2 j j' : Job.fail r c n1 n2 j = inr j' → derived j j'.
Proof. intros H. invert_method H. solve_move. Qed.

Lemma derived_retry rid n j j' : Job.retry rid n j = inr j' → derived j j'.
Proof. intros H. invert_method H. solve_move. Qed.

Create HintDb derived discriminated.
#[export] Hint Resolve derived_update_page derived_engine derived_begin_preprocessing
  derived_set_pages derived_begin_running derived_request_cancel derived_cancel
  derived_begin_assembling derived_succeed derived_fail derived_retry : derived.
