(* ===== verification/Dto.v ===== *)
(** * Requests and responses

    Models [contexts/ocr/application/dto.py]: the validation of the request
    bodies and the [from_domain] constructors of the responses.  A failed
    [pydantic] validation is a [ValueError]. *)

From Stdlib Require Import Ascii.
From S2P Require Import Prelude PyData PyText Json Status Domain.

#[local] Open Scope Z_scope.

(** ** Requests *)

Record CreateUploadRequest := MkCreateUploadRequest {
  cur_filename : string;
  cur_size_bytes : Z;
  cur_content_type : string;
  cur_sha256 : string
}.

Record CompleteUploadPart := MkCompleteUploadPart {
  cup_part_number : Z;
  cup_etag : string
}.

Record CompleteUploadRequest := MkCompleteUploadRequest {
  compl_sha256 : option string;
  compl_multipart_upload_id : option string;
  compl_parts : list CompleteUploadPart
}.

Record CreateJobRequest := MkCreateJobRequest {
  cjr_upload_id : UUID;
  cjr_options : dict
}.

Definition is_hex (c : ascii) : bool :=
  is_digit c || ((97 <=? code c) && (code c <=? 102))%N.

Definition validate_sha256 (value : string) : exc + string :=
  let normalized := lower value in
  if negb (bool_decide (py_len normalized = 64)) || negb (forallb is_hex (chars normalized))
  then inl (mk_exc ValueError "sha256 must be 64 lowercase hexadecimal characters")
  else inr normalized.

Definition validate_optional_sha256 (value : option string) : exc + option string :=
  match value with
  | None => inr None
  | Some value => normalized ← validate_sha256 value; mret (Some normalized)
  end.

Definition length_between (lo hi : Z) (s : string) : bool := (lo <=? py_len s) && (py_len s <=? hi).

(** The field constraints of [CreateUploadRequest] and its validator. *)
Definition validate_create_upload (r : CreateUploadRequest) : exc + CreateUploadRequest :=
  if length_between 1 255 (cur_filename r) && (0 <? cur_size_bytes r) &&
     length_between 1 128 (cur_content_type r)
  then
    sha256 ← validate_sha256 (cur_sha256 r);
    mret (MkCreateUploadRequest (cur_filename r) (cur_size_bytes r) (cur_content_type r) sha256)
  else inl (mk_exc ValueError "validation error").

Definition validate_part (p : CompleteUploadPart) : bool :=
  (1 <=? cup_part_number p) && length_between 1 256 (cup_etag p).

Definition validate_complete_upload (r : CompleteUploadRequest) : exc + CompleteUploadRequest :=
  if forallb validate_part (compl_parts r)
  then
    sha256 ← validate_optional_sha256 (compl_sha256 r);
    mret (MkCompleteUploadRequest sha256 (compl_multipart_upload_id r) (compl_parts r))
  else inl (mk_exc ValueError "validation error").

(** ** Responses *)

Record UploadPartDTO := MkUploadPartDTO {
  part_number : Z;
  upload_url : string
}.

Record UploadDTO := MkUploadDTO {
  udto_upload_id : UUID;
  udto_object_key : string;
  udto_upload_url : option string;
  udto_upload_method : string;
  udto_upload_headers : list (string * string);
  udto_multipart_upload_id : option string;
  udto_part_size_bytes : option Z;
  udto_parts : list UploadPartDTO;
  udto_status : string;
  udto_expires_in_seconds : Z
}.

Record CompleteUploadDTO := MkCompleteUploadDTO {
  cudto_upload_id : UUID;
  cudto_status : string;
  cudto_detected_content_type : string
}.

Record PageDTO := MkPageDTO {
  pdto_page_number : Z;
  pdto_status : string;
  pdto_processing_attempts : Z;
  pdto_internal_code : Z;
  pdto_error_reason : option string
}.

Record JobDTO := MkJobDTO {
  jdto_job_id : UUID;
  jdto_upload_id : UUID;
  jdto_filename : string;
  jdto_status : string;
  jdto_attempt : Z;
  jdto_progress : Z;
  jdto_completed_pages : Z;
  jdto_total_pages : Z;
  jdto_pages : list PageDTO;
  jdto_options : dict;
  jdto_engine_name : option string;
  jdto_engine_version : option string;
  jdto_model_name : option string;
  jdto_internal_code : Z;
  jdto_error_reason : option string;
  jdto_created_at : datetime;
  jdto_updated_at : datetime;
  jdto_started_at : option datetime;
  jdto_completed_at : option datetime
}.

Definition page_dto (p : Page.t) : PageDTO :=
  MkPageDTO (Page.page_number p) (page_state_str (Page.state p)) (Page.processing_attempts p)
    (Page.internal_code p) (Page.error_reason p).

(** [JobDTO.from_domain] *)
Definition job_dto (job : Job.t) (filename : string) : JobDTO :=
  MkJobDTO (Job.id job) (Job.upload_id job) filename (job_state_str (Job.state job))
    (Job.attempt job) (Job.progress job) (Job.completed_pages job) (Job.total_pages job)
    (map page_dto (Job.pages job)) (Job.options job) (Job.engine_name job)
    (Job.engine_version job) (Job.model_name job) (Job.internal_code job) (Job.error_reason job)
    (Job.created_at job) (Job.updated_at job) (Job.started_at job) (Job.completed_at job).

Record JobListDTO := MkJobListDTO {
  jl_items : list JobDTO;
  jl_total : Z;
  jl_page : Z;
  jl_page_size : Z
}.

Record ArtifactDTO := MkArtifactDTO {
  adto_kind : string;
  adto_object_key : string;
  adto_download_url : string;
  adto_sha256 : string;
  adto_size_bytes : Z;
  adto_content_type : string;
  adto_page_number : option Z
}.

(** [ArtifactDTO.from_domain] *)
Definition artifact_dto (a : Artifact.t) (download_url : string) : ArtifactDTO :=
  MkArtifactDTO (artifact_kind_str (Artifact.kind a)) (Artifact.object_key a) download_url
    (Artifact.sha256 a) (Artifact.size_bytes a) (Artifact.content_type a) (Artifact.page_number a).

Record JobEventDTO := MkJobEventDTO {
  edto_event_id : Z;
  edto_job_id : UUID;
  edto_event_type : string;
  edto_status : string;
  edto_progress : Z;
  edto_payload : dict;
  edto_occurred_at : datetime
}.

(** [JobEventDTO.from_domain] *)
Definition event_dto (e : JobEvent.t) : JobEventDTO :=
  MkJobEventDTO (JobEvent.sequence e) (JobEvent.job_id e) (JobEvent.event_type e)
    (job_state_str (JobEvent.state e)) (JobEvent.progress e) (JobEvent.payload e)
    (JobEvent.occurred_at e).

(** [upload_from_request], with the default factories' values *)
Definition upload_from_request (r : CreateUploadRequest) (owner_id object_key : string)
    (id : UUID) (created_at : datetime) : Upload.t :=
  Upload.Mk owner_id (cur_filename r) (cur_size_bytes r) (cur_content_type r) (cur_sha256 r)
    object_key id UploadState_UPLOADING created_at None None None.

(** ** Facts *)

Lemma lower_char_idem c : lower_char (lower_char c) = lower_char c.
Proof.
  unfold lower_char. destruct (is_upper c) eqn:E; [|by rewrite E].
  unfold is_upper in *. unfold code in *. apply andb_true_iff in E as [H1%N.leb_le H2%N.leb_le].
  rewrite N_ascii_embedding by lia.
  assert ((N_of_ascii c + 32 <=? 90)%N = false) as -> by (apply N.leb_gt; lia).
  by rewrite andb_false_r.
Qed.

(** A digest the API accepts is normalised: validating it again changes nothing,
    and it is a text of 64 lower-case hexadecimal digits. *)
Lemma validate_sha256_normal v s :
  validate_sha256 v = inr s →
  validate_sha256 s = inr s ∧ py_len s = 64 ∧ Forall (λ c, is_hex c = true) (chars s).
Proof.
  unfold validate_sha256. intros H. case_match eqn:E; [done|]. injection H as <-.
  assert (lower (lower v) = lower v) as ->.
  { unfold lower. rewrite chars_of_chars. f_equal. rewrite <- list_fmap_compose.
    apply list_fmap_ext. intros i c _. apply lower_char_idem. }
  rewrite E. apply orb_false_iff in E as [E1%negb_false_iff E2%negb_false_iff].
  apply bool_decide_eq_true in E1. rewrite forallb_forall in E2.
  split_and!; [done|done|]. apply Forall_forall. intros c Hc. apply E2. by apply list_elem_of_In.
Qed.
