(* ===== verification/Engine.v ===== *)
(** * The OCR engines

    Models [infrastructure/engine.py]: [FakeOCREngine], the deterministic local
    engine, and [PaddleOCRVLEngineAdapter], the adapter of the serving endpoint.
    The HTTP client is a parameter: [post url body request_id] answers with a
    status code and the outcome of [response.json()], or raises. *)

From Stdlib Require Import Ascii.
From Stdlib Require String.
From S2P Require Import Prelude PyData PyText PyValue Json Status Domain Ports Sha256.

#[local] Open Scope Z_scope.

(** ** [FakeOCREngine] *)

Module FakeOCREngine.

Record t := Mk {
  failures_before_success : Z;
  visualization : option string;
  calls : Z
}.

(** [FakeOCREngine()] *)
Definition init : t := Mk 0 (Some "fake-visualization") 0.

Definition result (vis : option string) (image : string) (page_number : Z) (request_id : string) :
    OCRResult :=
  let digest := sha256 image in
  let text := "Fake OCR " +:+ take_str 12 digest in
  MkOCRResult
    ("## Page " +:+ str_Z page_number +:+ of_chars [ascii_of_N 10; ascii_of_N 10] +:+ text)
    [("page_number", JInt page_number);
     ("blocks", JList [JObj
        [("type", JStr "text"); ("text", JStr text);
         ("bbox", JList [JInt 0; JInt 0; JInt 1; JInt 1]); ("confidence", JFloat "1.0")]])]
    vis "image/png"
    [("engine", JStr "fake"); ("model", JStr "fake-local"); ("version", JStr "1");
     ("request_id", JStr request_id)].

(** [recognize]; the delay is time only. *)
Definition recognize (image : string) (page_number : Z) (options : dict) (request_id : string) :
    M exc t OCRResult := λ self,
  let self := Mk (failures_before_success self) (visualization self) (calls self + 1) in
  if decide (calls self ≤ failures_before_success self)
  then (Exn (mk_exc EngineUnavailableError "injected fake engine failure"), self)
  else (Ret (result (visualization self) image page_number request_id), self).

End FakeOCREngine.

(** ** base64 *)

Definition b64_char (n : N) : ascii :=
  if (n <? 26)%N then ascii_of_N (65 + n)
  else if (n <? 52)%N then ascii_of_N (71 + n)
  else if (n <? 62)%N then ascii_of_N (n - 4)
  else if (n =? 62)%N then "+"%char else "/"%char.

Definition b64_value (c : ascii) : option N :=
  let n := code c in
  if ((65 <=? n) && (n <=? 90))%N then Some (n - 65)%N
  else if ((97 <=? n) && (n <=? 122))%N then Some (n - 71)%N
  else if is_digit c then Some (n + 4)%N
  else if decide (c = "+"%char) then Some 62%N
  else if decide (c = "/"%char) then Some 63%N
  else None.

Fixpoint b64_encode_chars (l : list ascii) : list ascii :=
  (match l with
  | [] => []
  | [a] => let n := code a * 16 in
      [b64_char (n / 64); b64_char (n mod 64); "="%char; "="%char]
  | [a; b] => let n := (code a * 256 + code b) * 4 in
      [b64_char (n / 4096); b64_char (n / 64 mod 64); b64_char (n mod 64); "="%char]
  | a :: b :: c :: l' => let n := code a * 65536 + code b * 256 + code c in
      [b64_char (n / 262144); b64_char (n / 4096 mod 64); b64_char (n / 64 mod 64);
       b64_char (n mod 64)] ++ b64_encode_chars l'
  end)%N.

(** [base64.b64encode(data).decode("ascii")] *)
Definition b64encode (data : string) : string := of_chars (b64_encode_chars (chars data)).

(** The bytes of complete groups of four values, then of a padded one. *)
Fixpoint b64_bytes (pad : nat) (vs : list N) : option (list ascii) :=
  (match vs with
  | [] => Some []
  | [_] => None
  | [a; b] => if decide (2 ≤ pad)%nat then Some [ascii_of_N ((a * 64 + b) / 16)] else None
  | [a; b; c] =>
      if decide (1 ≤ pad)%nat then
        let n := (a * 4096 + b * 64 + c) / 4 in
        Some [ascii_of_N (n / 256); ascii_of_N (n mod 256)]
      else None
  | a :: b :: c :: d :: vs' =>
      let n := a * 262144 + b * 4096 + c * 64 + d in
      l ← b64_bytes pad vs';
      Some (ascii_of_N (n / 65536) :: ascii_of_N (n / 256 mod 256) :: ascii_of_N (n mod 256) :: l)
  end)%N.

(** Split [[A-Za-z0-9+/]*={0,2}] into its values and the number of [=]. *)
Fixpoint b64_split (l : list ascii) : option (list N * nat) :=
  match l with
  | [] => Some ([], 0%nat)
  | c :: l' =>
      match b64_value c with
      | Some v => '(vs, p) ← b64_split l'; Some (v :: vs, p)
      | None => if decide (l = ["="%char]) then Some ([], 1%nat)
                else if decide (l = ["="%char; "="%char]) then Some ([], 2%nat) else None
      end
  end.

(** [base64.b64decode(s, validate=True)]; [None] is [binascii.Error] *)
Definition b64decode (s : string) : option string :=
  '(vs, p) ← b64_split (chars s); l ← b64_bytes p vs; Some (of_chars l).

Example b64_ex :
  (b64encode "Man", b64encode "Ma", b64encode "M", b64decode "TWE=", b64decode "TQ", b64decode "T%==") =
  ("TWFu", "TWE=", "TQ==", Some "Ma", None, None).
Proof. vm_compute. reflexivity. Qed.

(** ** [PaddleOCRVLEngineAdapter] *)

Module PaddleOCRVLEngineAdapter.

Section adapter.
Context {W : Type}.
(** [await client.post(url, json=body, headers={"X-Request-ID": ..}, timeout=..)] and
    [response.json()]: the status code, and the payload or what [json()] raised *)
Context (post : string → json → string → M exc W (Z * (exc + json))).
Context (model_name engine_version : string).

(** [base_url.rstrip("/") + "/" + endpoint_path.lstrip("/")] *)
Definition url (base_url endpoint_path : string) : string :=
  rstrip_slash base_url +:+ "/" +:+ of_chars (lstrip_slash (chars endpoint_path)).

Definition option_of (options : dict) (key : string) (default_value : bool) : json :=
  default (JBool default_value) (dget options key).

Definition request_body (image : string) (options : dict) : json :=
  JObj [("file", JStr (b64encode image));
        ("fileType", JInt 1);
        ("useDocOrientationClassify", option_of options "use_doc_orientation_classify" false);
        ("useDocUnwarping", option_of options "use_doc_unwarping" false);
        ("useLayoutDetection", option_of options "use_layout_detection" true);
        ("useChartRecognition", option_of options "use_chart_recognition" true);
        ("visualize", option_of options "visualize" true)].

Definition protocol_error (message : string) : exc := mk_exc EngineProtocolError message.

(** [value not in {None, 0, "0"}]: a set member must be hashable *)
Definition error_code_set (value : json) : exc + bool :=
  match value with
  | JList _ => inl (mk_exc TypeError "unhashable type: 'list'")
  | JObj _ => inl (mk_exc TypeError "unhashable type: 'dict'")
  | v => inr (negb (py_eq v JNull || py_eq v (JInt 0) || py_eq v (JStr "0")))
  end.

Definition decode_optional_image (value : json) : option string :=
  match value with
  | JStr s => if truthy s then b64decode s else None
  | _ => None
  end.

Definition png_magic : string := of_chars (map ascii_of_N [137; 80; 78; 71; 13; 10; 26; 10]%N).

Definition image_content_type (value : option string) : string :=
  match value with
  | Some v =>
      if truthy v && startswith png_magic v then "image/png"
      else if truthy v && (startswith "RIFF" v && bool_decide (slice 8 12 v = "WEBP"))
      then "image/webp" else "image/jpeg"
  | None => "image/jpeg"
  end.

Definition parse_result (payload : dict) (page_number : Z) : exc + OCRResult :=
  match default (JObj payload) (dget payload "result") with
  | JObj result =>
      match or_json (or_json (jget result "layoutParsingResults") (jget result "results"))
                    (JList [JObj result]) with
      | JList (JObj first :: _) =>
          let markdown_value := or_json (jget first "markdown") (jget result "markdown") in
          let markdown_value :=
            match markdown_value with
            | JObj m => or_json (jget m "text") (jget m "markdown")
            | v => v
            end in
          let markdown_value :=
            match markdown_value with JStr s => JStr s | _ => jget first "markdownText" end in
          match markdown_value with
          | JStr markdown =>
              let from_outputs :=
                match jget first "outputImages" with
                | JObj images => head (omap (λ kv, decode_optional_image kv.2) images)
                | _ => None
                end in
              let visualization :=
                match from_outputs with
                | Some v => Some v
                | None => decode_optional_image (jget first "inputImage")
                end in
              let pruned :=
                match jget first "prunedResult" with JObj p => p | _ => [] end in
              inr (MkOCRResult markdown
                [("page_number", JInt page_number); ("pruned_result", JObj pruned);
                 ("data_info", jget result "dataInfo")]
                visualization (image_content_type visualization)
                [("engine", JStr "paddleocr-vl"); ("version", JStr engine_version);
                 ("model", or_json (or_json (jget result "modelName") (jget payload "modelName"))
                             (JStr model_name));
                 ("log_id", jget payload "logId")])
          | _ => inl (protocol_error "PaddleOCR-VL response is missing markdown")
          end
      | JList (_ :: _) => inl (protocol_error "PaddleOCR-VL parsing result is invalid")
      | _ => inl (protocol_error "PaddleOCR-VL response has no parsing result")
      end
  | _ => inl (protocol_error "PaddleOCR-VL result is not an object")
  end.

(** The translation of what [client.post] raises. *)
Definition post_error (e : exc) : option exc :=
  if isinstance e TimeoutError then
    Some (mk_exc EngineTimeoutError "PaddleOCR-VL request timed out")
  else if isinstance e Exception_ then
    if endswith "timeout" (lower (cls_name (exc_cls e)))
    then Some (mk_exc EngineTimeoutError "PaddleOCR-VL request timed out")
    else Some (mk_exc EngineUnavailableError "PaddleOCR-VL is unavailable")
  else None.

(** The checks on the response, in the order of the code. *)
Definition check_response (status_code : Z) (body : exc + json) (page_number : Z) :
    exc + OCRResult :=
  if decide (status_code = 504) then
    inl (mk_exc EngineTimeoutError "PaddleOCR-VL request timed out")
  else if decide (500 ≤ status_code) then
    inl (mk_exc EngineUnavailableError ("PaddleOCR-VL returned " +:+ str_Z status_code))
  else if negb (bool_decide (status_code = 200)) then
    inl (protocol_error ("PaddleOCR-VL returned " +:+ str_Z status_code))
  else
    match body with
    | inl e => if isinstance e Exception_
               then inl (protocol_error "PaddleOCR-VL returned invalid JSON") else inl e
    | inr (JObj payload) =>
        failed ← error_code_set (jget payload "errorCode");
        if failed : bool
        then inl (protocol_error
               ("PaddleOCR-VL error: " +:+ py_str (jget payload "errorCode")))
        else parse_result payload page_number
    | inr _ => inl (protocol_error "PaddleOCR-VL response is not an object")
    end.

Definition recognize (endpoint : string) (image : string) (page_number : Z) (options : dict)
    (request_id : string) : M exc W OCRResult :=
  try_else (post endpoint (request_body image options) request_id)
    (λ e, e' ← post_error e; Some (raise e'))
    (λ '(status_code, body), lift (check_response status_code body page_number)).
End adapter.

End PaddleOCRVLEngineAdapter.

(** ** Facts *)

Lemma b64_value_char n : (n < 64)%N → b64_value (b64_char n) = Some n.
Proof.
  intros Hn.
  assert (forallb (λ k, bool_decide (b64_value (b64_char (N.of_nat k)) = Some (N.of_nat k)))
    (seq 0 64) = true) as H by (vm_compute; reflexivity).
  rewrite forallb_forall in H. specialize (H (N.to_nat n)).
  rewrite N2Nat.id, bool_decide_eq_true in H. apply H. apply in_seq. lia.
Qed.

Lemma b64_split_char n l : (n < 64)%N →
  b64_split (b64_char n :: l) = ('(vs, p) ← b64_split l; Some (n :: vs, p)).
Proof. intros Hn. simpl. by rewrite b64_value_char. Qed.

(** Induction by groups of three bytes. *)
Lemma triples_ind {A} (P : list A → Prop) :
  P [] → (∀ a, P [a]) → (∀ a b, P [a; b]) → (∀ a b c l, P l → P (a :: b :: c :: l)) → ∀ l, P l.
Proof.
  intros H0 H1 H2 H3 l. assert (P l ∧ (∀ a, P (a :: l)) ∧ (∀ a b, P (a :: b :: l))) as [? _]; [|done].
  induction l as [|x l (IH & IH1 & IH2)]; split_and!; eauto.
Qed.

Lemma b64_roundtrip_chars l :
  ∃ vs p, b64_split (b64_encode_chars l) = Some (vs, p) ∧ b64_bytes p vs = Some l.
Proof.
  induction l as [|a|a b|a b c l (vs & p & Hs & Hb)] using triples_ind.
  - by exists [], 0%nat.
  - pose proof (code_bound a). set (n := (code a * 16)%N).
    exists [n / 64; n mod 64]%N, 2%nat. split.
    + cbn [b64_encode_chars]. fold n.
      rewrite !b64_split_char; [done | apply N.mod_lt; lia | apply N.Div0.div_lt_upper_bound; lia].
    + cbn [b64_bytes]. rewrite decide_True by lia.
      replace (n / 64 * 64 + n mod 64)%N with n by (rewrite (N.div_mod n 64) at 1; lia).
      unfold n. rewrite N.div_mul by lia. by rewrite ascii_code.
  - pose proof (code_bound a). pose proof (code_bound b). set (n := ((code a * 256 + code b) * 4)%N).
    exists [n / 4096; n / 64 mod 64; n mod 64]%N, 1%nat. split.
    + cbn [b64_encode_chars]. fold n.
      rewrite !b64_split_char; [done | apply N.mod_lt; lia.. | apply N.Div0.div_lt_upper_bound; lia].
    + cbn [b64_bytes]. rewrite decide_True by lia.
      replace (n / 4096 * 4096 + n / 64 mod 64 * 64 + n mod 64)%N with n.
      2:{ change 4096%N with (64 * 64)%N. rewrite <- N.Div0.div_div.
          pose proof (N.div_mod n 64). pose proof (N.div_mod (n / 64) 64). lia. }
      unfold n. rewrite N.div_mul, N.div_add_l, (N.div_small (code b)), N.add_0_r by lia.
      rewrite N.add_comm, N.Div0.mod_add, N.mod_small by lia. by rewrite !ascii_code.
  - pose proof (code_bound a). pose proof (code_bound b). pose proof (code_bound c).
    set (n := (code a * 65536 + code b * 256 + code c)%N).
    exists ([n / 262144; n / 4096 mod 64; n / 64 mod 64; n mod 64]%N ++ vs), p. split.
    + cbn [b64_encode_chars]. fold n. cbn [app].
      rewrite !b64_split_char; [by rewrite Hs | apply N.mod_lt; lia.. | apply N.Div0.div_lt_upper_bound; lia].
    + cbn [app b64_bytes].
      replace (n / 262144 * 262144 + n / 4096 mod 64 * 4096 + n / 64 mod 64 * 64 + n mod 64)%N with n.
      2:{ change 262144%N with (64 * 64 * 64)%N. change 4096%N with (64 * 64)%N.
          rewrite <- !N.Div0.div_div.
          pose proof (N.div_mod n 64). pose proof (N.div_mod (n / 64) 64).
          pose proof (N.div_mod (n / 64 / 64) 64). lia. }
      rewrite Hb. simpl.
      assert (n / 65536 = code a ∧ n / 256 mod 256 = code b ∧ n mod 256 = code c)%N as (-> & -> & ->).
      { unfold n. split_and!.
        - symmetry. apply (N.div_unique _ _ _ (code b * 256 + code c)); lia.
        - replace (code a * 65536 + code b * 256 + code c)%N
            with ((code a * 256 + code b) * 256 + code c)%N by lia.
          rewrite N.div_add_l, (N.div_small (code c)), N.add_0_r by lia.
          rewrite N.add_comm, N.Div0.mod_add, N.mod_small by lia. done.
        - replace (code a * 65536 + code b * 256 + code c)%N
            with (code c + (code a * 256 + code b) * 256)%N by lia.
          rewrite N.Div0.mod_add, N.mod_small by lia. done. }
      by rewrite !ascii_code.
Qed.

(** The image sent to the engine is the image the worker read: decoding the
    [file] field of the request body gives back the bytes of the page. *)
Theorem b64_roundtrip data : b64decode (b64encode data) = Some data.
Proof.
  destruct (b64_roundtrip_chars (chars data)) as (vs & p & Hs & Hb).
  unfold b64decode, b64encode. rewrite chars_of_chars, Hs. simpl. rewrite Hb. simpl.
  by rewrite of_chars_chars.
Qed.

(** The errors of the engine adapter. *)
Definition engine_error_class (c : cls) : Prop :=
  c = EngineTimeoutError ∨ c = EngineUnavailableError ∨ c = EngineProtocolError.

Lemma parse_result_error m v payload n e :
  PaddleOCRVLEngineAdapter.parse_result m v payload n = inl e → exc_cls e = EngineProtocolError.
Proof.
  unfold PaddleOCRVLEngineAdapter.parse_result. cbv zeta.
  repeat match goal with
  | |- inl _ = inl _ → _ => by intros [= <-]
  | |- inr _ = inl _ → _ => intros [=]
  | |- match ?v with _ => _ end = inl _ → _ => destruct v
  end.
Qed.

(** The classification of the serving endpoint's answers.  A response
    becomes a result only with status 200; status 504 is a timeout and any other
    5xx an outage (both retryable), every other answer is a protocol error (not
    retryable), except that an [errorCode] that is a list or an object raises
    [TypeError]. *)
Theorem check_response_spec model_name engine_version status body page_number :
  match PaddleOCRVLEngineAdapter.check_response model_name engine_version status body page_number with
  | inr _ => status = 200 ∧ ∃ payload, body = inr (JObj payload)
  | inl e =>
      (status = 504 ∧ exc_cls e = EngineTimeoutError) ∨
      (status ≠ 504 ∧ 500 ≤ status ∧ exc_cls e = EngineUnavailableError) ∨
      (status < 500 ∧ (exc_cls e = EngineProtocolError ∨
         (status = 200 ∧ body = inl e ∧ isinstance e Exception_ = false) ∨
         (status = 200 ∧ exc_cls e = TypeError ∧ ∃ payload v, body = inr (JObj payload) ∧
            dget payload "errorCode" = Some v ∧ ((∃ l, v = JList l) ∨ (∃ o, v = JObj o)))))
  end.
Proof.
  unfold PaddleOCRVLEngineAdapter.check_response.
  case_decide; [left; done|]. case_decide; [right; left; done|].
  destruct (bool_decide (status = 200)) eqn:E; simpl.
  2:{ right; right. split; [lia | by left]. }
  apply bool_decide_eq_true in E. destruct body as [e|[| | | | | |payload]];
    try (right; right; split; [lia | by left]).
  { destruct (isinstance e Exception_) eqn:Ei; right; right; (split; [lia|]); [by left | by right; left]. }
  unfold mbind, result_bind.
  destruct (PaddleOCRVLEngineAdapter.error_code_set _) as [e|failed] eqn:Ec.
  - right; right. split; [lia|]. right; right. unfold jget in Ec.
    destruct (dget payload "errorCode") as [v|] eqn:Ev; [|done].
    destruct v; try done; simpl in Ec; simplify_eq/=; naive_solver.
  - destruct failed; [right; right; split; [lia | by left]|].
    destruct (PaddleOCRVLEngineAdapter.parse_result _ _ _ _) eqn:Ep; [|naive_solver].
    right; right. split; [lia|]. left. by eapply parse_result_error.
Qed.
