(* ===== verification/Memory.v ===== *)
(** * The in-memory adapters

    Models [infrastructure/memory.py]: one [World] with the dictionaries of the
    repositories, the event logs, the outbox, the object store, the queue and the
    log records, and one definition per method.

    Every method holds its [asyncio.Lock] for its whole body, so it is one atomic
    step; [add_with_outbox_and_event] and [save_with_outbox_and_event] are
    sequences of such steps.  The class instances are therefore built over any
    world [W] with a way [atomic] to run a step in it:

    - [World] itself ([atomic m = m]): nothing else runs;
    - [Shared], a world with a schedule of what other tasks do: one entry of it
      runs before each step.

    Storing and reading copy the object ([copy.deepcopy]); values are copies. *)

From Stdlib Require Import QArith.
From S2P Require Import Prelude PyData PyText Json Status Domain Ports Sha256.

#[local] Open Scope Z_scope.

Record World := MkWorld {
  w_uploads : list (UUID * Upload.t);
  w_jobs : list (UUID * Job.t);
  w_has_events : bool;           (* the [events] argument of the job repository *)
  w_events : gmap UUID (list JobEvent.t);
  w_outbox : list (UUID * OutboxEvent);
  w_objects : list (string * (string * string * string));
  w_messages : list JobWorkMessage;
  w_records : list (string * string * dict);
  w_clock : Z;
  w_uuids : N;
  w_sleeps : list Q
}.

Definition put_uploads v w := MkWorld v (w_jobs w) (w_has_events w) (w_events w) (w_outbox w)
  (w_objects w) (w_messages w) (w_records w) (w_clock w) (w_uuids w) (w_sleeps w).
Definition put_jobs v w := MkWorld (w_uploads w) v (w_has_events w) (w_events w) (w_outbox w)
  (w_objects w) (w_messages w) (w_records w) (w_clock w) (w_uuids w) (w_sleeps w).
Definition put_events v w := MkWorld (w_uploads w) (w_jobs w) (w_has_events w) v (w_outbox w)
  (w_objects w) (w_messages w) (w_records w) (w_clock w) (w_uuids w) (w_sleeps w).
Definition put_outbox v w := MkWorld (w_uploads w) (w_jobs w) (w_has_events w) (w_events w) v
  (w_objects w) (w_messages w) (w_records w) (w_clock w) (w_uuids w) (w_sleeps w).
Definition put_objects v w := MkWorld (w_uploads w) (w_jobs w) (w_has_events w) (w_events w)
  (w_outbox w) v (w_messages w) (w_records w) (w_clock w) (w_uuids w) (w_sleeps w).
Definition put_messages v w := MkWorld (w_uploads w) (w_jobs w) (w_has_events w) (w_events w)
  (w_outbox w) (w_objects w) v (w_records w) (w_clock w) (w_uuids w) (w_sleeps w).
Definition put_records v w := MkWorld (w_uploads w) (w_jobs w) (w_has_events w) (w_events w)
  (w_outbox w) (w_objects w) (w_messages w) v (w_clock w) (w_uuids w) (w_sleeps w).
Definition put_clock v w := MkWorld (w_uploads w) (w_jobs w) (w_has_events w) (w_events w)
  (w_outbox w) (w_objects w) (w_messages w) (w_records w) v (w_uuids w) (w_sleeps w).
Definition put_uuids v w := MkWorld (w_uploads w) (w_jobs w) (w_has_events w) (w_events w)
  (w_outbox w) (w_objects w) (w_messages w) (w_records w) (w_clock w) v (w_sleeps w).
Definition put_sleeps v w := MkWorld (w_uploads w) (w_jobs w) (w_has_events w) (w_events w)
  (w_outbox w) (w_objects w) (w_messages w) (w_records w) (w_clock w) (w_uuids w) v.

Abbreviation Mem := (M exc World).

(** ** [InMemoryUploadRepository] *)

Module InMemoryUploadRepository.

Definition add (upload : Upload.t) : Mem () :=
  items ← gets w_uploads;
  match dget items (Upload.id upload) with
  | Some _ => raise (mk_exc ValueError "duplicate upload")
  | None => modify (put_uploads (dset items (Upload.id upload) upload))
  end.

Definition get (upload_id : UUID) : Mem (option Upload.t) :=
  gets (λ w, dget (w_uploads w) upload_id).

Definition save (upload : Upload.t) : Mem () :=
  items ← gets w_uploads;
  match dget items (Upload.id upload) with
  | None => raise (mk_exc ValueError "upload not found")
  | Some _ => modify (put_uploads (dset items (Upload.id upload) upload))
  end.

End InMemoryUploadRepository.

(** ** [InMemoryJobEventRepository] *)

Module InMemoryJobEventRepository.

Definition log (w : World) (job_id : UUID) : list JobEvent.t := default [] (w_events w !! job_id).

Definition terminal_event (event_type : string) : bool :=
  bool_decide (event_type ∈ ["job.cancelled"; "job.failed"; "job.succeeded"]).

(** [item.payload.get("attempt") == attempt] *)
Definition same_attempt (a b : option json) : bool :=
  match a, b with
  | Some a, Some b => py_eq a b
  | Some a, None | None, Some a => py_eq a JNull
  | None, None => true
  end.

(** The event already recorded for the same end of the same attempt. *)
Definition existing (event : JobEvent.t) (events : list JobEvent.t) : option JobEvent.t :=
  if terminal_event (JobEvent.event_type event) then
    head (filter (λ item,
      JobEvent.event_type item = JobEvent.event_type event ∧
      same_attempt (dget (JobEvent.payload item) "attempt")
                   (dget (JobEvent.payload event) "attempt") = true) events)
  else None.

Definition append (event : JobEvent.t) : Mem JobEvent.t :=
  events ← gets (λ w, log w (JobEvent.job_id event));
  match existing event events with
  | Some item => mret item
  | None =>
      let sequence := Z.of_nat (length events) + 1 in
      let stored := JobEvent.with_sequence sequence event in
      _ ← modify (λ w, put_events (<[JobEvent.job_id event := events ++ [stored]]> (w_events w)) w);
      mret stored
  end.

Definition after (sequence : Z) (events : list JobEvent.t) : list JobEvent.t :=
  filter (λ e, sequence < JobEvent.sequence e) events.

Definition list_after (job_id : UUID) (sequence : Z) : Mem (list JobEvent.t) :=
  gets (λ w, after sequence (log w job_id)).

(** [wait_after]; [others] is what the other tasks do while this one waits on the
    condition, for [timeout_seconds] at most. *)
Definition wait_after (others : Z → World → World) (job_id : UUID) (sequence timeout_seconds : Z) :
    Mem (list JobEvent.t) :=
  existing ← list_after job_id sequence;
  match existing with
  | _ :: _ => mret existing
  | [] =>
      _ ← modify (others timeout_seconds);
      (* no event: the wait ended with [TimeoutError] and returns [[]] *)
      list_after job_id sequence
  end.

End InMemoryJobEventRepository.

(** ** [InMemoryJobRepository] *)

Module InMemoryJobRepository.

Definition same_key (owner_id key : string) (item : Job.t) : bool :=
  bool_decide (Job.owner_id item = owner_id ∧ Job.idempotency_key item = Some key).

Definition add (job : Job.t) : Mem () :=
  items ← gets w_jobs;
  match dget items (Job.id job) with
  | Some _ => raise (mk_exc ValueError "duplicate job")
  | None =>
      if match Job.idempotency_key job with
         | Some key => truthy key && existsb (same_key (Job.owner_id job) key) (dvalues items)
         | None => false
         end
      then raise (mk_exc DuplicateIdempotencyKeyError "duplicate idempotency key")
      else modify (put_jobs (dset items (Job.id job) job))
  end.

Definition get (job_id : UUID) : Mem (option Job.t) := gets (λ w, dget (w_jobs w) job_id).

(** The revision check both [save] methods start with. *)
Definition check_revision (job : Job.t) : Mem Job.t :=
  items ← gets w_jobs;
  match dget items (Job.id job) with
  | None => raise (mk_exc ValueError "job not found")
  | Some stored =>
      if decide (Job.revision stored = Job.revision job) then mret stored
      else raise (mk_exc ConcurrentJobUpdateError "job was updated concurrently")
  end.

Definition put (job : Job.t) : Mem () :=
  modify (λ w, put_jobs (dset (w_jobs w) (Job.id job) job) w).

Definition save (job : Job.t) : Mem Job.t :=
  _ ← check_revision job;
  let job := Job.with_revision (Job.revision job + 1) job in
  _ ← put job;
  mret job.

Definition save_with_event (job : Job.t) (event : JobEvent.t) : Mem (Job.t * JobEvent.t) :=
  has_events ← gets w_has_events;
  if negb has_events
  then raise (mk_exc RuntimeError "job event repository is not configured")
  else
  previous ← check_revision job;
  let candidate := Job.with_revision (Job.revision job + 1) job in
  _ ← put candidate;
  try_else (InMemoryJobEventRepository.append event)
    (λ e, if isinstance e Exception_ then Some (_ ← put previous; raise e) else None)
    (λ saved_event, mret (candidate, saved_event)).

Definition find_by_idempotency_key (owner_id key : string) : Mem (option Job.t) :=
  gets (λ w, head (filter (λ item, same_key owner_id key item = true) (dvalues (w_jobs w)))).

Definition list (owner_id : string) (offset limit : Z) : Mem (list Job.t * Z) :=
  gets (λ w,
    let items := py_sorted Job.created_at true
      (filter (λ item, Job.owner_id item = owner_id) (dvalues (w_jobs w))) in
    (py_slice offset (offset + limit) items, Z.of_nat (length items))).

End InMemoryJobRepository.

(** ** [InMemoryOutboxRepository] *)

Module InMemoryOutboxRepository.

Definition add (event : OutboxEvent) : Mem () :=
  modify (λ w, put_outbox (dset (w_outbox w) (outbox_id event) event) w).

Definition pending (limit : Z) : Mem (list OutboxEvent) :=
  gets (λ w,
    let items := py_sorted outbox_created_at false
      (filter (λ item, outbox_published_at item = None) (dvalues (w_outbox w))) in
    py_slice 0 limit items).

Definition set_published (now : datetime) (e : OutboxEvent) : OutboxEvent :=
  MkOutboxEvent (outbox_aggregate_id e) (outbox_event_type e) (outbox_payload e)
    (outbox_request_id e) (outbox_id e) (outbox_created_at e) (Some now).

Definition mark_published (event_id : UUID) : Mem () :=
  items ← gets w_outbox;
  now ← gets w_clock;
  match dget items event_id with
  | None => raise (mk_exc KeyError (uuid_str event_id))
  | Some e => modify (put_outbox (dset items event_id (set_published now e)))
  end.

End InMemoryOutboxRepository.

(** ** [InMemoryObjectStorage]: data, content type and digest per key *)

Module InMemoryObjectStorage.

Definition create_upload_target (object_key content_type : string) (size_bytes : Z)
    (sha256 : string) : Mem UploadTarget :=
  mret (MkUploadTarget ("memory://" +:+ object_key) "PUT"
    [("Content-Type", content_type); ("X-Content-SHA256", sha256)] None None []).

Definition stat (object_key : string) : Mem (option ObjectInfo) :=
  gets (λ w,
    '(data, content_type, digest) ← dget (w_objects w) object_key;
    Some (MkObjectInfo object_key (bytes_len data) (Some digest) content_type)).

Definition complete_upload (object_key : string) (upload_id : option string)
    (parts : list (Z * string)) : Mem () := mret ().

Definition get_bytes (object_key : string) : Mem string :=
  objects ← gets w_objects;
  match dget objects object_key with
  | Some (data, _, _) => mret data
  | None => raise (mk_exc FileNotFoundError object_key)
  end.

Definition put_bytes (object_key data content_type : string) : Mem StoredObject :=
  let digest := sha256 data in
  _ ← modify (λ w, put_objects (dset (w_objects w) object_key (data, content_type, digest)) w);
  mret (MkStoredObject object_key (bytes_len data) digest content_type).

Definition delete_object (object_key : string) : Mem () :=
  modify (λ w, put_objects (dpop (w_objects w) object_key) w).

Definition abort_multipart_upload (object_key upload_id : string) : Mem () := mret ().

Definition create_download_url (object_key : string) : Mem string :=
  info ← stat object_key;
  match info with
  | None => raise (mk_exc FileNotFoundError object_key)
  | Some _ => mret ("memory://" +:+ object_key +:+ "?download=1")
  end.

End InMemoryObjectStorage.

Module InMemoryQueuePublisher.

Definition publish (message : JobWorkMessage) : Mem () :=
  modify (λ w, put_messages (w_messages w ++ [message]) w).

End InMemoryQueuePublisher.

Module InMemoryStructuredLogger.

Definition info (event : string) (fields : dict) : Mem () :=
  modify (λ w, put_records (w_records w ++ [("info", event, fields)]) w).

Definition error (event : string) (fields : dict) : Mem () :=
  modify (λ w, put_records (w_records w ++ [("error", event, fields)]) w).

End InMemoryStructuredLogger.

(** ** The platform: a clock that moves with every reading, a [uuid7] that never
    repeats, and a [sleeper] that records its delays *)

Module Platform.

Definition now : Mem datetime := λ w, (Ret (w_clock w), put_clock (w_clock w + 1) w).
Definition uuid7 : Mem UUID := λ w, (Ret (w_uuids w), put_uuids (w_uuids w + 1)%N w).
Definition sleep (seconds : Q) : Mem () := modify (λ w, put_sleeps (w_sleeps w ++ [seconds]) w).

End Platform.

(** ** Instances over a world in which the methods are atomic steps *)

Class Atomic (W : Type) := {
  atomic : ∀ {A}, Mem A → M exc W A;
  waiting : Z → World → World
}.

Section instances.
Context {W : Type} `{!Atomic W}.

#[export] Instance memory_uploads : UploadRepository W := {
  uploads_add u := atomic (InMemoryUploadRepository.add u);
  uploads_get i := atomic (InMemoryUploadRepository.get i);
  uploads_save u := atomic (InMemoryUploadRepository.save u)
}.

#[export] Instance memory_events : JobEventRepository W := {
  events_append e := atomic (InMemoryJobEventRepository.append e);
  events_list_after i s := atomic (InMemoryJobEventRepository.list_after i s);
  events_wait_after i s t := atomic (InMemoryJobEventRepository.wait_after waiting i s t)
}.

#[export] Instance memory_outbox : OutboxRepository W := {
  outbox_add e := atomic (InMemoryOutboxRepository.add e);
  outbox_pending l := atomic (InMemoryOutboxRepository.pending l);
  outbox_mark_published i := atomic (InMemoryOutboxRepository.mark_published i)
}.

Definition add_with_outbox_and_event (job : Job.t) (outbox_event : OutboxEvent)
    (job_event : JobEvent.t) : M exc W JobEvent.t :=
  _ ← atomic (InMemoryJobRepository.add job);
  _ ← outbox_add outbox_event;
  has_events ← atomic (gets w_has_events);
  if has_events : bool then events_append job_event
  else raise (mk_exc RuntimeError "job event repository is not configured").

Definition save_with_outbox_and_event (job : Job.t) (outbox_event : OutboxEvent)
    (job_event : JobEvent.t) : M exc W (Job.t * JobEvent.t) :=
  saved ← atomic (InMemoryJobRepository.save_with_event job job_event);
  _ ← outbox_add outbox_event;
  mret saved.

#[export] Instance memory_jobs : JobRepository W := {
  jobs_add j := atomic (InMemoryJobRepository.add j);
  jobs_get i := atomic (InMemoryJobRepository.get i);
  jobs_save j := atomic (InMemoryJobRepository.save j);
  jobs_save_with_event j e := atomic (InMemoryJobRepository.save_with_event j e);
  jobs_find_by_idempotency_key o k := atomic (InMemoryJobRepository.find_by_idempotency_key o k);
  jobs_list o f l := atomic (InMemoryJobRepository.list o f l);
  jobs_add_with_outbox_and_event := add_with_outbox_and_event;
  jobs_save_with_outbox_and_event := save_with_outbox_and_event
}.

#[export] Instance memory_storage : ObjectStorage W := {
  storage_create_upload_target k c n h :=
    atomic (InMemoryObjectStorage.create_upload_target k c n h);
  storage_stat k := atomic (InMemoryObjectStorage.stat k);
  storage_complete_upload k u p := atomic (InMemoryObjectStorage.complete_upload k u p);
  storage_get_bytes k := atomic (InMemoryObjectStorage.get_bytes k);
  storage_put_bytes k d c := atomic (InMemoryObjectStorage.put_bytes k d c);
  storage_delete_object k := atomic (InMemoryObjectStorage.delete_object k);
  storage_abort_multipart_upload k u :=
    atomic (InMemoryObjectStorage.abort_multipart_upload k u);
  storage_create_download_url k := atomic (InMemoryObjectStorage.create_download_url k)
}.

#[export] Instance memory_publisher : QueuePublisher W :=
  λ m, atomic (InMemoryQueuePublisher.publish m).

#[export] Instance memory_logger : StructuredLogger W := {
  logger_info e f := atomic (InMemoryStructuredLogger.info e f);
  logger_error e f := atomic (InMemoryStructuredLogger.error e f)
}.

#[export] Instance memory_runtime : Runtime W := {
  utc_now := atomic Platform.now;
  uuid7 := atomic Platform.uuid7;
  sleeper n := atomic (Platform.sleep n)
}.
End instances.

(** Nothing else runs. *)
#[export] Instance atomic_alone : Atomic World := {
  atomic A m := m;
  waiting _ w := w
}.

(** Other tasks run between the steps, following a schedule. *)
Record Shared := MkShared {
  sh_world : World;
  sh_schedule : list (World → World)
}.

Definition interleave {A} (m : Mem A) : M exc Shared A := λ s,
  let '(w, rest) := match sh_schedule s with
                    | f :: rest => (f (sh_world s), rest)
                    | [] => (sh_world s, [])
                    end in
  let '(r, w') := m w in (r, MkShared w' rest).

#[export] Instance atomic_shared : Atomic Shared := {
  atomic A m := interleave m;
  waiting _ w := w
}.

Definition empty_world : World := MkWorld [] [] true ∅ [] [] [] [] 0 1 [].
