(* ===== verification/MemoryFacts.v ===== *)
(** * The in-memory adapters keep their promises

    - [wf_world]: the invariant of a [World] (each job stored once and under its
      own id; every event log numbered 1, 2, 3, ... with one terminal event per
      attempt and kind);
    - every method keeps it and commits legally, so the in-memory repositories
      are a [JobStore] with quiet other ports ([QuietUploads], ...), alone ([World]) and next to any tasks
      that keep the same promises ([Shared]);
    - the functional behaviour of the event log: append-only, gap-free and
      idempotent for terminal events. *)

From Stdlib Require Import Sorted.
From S2P Require Import Prelude PyData PyText Json JsonFacts Status Domain DomainFacts Ports.
From S2P Require Import History Memory.

#[local] Open Scope Z_scope.

(** ** The invariant *)

(** Two events that record the same end of the same attempt. *)
Definition same_end (e e' : JobEvent.t) : bool :=
  InMemoryJobEventRepository.terminal_event (JobEvent.event_type e') &&
  bool_decide (JobEvent.event_type e = JobEvent.event_type e') &&
  InMemoryJobEventRepository.same_attempt
    (dget (JobEvent.payload e) "attempt") (dget (JobEvent.payload e') "attempt").

Record log_ok (events : list JobEvent.t) : Prop := {
  log_numbered : JobEvent.sequence <$> events = seqZ 1 (Z.of_nat (length events));
  log_ends : ∀ i k e e', (i < k)%nat → events !! i = Some e → events !! k = Some e' →
    same_end e e' = false
}.

Record wf_world (w : World) : Prop := {
  wf_keys : NoDup (w_jobs w).*1;
  wf_ids : ∀ i j, dget (w_jobs w) i = Some j → Job.id j = i;
  wf_logs : ∀ i, log_ok (InMemoryJobEventRepository.log w i)
}.

Definition mview (w : World) (i : UUID) : slot :=
  match dget (w_jobs w) i with Some j => Live j | None => Fresh end.

(** [j] is the stored revision of its job. *)
Definition stored (j : Job.t) (w : World) : Prop :=
  dget (w_jobs w) (Job.id j) = Some j ∧ w_has_events w = true.

(** *** The event log *)

Lemma existing_None event events :
  InMemoryJobEventRepository.existing event events = None →
  Forall (λ e, same_end e event = false) events.
Proof.
  unfold InMemoryJobEventRepository.existing, same_end. intros H.
  destruct (InMemoryJobEventRepository.terminal_event (JobEvent.event_type event)) eqn:E;
    [|by apply Forall_true].
  simpl. apply Forall_forall. intros e He.
  destruct (filter _ events) as [|x l] eqn:Ef; [|done].
  apply not_true_iff_false. rewrite andb_true_iff, bool_decide_eq_true. intros [??].
  assert (e ∈ filter (λ item, JobEvent.event_type item = JobEvent.event_type event ∧
      InMemoryJobEventRepository.same_attempt (dget (JobEvent.payload item) "attempt")
        (dget (JobEvent.payload event) "attempt") = true) events) as Hin
    by (by apply list_elem_of_filter).
  rewrite Ef in Hin. by apply not_elem_of_nil in Hin.
Qed.

Lemma existing_Some event events item :
  InMemoryJobEventRepository.existing event events = Some item →
  item ∈ events ∧ same_end item event = true.
Proof.
  unfold InMemoryJobEventRepository.existing, same_end. intros H. case_match eqn:E; [|done].
  apply head_Some_elem_of in H. apply list_elem_of_filter in H as [[??] ?].
  split; [done|]. simpl. rewrite bool_decide_eq_true_2 by done. done.
Qed.

Lemma log_ok_nil : log_ok [].
Proof. by split. Qed.

Lemma numbered_snoc events event :
  JobEvent.sequence <$> events = seqZ 1 (Z.of_nat (length events)) →
  let events' := events ++ [JobEvent.with_sequence (Z.of_nat (length events) + 1) event] in
  JobEvent.sequence <$> events' = seqZ 1 (Z.of_nat (length events')).
Proof.
  intros Hn. simpl. rewrite fmap_app, Hn, length_app. simpl.
  rewrite Nat2Z.inj_add. change (Z.of_nat 1) with 1.
  rewrite seqZ_app by lia. f_equal. rewrite seqZ_cons by lia. simpl. f_equal. lia.
Qed.

Lemma log_ok_snoc events event :
  log_ok events → Forall (λ e, same_end e event = false) events →
  log_ok (events ++ [JobEvent.with_sequence (Z.of_nat (length events) + 1) event]).
Proof.
  intros [Hn He] Hnew. split.
  - by apply numbered_snoc.
  - intros i k e e' Hik Hi Hk.
    apply lookup_app_Some in Hk as [Hk|[Hlen Hk]].
    + rewrite lookup_app_l in Hi by (apply lookup_lt_Some in Hk; lia). by eapply He.
    + apply list_lookup_singleton_Some in Hk as [Hz <-].
      rewrite lookup_app_l in Hi by lia.
      eapply Forall_lookup_1 in Hnew; [|done]. exact Hnew.
Qed.

(** ** Steps of the world *)

Abbreviation MR := (evolves mview).
Abbreviation mrg := (rg wf_world MR).
Abbreviation mquiet := (quiet wf_world mview).

(** A step that leaves the jobs and the event logs alone. *)
Definition untouched (w w' : World) : Prop := w_jobs w' = w_jobs w ∧ w_events w' = w_events w.

Lemma untouched_ok w w' : untouched w w' → wf_world w → wf_world w' ∧ MR w w'.
Proof.
  intros [Hj He] [Hk Hi Hl]. split.
  - split; rewrite ?Hj; [done..|]. intros i. unfold InMemoryJobEventRepository.log. rewrite He.
    apply Hl.
  - intros i. unfold mview. rewrite Hj. apply rtc_refl.
Qed.

Lemma quiet_of {A} (m : Mem A) : (∀ w, untouched w (m w).2) → mquiet m.
Proof.
  intros Hm w Hw _. destruct (untouched_ok _ _ (Hm w) Hw) as [??].
  split_and!; [done..|]. by destruct ((m w).1).
Qed.

Ltac solve_untouched :=
  apply quiet_of; intros w;
  cbv [InMemoryUploadRepository.add InMemoryUploadRepository.get InMemoryUploadRepository.save
    InMemoryOutboxRepository.add InMemoryOutboxRepository.pending
    InMemoryOutboxRepository.mark_published InMemoryObjectStorage.create_upload_target
    InMemoryObjectStorage.stat InMemoryObjectStorage.complete_upload
    InMemoryObjectStorage.get_bytes InMemoryObjectStorage.put_bytes
    InMemoryObjectStorage.delete_object InMemoryObjectStorage.abort_multipart_upload
    InMemoryObjectStorage.create_download_url InMemoryQueuePublisher.publish
    InMemoryStructuredLogger.info InMemoryStructuredLogger.error
    Platform.now Platform.uuid7 Platform.sleep InMemoryJobRepository.list
    mbind M_bind mret M_ret gets modify raise];
  repeat case_match; simplify_eq/=; by split.

(** A call that raises or returns at once. *)
Ltac stay := split_and!; [done | reflexivity | done].

Lemma quiet_append event : mquiet (InMemoryJobEventRepository.append event).
Proof.
  intros w Hw _. unfold InMemoryJobEventRepository.append.
  unfold mbind, M_bind, gets. simpl.
  destruct (InMemoryJobEventRepository.existing _ _) eqn:E; [by split_and!|].
  simpl. split_and!; [|intros i; apply rtc_refl|done].
  destruct Hw as [Hk Hi Hl]. split; simpl; [done..|]. intros i.
  unfold InMemoryJobEventRepository.log. simpl.
  destruct (decide (i = JobEvent.job_id event)) as [->|Hne].
  - rewrite lookup_insert_eq. simpl. apply log_ok_snoc; [apply Hl | by apply existing_None].
  - rewrite lookup_insert_ne by done. apply Hl.
Qed.

(** Storing the next revision of a job. *)
Lemma put_ok w j j' :
  wf_world w → dget (w_jobs w) (Job.id j') = Some j → legal j j' →
  wf_world (put_jobs (dset (w_jobs w) (Job.id j') j') w) ∧
  MR w (put_jobs (dset (w_jobs w) (Job.id j') j') w).
Proof.
  intros [Hk Hi Hl] Hj Hlegal. split.
  - split; simpl; [by apply dset_NoDup| |done]. intros i k. rewrite dget_dset.
    case_decide; [naive_solver | apply Hi].
  - intros i. unfold mview. simpl. rewrite dget_dset. case_decide; [subst|apply rtc_refl].
    rewrite Hj. by apply rtc_once, slot_commit.
Qed.

Lemma mview_live w i j : mview w i = Live j ↔ dget (w_jobs w) i = Some j.
Proof. unfold mview. case_match; naive_solver. Qed.

(** A working copy with the revision of the stored job is a copy of that very
    revision: the optimistic lock detects every other update. *)
Lemma tracked_current w j stored :
  tracked mview exact j w → dget (w_jobs w) (Job.id j) = Some stored →
  Job.revision stored = Job.revision j → derived stored j.
Proof.
  intros (j0 & Hd & Hs) Hst Hrev. unfold snapshot, mview in Hs. simpl in Hs.
  rewrite <- (derived_id _ _ Hd), Hst in Hs. apply live_order in Hs as (Ho & _ & _).
  pose proof (derived_revision _ _ Hd). destruct Ho as [->|]; [done | lia].
Qed.

Lemma get_spec i :
  mrg (λ _, True) (InMemoryJobRepository.get i)
    (λ r w, (∀ j, r = Some j → Job.id j = i ∧ snapshot mview exact j w) ∧
            (r = None → ∀ j, mview w i ≠ Live j)) (λ _ _, True).
Proof.
  intros w Hw _. unfold InMemoryJobRepository.get, gets. simpl.
  split_and!; [done | reflexivity | |].
  - intros j Hj. pose proof (wf_ids _ Hw _ _ Hj). split; [done|]. subst.
    unfold snapshot. rewrite (proj2 (mview_live _ _ _) Hj). apply rtc_refl.
  - intros Hn j Hj%mview_live. congruence.
Qed.

Lemma find_spec o k :
  mrg (λ _, True) (InMemoryJobRepository.find_by_idempotency_key o k)
    (λ r w, ∀ j, r = Some j →
       Job.owner_id j = o ∧ Job.idempotency_key j = Some k ∧ snapshot mview exact j w) (λ _ _, True).
Proof.
  intros w Hw _. unfold InMemoryJobRepository.find_by_idempotency_key, gets. simpl.
  split_and!; [done | reflexivity |]. intros j Hj.
  apply head_Some_elem_of, list_elem_of_filter in Hj as [Hkey Hj].
  apply bool_decide_eq_true in Hkey as [Ho Hk]. split; [done|]. split; [done|].
  unfold dvalues in Hj. apply list_elem_of_fmap in Hj as ([i j'] & -> & Hj). simpl.
  apply dget_elem in Hj; [|apply Hw]. pose proof (wf_ids _ Hw _ _ Hj). subst.
  unfold snapshot. rewrite (proj2 (mview_live _ _ _) Hj). apply rtc_refl.
Qed.

Lemma elem_of_py_slice {A} i k (l : list A) x : x ∈ py_slice i k l → x ∈ l.
Proof. unfold py_slice. intros H. eapply subseteq_drop, subseteq_take, H. Qed.

Lemma list_spec o f l :
  mrg (λ _, True) (InMemoryJobRepository.list o f l)
    (λ r w, Forall (λ j, Job.owner_id j = o ∧ snapshot mview exact j w) r.1) (λ _ _, True).
Proof.
  intros w Hw _. unfold InMemoryJobRepository.list, gets. simpl.
  split_and!; [done | reflexivity |]. apply Forall_forall. intros j Hj.
  apply elem_of_py_slice in Hj. rewrite py_sorted_perm in Hj.
  apply list_elem_of_filter in Hj as [Ho Hj]. split; [done|].
  unfold dvalues in Hj. apply list_elem_of_fmap in Hj as ([i j'] & -> & Hj). simpl.
  apply dget_elem in Hj; [|apply Hw]. pose proof (wf_ids _ Hw _ _ Hj). subst.
  unfold snapshot. rewrite (proj2 (mview_live _ _ _) Hj). apply rtc_refl.
Qed.

Lemma check_revision_run job w :
  InMemoryJobRepository.check_revision job w =
  (match dget (w_jobs w) (Job.id job) with
   | None => Exn (mk_exc ValueError "job not found")
   | Some stored =>
       if decide (Job.revision stored = Job.revision job) then Ret stored
       else Exn (mk_exc ConcurrentJobUpdateError "job was updated concurrently")
   end, w).
Proof.
  unfold InMemoryJobRepository.check_revision, mbind, M_bind, gets. simpl.
  destruct (dget (w_jobs w) (Job.id job)); [|done]. by case_decide.
Qed.

Lemma append_run event w :
  ∃ e w', InMemoryJobEventRepository.append event w = (Ret e, w') ∧ w_jobs w' = w_jobs w.
Proof.
  unfold InMemoryJobEventRepository.append, mbind, M_bind, gets, modify. simpl.
  destruct (InMemoryJobEventRepository.existing _ _); simpl; eauto.
Qed.

(** [save_with_event], case by case. *)
Lemma save_with_event_run j e w :
  let w1 := put_jobs (dset (w_jobs w) (Job.id j) (committed j)) w in
  ∃ ev w2, InMemoryJobEventRepository.append e w1 = (Ret ev, w2) ∧
  InMemoryJobRepository.save_with_event j e w =
    if negb (w_has_events w)
    then (Exn (mk_exc RuntimeError "job event repository is not configured"), w)
    else match dget (w_jobs w) (Job.id j) with
    | None => (Exn (mk_exc ValueError "job not found"), w)
    | Some stored =>
        if decide (Job.revision stored = Job.revision j) then (Ret (committed j, ev), w2)
        else (Exn (mk_exc ConcurrentJobUpdateError "job was updated concurrently"), w)
    end.
Proof.
  intros w1. destruct (append_run e w1) as (ev & w2 & Happ & _). exists ev, w2. split; [done|].
  unfold InMemoryJobRepository.save_with_event.
  erewrite bind_run by done. destruct (w_has_events w); simpl; [|done].
  pose proof (check_revision_run j w) as Hc.
  destruct (dget (w_jobs w) (Job.id j)) as [stored|]; [|by erewrite bind_run_exn].
  destruct (decide (Job.revision stored = Job.revision j)); [|by erewrite bind_run_exn].
  erewrite bind_run by done. erewrite bind_run by done. by erewrite try_else_run.
Qed.

Lemma save_with_event_spec j e :
  mrg (tracked mview exact j) (InMemoryJobRepository.save_with_event j e)
    (λ r w, r.1 = committed j ∧ snapshot mview exact (committed j) w) (λ _ _, True).
Proof.
  intros w Hw Hj. destruct (save_with_event_run j e w) as (ev & w2 & Happ & ->).
  destruct (w_has_events w); simpl; [|stay].
  destruct (dget (w_jobs w) (Job.id j)) as [stored|] eqn:Hst; [|stay].
  case_decide as Hrev; [|stay].
  set (w1 := put_jobs _ w) in Happ. simpl.
  destruct (put_ok w stored (committed j) Hw Hst) as [Hw1 HR1].
  { exists j. split; [by eapply tracked_current | done]. }
  fold w1 in Hw1, HR1. destruct (append_run e w1) as (ev' & w2' & Happ' & Hjobs).
  rewrite Happ in Happ'. simplify_eq.
  destruct (quiet_append e w1 Hw1 I) as (Hw2 & HR2 & _). rewrite Happ in Hw2, HR2. simpl in *.
  split_and!; [done | by etrans | done |].
  unfold snapshot, mview. rewrite Hjobs. unfold w1. simpl. rewrite dget_dset_eq. apply rtc_refl.
Qed.

Lemma add_spec j :
  birth j → mrg (λ _, True) (InMemoryJobRepository.add j) (λ _, snapshot mview exact j) (λ _ _, True).
Proof.
  intros Hb w Hw _. unfold InMemoryJobRepository.add, mbind, M_bind, gets. simpl.
  destruct (dget (w_jobs w) (Job.id j)) as [j'|] eqn:Hj; [stay|].
  case_match; [stay|]. unfold modify. simpl.
  destruct Hw as [Hk Hi Hl]. split_and!.
  - split; simpl; [by apply dset_NoDup| |done]. intros i k. rewrite dget_dset.
    case_decide; [naive_solver | apply Hi].
  - intros i. unfold mview. simpl. rewrite dget_dset. case_decide; [subst|apply rtc_refl].
    rewrite Hj. by apply rtc_once, slot_create.
  - unfold snapshot, mview. simpl. rewrite dget_dset_eq. apply rtc_refl.
Qed.

(** ** The repositories, alone or next to other tasks *)

(** Running a step of the world in [W], where other tasks may run before it. *)
Class AtomicLaws (W : Type) `{!Atomic W} (inv : W → Prop) (world : W → World) :=
  atomic_rg : ∀ A P (m : Mem A) Q X,
    stable mview P → mrg P m Q X →
    rg inv (evolves (λ w, mview (world w))) (λ w, P (world w)) (atomic m)
      (λ a w, Q a (world w)) (λ e w, X e (world w)).

#[export] Instance alone_laws : AtomicLaws World wf_world id.
Proof. intros A P m Q X _ Hm. exact Hm. Qed.

(** What another task may do between two steps. *)
Definition task_ok (f : World → World) : Prop :=
  ∀ w, wf_world w → wf_world (f w) ∧ MR w (f w).

Definition shared_inv (s : Shared) : Prop :=
  wf_world (sh_world s) ∧ Forall task_ok (sh_schedule s).

#[export] Instance shared_laws : AtomicLaws Shared shared_inv sh_world.
Proof.
  intros A P m Q X HP Hm [w sched] [Hw Hs] HPw. simpl in *. unfold interleave. simpl.
  assert (∃ w1 rest, (match sched with f :: rest => (f w, rest) | [] => (w, []) end) = (w1, rest) ∧
    wf_world w1 ∧ MR w w1 ∧ Forall task_ok rest) as (w1 & rest & -> & Hw1 & HR1 & Hrest).
  { destruct sched as [|f rest]; [exists w, []; split_and!; (done || reflexivity)|].
    apply Forall_cons in Hs as [Hf ?]. destruct (Hf w Hw). by exists (f w), rest. }
  destruct (Hm w1 Hw1 (HP _ _ HR1 HPw)) as (? & H0 & ?).
  destruct (m w1) as [r w2]. simpl in *. split_and!; [done | | done].
  exact (transitivity HR1 H0).
Qed.

Section repositories.
Context {W : Type} `{!Atomic W} (inv : W → Prop) (world : W → World).
Context `{!AtomicLaws W inv world}.

Abbreviation wview := (λ w, mview (world w)).

Lemma atomic_quiet {A} (m : Mem A) : mquiet m → quiet inv wview (atomic m).
Proof.
  intros Hm. by apply (atomic_rg A (λ _, True) m (λ _ _, True) (λ _ _, True)).
Qed.

#[export] Instance memory_quiet_uploads : QuietUploads inv wview.
Proof. split; intros; apply atomic_quiet; solve_untouched. Qed.

#[export] Instance memory_quiet_events : QuietEvents inv wview.
Proof. split. intros. apply atomic_quiet, quiet_append. Qed.

#[export] Instance memory_quiet_storage : QuietStorage inv wview.
Proof. split; intros; apply atomic_quiet; solve_untouched. Qed.

#[export] Instance memory_quiet_logger : QuietLogger inv wview.
Proof. split; intros; apply atomic_quiet; solve_untouched. Qed.

#[export] Instance memory_quiet_runtime : QuietRuntime inv wview.
Proof. split; intros; apply atomic_quiet; solve_untouched. Qed.

#[export] Instance memory_new_ids : NewIds inv wview exact.
Proof.
  unfold NewIds. eapply rg_conseq; [apply memory_quiet_runtime | done..].
Qed.

Lemma outbox_add_quiet e : quiet inv wview (outbox_add e).
Proof. apply atomic_quiet. solve_untouched. Qed.

(** The in-memory job repository keeps the promise the worker relies on. *)
#[export] Instance memory_job_store : JobStore inv wview exact.
Proof.
  split.
  - intros i. exact (atomic_rg _ _ _ _ _ (stable_True mview) (get_spec i)).
  - intros o k _. exact (atomic_rg _ _ _ _ _ (stable_True mview) (find_spec o k)).
  - intros o f l. apply atomic_quiet. solve_untouched.
  - intros o f l _. exact (atomic_rg _ _ _ _ _ (stable_True mview) (list_spec o f l)).
  - intros j e. exact (atomic_rg _ _ _ _ _ (stable_tracked mview exact j) (save_with_event_spec j e)).
  - intros j o e. simpl. unfold save_with_outbox_and_event.
    rule_bind; [exact (atomic_rg _ _ _ _ _ (stable_tracked mview exact j) (save_with_event_spec j e))|].
    intros saved. rule_bind; [eapply rg_conseq;
      [apply (rg_frame inv wview (λ w, saved.1 = committed j ∧ snapshot wview exact (committed j) w));
       [|apply (outbox_add_quiet o)]| | |done]|].
    + intros w w' HR [? ?]. split; [done|]. by eapply stable_snapshot.
    + intros w Hw. by split.
    + intros ? w Hw. exact (proj2 Hw).
    + intros ?. by rule rg_ret.
  - intros j o e Hb _ _. simpl. unfold add_with_outbox_and_event.
    rule_bind; [exact (atomic_rg _ _ _ _ _ (stable_True mview) (add_spec j Hb))|]. intros ?.
    assert (stable wview (snapshot wview exact j)) as HS by apply stable_snapshot.
    assert (∀ A (m : M exc W A), quiet inv wview m →
      rg inv (evolves wview) (snapshot wview exact j) m (λ _, snapshot wview exact j) (λ _ _, True)) as Hq.
    { intros A m Hm. eapply rg_conseq; [by apply (rg_quiet inv wview (snapshot wview exact j)) | done..]. }
    rule_bind; [apply Hq, outbox_add_quiet|]. intros ?.
    rule_bind; [apply Hq, atomic_quiet, quiet_of; intros w; by split|]. intros [].
    + apply Hq, memory_quiet_events.
    + by rule rg_raise.
Qed.
End repositories.
