(* ===== verification/Worker.v ===== *)
(** * The OCR worker

    Models [contexts/ocr/application/worker.py], class [OCRWorker], over the
    ports of [Ports].  The methods are coroutines; [process] is the whole
    handler with its two [except] clauses.

    A Python variable is visible to the [except] clause of a [try] with the
    value it has when the exception leaves, and a mutated object with the fields
    it has then.  Inside such a [try] an exception is therefore raised together
    with the local state the handler reads ([at_local]):

    - in [process], the variable [job]: [Unbound], or [Bound] to [None] or to
      the job object;
    - in [process_page], the object the caller passed, since the method mutates
      it as long as [jobs.get] returns [None] (its [job] is the caller's);
    - in the engine call of [process_page], the variables [page], [job] and
      [latest] of the loop.

    [while True] takes fuel; [Worker.v] gives [max_page_retries + 2], which
    [WorkerFacts] proves to be enough. *)

From Stdlib Require Import Ascii.
From Stdlib Require Import QArith.
From S2P Require Import Prelude PyData PyText PyValue Json Status Domain Ports Sha256.

#[local] Open Scope Z_scope.

Section worker.
Context {W : Type}.
Context `{!UploadRepository W, !JobRepository W, !JobEventRepository W, !ObjectStorage W,
  !DocumentPreprocessor W, !OCREngine W, !StructuredLogger W, !Runtime W}.

(** The constructor's parameters; the delay is in seconds. *)
Context (max_page_retries : Z) (retry_base_seconds : Q).

(** ** Error translation *)

(** The check of [OCRWorker.__init__]. *)
Definition worker_init (max_page_retries : Z) : exc + () :=
  if decide (max_page_retries < 0)
  then inl (mk_exc ValueError "max_page_retries must not be negative")
  else inr ().

Definition database {A} (operation : M exc W A) : M exc W A :=
  try_except operation (λ e,
    if isinstance_any e [ConcurrentJobUpdateError; DependencyError] then None
    else if isinstance e Exception_
    then Some (raise (mk_exc DatabaseUnavailableError "database operation failed"))
    else None).

Definition storage {A} (operation : M exc W A) : M exc W A :=
  try_except operation (λ e,
    if isinstance_any e [DependencyError; FileNotFoundError] then None
    else if isinstance e Exception_
    then Some (raise (mk_exc StorageUnavailableError "object storage operation failed"))
    else None).

(** [_reason]: [CamelCase] to [snake_case], less a final [_error] *)
Fixpoint snake (first : bool) (l : list ascii) : list ascii :=
  match l with
  | [] => []
  | c :: l' =>
      (if is_upper c && negb first then ["_"%char; lower_char c] else [lower_char c])
      ++ snake false l'
  end.

Definition reason_of (e : exc) : string :=
  if isinstance e DependencyError then default "" (error_reason e)
  else removesuffix "_error" (of_chars (snake true (chars (cls_name (exc_cls e))))).

Definition internal_code_of (e : exc) : InternalStatusCode :=
  if isinstance e DependencyError then default JOB_PROCESSING_FAILED (internal_code e)
  else JOB_PROCESSING_FAILED.

Definition metadata_text (value : option json) (max_length : nat) : option string :=
  match value with
  | None | Some JNull => None
  | Some v =>
      let normalized := strip (py_str v) in
      if truthy normalized then Some (take_str max_length normalized) else None
  end.

(** ** Saving and events *)

Definition job_event (job : Job.t) (event_type : string) (payload : dict) (now : datetime) :
    JobEvent.t :=
  JobEvent.Mk (Job.id job) event_type (Job.state job) (Job.progress job) (Job.request_id job)
    (dupdate [("attempt", JInt (Job.attempt job))] payload) 0 now.

Definition save_and_emit (job : Job.t) (event_type : string) (payload : dict) :
    M exc W (Job.t * JobEvent.t) :=
  now ← utc_now;
  database (jobs_save_with_event job (job_event job event_type payload now)).

Definition emit (job : Job.t) (event_type : string) (payload : dict) : M exc W JobEvent.t :=
  now ← utc_now;
  database (events_append (job_event job event_type payload now)).

Definition repair_terminal_event (job : Job.t) : M exc W JobEvent.t :=
  match Job.state job with
  | CANCELLED => emit job "job.cancelled" []
  | FAILED =>
      emit job "job.failed"
        [("internal_code", JInt (Job.internal_code job));
         ("error_reason", JStr (or_str (Job.error_reason job) "job_processing_failed"))]
  | SUCCEEDED =>
      emit job "job.succeeded" [("artifact_count", JInt (Z.of_nat (length (Job.artifacts job))))]
  | s => raise (mk_exc KeyError (job_state_str s))
  end.

(** [latest = await self._database(self.jobs.get(job.id)) or job]; the flag says
    that [latest] is the object [job] itself. *)
Definition reload (job : Job.t) : M exc W (Job.t * bool) :=
  latest ← database (jobs_get (Job.id job));
  mret (match latest with Some l => (l, false) | None => (job, true) end).

(** [latest.cancel(); await self._save_and_emit(latest, "job.cancelled")]: the
    object at the end, or with the exception. *)
Definition cancel_now (latest : Job.t) : M (exc * Job.t) W Job.t :=
  now1 ← at_local latest utc_now;
  now2 ← at_local latest utc_now;
  latest ← at_local latest (lift (Job.cancel now1 now2 latest));
  '(saved, _) ← at_local latest (save_and_emit latest "job.cancelled" []);
  mret saved.

Definition cancel_if_requested (job : Job.t) : M exc W (option Job.t) :=
  latest ← database (jobs_get (Job.id job));
  match latest with
  | Some latest =>
      if decide (Job.state latest = CANCEL_REQUESTED)
      then latest ← map_exn fst (cancel_now latest); mret (Some latest)
      else mret None
  | None => mret None
  end.

(** [_fail] *)
Definition fail_job (job : Job.t) (reason : string) (code : InternalStatusCode) :
    M (exc * Job.t) W Job.t :=
  now1 ← at_local job utc_now;
  now2 ← at_local job utc_now;
  '(job, event_type) ←
    (if decide (Job.state job = CANCEL_REQUESTED) then
       job ← at_local job (lift (Job.cancel now1 now2 job));
       mret (job, "job.cancelled")
     else
       job ← at_local job (lift (Job.fail reason (code_value code) now1 now2 job));
       mret (job, "job.failed"));
  '(saved, _) ← at_local job (save_and_emit job event_type
    [("internal_code",
      JInt (if decide (event_type = "job.failed") then code_value code else 0));
     ("error_reason", JStr reason)]);
  mret saved.

(** ** Pages *)

(** [job.pages[i]] *)
Definition get_page (i : nat) (job : Job.t) : exc + Page.t :=
  match Job.pages job !! i with
  | Some p => inr p
  | None => inl (mk_exc IndexError "list index out of range")
  end.

Definition page_key (job : Job.t) (page : Page.t) (suffix : string) : string :=
  "jobs/" +:+ uuid_str (Job.id job) +:+ "/attempts/" +:+ str_Z (Job.attempt job) +:+
  "/pages/" +:+ fmt06 (Page.page_number page) +:+ suffix.

Definition visualization_extension (content_type : string) : string :=
  if decide (content_type = "image/jpeg") then "jpg"
  else if decide (content_type = "image/png") then "png"
  else if decide (content_type = "image/webp") then "webp"
  else "bin".

(** What an exception of the engine's [try] leaves behind: [page], whether it is
    a page of [job] (and not of another snapshot), and [job]. *)
Record PageLocals := MkPageLocals {
  pl_page : Page.t;
  pl_owned : bool;
  pl_job : Job.t
}.

(** The [try] body of one attempt, from the engine call to [return latest].
    [same] records whether [latest] is the object [job]; as long as it is, what
    is done to [latest] is done to [job]. *)
Definition recognize_page (image : string) (i : nat) (job : Job.t) (page : Page.t) :
    M (exc * PageLocals) W Job.t :=
  let here := MkPageLocals page true job in
  result ← at_local here
    (engine_recognize image (Page.page_number page) (Job.options job) (Job.request_id job));
  '(latest, same) ← at_local here (reload job);
  let held (latest : Job.t) (page : Page.t) :=
    MkPageLocals page same (if same then latest else job) in
  if decide (Job.state latest = CANCEL_REQUESTED) then
    map_exn (λ '(e, l), (e, MkPageLocals page true (if same : bool then l else job)))
      (cancel_now latest)
  else
  page ← at_local here (lift (get_page i latest));
  let metadata := result_engine_metadata result in
  let latest := Job.with_engine_name (metadata_text (dget metadata "engine") 80) latest in
  let latest := Job.with_engine_version (metadata_text (dget metadata "version") 80) latest in
  let latest := Job.with_model_name (metadata_text (dget metadata "model") 160) latest in
  visualization_key ←
    match result_visualization result with
    | None => mret None
    | Some data =>
        let content_type := result_visualization_content_type result in
        let key := page_key job page
          (".visualization." +:+ visualization_extension content_type) in
        _ ← at_local (held latest page) (storage (storage_put_bytes key data content_type));
        mret (Some key)
    end;
  let result_payload := dumps false (JObj
    [("schema_version", JInt 1);
     ("page_number", JInt (Page.page_number page));
     ("markdown", JStr (result_markdown result));
     ("structured", JObj (result_structured result));
     ("engine_metadata", JObj metadata)]) in
  result_object ← at_local (held latest page)
    (storage (storage_put_bytes (page_key job page ".json") result_payload "application/json"));
  let page := Page.succeed (result_markdown result)
    (dupdate (result_structured result) [("engine_metadata", JObj metadata)])
    (stored_object_key result_object) (stored_sha256 result_object) visualization_key page in
  let latest := Job.update_page i page latest in
  '(latest, _) ← at_local (held latest page) (save_and_emit latest "page.succeeded"
    [("page_number", JInt (Page.page_number page));
     ("completed_pages", JInt (Job.completed_pages latest));
     ("total_pages", JInt (Job.total_pages latest))]);
  if decide (Job.state latest = CANCEL_REQUESTED) then
    map_exn (λ '(e, l), (e, held l page)) (cancel_now latest)
  else mret latest.

(** What one round of the loop decides. *)
Inductive PageRound :=
  | PageReturn (completed : Job.t)
  | PageBreak (job : Job.t) (last_error : option exc)
  | PageAgain (job : Job.t) (last_error : option exc).

(** One round, from [page.start()] on; [job] is the reloaded job.  An exception
    carries the job object. *)
Definition page_round (image : string) (i : nat) (job : Job.t) (last_error : option exc) :
    M (exc * Job.t) W PageRound :=
  let max_attempts := max_page_retries + 1 in
  page ← at_local job (lift (get_page i job));
  if decide (max_attempts ≤ Page.processing_attempts page)
  then mret (PageBreak job last_error)
  else
  let page := Page.start page in
  let job := Job.update_page i page job in
  '(job, _) ← at_local job (save_and_emit job "page.running"
    [("page_number", JInt (Page.page_number page));
     ("processing_attempt", JInt (Page.processing_attempts page))]);
  r ← attempt (recognize_page image i job page);
  match r with
  | inr latest => mret (PageReturn latest)
  | inl (e, locals) =>
      if negb (isinstance e Exception_) ||
         isinstance_any e [ConcurrentJobUpdateError; DatabaseUnavailableError]
      then raise (e, pl_job locals)
      else
      let reason := reason_of e in
      let code := internal_code_of e in
      let page := Page.with_error_reason (Some reason)
        (Page.with_internal_code (code_value code) (pl_page locals)) in
      let job := if pl_owned locals then Job.update_page i page (pl_job locals)
                 else pl_job locals in
      if negb (isinstance e TransientEngineError) ||
         bool_decide (max_attempts ≤ Page.processing_attempts page)
      then mret (PageBreak job (Some e))
      else
      '(job, _) ← at_local job (save_and_emit job "page.retry_scheduled"
        [("page_number", JInt (Page.page_number page));
         ("processing_attempt", JInt (Page.processing_attempts page));
         ("retry_number", JInt (Page.processing_attempts page));
         ("internal_code", JInt (code_value code));
         ("error_reason", JStr reason)]);
      _ ← at_local job (sleeper (retry_base_seconds * inject_Z (2 ^ (Page.processing_attempts page - 1))));
      mret (PageAgain job (Some e))
  end.

(** The [while True] loop.  [caller] is the object the caller passed and [mine]
    says that the loop's [job] is still that object. *)
Fixpoint page_loop (fuel : nat) (image : string) (i : nat) (caller : Job.t) (mine : bool)
    (job : Job.t) (last_error : option exc) :
    M (exc * Job.t) W (Job.t + (Job.t * bool * Job.t * option exc)) :=
  match fuel with
  | O => out_of_fuel
  | S fuel =>
      let outer (mine : bool) (job : Job.t) := if mine then job else caller in
      '(latest, same) ← at_local (outer mine job) (reload job);
      let mine := mine && same in
      if decide (Job.state latest = CANCEL_REQUESTED) then
        latest ← map_exn (λ '(e, l), (e, outer mine l)) (cancel_now latest);
        mret (inl latest)
      else
      r ← map_exn (λ '(e, l), (e, outer mine l)) (page_round image i latest last_error);
      match r with
      | PageReturn completed => mret (inl completed)
      | PageBreak job last_error => mret (inr (outer mine job, mine, job, last_error))
      | PageAgain job last_error => page_loop fuel image i (outer mine job) mine job last_error
      end
  end.

(** [_process_page]; an exception carries the object the caller passed. *)
Definition process_page (job : Job.t) (i : nat) (page : Page.t) : M (exc * Job.t) W Job.t :=
  image ← at_local job (storage (storage_get_bytes (Page.input_object_key page)));
  r ← page_loop (Z.to_nat (max_page_retries + 2)) image i job true job None;
  match r with
  | inl completed => mret completed
  | inr (caller, mine, job, last_error) =>
      let outer (mine : bool) (job : Job.t) := if mine then job else caller in
      '(latest, same) ← at_local (outer mine job) (reload job);
      let mine := mine && same in
      page ← at_local (outer mine latest) (lift (get_page i latest));
      let reason := match last_error with
                    | Some e => reason_of e
                    | None => or_str (Page.error_reason page) "engine_retry_budget_exhausted"
                    end in
      let code := internal_code_of
        (default (mk_exc RuntimeError "engine retry budget exhausted") last_error) in
      let page := Page.fail reason (code_value code) page in
      let latest := Job.update_page i page latest in
      '(latest, _) ← at_local (outer mine latest) (save_and_emit latest "page.failed"
        [("page_number", JInt (Page.page_number page));
         ("internal_code", JInt (code_value code));
         ("error_reason", JStr reason)]);
      _ ← at_local (outer mine latest) (logger_error "ocr_job_failed"
        [("job_id", JStr (uuid_str (Job.id latest)));
         ("attempt", JInt (Job.attempt latest));
         ("request_id", JStr (Job.request_id latest));
         ("page_number", JInt (Page.page_number page));
         ("internal_code", JInt (code_value code));
         ("internal_status_name", JStr (code_name code));
         ("error_reason", JStr reason);
         ("error_type", JStr (match last_error with
                              | Some e => cls_name (exc_cls e)
                              | None => "RuntimeError"
                              end))]);
      map_exn (λ '(e, l), (e, outer mine l)) (fail_job latest reason code)
  end.
(** ** Assembling the document *)

Record PageResult := MkPageResult {
  pr_markdown : string;
  pr_structured : dict;
  pr_engine_metadata : json
}.

Definition load_page_result (page : Page.t) : M exc W PageResult :=
  let fallback : M exc W PageResult :=
    match Page.markdown page, Page.structured page with
    | Some markdown, Some structured =>
        mret (MkPageResult markdown structured
          (default (JObj []) (dget structured "engine_metadata")))
    | _, _ => raise (mk_exc RuntimeError
        ("page " +:+ str_Z (Page.page_number page) +:+ " checkpoint is missing"))
    end in
  match Page.result_object_key page with
  | Some key =>
      if negb (truthy key) then fallback else
      data ← storage (storage_get_bytes key);
      match loads data with
      | None => raise (mk_exc JSONDecodeError "")
      | Some (JObj payload) =>
          match dget payload "markdown", dget payload "structured" with
          | Some (JStr markdown), Some (JObj structured) =>
              let metadata := default JNull (dget payload "engine_metadata") in
              mret (MkPageResult markdown structured
                (if json_truthy metadata then metadata else JObj []))
          | _, _ => fallback
          end
      | Some _ => fallback
      end
  | None => fallback
  end.

Definition artifact (kind : ArtifactKind) (stored : StoredObject) : Artifact.t :=
  Artifact.Mk kind (stored_object_key stored) (stored_sha256 stored) (stored_size_bytes stored)
    (stored_content_type stored) None.

(** The artifact of an object already stored for a page, if it is still there. *)
Definition stat_artifact (kind : ArtifactKind) (key : string) (page : Page.t) :
    M exc W (list Artifact.t) :=
  info ← storage (storage_stat key);
  match info with
  | None => mret []
  | Some info =>
      digest ←
        match info_sha256 info with
        | Some d => if truthy d then mret d
                    else data ← storage (storage_get_bytes key); mret (sha256 data)
        | None => data ← storage (storage_get_bytes key); mret (sha256 data)
        end;
      mret [Artifact.Mk kind (info_object_key info) digest (info_size_bytes info)
              (info_content_type info) (Some (Page.page_number page))]
  end.

Definition page_artifacts (page : Page.t) : M exc W (list Artifact.t) :=
  images ← stat_artifact PAGE_IMAGE (Page.input_object_key page) page;
  visuals ←
    match Page.visualization_object_key page with
    | Some key => if truthy key then stat_artifact VISUALIZATION key page else mret []
    | None => mret []
    end;
  mret (images ++ visuals).

Definition artifact_json (a : Artifact.t) : json :=
  JObj [("kind", JStr (artifact_kind_str (Artifact.kind a)));
        ("object_key", JStr (Artifact.object_key a));
        ("sha256", JStr (Artifact.sha256 a));
        ("size_bytes", JInt (Artifact.size_bytes a));
        ("content_type", JStr (Artifact.content_type a));
        ("page_number", match Artifact.page_number a with Some n => JInt n | None => JNull end)].

Definition document_json (job : Job.t) (page_results : list PageResult) : json :=
  JObj [("job_id", JStr (uuid_str (Job.id job)));
        ("attempt", JInt (Job.attempt job));
        ("pages", JList (zip_with (λ page result,
           JObj [("page_number", JInt (Page.page_number page));
                 ("markdown", JStr (pr_markdown result));
                 ("blocks", JObj (pr_structured result))]) (Job.pages job) page_results))].

Definition newline2 : string := of_chars [ascii_of_N 10; ascii_of_N 10].

(** [_assemble] *)
Definition assemble (job : Job.t) (upload : Upload.t) : M exc W (list Artifact.t) :=
  let prefix := "jobs/" +:+ uuid_str (Job.id job) +:+ "/attempts/" +:+ str_Z (Job.attempt job) in
  page_results ← collect load_page_result (Job.pages job);
  let markdown := join newline2 (map pr_markdown page_results) in
  let structured_bytes := dumps false (document_json job page_results) in
  markdown_object ← storage (storage_put_bytes (prefix +:+ "/document.md") markdown
    "text/markdown; charset=utf-8");
  json_object ← storage (storage_put_bytes (prefix +:+ "/document.json") structured_bytes
    "application/json");
  per_page ← collect page_artifacts (Job.pages job);
  let artifacts := [artifact MARKDOWN markdown_object; artifact JSON json_object]
                   ++ concat per_page in
  now ← utc_now;
  let manifest_bytes := dumps false (JObj
    [("schema_version", JInt 1);
     ("job_id", JStr (uuid_str (Job.id job)));
     ("upload_id", JStr (uuid_str (Job.upload_id job)));
     ("attempt", JInt (Job.attempt job));
     ("page_count", JInt (Job.total_pages job));
     ("generated_at", JStr (isoformat now));
     ("input", JObj
        [("sha256", JStr (Upload.sha256 upload));
         ("size_bytes", JInt (Upload.size_bytes upload));
         ("content_type",
          JStr (or_str (Upload.detected_content_type upload) (Upload.content_type upload)))]);
     ("engines", JList (map pr_engine_metadata page_results));
     ("artifacts", JList (map artifact_json artifacts))]) in
  manifest_object ← storage (storage_put_bytes (prefix +:+ "/manifest.json") manifest_bytes
    "application/json");
  mret (artifacts ++ [artifact MANIFEST manifest_object]).

(** ** The handler *)

(** The variable [job] of [process]. *)
Inductive JobVar := Unbound | Bound (job : option Job.t).

Definition bound (job : Job.t) : JobVar := Bound (Some job).

(** [await self._save_and_emit(job, ...)] on the object [job] *)
Definition checkpoint (job : Job.t) (event_type : string) (payload : dict) :
    M (exc * JobVar) W Job.t :=
  '(saved, _) ← at_local (bound job) (save_and_emit job event_type payload);
  mret saved.

(** A domain method called on the object [job], one clock reading per [utc_now()]. *)
Definition call1 (job : Job.t) (method : datetime → Job.t → exc + Job.t) :
    M (exc * JobVar) W Job.t :=
  now ← at_local (bound job) utc_now;
  at_local (bound job) (lift (method now job)).

Definition call2 (job : Job.t) (method : datetime → datetime → Job.t → exc + Job.t) :
    M (exc * JobVar) W Job.t :=
  now1 ← at_local (bound job) utc_now;
  now2 ← at_local (bound job) utc_now;
  at_local (bound job) (lift (method now1 now2 job)).

(** [artifacts = await self._assemble(job, upload)] up to the [job.succeeded]
    event; [inl] is a returned (cancelled) job, [inr] the succeeded one. *)
Definition finish (job : Job.t) (upload : Upload.t) : M (exc * JobVar) W (Job.t + Job.t) :=
  artifacts ← at_local (bound job) (assemble job upload);
  refreshed ← at_local (bound job) (cancel_if_requested job);
  match refreshed with
  | Some refreshed => mret (inl refreshed)
  | None =>
      '(job, _) ← at_local (bound job) (reload job);
      job ← call2 job (Job.succeed artifacts);
      job ← checkpoint job "job.succeeded"
        [("artifact_count", JInt (Z.of_nat (length artifacts)))];
      mret (inr job)
  end.

(** The body of [for page_index, page in enumerate(job.pages)]. *)
Definition page_body (item : nat * Page.t) (job : Job.t) : M (exc * JobVar) W (Job.t + Job.t) :=
  let '(page_index, page) := item in
  if decide (Page.state page = Page_SUCCEEDED) then mret (inr job) else
  refreshed ← at_local (bound job) (cancel_if_requested job);
  match refreshed with
  | Some refreshed => mret (inl refreshed)
  | None =>
      '(job, _) ← at_local (bound job) (reload job);
      page ← at_local (bound job) (lift (get_page page_index job));
      completed ← map_exn (λ '(e, j), (e, bound j)) (process_page job page_index page);
      if decide (Job.state completed ∈ [FAILED; CANCELLED]) then mret (inl completed)
      else mret (inr completed)
  end.

(** From the pages checkpoint on: the part of the body every recovered state
    reaches. *)
Definition run_pages (job : Job.t) (upload : Upload.t) : M (exc * JobVar) W Job.t :=
  r ← foreach_ret (imap pair (Job.pages job)) job page_body;
  match r with
  | inl returned => mret returned
  | inr job =>
      job ← call1 job Job.begin_assembling;
      job ← checkpoint job "job.assembling" [];
      r ← finish job upload;
      match r with
      | inl returned => mret returned
      | inr job =>
          _ ← at_local (bound job) (logger_info "ocr_job_succeeded"
            [("job_id", JStr (uuid_str (Job.id job)));
             ("attempt", JInt (Job.attempt job));
             ("request_id", JStr (Job.request_id job));
             ("total_pages", JInt (Job.total_pages job))]);
          mret job
      end
  end.

(** [job.set_pages([Page(...) for page in sorted(prepared, ...)])] *)
Definition pages_of (prepared : list PreparedPage) : list Page.t :=
  map (λ p, Page.new (prepared_page_number p) (prepared_object_key p))
    (py_sorted prepared_page_number false prepared).

Definition process_live (job : Job.t) (upload : Upload.t) : M (exc * JobVar) W Job.t :=
  job ← (if decide (Job.state job ∈ [QUEUED; RETRYING]) then
           job ← call2 job Job.begin_preprocessing;
           checkpoint job "job.preprocessing" []
         else mret job);
  job ← (if decide (Job.pages job = []) then
           if decide (Job.state job = PREPROCESSING) then
             prepared ← at_local (bound job) (preprocessor_prepare upload job);
             job ← call1 job (Job.set_pages (pages_of prepared));
             checkpoint job "job.pages_prepared" [("total_pages", JInt (Job.total_pages job))]
           else raise (mk_exc RuntimeError "job checkpoint has no prepared pages", bound job)
         else mret job);
  refreshed ← at_local (bound job) (cancel_if_requested job);
  match refreshed with
  | Some refreshed => mret refreshed
  | None =>
      if decide (Job.state job = PREPROCESSING) then
        job ← call1 job Job.begin_running;
        job ← checkpoint job "job.running" [];
        run_pages job upload
      else if decide (Job.state job = ASSEMBLING) then
        r ← finish job upload;
        mret (match r with inl job => job | inr job => job end)
      else if decide (Job.state job = RUNNING) then run_pages job upload
      else raise (mk_exc RuntimeError
             ("cannot recover job from " +:+ job_state_str (Job.state job)), bound job)
  end.

(** The [try] body. *)
Definition process_body (message : JobWorkMessage) : M (exc * JobVar) W (option Job.t) :=
  job ← at_local Unbound (database (jobs_get (msg_job_id message)));
  match job with
  | None =>
      _ ← at_local (Bound None) (logger_error "ocr_job_missing"
        [("job_id", JStr (uuid_str (msg_job_id message)));
         ("request_id", JStr (msg_request_id message))]);
      mret None
  | Some job =>
      if negb (bool_decide (Job.attempt job = msg_attempt message)) then mret (Some job)
      else if Job.terminal job then
        _ ← at_local (bound job) (repair_terminal_event job);
        mret (Some job)
      else
      upload ← at_local (bound job) (database (uploads_get (Job.upload_id job)));
      match upload with
      | None =>
          failed ← map_exn (λ '(e, j), (e, bound j))
            (fail_job job "upload_not_found" JOB_PROCESSING_FAILED);
          mret (Some failed)
      | Some upload => job ← process_live job upload; mret (Some job)
      end
  end.

(** [except ConcurrentJobUpdateError] *)
Definition on_conflict (message : JobWorkMessage) : M exc W (option Job.t) :=
  latest ← database (jobs_get (msg_job_id message));
  match latest with
  | None => mret None
  | Some latest =>
      if decide (Job.state latest = CANCEL_REQUESTED) then
        latest ← map_exn fst (cancel_now latest); mret (Some latest)
      else if Job.terminal latest || negb (bool_decide (Job.attempt latest = msg_attempt message))
      then mret (Some latest)
      else raise (mk_exc DatabaseUnavailableError "job was updated concurrently")
  end.

(** [job.id] *)
Definition job_var (job : JobVar) : exc + Job.t :=
  match job with
  | Unbound => inl (mk_exc UnboundLocalError
      "cannot access local variable 'job' where it is not associated with a value")
  | Bound None => inl (mk_exc AttributeError "'NoneType' object has no attribute 'id'")
  | Bound (Some job) => inr job
  end.

(** [except Exception as exc] *)
Definition on_exception (message : JobWorkMessage) (e : exc) (job : JobVar) :
    M exc W (option Job.t) :=
  let code := internal_code_of e in
  let reason := reason_of e in
  _ ← logger_error "ocr_job_failed"
    [("job_id", JStr (uuid_str (msg_job_id message)));
     ("attempt", JInt (msg_attempt message));
     ("request_id", JStr (msg_request_id message));
     ("internal_code", JInt (code_value code));
     ("internal_status_name", JStr (code_name code));
     ("error_reason", JStr reason);
     ("error_type", JStr (cls_name (exc_cls e)))];
  if isinstance e DatabaseUnavailableError then raise e else
  job ← lift (job_var job);
  '(latest, _) ← reload job;
  if decide (Job.state latest = CANCEL_REQUESTED) then
    latest ← map_exn fst (cancel_now latest); mret (Some latest)
  else if Job.terminal latest then mret (Some latest)
  else failed ← map_exn fst (fail_job latest reason code); mret (Some failed).

Definition process (message : JobWorkMessage) : M exc W (option Job.t) :=
  if negb (bool_decide (msg_schema_version message = 1)) then
    _ ← logger_error "ocr_job_schema_unsupported"
      [("job_id", JStr (uuid_str (msg_job_id message)));
       ("schema_version", JInt (msg_schema_version message));
       ("request_id", JStr (msg_request_id message))];
    mret None
  else
    r ← attempt (process_body message);
    match r with
    | inr job => mret job
    | inl (e, job) =>
        if isinstance e ConcurrentJobUpdateError then on_conflict message
        else if isinstance e Exception_ then on_exception message e job
        else raise e
    end.
End worker.
