(* ===== verification/WorkerSafety.v ===== *)
(** * The worker under interference

    The worker is run in any world whose repository is a [JobStore] and whose
    other ports leave the jobs alone, and any number of other workers and
    requests may commit revisions between its steps.  Whatever they do and
    whichever port raises, the worker only ever commits legal next revisions
    ([process_safe]): it never skips or reverts a transition, never loses a
    concurrent update and never revives a finished job; and the job it returns
    is a committed revision. *)

From Stdlib Require Import QArith.
From S2P Require Import Prelude PyData PyText Json Status Domain DomainFacts Ports History Worker.

#[local] Open Scope Z_scope.

Section safety.
Context {W : Type} (inv : W → Prop) (view : W → UUID → slot) (K : Contract).
Context `{!UploadRepository W, !JobRepository W, !JobEventRepository W, !ObjectStorage W,
  !DocumentPreprocessor W, !OCREngine W, !StructuredLogger W, !Runtime W}.
Context `{!JobStore inv view K, !QuietUploads inv view, !QuietEvents inv view, !QuietStorage inv view,
  !QuietLogger inv view, !QuietRuntime inv view, !QuietPreprocessor inv view, !QuietEngine inv view}.
Context (max_page_retries : Z) (retry_base_seconds : Q).

Abbreviation R := (evolves view).
Abbreviation stable := (stable view).
Abbreviation tracked := (tracked view K).
Abbreviation snapshot := (snapshot view K).

Ltac stab :=
  repeat first [done | apply stable_and | apply stable_tracked | apply stable_snapshot | apply stable_True].

(** ** Building blocks *)

(** [_database] and [_storage] translate exceptions only. *)
Lemma rg_database {A} P (m : M exc W A) Q F :
  rg inv R P m Q (λ _, F) → rg inv R P (database m) Q (λ _, F).
Proof.
  intros Hm. unfold database. rule rg_try_except; [done|]. intros e.
  destruct (isinstance_any e _); [done|].
  destruct (isinstance e Exception_); [by rule rg_raise | done].
Qed.

Lemma rg_storage {A} P (m : M exc W A) Q F :
  rg inv R P m Q (λ _, F) → rg inv R P (storage m) Q (λ _, F).
Proof.
  intros Hm. unfold storage. rule rg_try_except; [done|]. intros e.
  destruct (isinstance_any e _); [done|].
  destruct (isinstance e Exception_); [by rule rg_raise | done].
Qed.

(** Any port but the repository keeps a stable assertion. *)
Lemma rg_port {A} (m : M exc W A) F `{!quiet inv view m} : stable F → rg inv R F m (λ _, F) (λ _, F).
Proof. apply rg_quiet; apply _. Qed.

Lemma rg_storage_port {A} (m : M exc W A) F `{!quiet inv view m} :
  stable F → rg inv R F (storage m) (λ _, F) (λ _, F).
Proof. intros. apply rg_storage. by apply rg_quiet. Qed.

Lemma rg_database_port {A} (m : M exc W A) F `{!quiet inv view m} :
  stable F → rg inv R F (database m) (λ _, F) (λ _, F).
Proof. intros. apply rg_database. by apply rg_quiet. Qed.

Lemma rg_get i F :
  stable F →
  rg inv R F (database (jobs_get i))
    (λ r w, (∀ j, r = Some j → Job.id j = i ∧ snapshot j w) ∧
            (r = None → ∀ j, view w i ≠ Live j) ∧ F w) (λ _, F).
Proof.
  intros HF. apply rg_database.
  eapply rg_conseq; [apply (rg_frame inv view F); [done | apply (get_rg inv view K)] | | |]; simpl; tauto.
Qed.

Lemma rg_reload j F :
  stable F →
  rg inv R (λ w, tracked j w ∧ F w) (reload j)
    (λ r w, tracked r.1 w ∧ tracked j w ∧ F w ∧
            (if r.2 then view w (Job.id r.1) = Retired else snapshot r.1 w))
    (λ _ w, tracked j w ∧ F w).
Proof.
  intros HF. unfold reload.
  rule_bind; [apply (rg_get _ (λ w, tracked j w ∧ F w)); by apply stable_and, HF; apply stable_tracked|].
  intros r. rule rg_ret. intros w (Hr & Hn & Hj & HFw). destruct r as [l|]; simpl.
  - destruct (Hr l eq_refl). split_and!; [by apply snapshot_tracked | done..].
  - split_and!; try done. by eapply tracked_gone, Hn.
Qed.

Lemma rg_save j ty pl F :
  stable F →
  rg inv R (λ w, tracked j w ∧ F w) (save_and_emit j ty pl)
    (λ r w, r.1 = committed j ∧ snapshot (committed j) w ∧ F w) (λ _ w, tracked j w ∧ F w).
Proof.
  intros HF. unfold save_and_emit.
  assert (stable (λ w, tracked j w ∧ F w)) as HS by (apply stable_and; [apply stable_tracked | done]).
  rule_bind; [by rule rg_port|]. intros now. apply rg_database.
  intros w Hi [Hj HFw].
  destruct (save_with_event_rg inv view K j (job_event j ty pl now) w Hi Hj) as (? & HR & Hpost).
  split_and!; [done..|]. assert (F (jobs_save_with_event j (job_event j ty pl now) w).2) by by eapply HF.
  assert (tracked j (jobs_save_with_event j (job_event j ty pl now) w).2)
    by by eapply stable_tracked.
  destruct ((jobs_save_with_event j (job_event j ty pl now) w).1) as [[j' e]|e|]; simpl in *; tauto.
Qed.
(** ** With local variables

    [R; F] is kept by a call whose exception carries the locals [l]. *)
Lemma rg_local {A L} (m : M exc W A) (l : L) F Q X :
  rg inv R F m Q (λ _, F) → (∀ e w, F w → X (e, l) w) → rg inv R F (at_local l m) Q X.
Proof. intros Hm HX. apply rg_at_local. eapply rg_conseq; [done | done | done | simpl; auto]. Qed.

Lemma rg_local_port {A L} (m : M exc W A) (l : L) F X `{!quiet inv view m} :
  stable F → (∀ e w, F w → X (e, l) w) → rg inv R F (at_local l m) (λ _, F) X.
Proof. intros HF HX. apply rg_local; [by apply rg_port | done]. Qed.

Lemma rg_local_lift {A L} (r : exc + A) (l : L) F X :
  (∀ e w, F w → X (e, l) w) →
  rg inv R F (at_local l (lift r)) (λ a w, F w ∧ r = inr a) X.
Proof. intros HX. apply rg_at_local. rule rg_lift. destruct r; simpl; auto. Qed.

(** ** The methods *)

Definition held (F : W → Prop) (el : exc * Job.t) (w : W) : Prop := tracked el.2 w ∧ F w.

Lemma rg_save_local j ty pl F :
  stable F →
  rg inv R (λ w, tracked j w ∧ F w) (at_local j (save_and_emit j ty pl))
    (λ r w, r.1 = committed j ∧ snapshot (committed j) w ∧ F w) (held F).
Proof. intros HF. apply rg_local; [by apply rg_save | done]. Qed.

Lemma rg_cancel_now j F :
  stable F →
  rg inv R (λ w, tracked j w ∧ F w) (cancel_now j) (λ r w, snapshot r w ∧ F w) (held F).
Proof.
  intros HF. assert (stable (λ w, tracked j w ∧ F w)) by stab. unfold cancel_now.
  rule_bind; [by rule rg_local_port|]. intros n1.
  rule_bind; [by rule rg_local_port|]. intros n2.
  rule_bind; [by apply rg_local_lift|]. intros j'.
  rule_bind; [eapply rg_pre; [by apply (rg_save_local j')|]|].
  { intros w [[Hj HFw] Hc]. split; [|done]. eapply tracked_derived; [|done]. eauto with derived. }
  intros [saved e]. rule rg_ret. simpl. by intros w (-> & ? & ?).
Qed.

Lemma rg_cancel_if_requested j F :
  stable F →
  rg inv R F (cancel_if_requested j)
    (λ r w, (∀ j', r = Some j' → snapshot j' w) ∧ F w) (λ _, F).
Proof.
  intros HF. unfold cancel_if_requested.
  rule_bind; [by apply rg_get|]. intros [latest|]; [|rule rg_ret; naive_solver].
  case_decide; [|rule rg_ret; naive_solver].
  rule_bind.
  - apply rg_map_exn. eapply rg_conseq; [by apply (rg_cancel_now latest)| | |].
    + intros w (Hl & _ & HFw). destruct (Hl latest eq_refl). split; [by apply snapshot_tracked | done].
    + done.
    + by intros e w [_ ?].
  - intros l. rule rg_ret. naive_solver.
Qed.

Lemma rg_fail_job j r c F :
  stable F →
  rg inv R (λ w, tracked j w ∧ F w) (fail_job j r c) (λ r w, snapshot r w ∧ F w) (held F).
Proof.
  intros HF. assert (stable (λ w, tracked j w ∧ F w)) by stab. unfold fail_job.
  rule_bind; [by rule rg_local_port|]. intros n1.
  rule_bind; [by rule rg_local_port|]. intros n2.
  rule_bind.
  - instantiate (1 := λ r w, tracked r.1 w ∧ F w). case_decide.
    + rule_bind; [by apply rg_local_lift|]. intros j'. rule rg_ret.
      intros w [[Hj HFw] Hc]. split; [|done]. eapply tracked_derived; [|done]. eauto with derived.
    + rule_bind; [by apply rg_local_lift|]. intros j'. rule rg_ret.
      intros w [[Hj HFw] Hc]. split; [|done]. eapply tracked_derived; [|done]. eauto with derived.
  - intros [j' ty]. rule_bind; [by apply (rg_save_local j')|].
    intros [saved e]. rule rg_ret. simpl. by intros w (-> & ? & ?).
Qed.

(** ** Pages *)

Lemma rg_recognize_page image i job page F :
  stable F →
  rg inv R (λ w, tracked job w ∧ F w) (recognize_page image i job page)
    (λ r w, snapshot r w ∧ F w) (λ el w, tracked (pl_job el.2) w ∧ F w).
Proof.
  intros HF. assert (stable (λ w, tracked job w ∧ F w)) as HS by stab.
  unfold recognize_page.
  rule_bind; [by rule rg_local_port|]. intros result.
  rule_bind; [apply rg_local; [by apply rg_reload | done]|]. intros [latest same].
  eapply rg_pre with (λ w, tracked latest w ∧ tracked job w ∧ F w);
    [|simpl; naive_solver].
  assert (∀ l, stable (λ w, tracked l w ∧ tracked job w ∧ F w)) as HS3 by (intros; stab).
  assert (∀ (b : bool) l w, tracked l w ∧ tracked job w ∧ F w → tracked (if b then l else job) w ∧ F w)
    as Hpick by (intros []; naive_solver).
  case_decide.
  { apply rg_map_exn. eapply rg_conseq; [by apply (rg_cancel_now latest (λ w, tracked job w ∧ F w)) | done | |].
    - naive_solver.
    - intros [e l] w [? ?]. simpl in *. by apply Hpick. }
  rule_bind; [apply rg_local_lift; simpl; naive_solver|]. intros lpage.
  set (latest2 := Job.with_model_name _ _).
  eapply rg_pre with (λ w, tracked latest2 w ∧ tracked job w ∧ F w); [|].
  2:{ intros w [[Hl ?] _]. split; [|done]. eapply tracked_derived; [|done]. apply derived_engine. }
  rule_bind mid (λ _ w, tracked latest2 w ∧ tracked job w ∧ F w).
  { destruct (result_visualization result) as [data|]; [|by rule rg_ret].
    rule_bind; [apply rg_local; [by rule rg_storage_port | simpl; eauto]|].
    intros so. by rule rg_ret. }
  intros vkey.
  rule_bind; [apply rg_local; [by rule rg_storage_port | simpl; eauto]|]. intros so.
  set (page2 := Page.succeed _ _ _ _ _ _).
  set (latest3 := Job.update_page i page2 latest2).
  eapply rg_pre with (λ w, tracked latest3 w ∧ tracked job w ∧ F w).
  2:{ intros w [Hl ?]. split; [|done]. eapply tracked_derived; [|done]. apply derived_update_page. }
  rule_bind; [apply rg_local; [by apply (rg_save latest3) | simpl; eauto]|].
  intros [saved ev]. simpl. case_decide.
  - apply rg_map_exn.
    eapply rg_conseq; [by apply (rg_cancel_now saved (λ w, tracked job w ∧ F w)) | | |].
    + intros w (-> & ? & ?). split; [by apply snapshot_tracked | done].
    + naive_solver.
    + intros [e l] w [? ?]. simpl in *. by apply Hpick.
  - rule rg_ret. by intros w (-> & ? & ? & ?).
Qed.

(** The jobs a round hands on. *)
Definition round_ok (F : W → Prop) (r : PageRound) (w : W) : Prop :=
  match r with
  | PageReturn completed => snapshot completed w ∧ F w
  | PageBreak job _ | PageAgain job _ => tracked job w ∧ F w
  end.

Lemma rg_page_round image i job err F :
  stable F →
  rg inv R (λ w, tracked job w ∧ F w)
    (page_round max_page_retries retry_base_seconds image i job err) (round_ok F) (held F).
Proof.
  intros HF. assert (∀ j, stable (λ w, tracked j w ∧ F w)) as HS by (intros; stab).
  unfold page_round.
  rule_bind; [by apply rg_local_lift|]. intros page.
  case_decide; [rule rg_ret; naive_solver|].
  set (job1 := Job.update_page i (Page.start page) job).
  eapply rg_pre with (λ w, tracked job1 w ∧ F w).
  2:{ intros w [[Hj ?] _]. split; [|done]. eapply tracked_derived; [|done]. apply derived_update_page. }
  rule_bind; [by apply (rg_save_local job1)|]. intros [job2 ev].
  eapply rg_pre with (λ w, tracked job2 w ∧ F w).
  2:{ simpl. intros w (-> & ? & ?). split; [by apply snapshot_tracked | done]. }
  rule_bind; [apply rg_attempt; by apply (rg_recognize_page image i job2)|].
  intros [[e l]|latest]; [|by rule rg_ret].
  case_match; [rule rg_raise; naive_solver|].
  set (page' := Page.with_error_reason _ _).
  set (job3 := if pl_owned l then _ else _).
  eapply rg_pre with (λ w, tracked job3 w ∧ F w).
  2:{ intros w [Hl ?]. split; [|done]. unfold job3. destruct (pl_owned l); [|done].
      eapply tracked_derived; [|done]. apply derived_update_page. }
  case_match; [by rule rg_ret|].
  rule_bind; [by apply (rg_save_local job3)|]. intros [job4 ev'].
  eapply rg_pre with (λ w, tracked job4 w ∧ F w).
  2:{ simpl. intros w (-> & ? & ?). split; [by apply snapshot_tracked | done]. }
  rule_bind; [by rule rg_local_port|]. intros ?. by rule rg_ret.
Qed.

Definition loop_ok (F : W → Prop) (r : Job.t + (Job.t * bool * Job.t * option exc)) (w : W) : Prop :=
  match r with
  | inl completed => snapshot completed w ∧ F w
  | inr (caller, _, job, _) => tracked job w ∧ tracked caller w ∧ F w
  end.

Lemma rg_page_loop fuel image i caller mine job err F :
  stable F →
  rg inv R (λ w, tracked job w ∧ tracked caller w ∧ F w)
    (page_loop max_page_retries retry_base_seconds fuel image i caller mine job err)
    (loop_ok F) (held F).
Proof.
  intros HF. revert caller mine job err.
  induction fuel as [|fuel IH]; intros caller mine job err; simpl; [rule rg_out_of_fuel|].
  set (G := λ w, tracked caller w ∧ F w).
  assert (stable G) as HG by (unfold G; stab).
  assert (∀ (b : bool) l w, tracked l w ∧ G w → tracked (if b then l else caller) w)
    as Hpick by (unfold G; intros []; naive_solver).
  rule_bind.
  { apply rg_local; [by apply (rg_reload job G)|].
    intros e w Hw. split; [by apply Hpick | apply Hw]. }
  intros [latest same].
  eapply rg_pre with (λ w, tracked latest w ∧ G w); [|simpl; naive_solver].
  case_decide.
  - rule_bind; [apply rg_map_exn; eapply rg_conseq; [by apply (rg_cancel_now latest G) | done | done |]|].
    + intros [e l] w [Hl HGw]. split; [by apply Hpick | apply HGw].
    + intros completed. rule rg_ret. unfold G. naive_solver.
  - rule_bind; [apply rg_map_exn; eapply rg_conseq; [by apply (rg_page_round image i latest err G) | done | done |]|].
    + intros [e l] w [Hl HGw]. split; [by apply Hpick | apply HGw].
    + intros [completed|j e|j e]; simpl.
      * rule rg_ret. unfold G. naive_solver.
      * rule rg_ret. intros w Hw. split_and!; [apply Hw | by apply Hpick | apply Hw].
      * eapply rg_pre; [apply IH|]. intros w Hw. split_and!; [apply Hw | by apply Hpick | apply Hw].
Qed.

Lemma rg_process_page job i page F :
  stable F →
  rg inv R (λ w, tracked job w ∧ F w)
    (process_page max_page_retries retry_base_seconds job i page)
    (λ r w, snapshot r w ∧ F w) (held F).
Proof.
  intros HF. assert (∀ j, stable (λ w, tracked j w ∧ F w)) as HS by (intros; stab).
  unfold process_page.
  rule_bind; [apply rg_local; [by rule rg_storage_port | done]|]. intros image.
  rule_bind; [eapply rg_pre; [by apply rg_page_loop | naive_solver]|].
  intros [completed|[[[caller mine] j] err]]; [by rule rg_ret|]. simpl.
  set (G := λ w, tracked caller w ∧ F w).
  assert (stable G) as HG by (unfold G; stab).
  assert (∀ l, stable (λ w, tracked l w ∧ G w)) as HSG by (intros; stab).
  assert (∀ (b : bool) l w, tracked l w ∧ G w → held F (mk_exc ValueError "", if b then l else caller) w)
    as Hpick by (unfold G, held; intros []; naive_solver).
  rule_bind; [apply rg_local; [by apply (rg_reload j G) | intros e; apply Hpick]|].
  intros [latest same].
  eapply rg_pre with (λ w, tracked latest w ∧ G w); [|simpl; naive_solver].
  rule_bind; [apply rg_local_lift; intros e; apply Hpick|]. intros lpage.
  set (page2 := Page.fail _ _ _). set (latest2 := Job.update_page i page2 latest).
  eapply rg_pre with (λ w, tracked latest2 w ∧ G w).
  2:{ intros w [[Hl ?] _]. split; [|done]. eapply tracked_derived; [|done]. apply derived_update_page. }
  rule_bind; [apply rg_local; [by apply (rg_save latest2 _ _ G) | intros e; apply Hpick]|].
  intros [latest3 ev].
  eapply rg_pre with (λ w, tracked latest3 w ∧ G w).
  2:{ simpl. intros w (-> & ? & ?). split; [by apply snapshot_tracked | done]. }
  rule_bind; [rule rg_local_port; [done | intros e; apply Hpick]|]. intros ?.
  apply rg_map_exn. eapply rg_conseq; [by apply (rg_fail_job latest3 _ _ G) | done | |].
  - unfold G. naive_solver.
  - intros [e l] w Hw. by apply (Hpick _ l).
Qed.

(** ** Assembly *)

Lemma rg_load_page_result page F :
  stable F → rg inv R F (load_page_result page) (λ _, F) (λ _, F).
Proof.
  intros HF. unfold load_page_result.
  assert (∀ m s k, rg inv R F (match m, s with
    | Some md, Some st => mret (MkPageResult md st (k st)) | _, _ => raise (mk_exc RuntimeError
        ("page " +:+ str_Z (Page.page_number page) +:+ " checkpoint is missing")) end)
    (λ _, F) (λ _ : exc, F)) as Hfall.
  { intros [m|] [st|] k; first [by rule rg_ret | by rule rg_raise]. }
  destruct (Page.result_object_key page) as [key|]; [|by apply Hfall].
  case_match; [by apply Hfall|].
  rule_bind; [by rule rg_storage_port|]. intros data.
  repeat case_match; first [by rule rg_raise | by rule rg_ret | by apply Hfall].
Qed.

Lemma rg_stat_artifact kind key page F :
  stable F → rg inv R F (stat_artifact kind key page) (λ _, F) (λ _, F).
Proof.
  intros HF. unfold stat_artifact.
  rule_bind; [by rule rg_storage_port|]. intros [info|]; [|by rule rg_ret].
  rule_bind mid (λ _, F); [|intros d; by rule rg_ret].
  repeat case_match; try by rule rg_ret.
  all: rule_bind; [by rule rg_storage_port|]; intros data; by rule rg_ret.
Qed.

Lemma rg_page_artifacts page F :
  stable F → rg inv R F (page_artifacts page) (λ _, F) (λ _, F).
Proof.
  intros HF. unfold page_artifacts.
  rule_bind; [by apply rg_stat_artifact|]. intros images.
  rule_bind mid (λ _, F); [|intros d; by rule rg_ret].
  repeat case_match; first [by rule rg_ret | by apply rg_stat_artifact].
Qed.

Lemma rg_assemble job up F : stable F → rg inv R F (assemble job up) (λ _, F) (λ _, F).
Proof.
  intros HF. unfold assemble.
  rule_bind; [rule rg_collect; intros; by apply rg_load_page_result|]. intros results.
  rule_bind; [by rule rg_storage_port|]. intros md.
  rule_bind; [by rule rg_storage_port|]. intros js.
  rule_bind; [rule rg_collect; intros; by apply rg_page_artifacts|]. intros per_page.
  rule_bind; [by rule rg_port|]. intros now.
  rule_bind; [by rule rg_storage_port|]. intros mf. by rule rg_ret.
Qed.

(** ** The handler *)

(** What the [except] clauses know of the variable [job]. *)
Definition var_ok (el : exc * JobVar) (w : W) : Prop :=
  match el.2 with Bound (Some job) => tracked job w | _ => True end.

Lemma rg_checkpoint job ty pl :
  rg inv R (tracked job) (checkpoint job ty pl)
    (λ r, snapshot r) var_ok.
Proof.
  unfold checkpoint. rule_bind.
  - apply rg_local with (F := tracked job); [|done].
    eapply rg_conseq; [apply (rg_save job ty pl (λ _, True)); stab | done | done | naive_solver].
  - intros [saved ev]. rule rg_ret. simpl. by intros w (-> & ? & _).
Qed.

Lemma rg_call1 job method :
  (∀ n j', method n job = inr j' → derived job j') →
  rg inv R (tracked job) (call1 job method) (λ r, tracked r) var_ok.
Proof.
  intros Hm. unfold call1. rule_bind; [rule rg_local_port; [stab | done]|]. intros n.
  eapply rg_conseq with (X := var_ok); [by apply (rg_local_lift _ _ (tracked job)) | done | | done].
  intros j' w [Hj H]. eapply tracked_derived; [by eapply Hm | done].
Qed.

Lemma rg_call2 job method :
  (∀ n1 n2 j', method n1 n2 job = inr j' → derived job j') →
  rg inv R (tracked job) (call2 job method) (λ r, tracked r) var_ok.
Proof.
  intros Hm. unfold call2. rule_bind; [rule rg_local_port; [stab | done]|]. intros n1.
  rule_bind; [rule rg_local_port; [stab | done]|]. intros n2.
  eapply rg_conseq with (X := var_ok); [by apply (rg_local_lift _ _ (tracked job)) | done | | done].
  intros j' w [Hj H]. eapply tracked_derived; [by eapply Hm | done].
Qed.

(** [inl]: a job to return; [inr]: the job to go on with. *)
Definition either_ok (r : Job.t + Job.t) (w : W) : Prop :=
  match r with inl j => snapshot j w | inr j => tracked j w end.

Lemma rg_reload_local job :
  rg inv R (tracked job) (at_local (bound job) (reload job)) (λ r, tracked r.1) var_ok.
Proof.
  eapply rg_conseq with (P := λ w, tracked job w ∧ True) (X := var_ok); [|tauto| |].
  - apply rg_local; [apply rg_reload; stab|]. intros e w [Hj _]. exact Hj.
  - simpl. naive_solver.
  - done.
Qed.

Lemma rg_cancel_if_requested_local job :
  rg inv R (tracked job) (at_local (bound job) (cancel_if_requested job))
    (λ r w, (∀ j', r = Some j' → snapshot j' w) ∧ tracked job w) var_ok.
Proof. apply rg_local; [apply rg_cancel_if_requested; stab | done]. Qed.

Lemma rg_finish job up :
  rg inv R (tracked job) (finish job up)
    (λ r w, match r with inl j | inr j => snapshot j w end) var_ok.
Proof.
  unfold finish. rule_bind; [apply rg_local; [apply rg_assemble; stab | done]|]. intros arts.
  rule_bind; [apply rg_cancel_if_requested_local|].
  intros [j|]; [rule rg_ret; naive_solver|].
  rule_bind; [eapply rg_pre; [apply rg_reload_local | naive_solver]|]. intros [latest same].
  rule_bind; [apply rg_call2; eauto with derived|]. intros j.
  rule_bind; [apply rg_checkpoint|]. intros j'. by rule rg_ret.
Qed.

Lemma rg_page_body item job :
  rg inv R (tracked job) (page_body max_page_retries retry_base_seconds item job) either_ok var_ok.
Proof.
  destruct item as [i page]. unfold page_body. case_decide; [by rule rg_ret|].
  rule_bind; [apply rg_cancel_if_requested_local|].
  intros [j|]; [rule rg_ret; simpl; naive_solver|].
  rule_bind; [eapply rg_pre; [apply rg_reload_local | naive_solver]|]. intros [latest same].
  rule_bind; [by apply rg_local_lift|]. intros lpage.
  rule_bind.
  - apply rg_map_exn. eapply rg_conseq; [apply (rg_process_page latest i lpage (λ _, True)); stab | | done |].
    + by intros w [? _].
    + by intros [e l] w [? _].
  - intros completed. case_decide; rule rg_ret; simpl; [by intros w [? _]|].
    intros w [? _]. by apply snapshot_tracked.
Qed.

Lemma rg_run_pages job up :
  rg inv R (tracked job) (run_pages max_page_retries retry_base_seconds job up)
    (λ r, snapshot r) var_ok.
Proof.
  unfold run_pages. rule_bind.
  - eapply rg_foreach_ret with (J := λ j, tracked j); [typeclasses eauto|]. intros x s _. apply rg_page_body.
  - intros [j|j]; [by rule rg_ret|]. simpl.
    rule_bind; [apply rg_call1; eauto with derived|]. intros j1.
    rule_bind; [apply rg_checkpoint|]. intros j2.
    rule_bind; [eapply rg_pre; [apply rg_finish | apply snapshot_tracked]|].
    intros [j3|j3]; [by rule rg_ret|].
    rule_bind; [rule rg_local_port; [stab | intros e; apply snapshot_tracked]|]. intros ?. by rule rg_ret.
Qed.

Lemma rg_process_live job up :
  rg inv R (tracked job) (process_live max_page_retries retry_base_seconds job up)
    (λ r, snapshot r) var_ok.
Proof.
  unfold process_live. rule_bind mid (λ j, tracked j).
  { case_decide; [|by rule rg_ret]. rule_bind; [apply rg_call2; eauto with derived|].
    intros j. eapply rg_conseq; [apply rg_checkpoint | done | | done]. apply snapshot_tracked. }
  intros j1. rule_bind mid (λ j, tracked j).
  { case_decide; [|by rule rg_ret]. case_decide; [|by rule rg_raise].
    rule_bind; [rule rg_local_port; [stab | done]|]. intros prepared.
    rule_bind; [apply rg_call1; eauto with derived|]. intros j.
    eapply rg_conseq; [apply rg_checkpoint | done | | done]. apply snapshot_tracked. }
  intros j2. rule_bind; [apply rg_cancel_if_requested_local|].
  intros [j|]; [rule rg_ret; naive_solver|].
  eapply rg_pre with (tracked j2); [|naive_solver].
  case_decide; [|case_decide; [|case_decide]].
  - rule_bind; [apply rg_call1; eauto with derived|]. intros j3.
    rule_bind; [apply rg_checkpoint|]. intros j4.
    eapply rg_pre; [apply rg_run_pages | apply snapshot_tracked].
  - rule_bind; [apply rg_finish|]. intros [j3|j3]; by rule rg_ret.
  - apply rg_run_pages.
  - by rule rg_raise.
Qed.

(** What [process] returns: nothing, or a committed revision (or its last working
    copy of a job that has been deleted meanwhile). *)
Definition returned_ok (r : option Job.t) (w : W) : Prop :=
  ∀ j, r = Some j → snapshot j w ∨ view w (Job.id j) = Retired.

Lemma rg_process_body message :
  rg inv R (λ _, True) (process_body max_page_retries retry_base_seconds message) returned_ok var_ok.
Proof.
  unfold process_body.
  rule_bind; [apply rg_local; [apply rg_get; stab | done]|].
  intros [job|].
  2:{ eapply rg_pre with (λ _, True); [|done].
      rule_bind; [rule rg_local_port; [stab | done]|]. intros ?. rule rg_ret. by intros ???. }
  eapply rg_pre with (snapshot job); [|naive_solver].
  assert (rg inv R (snapshot job) (mret (Some job)) returned_ok var_ok) as Hret
    by (rule rg_ret; intros w ? j [= <-]; by left).
  case_match; [done|]. case_match.
  { rule_bind; [|intros ?; exact Hret].
    apply rg_local; [|intros e; apply snapshot_tracked].
    unfold repair_terminal_event, emit. repeat case_match; try by rule rg_raise.
    all: rule_bind; [rule rg_port; stab|]; intros now; rule rg_database_port; stab. }
  rule_bind; [apply rg_local; [rule rg_database_port; stab | intros e; apply snapshot_tracked]|].
  intros [up|].
  - rule_bind; [eapply rg_pre; [apply rg_process_live | apply snapshot_tracked]|].
    intros j. rule rg_ret. intros w ? j' [= <-]. by left.
  - rule_bind.
    + apply rg_map_exn. eapply rg_conseq; [apply (rg_fail_job job _ _ (λ _, True)); stab | | done |].
      * intros w ?. split; [by apply snapshot_tracked | done].
      * by intros [e l] w [? _].
    + intros j. rule rg_ret. intros w [? _] j' [= <-]. by left.
Qed.

Lemma rg_on_conflict message :
  rg inv R (λ _, True) (on_conflict message) returned_ok (λ _ _, True).
Proof.
  unfold on_conflict. rule_bind; [apply rg_get; stab|].
  intros [l|]; [|rule rg_ret; by intros ???].
  eapply rg_pre with (snapshot l); [|naive_solver]. case_decide; [|case_match].
  - rule_bind; [apply rg_map_exn; eapply rg_conseq; [apply (rg_cancel_now l (λ _, True)); stab | | done | done]|].
    + intros w ?. split; [by apply snapshot_tracked | done].
    + intros j. rule rg_ret. intros w [? _] j' [= <-]. by left.
  - rule rg_ret. intros w ? j' [= <-]. by left.
  - by rule rg_raise.
Qed.

Lemma rg_on_exception message e job :
  rg inv R (var_ok (e, job)) (on_exception message e job) returned_ok (λ _ _, True).
Proof.
  unfold on_exception.
  assert (stable (var_ok (e, job))) as HS by (unfold var_ok; simpl; repeat case_match; stab).
  rule_bind; [eapply rg_conseq; [by rule rg_port | done | done | done]|]. intros ?.
  case_match; [by rule rg_raise|].
  rule rg_bind_lift. destruct job as [|[job|]]; simpl; [done| |done].
  rule_bind; [eapply rg_conseq; [apply (rg_reload job (λ _, True)); stab | | done | done]|].
  { intros w Hj. by split. }
  intros [l same]. simpl.
  eapply rg_pre with (λ w, tracked l w ∧ returned_ok (Some l) w).
  2:{ intros w (? & _ & _ & Hl). split; [done|]. intros j [= <-]. destruct same; auto. }
  case_decide; [|case_match; [by rule rg_ret; intros w [_ ?]|]].
  - rule_bind; [apply rg_map_exn; eapply rg_conseq; [apply (rg_cancel_now l (λ _, True)); stab | | done | done]|].
    + intros w [? _]. by split.
    + intros j. rule rg_ret. intros w [? _] j' [= <-]. by left.
  - rule_bind; [apply rg_map_exn; eapply rg_conseq; [apply (rg_fail_job l _ _ (λ _, True)); stab | | done | done]|].
    + intros w [? _]. by split.
    + intros j. rule rg_ret. intros w [? _] j' [= <-]. by left.
Qed.

Lemma rg_process message :
  rg inv R (λ _, True) (process max_page_retries retry_base_seconds message)
    returned_ok (λ _ _, True).
Proof.
  unfold process. case_match.
  - rule_bind; [rule rg_port; stab|]. intros ?. rule rg_ret. by intros ???.
  - rule_bind; [apply rg_attempt, rg_process_body|].
    intros [[e job]|r]; [|by rule rg_ret].
    case_match; [by eapply rg_pre; [apply rg_on_conflict|]|].
    case_match; [by eapply rg_pre; [apply rg_on_exception|] | by rule rg_raise].
Qed.

(** C2: safety of the worker.  In any world whose repository keeps its promise
    ([JobStore]) and in the presence of any other tasks that keep it too,
    whatever the ports return or raise and whatever else happens between two
    calls, [process] changes the stored jobs by legal commits only, and the job
    it returns is a committed revision (unless the job was deleted meanwhile). *)
Theorem process_safe message w :
  inv w →
  inv (process max_page_retries retry_base_seconds message w).2 ∧
  evolves view w (process max_page_retries retry_base_seconds message w).2 ∧
  ∀ j, (process max_page_retries retry_base_seconds message w).1 = Ret (Some j) →
       let w' := (process max_page_retries retry_base_seconds message w).2 in
       snapshot j w' ∨ view w' (Job.id j) = Retired.
Proof.
  intros Hi. destruct (rg_process message w Hi I) as (? & HR & Hpost).
  split_and!; [done..|]. intros j Hj. rewrite Hj in Hpost. by apply Hpost.
Qed.
End safety.
