(* ===== verification/WorkerTotal.v ===== *)
(** * The worker alone: it finishes, and finishes the job

    The worker in a [World] in which no other task runs, with an engine and a
    preprocessor that answer and leave the stored jobs alone.

    [process_completes]: whatever checkpoint an earlier run left (queued,
    preprocessing, any subset of the pages done, assembling), one delivery of
    the message takes the job to [SUCCEEDED] with every page done and its
    artifacts stored; in particular the page loop ends within its fuel. *)

From Stdlib Require Import Ascii.
From Stdlib Require Import QArith.
From S2P Require Import Prelude PyData PyText PyValue Json JsonFacts Status Domain DomainFacts.
From S2P Require Import Ports Sha256 Memory History MemoryFacts Worker.

#[local] Open Scope Z_scope.

(** ** Assertions *)

Definition present (k : string) (w : World) : Prop := is_Some (dget (w_objects w) k).

(** A page result object: a [.json] key with a JSON text. *)
Definition readable (k : string) (w : World) : Prop :=
  endswith ".json" k = true ∧ ∃ data ct d v, dget (w_objects w) k = Some (data, ct, d) ∧ loads data = Some v.

Record calm (w w' : World) : Prop := {
  calm_has_events : w_has_events w' = w_has_events w;
  calm_uploads : w_uploads w' = w_uploads w;
  calm_sleeps : w_sleeps w' = w_sleeps w;
  calm_present k : present k w → present k w';
  calm_readable k : readable k w → readable k w'
}.

Definition steady (F : World → Prop) : Prop := ∀ w w', calm w w' → F w → F w'.

Lemma calm_refl w : calm w w.
Proof. by split. Qed.

Lemma calm_of w w' :
  w_has_events w' = w_has_events w → w_uploads w' = w_uploads w → w_sleeps w' = w_sleeps w →
  w_objects w' = w_objects w → calm w w'.
Proof. intros ??? Ho. split; try done; intros k; unfold present, readable; by rewrite Ho. Qed.

Lemma calm_put key data ct d w :
  (endswith ".json" key = true → is_Some (loads data)) →
  calm w (put_objects (dset (w_objects w) key (data, ct, d)) w).
Proof.
  intros Hj. split; try done; intros k; unfold present, readable; simpl; rewrite dget_dset;
    case_decide; subst; try done.
  intros [He _]. split; [done|]. destruct (Hj He) as [v ?]. by exists data, ct, d, v.
Qed.

Lemma steady_and F G : steady F → steady G → steady (λ w, F w ∧ G w).
Proof. intros HF HG w w' Hc [??]. eauto. Qed.

Lemma steady_present k : steady (present k).
Proof. intros w w' Hc. apply Hc. Qed.

Lemma steady_const (P : Prop) : steady (λ _, P).
Proof. by intros w w'. Qed.

(** A port that answers, leaves the jobs alone and keeps the objects. *)
Definition answers {A} (m : Mem A) (Q : A → World → Prop) : Prop :=
  ∀ w, ∃ a w', m w = (Ret a, w') ∧ calm w w' ∧ w_jobs w' = w_jobs w ∧ Q a w'.

Section alone.
Context {E : Type}.

Lemma total_port {A} (m : Mem A) Q j F :
  answers m Q → steady F →
  total (λ w, stored j w ∧ F w) m (λ a w, (stored j w ∧ F w) ∧ Q a w) never.
Proof.
  intros Hm HF w [[Hj He] HFw]. destruct (Hm w) as (a & w' & -> & Hc & Hjobs & HQ).
  split_and!; [split; [by rewrite Hjobs | by rewrite (calm_has_events _ _ Hc)] | by eapply HF | done].
Qed.
End alone.

Lemma answers_now : answers (utc_now : Mem _) (λ _ _, True).
Proof. intros w. do 2 eexists. split_and!; [done | by apply calm_of | done | done]. Qed.

Lemma answers_log e f : answers (logger_info e f : Mem _) (λ _ _, True).
Proof. intros w. do 2 eexists. split_and!; [done | by apply calm_of | done | done]. Qed.

Lemma answers_stat k :
  answers (storage_stat k : Mem _) (λ r w, ∀ info, r = Some info → info_object_key info = k ∧ present k w).
Proof.
  intros w. do 2 eexists. split_and!; [done | by apply calm_of | done |].
  unfold present. destruct (dget (w_objects w) k) as [[[??]?]|]; [|done].
  intros info [= <-]. split; [done | by eexists].
Qed.

(** Storing any object keeps every object present. *)
Definition all_present (ks : list string) (w : World) : Prop := Forall (λ k, present k w) ks.

Lemma steady_all_present ks : steady (all_present ks).
Proof. intros w w' Hc H. eapply Forall_impl; [exact H|]. intros k. apply Hc. Qed.

Lemma total_put_any j ks k data ct :
  total (λ w, stored j w ∧ all_present ks w) (storage_put_bytes k data ct : Mem _)
    (λ r w, stored j w ∧ all_present (k :: ks) w ∧ stored_object_key r = k) never.
Proof.
  intros w [Hs Hp]. simpl. split_and!; [done | constructor | done].
  - unfold present. simpl. rewrite dget_dset_eq. by eexists.
  - eapply Forall_impl; [exact Hp|]. intros k' Hk'. unfold present in *. simpl.
    rewrite dget_dset. by case_decide.
Qed.

Definition put_post (k data ct : string) (r : StoredObject) (w : World) : Prop :=
  r = MkStoredObject k (bytes_len data) (sha256 data) ct ∧
  dget (w_objects w) k = Some (data, ct, sha256 data).

Lemma answers_put k data ct :
  (endswith ".json" k = true → is_Some (loads data)) →
  answers (storage_put_bytes k data ct : Mem _) (put_post k data ct).
Proof.
  intros Hk w. do 2 eexists. split_and!; [done | by apply calm_put | done | split; [done|]].
  simpl. by rewrite dget_dset_eq.
Qed.

(** [_database] and [_storage] do nothing to a call that does not raise. *)
Lemma total_database {A} P (m : Mem A) Q : total P m Q never → total P (database m) Q never.
Proof. intros H. eapply total_try_except; [exact H|]. intros e. case_match; by intros ??. Qed.

Lemma total_storage {A} P (m : Mem A) Q : total P m Q never → total P (storage m) Q never.
Proof. intros H. eapply total_try_except; [exact H|]. intros e. case_match; by intros ??. Qed.

Lemma total_get j F :
  total (λ w, stored j w ∧ F w) (database (jobs_get (Job.id j)))
    (λ r w, r = Some j ∧ stored j w ∧ F w) never.
Proof.
  apply total_database. intros w [[Hj He] HF]. simpl.
  unfold atomic, atomic_alone, InMemoryJobRepository.get, gets. by rewrite Hj.
Qed.

Lemma total_reload j F :
  total (λ w, stored j w ∧ F w) (reload j) (λ r w, r = (j, false) ∧ stored j w ∧ F w) never.
Proof.
  unfold reload. eapply total_bind; [apply total_get|].
  intros r. apply total_ret. by intros w (-> & ? & ?).
Qed.

Lemma total_cancel_if_requested j F :
  Job.state j ≠ CANCEL_REQUESTED →
  total (λ w, stored j w ∧ F w) (cancel_if_requested j)
    (λ r w, r = None ∧ stored j w ∧ F w) never.
Proof.
  intros Hs. unfold cancel_if_requested. eapply total_bind; [apply total_get|].
  intros r w (-> & Hj & HF). by rewrite decide_False.
Qed.

Lemma total_save j0 j ty pl F :
  Job.id j = Job.id j0 → Job.revision j = Job.revision j0 → steady F →
  total (λ w, stored j0 w ∧ F w) (save_and_emit j ty pl)
    (λ r w, r.1 = committed j ∧ stored (committed j) w ∧ F w) never.
Proof.
  intros Hid Hrev HF. unfold save_and_emit.
  eapply total_bind; [apply total_port; [apply answers_now | done]|]. intros now.
  apply total_database. intros w [[[Hj He] HFw] _]. simpl.
  unfold atomic, atomic_alone.
  destruct (save_with_event_run j (job_event j ty pl now) w) as (ev & w2 & Happ & ->).
  rewrite He, Hid, Hj. simpl. rewrite decide_True by done.
  set (w1 := put_jobs _ w) in Happ.
  assert (w_jobs w2 = w_jobs w1 ∧ calm w1 w2) as [Hjobs Hc].
  { revert Happ. unfold InMemoryJobEventRepository.append, mbind, M_bind, gets, modify. simpl.
    destruct (InMemoryJobEventRepository.existing _ _); simpl; intros [= <- <-];
      split; try done; by apply calm_of. }
  assert (calm w w2) as Hc'.
  { destruct Hc. by split. }
  split_and!; [done | split; simpl | by eapply HF].
  - rewrite Hjobs. unfold w1. simpl. by rewrite dget_dset_eq.
  - by rewrite (calm_has_events _ _ Hc').
Qed.

(** ** Keys *)

Lemma str_assoc (a b c : string) : (a +:+ b) +:+ c = a +:+ (b +:+ c).
Proof. apply chars_inj. by rewrite !chars_app, (assoc_L (++)). Qed.

Lemma page_key_suffix job page suffix : ∃ p, page_key job page suffix = p +:+ suffix.
Proof.
  exists ("jobs/" +:+ uuid_str (Job.id job) +:+ "/attempts/" +:+ str_Z (Job.attempt job) +:+
    "/pages/" +:+ fmt06 (Page.page_number page)).
  unfold page_key. by rewrite !str_assoc.
Qed.

Lemma page_key_json job page : endswith ".json" (page_key job page ".json") = true.
Proof. destruct (page_key_suffix job page ".json") as [p ->]. by rewrite endswith_app. Qed.

Lemma page_key_visualization job page ct :
  endswith ".json" (page_key job page (".visualization." +:+ visualization_extension ct)) = false.
Proof.
  destruct (page_key_suffix job page (".visualization." +:+ visualization_extension ct)) as [p ->].
  rewrite endswith_app.
  - unfold visualization_extension. by repeat case_decide.
  - rewrite length_append. simpl. lia.
Qed.

(** ** Pages *)

Section completes.
Context `{!OCREngine World, !DocumentPreprocessor World}.
Context (max_page_retries : Z) (retry_base_seconds : Q).
Hypothesis Hengine : ∀ image n options request_id,
  answers (engine_recognize image n options request_id)
    (λ result _, wf_json (JObj (result_structured result)) = true ∧
                 wf_json (JObj (result_engine_metadata result)) = true).
Hypothesis Hprepare : ∀ upload job,
  answers (preprocessor_prepare upload job)
    (λ prepared w, prepared ≠ [] ∧ Forall (λ p, present (prepared_object_key p) w) prepared).
Hypothesis Hretries : 0 ≤ max_page_retries.

Definition checkpointed (p : Page.t) (w : World) : Prop :=
  is_Some (Page.markdown p) ∧ is_Some (Page.structured p) ∧
  ∀ k, Page.result_object_key p = Some k → truthy k = true → readable k w.

(** A page the worker can go on from: done with a readable checkpoint, or to be
    done, with its input and a part of its budget left. *)
Definition page_ready (w : World) (p : Page.t) : Prop :=
  if decide (Page.state p = Page_SUCCEEDED) then checkpointed p w
  else present (Page.input_object_key p) w ∧ Page.processing_attempts p ≤ max_page_retries.

Lemma steady_checkpointed p : steady (checkpointed p).
Proof.
  intros w w' Hc (?&?&Hk). split_and!; [done..|]. intros k ??. apply Hc. by apply Hk.
Qed.

Lemma steady_page_ready p : steady (λ w, page_ready w p).
Proof.
  intros w w' Hc. unfold page_ready. case_decide; [by apply steady_checkpointed|].
  intros [? ?]. split; [by eapply steady_present | done].
Qed.

Lemma steady_Forall (P : World → Page.t → Prop) ps :
  (∀ p, steady (λ w, P w p)) → steady (λ w, Forall (P w) ps).
Proof. intros HP w w' Hc HF. eapply Forall_impl; [done|]. intros p. by apply HP. Qed.

(** [j'] is [j] with other pages (and other engine fields, dates, revision). *)
Record with_pages_of (j : Job.t) (ps : list Page.t) (j' : Job.t) : Prop := {
  wpo_id : Job.id j' = Job.id j;
  wpo_attempt : Job.attempt j' = Job.attempt j;
  wpo_upload : Job.upload_id j' = Job.upload_id j;
  wpo_state : Job.state j' = Job.state j;
  wpo_pages : Job.pages j' = ps
}.

Lemma total_recognize image i job page F :
  steady F → Job.state job = RUNNING → Job.pages job !! i = Some page →
  total (λ w, stored job w ∧ F w) (recognize_page image i job page)
    (λ r w, stored r w ∧ F w ∧ ∃ p, Page.state p = Page_SUCCEEDED ∧ checkpointed p w ∧
       with_pages_of job (<[i := p]> (Job.pages job)) r) never.
Proof.
  intros HF Hst Hpg. unfold recognize_page.
  eapply total_bind_pure; [apply total_at_local, (total_port _ _ job F); [apply Hengine | done]|].
  intros result [Hwf1 Hwf2].
  eapply total_bind_eq; [apply total_at_local, total_reload|]. simpl.
  rewrite decide_False by congruence.
  eapply (total_bind_eq _ (λ w, stored job w ∧ F w) _ page).
  { apply total_at_local, total_lift. unfold get_page. by rewrite Hpg. }
  set (latest := Job.with_model_name _ _).
  eapply total_bind_pure with (G := λ _, True) (P' := λ w, stored job w ∧ F w).
  { destruct (result_visualization result) as [data|]; [|by apply total_ret].
    eapply total_bind; [apply total_at_local, total_storage, total_port; [|done]|].
    - apply answers_put. by rewrite page_key_visualization.
    - intros so. apply total_ret. naive_solver. }
  intros vkey _. set (payload := dumps false _).
  assert (loads payload = Some (JObj [("schema_version", JInt 1);
    ("page_number", JInt (Page.page_number page)); ("markdown", JStr (result_markdown result));
    ("structured", JObj (result_structured result));
    ("engine_metadata", JObj (result_engine_metadata result))])) as Hload.
  { apply loads_dumps_wf. remember (JObj (result_structured result)) as a.
    remember (JObj (result_engine_metadata result)) as b. simpl. by rewrite Hwf1, Hwf2. }
  set (key := page_key job page ".json").
  eapply (total_bind_pure _ (λ w, stored job w ∧ F w ∧ readable key w)
    (λ so, stored_object_key so = key)).
  { apply total_at_local, total_storage. eapply total_conseq with (X := never).
    - apply (total_port _ (put_post key payload "application/json") job F); [apply answers_put; by rewrite Hload | done].
    - done.
    - intros so w [[??] [-> Hk]]. split; [split_and!; [done..|]|done].
      split; [apply page_key_json | by do 4 eexists].
    - by intros ???. }
  intros so Hso. simpl.
  set (page' := Page.succeed _ _ _ _ _ _). set (latest' := Job.update_page i page' latest).
  eapply total_bind_pure with (P' := λ w, stored (committed latest') w ∧ F w ∧ readable key w)
    (G := λ r, r.1 = committed latest').
  { apply total_at_local. eapply total_conseq with (X := never).
    - apply (total_save job latest' _ _ (λ w, F w ∧ readable key w)); [done..|].
      apply steady_and; [done|]. intros w w' Hc. apply Hc.
    - done.
    - tauto.
    - done. }
  intros [saved ev]. simpl. intros ->. rewrite decide_False by (simpl; congruence).
  apply total_ret. intros w (Hs & HFw & Hk). split_and!; [done..|].
  exists page'. split; [done|]. split.
  - split_and!; [by eexists..|]. intros k Hk' _. unfold page' in Hk'. simpl in Hk'. congruence.
  - by split.
Qed.

(** What processing one page achieves. *)
Definition page_finished (job : Job.t) (i : nat) (F : World → Prop) (r : Job.t) (w : World) : Prop :=
  stored r w ∧ F w ∧ ∃ p, Page.state p = Page_SUCCEEDED ∧ checkpointed p w ∧
    with_pages_of job (<[i := p]> (Job.pages job)) r.

Lemma total_page_round image i job page err F :
  steady F → Job.state job = RUNNING → Job.pages job !! i = Some page →
  Page.state page ≠ Page_SUCCEEDED → Page.processing_attempts page ≤ max_page_retries →
  total (λ w, stored job w ∧ F w)
    (page_round max_page_retries retry_base_seconds image i job err)
    (λ r w, ∃ j, r = PageReturn j ∧ page_finished job i F j w) never.
Proof.
  intros HF Hst Hpg Hnd Hatt. unfold page_round.
  eapply (total_bind_eq _ (λ w, stored job w ∧ F w) _ page).
  { apply total_at_local, total_lift. unfold get_page. by rewrite Hpg. }
  rewrite decide_False by lia.
  set (job1 := Job.update_page i (Page.start page) job).
  eapply (total_bind_pure _ (λ w, stored (committed job1) w ∧ F w) (λ r, r.1 = committed job1)).
  { apply total_at_local. eapply total_conseq with (X := never); [by apply (total_save job job1 _ _ F)|..]; [done | tauto | done]. }
  intros [job2 ev]. simpl. intros ->.
  assert (Job.pages (committed job1) !! i = Some (Page.start page)) as Hpg1.
  { simpl. apply list_lookup_insert_eq. by eapply lookup_lt_Some. }
  eapply total_bind; [apply total_attempt, (total_recognize image i (committed job1) (Page.start page) F); done|].
  intros [[e l]|r]; [by intros ??|]. apply total_ret.
  intros w (Hs & HFw & p & Hp & Hck & [] ). exists r. split; [done|].
  split_and!; [done..|]. exists p. split_and!; [done..|]. simpl in *.
  rewrite list_insert_insert_eq in wpo_pages0. by split.
Qed.

Lemma total_get_bytes k F :
  (∀ w, F w → present k w) →
  total F (storage (storage_get_bytes k : Mem _)) (λ _, F) never.
Proof.
  intros Hk. apply total_storage. intros w HF. destruct (Hk w HF) as [[[d ct] h] Hd]. simpl.
  unfold atomic, atomic_alone, InMemoryObjectStorage.get_bytes, mbind, M_bind, gets.
  by rewrite Hd.
Qed.

Lemma total_process_page job i page F :
  steady F → Job.state job = RUNNING → Job.pages job !! i = Some page →
  Page.state page ≠ Page_SUCCEEDED → Page.processing_attempts page ≤ max_page_retries →
  (∀ w, F w → present (Page.input_object_key page) w) →
  total (λ w, stored job w ∧ F w)
    (process_page max_page_retries retry_base_seconds job i page)
    (page_finished job i F) never.
Proof.
  intros HF Hst Hpg Hnd Hatt Hin. unfold process_page.
  eapply total_bind; [apply total_at_local, total_get_bytes; naive_solver|]. intros image.
  replace (Z.to_nat (max_page_retries + 2)) with (S (Z.to_nat (max_page_retries + 1))) by lia.
  eapply total_bind with (Q := λ r w, ∃ j, r = inl j ∧ page_finished job i F j w).
  - simpl page_loop. eapply total_bind_eq; [apply total_at_local, total_reload|]. simpl.
    rewrite decide_False by congruence.
    eapply total_bind; [by apply total_map_exn, (total_page_round image i job page None F)|].
    intros r w (j & -> & Hj). by exists j.
  - intros r w (j & -> & Hj). exact Hj.
Qed.

(** *** The page loop *)

(** The invariant of [for page_index, page in enumerate(job.pages)]: the pages
    ahead are as the enumeration has them, the others are done. *)
Definition pages_state (job : Job.t) (todo : list (nat * Page.t)) (j : Job.t) (w : World) : Prop :=
  stored j w ∧ with_pages_of job (Job.pages j) j ∧ Job.state job = RUNNING ∧
  length (Job.pages j) = length (Job.pages job) ∧
  NoDup todo.*1 ∧
  Forall (page_ready w) (Job.pages j) ∧
  (∀ i p, (i, p) ∈ todo → Job.pages j !! i = Some p) ∧
  (∀ i p, Job.pages j !! i = Some p → Page.state p = Page_SUCCEEDED ∨ i ∈ todo.*1).

(** A page that is done already is skipped. *)
Lemma pages_state_skip job i page todo j w :
  Page.state page = Page_SUCCEEDED →
  pages_state job ((i, page) :: todo) j w → pages_state job todo j w.
Proof.
  intros Hdone (Hs & Hwp & Hst & Hlen & Hnd & Hr & Hin & Hout).
  apply NoDup_cons in Hnd as [Hi Hnd]. split_and!; [done..| |].
  - intros k p Hk. apply Hin. by right.
  - intros k p Hk. destruct (Hout k p Hk) as [|Hk']; [by left|].
    csimpl in Hk'. apply elem_of_cons in Hk' as [->|]; [|by right].
    left. rewrite (Hin i page) in Hk by left. naive_solver.
Qed.

(** A page that has just been processed is done. *)
Lemma pages_state_finish job i page todo j j' w w' :
  pages_state job ((i, page) :: todo) j w →
  page_finished j i (λ w, Forall (page_ready w) (Job.pages j)) j' w' → pages_state job todo j' w'.
Proof.
  intros (Hs & Hwp & Hst & Hlen & Hnd & Hr & Hin & Hout) (Hs' & HF' & p & Hp & Hck & Hwp').
  apply NoDup_cons in Hnd as [Hi Hnd].
  assert (Job.pages j' = <[i:=p]> (Job.pages j)) as Hpages by apply Hwp'.
  assert (Job.pages j !! i = Some page) as Hpg by (apply Hin; left).
  split_and!; try done.
  - destruct Hwp, Hwp'. split; congruence.
  - by rewrite Hpages, length_insert.
  - rewrite Hpages. apply Forall_insert; [done|]. unfold page_ready. by rewrite decide_True.
  - intros k q Hk. rewrite Hpages, list_lookup_insert_ne; [apply Hin; by right|].
    intros ->. apply Hi. apply list_elem_of_fmap. by exists (k, q).
  - intros k q Hk. rewrite Hpages in Hk. destruct (decide (k = i)) as [->|Hne].
    + rewrite list_lookup_insert_eq in Hk by (by eapply lookup_lt_Some). left. naive_solver.
    + rewrite list_lookup_insert_ne in Hk by done. destruct (Hout k q Hk) as [|Hk']; [by left|].
      csimpl in Hk'. apply elem_of_cons in Hk' as [->|]; [done | by right].
Qed.

(** The body of the loop for a page that is not done. *)
Lemma total_pending_page i page j :
  Job.state j = RUNNING → Job.pages j !! i = Some page → Page.state page ≠ Page_SUCCEEDED →
  let F := λ w, Forall (page_ready w) (Job.pages j) in
  total (λ w, stored j w ∧ F w)
    (page_body max_page_retries retry_base_seconds (i, page) j)
    (λ r w, ∃ j', r = inr j' ∧ page_finished j i F j' w) never.
Proof.
  intros Hrun Hpg Hnd F. unfold page_body. rewrite decide_False by done.
  assert (steady F) as HF by (apply (steady_Forall page_ready), steady_page_ready).
  assert (∀ w, F w → present (Page.input_object_key page) w ∧
    Page.processing_attempts page ≤ max_page_retries) as Hpr.
  { intros w Hw. assert (page_ready w page) as H by (by eapply Forall_lookup_1).
    unfold page_ready in H. rewrite decide_False in H by done. naive_solver. }
  apply (total_fact (Page.processing_attempts page ≤ max_page_retries)); [intros w [_ Hw]; apply (Hpr w Hw)|].
  intros Hatt.
  eapply total_bind_eq; [apply total_at_local, total_cancel_if_requested; congruence|].
  eapply total_bind_eq; [apply total_at_local, total_reload|]. simpl.
  eapply (total_bind_eq _ (λ w, stored j w ∧ F w) _ page).
  { apply total_at_local, total_lift. unfold get_page. by rewrite Hpg. }
  eapply total_bind.
  { apply total_map_exn, (total_process_page j i page F); try done. apply Hpr. }
  intros r w' (Hs' & HF' & p & Hp & Hck & Hwp').
  rewrite decide_False; [exists r; split; [done|]; split_and!; [done..|by exists p]|].
  rewrite (wpo_state _ _ _ Hwp'), Hrun. set_solver.
Qed.

Lemma total_page_body job item todo j :
  total (pages_state job (item :: todo) j)
    (page_body max_page_retries retry_base_seconds item j)
    (λ r w, match r with inl b => False | inr s => pages_state job todo s w end) never.
Proof.
  destruct item as [i page]. destruct (decide (Page.state page = Page_SUCCEEDED)) as [Hdone|Hnd].
  { unfold page_body. rewrite decide_True by done. apply total_ret. intros w. by apply pages_state_skip. }
  intros w Hw. pose proof Hw as (Hs & Hwp & Hst & _ & _ & Hr & Hin & _).
  refine (total_conseq _ _ _ _ _ _ _ (total_pending_page i page j _ _ Hnd) (λ w H, H) _ _ w (conj Hs Hr)); [| | |done].
  - by rewrite (wpo_state _ _ _ Hwp).
  - apply Hin. by left.
  - intros r w' (j' & -> & Hf). by eapply pages_state_finish.
Qed.

(** *** Assembly *)

Lemma total_load_page_result p F :
  (∀ w, F w → checkpointed p w) → total F (load_page_result p) (λ _, F) never.
Proof.
  intros Hck w HFw. destruct (Hck w HFw) as ([md Hmd] & [st Hst] & Hkey).
  unfold load_page_result. rewrite Hmd, Hst. cbv zeta.
  destruct (Page.result_object_key p) as [k|]; [|done].
  destruct (truthy k) eqn:Hk; [|done]. change (negb true) with false. cbv iota.
  destruct (Hkey k eq_refl Hk) as [_ (data & ct & d & v & Hd & Hl)].
  erewrite bind_run.
  2:{ unfold storage, try_except. erewrite try_else_run; [done|].
      simpl. unfold atomic, atomic_alone, InMemoryObjectStorage.get_bytes.
      erewrite bind_run by done. by rewrite Hd. }
  rewrite Hl. destruct v as [| | | | | |payload]; try done.
  destruct (dget payload "markdown") as [[]|]; try done.
  by destruct (dget payload "structured") as [[]|].
Qed.

Definition page_artifact_kind (a : Artifact.t) : Prop :=
  Artifact.kind a = PAGE_IMAGE ∨ Artifact.kind a = VISUALIZATION.

(** The objects of the artifacts are there. *)
Definition available (arts : list Artifact.t) (w : World) : Prop :=
  all_present (Artifact.object_key <$> arts) w.

Lemma steady_available arts : steady (available arts).
Proof. apply steady_all_present. Qed.

Lemma available_app a b w : available (a ++ b) w ↔ available a w ∧ available b w.
Proof. unfold available, all_present. by rewrite fmap_app, Forall_app. Qed.

Lemma total_stat_artifact kind key page j F :
  steady F →
  total (λ w, stored j w ∧ F w) (stat_artifact kind key page)
    (λ l w, Forall (λ a, Artifact.kind a = kind) l ∧ stored j w ∧ available l w ∧ F w) never.
Proof.
  intros HF. unfold stat_artifact.
  eapply total_bind; [apply total_storage, total_port; [apply answers_stat | done]|].
  intros [info|]; [|apply total_ret; intros w [[? ?] _];
    split; [constructor|]; split; [done|]; split; [constructor | done]].
  eapply total_fact with (F := info_object_key info = key); [intros w [_ H]; by apply H|]. intros Hkey.
  eapply total_pre with (λ w, stored j w ∧ present key w ∧ F w);
    [|intros w [[? ?] Hp]; split; [done|]; split; [by apply (Hp info) | done]].
  eapply total_bind with (Q := λ _ w, stored j w ∧ present key w ∧ F w).
  2:{ intros d. apply total_ret. intros w (? & ? & ?).
      split; [by repeat constructor|]. split; [done|]. split; [|done]. constructor; [by simpl; rewrite Hkey | constructor]. }
  assert (total (λ w, stored j w ∧ present key w ∧ F w)
    (data ← storage (storage_get_bytes key : Mem _); mret (sha256 data))
    (λ _ w, stored j w ∧ present key w ∧ F w) never) as Hget.
  { eapply total_bind; [apply total_get_bytes; tauto|]. intros data. apply total_ret. tauto. }
  destruct (info_sha256 info) as [d|]; [|done].
  case_match; [apply total_ret; tauto | done].
Qed.

Lemma total_page_artifacts page j F :
  steady F →
  total (λ w, stored j w ∧ F w) (page_artifacts page)
    (λ l w, Forall page_artifact_kind l ∧ stored j w ∧ available l w ∧ F w) never.
Proof.
  intros HF. unfold page_artifacts.
  eapply total_bind; [by apply total_stat_artifact|]. intros images.
  eapply total_fact; [by intros w [? _]|]. intros Hi.
  set (F' := λ w, available images w ∧ F w).
  assert (steady F') as HF' by (apply steady_and; [apply steady_available | done]).
  eapply total_pre with (λ w, stored j w ∧ F' w); [|unfold F'; by intros w (? & ? & ? & ?)].
  eapply (total_bind _ _ _ (λ l w, Forall (λ a, Artifact.kind a = VISUALIZATION) l ∧
    stored j w ∧ available l w ∧ F' w)).
  { repeat case_match; try (apply total_ret; intros w [? ?]; split; [constructor|];
      split; [done|]; split; [by unfold available, all_present | done]).
    by apply total_stat_artifact. }
  intros visuals. apply total_ret. intros w (Hv & ? & ? & ? & ?). split.
  - apply Forall_app. split; (eapply Forall_impl; [done|]); intros a; [by left | by right].
  - rewrite available_app. done.
Qed.

(** The artifacts of a finished job. *)
Definition assembled (arts : list Artifact.t) (w : World) : Prop :=
  ∃ md js per mf, arts = md :: js :: per ++ [mf] ∧
    Artifact.kind md = MARKDOWN ∧ Artifact.kind js = JSON ∧ Artifact.kind mf = MANIFEST ∧
    Forall page_artifact_kind per ∧ available arts w.

Lemma steady_assembled arts : steady (assembled arts).
Proof.
  intros w w' Hc (md & js & per & mf & ? & ? & ? & ? & ? & Hp).
  exists md, js, per, mf. split_and!; [done..|]. by eapply steady_available.
Qed.

Lemma total_assemble j up F :
  steady F → (∀ w, F w → Forall (λ p, checkpointed p w) (Job.pages j)) →
  total (λ w, stored j w ∧ F w) (assemble j up) (λ arts w, stored j w ∧ assembled arts w) never.
Proof.
  intros HF Hck. unfold assemble.
  eapply total_bind with (Q := λ _ w, stored j w ∧ F w).
  { eapply total_conseq with (X := never);
      [apply (total_collect _ _ (λ w, stored j w ∧ F w) (λ _ _, True)) | done | by intros ?? [? _] | done].
    intros p Hp. eapply total_conseq with (X := never);
      [apply (total_load_page_result p (λ w, stored j w ∧ F w)) | done | by intros ??? | done].
    intros w [_ HFw]. specialize (Hck w HFw). rewrite Forall_forall in Hck. by apply Hck. }
  intros results.
  set (prefix := "jobs/" +:+ _). set (kmd := prefix +:+ "/document.md").
  set (kjs := prefix +:+ "/document.json"). set (kmf := prefix +:+ "/manifest.json").
  assert (∀ ks k data ct, total (λ w, stored j w ∧ all_present ks w)
    (storage (storage_put_bytes k data ct : Mem _))
    (λ r w, (stored j w ∧ all_present (k :: ks) w) ∧ stored_object_key r = k) never) as Hput.
  { intros. apply total_storage. eapply total_conseq with (X := never);
      [apply (total_put_any j ks) | done | by intros ?? (?&?&?) | done]. }
  eapply total_bind_pure; [eapply total_pre; [apply (Hput [])|]|].
  { intros w [? _]. split; [done | constructor]. }
  intros md Hmd. eapply total_bind_pure; [apply Hput|]. intros js Hjs.
  eapply total_bind with (Q := λ per w, Forall page_artifact_kind (concat per) ∧ stored j w ∧
    all_present ([kjs; kmd] ++ (Artifact.object_key <$> concat per)) w).
  { eapply total_pre; [apply (total_collect_acc _ _ (λ per w, Forall page_artifact_kind (concat per) ∧
      stored j w ∧ all_present ([kjs; kmd] ++ (Artifact.object_key <$> concat per)) w) _ [])|].
    - intros p per _. eapply total_fact; [by intros w [? _]|]. intros Hper.
      eapply total_conseq with (X := never);
        [apply (total_page_artifacts p j (all_present ([kjs; kmd] ++ (Artifact.object_key <$> concat per)))), steady_all_present | by intros w [_ ?] | | done].
      intros l w (Hl & Hs & Ha & Hp). rewrite concat_app. simpl concat. rewrite app_nil_r.
      split; [by apply Forall_app|]. split; [done|]. rewrite fmap_app, app_assoc.
      apply Forall_app. by split.
    - intros w [? ?]. split; [constructor | done]. }
  intros per. eapply total_fact; [by intros w [? _]|]. intros Hper.
  eapply total_pre with (λ w, stored j w ∧
    all_present ([kjs; kmd] ++ (Artifact.object_key <$> concat per)) w); [|tauto].
  eapply total_bind_pure with (G := λ _, True); [apply total_port; [apply answers_now | apply steady_all_present]|].
  intros now _. eapply total_bind_pure; [apply Hput|]. intros mf Hmf.
  apply total_ret. intros w [Hs Hp]. split; [done|].
  exists (artifact MARKDOWN md), (artifact JSON js), (concat per), (artifact MANIFEST mf).
  split_and!; [done..|].
  unfold available. simpl. rewrite fmap_app. simpl. rewrite Hmd, Hjs, Hmf.
  apply Forall_cons in Hp as [Hp1 Hp]. apply Forall_cons in Hp as [Hp2 Hp].
  apply Forall_cons in Hp as [Hp3 Hp].
  constructor; [done|]. constructor; [done|]. apply Forall_app. split; [done|]. by constructor.
Qed.

(** ** The handler *)

(** What a checkpoint left by an earlier run must satisfy. *)
Definition resumable (job : Job.t) (w : World) : Prop :=
  Forall (page_ready w) (Job.pages job) ∧
  match Job.state job with
  | QUEUED | RETRYING | PREPROCESSING => True
  | RUNNING => Job.pages job ≠ []
  | ASSEMBLING => all_done job = true
  | _ => False
  end.

(** The goal: [j'] is the stored revision, it has [SUCCEEDED] in the same
    attempt, every page is done and the documents are there. *)
Definition completed (job j' : Job.t) (w : World) : Prop :=
  stored j' w ∧ Job.id j' = Job.id job ∧ Job.attempt j' = Job.attempt job ∧
  Job.state j' = SUCCEEDED ∧ all_done j' = true ∧ assembled (Job.artifacts j') w.

Lemma total_checkpoint j0 j ty pl F :
  Job.id j = Job.id j0 → Job.revision j = Job.revision j0 → steady F →
  total (λ w, stored j0 w ∧ F w) (checkpoint j ty pl)
    (λ r w, r = committed j ∧ stored (committed j) w ∧ F w) never.
Proof.
  intros Hid Hrev HF. unfold checkpoint.
  eapply total_bind; [by apply total_at_local, (total_save j0)|].
  intros [saved ev]. apply total_ret. tauto.
Qed.

(** A domain method that the job's state allows. *)
Lemma total_call1 j method G F :
  (∀ n, ∃ j', method n j = inr j' ∧ G j') → steady F →
  total (λ w, stored j w ∧ F w) (call1 j method) (λ r w, (stored j w ∧ F w) ∧ G r) never.
Proof.
  intros Hm HF. unfold call1.
  eapply total_bind_pure with (G := λ _, True); [apply total_at_local, total_port; [apply answers_now | done]|].
  intros n _. apply total_at_local, total_lift. destruct (Hm n) as (j' & -> & ?). tauto.
Qed.

Lemma total_call2 j method G F :
  (∀ n1 n2, ∃ j', method n1 n2 j = inr j' ∧ G j') → steady F →
  total (λ w, stored j w ∧ F w) (call2 j method) (λ r w, (stored j w ∧ F w) ∧ G r) never.
Proof.
  intros Hm HF. unfold call2.
  eapply total_bind_pure with (G := λ _, True); [apply total_at_local, total_port; [apply answers_now | done]|].
  intros n1 _.
  eapply total_bind_pure with (G := λ _, True); [apply total_at_local, total_port; [apply answers_now | done]|].
  intros n2 _. apply total_at_local, total_lift. destruct (Hm n1 n2) as (j' & -> & ?). tauto.
Qed.

Lemma all_done_checkpointed j w :
  all_done j = true → Forall (page_ready w) (Job.pages j) → Forall (λ p, checkpointed p w) (Job.pages j).
Proof.
  intros [_ Hd]%all_done_spec Hr. rewrite Forall_forall in *. intros p Hp.
  specialize (Hd p Hp). specialize (Hr p Hp). unfold page_ready in Hr. by rewrite decide_True in Hr.
Qed.

Lemma total_finish job up :
  Job.state job = ASSEMBLING → all_done job = true →
  total (λ w, stored job w ∧ Forall (page_ready w) (Job.pages job)) (finish job up)
    (λ r w, ∃ j', r = inr j' ∧ completed job j' w) never.
Proof.
  intros Hst Hdone. unfold finish.
  assert (steady (λ w, Forall (page_ready w) (Job.pages job))) as HF
    by apply (steady_Forall page_ready), steady_page_ready.
  eapply total_bind.
  { apply total_at_local, (total_assemble job up _ HF). intros w. by apply all_done_checkpointed. }
  intros arts.
  eapply total_bind_eq; [apply total_at_local, total_cancel_if_requested; congruence|].
  eapply total_bind_eq; [apply total_at_local, total_reload|]. cbn iota beta.
  eapply total_bind_pure.
  { apply (total_call2 _ _ (λ j', Job.id j' = Job.id job ∧ Job.revision j' = Job.revision job ∧
      Job.attempt j' = Job.attempt job ∧ Job.pages j' = Job.pages job ∧ Job.state j' = SUCCEEDED ∧
      Job.artifacts j' = arts)); [|apply steady_assembled].
    intros n1 n2. unfold Job.succeed. rewrite succeed_guard, Hdone. change (negb true) with false. cbv iota.
    rewrite transition_run by (rewrite Hst; set_solver). by eexists. }
  intros j' (Hid & Hrev & Hatt & Hpg & Hs' & Harts).
  eapply total_bind_eq; [apply (total_checkpoint job); [done..|apply steady_assembled]|].
  apply total_ret. intros w [Hs Has]. exists (committed j'). split; [done|].
  split_and!; [done..| |].
  - unfold all_done in *. simpl. by rewrite Hpg.
  - simpl. by rewrite Harts.
Qed.

Lemma imap_pair_fst {A} (l : list A) : (imap pair l).*1 = seq 0 (length l).
Proof.
  apply list_eq. intros i. rewrite list_lookup_fmap, list_lookup_imap.
  destruct (l !! i) eqn:E; simpl.
  - by rewrite lookup_seq_lt by (by eapply lookup_lt_Some).
  - by rewrite lookup_seq_ge by (by apply lookup_ge_None).
Qed.

Lemma pages_state_init job w :
  stored job w → Job.state job = RUNNING → Forall (page_ready w) (Job.pages job) →
  pages_state job (imap pair (Job.pages job)) job w.
Proof.
  intros Hs Hst Hr. split_and!; try done.
  - rewrite imap_pair_fst. apply NoDup_seq.
  - intros i p. rewrite elem_of_lookup_imap. naive_solver.
  - intros i p Hi. right. rewrite imap_pair_fst, elem_of_seq. apply lookup_lt_Some in Hi. lia.
Qed.

(** The log record after the job has been saved. *)
Lemma total_success_log job :
  total (λ w, stored job w ∧ assembled (Job.artifacts job) w)
    (_ ← at_local (bound job) (logger_info "ocr_job_succeeded"
       [("job_id", JStr (uuid_str (Job.id job)));
        ("attempt", JInt (Job.attempt job));
        ("request_id", JStr (Job.request_id job));
        ("total_pages", JInt (Job.total_pages job))] : Mem _);
     mret job)
    (λ r w, r = job ∧ stored job w ∧ assembled (Job.artifacts job) w) (@never (exc * JobVar) World).
Proof.
  eapply total_bind; [apply total_at_local, total_port; [apply answers_log | apply steady_assembled]|].
  intros ?. apply total_ret. by intros w' [? _].
Qed.

(** From [begin_assembling] on, when every page is done. *)
Lemma total_assembling j up :
  Job.state j = RUNNING → all_done j = true →
  total (λ w, stored j w ∧ Forall (page_ready w) (Job.pages j))
    (job ← call1 j Job.begin_assembling;
     job ← checkpoint job "job.assembling" [];
     r ← finish job up;
     match r with
     | inl returned => mret returned
     | inr job =>
         _ ← at_local (bound job) (logger_info "ocr_job_succeeded"
           [("job_id", JStr (uuid_str (Job.id job)));
            ("attempt", JInt (Job.attempt job));
            ("request_id", JStr (Job.request_id job));
            ("total_pages", JInt (Job.total_pages job))]);
         mret job
     end) (λ j' w, completed j j' w) never.
Proof.
  intros Hst Hdone. assert (steady (λ w, Forall (page_ready w) (Job.pages j))) as HF
    by (apply (steady_Forall page_ready), steady_page_ready).
  eapply total_bind_pure.
  { apply (total_call1 _ _ (λ j', Job.id j' = Job.id j ∧ Job.revision j' = Job.revision j ∧
      Job.attempt j' = Job.attempt j ∧ Job.pages j' = Job.pages j ∧ Job.state j' = ASSEMBLING)); [|done].
    intros n. unfold Job.begin_assembling. rewrite transition_run by (rewrite Hst; set_solver).
    by eexists. }
  intros j1 (Hid1 & Hrev1 & Hatt1 & Hpg1 & Hst1).
  eapply total_bind_eq; [by apply (total_checkpoint j)|].
  eapply total_bind.
  { eapply total_pre; [apply (total_finish (committed j1))|].
    - done.
    - unfold all_done in *. simpl. by rewrite Hpg1.
    - intros w [??]. split; [done|]. simpl. by rewrite Hpg1. }
  intros r w (j2 & -> & Hs2 & Hid2 & Hatt2 & Hst2 & Hdone2 & Has2).
  refine (total_conseq _ _ _ _ _ _ _ (total_success_log j2) (λ w H, H) _ _ w (conj Hs2 Has2)); [|done].
  intros ? w' (-> & ? & ?). simpl in *. split_and!; congruence || done.
Qed.

Lemma completed_trans job j j' w :
  Job.id j = Job.id job → Job.attempt j = Job.attempt job → completed j j' w → completed job j' w.
Proof. intros ?? (?&?&?&?&?&?). split_and!; congruence || done. Qed.

Lemma total_run_pages job up :
  Job.state job = RUNNING → Job.pages job ≠ [] →
  total (λ w, stored job w ∧ Forall (page_ready w) (Job.pages job))
    (run_pages max_page_retries retry_base_seconds job up) (λ j' w, completed job j' w) never.
Proof.
  intros Hst Hne. unfold run_pages.
  eapply total_bind.
  { eapply total_pre; [apply (total_foreach_ret _ _ _ (λ l s, pages_state job l s) (λ _ _, False))|].
    - intros. apply total_page_body.
    - intros w [??]. by apply pages_state_init. }
  intros [r|j]; [by intros ??|].
  intros w (Hs & Hwp & _ & Hlen & _ & Hr & _ & Hout).
  destruct Hwp as [Hid Hatt Hup Hst' _]. rewrite Hst in Hst'.
  assert (all_done j = true) as Hdone.
  { apply all_done_spec. split.
    - intros E. rewrite E in Hlen. by destruct (Job.pages job).
    - apply Forall_lookup. intros i p Hi. destruct (Hout i p Hi) as [|Hi']; [done|].
      by apply not_elem_of_nil in Hi'. }
  refine (total_conseq _ _ _ _ _ _ _ (total_assembling j up Hst' Hdone) (λ w H, H) _ _ w (conj Hs Hr)); [|done].
  intros j' w'. by apply completed_trans.
Qed.

Lemma pages_of_ready prepared w :
  Forall (λ p, present (prepared_object_key p) w) prepared →
  Forall (page_ready w) (pages_of prepared).
Proof.
  intros Hp. unfold pages_of. apply Forall_fmap.
  rewrite (py_sorted_perm prepared_page_number false prepared).
  eapply Forall_impl; [exact Hp|]. intros p Hk. by split.
Qed.

Lemma pages_of_not_nil prepared : prepared ≠ [] → pages_of prepared ≠ [].
Proof.
  intros Hne E. unfold pages_of in E. apply fmap_nil_inv in E.
  pose proof (py_sorted_perm prepared_page_number false prepared) as Hp. rewrite E in Hp.
  by apply Permutation_nil_l in Hp.
Qed.

(** [job] after the statements that precede [_cancel_if_requested]. *)
Definition started (job : Job.t) (j : Job.t) (w : World) : Prop :=
  stored j w ∧ Job.id j = Job.id job ∧ Job.attempt j = Job.attempt job ∧
  Job.pages j ≠ [] ∧ Forall (page_ready w) (Job.pages j) ∧
  (Job.state j = PREPROCESSING ∨ Job.state j = RUNNING ∨
   Job.state j = ASSEMBLING ∧ all_done j = true).

Lemma total_start job :
  Job.state job ∈ [QUEUED; RETRYING; PREPROCESSING] →
  total (λ w, stored job w ∧ Forall (page_ready w) (Job.pages job))
    (if decide (Job.state job ∈ [QUEUED; RETRYING]) then
       job ← call2 job Job.begin_preprocessing; checkpoint job "job.preprocessing" []
     else mret job)
    (λ j w, stored j w ∧ Forall (page_ready w) (Job.pages j) ∧ Job.state j = PREPROCESSING ∧
       Job.id j = Job.id job ∧ Job.attempt j = Job.attempt job) never.
Proof.
  intros Hst. assert (steady (λ w, Forall (page_ready w) (Job.pages job))) as HF
    by (apply (steady_Forall page_ready), steady_page_ready).
  case_decide as Hq.
  - eapply total_bind_pure.
    { apply (total_call2 _ _ (λ j', Job.id j' = Job.id job ∧ Job.revision j' = Job.revision job ∧
        Job.attempt j' = Job.attempt job ∧ Job.pages j' = Job.pages job ∧
        Job.state j' = PREPROCESSING)); [|done].
      intros n1 n2. unfold Job.begin_preprocessing. rewrite transition_run by done. by eexists. }
    intros j1 (Hid & Hrev & Hatt & Hpg & Hs1).
    eapply total_conseq with (X := never); [by apply (total_checkpoint job)|done| |done].
    intros j w (-> & ? & ?). simpl. rewrite Hpg. done.
  - apply total_ret. intros w [??]. split_and!; try done. set_solver.
Qed.

(** [job] after [begin_preprocessing], if it was called. *)
Definition begun (job : Job.t) (j : Job.t) (w : World) : Prop :=
  stored j w ∧ Forall (page_ready w) (Job.pages j) ∧
  Job.id j = Job.id job ∧ Job.attempt j = Job.attempt job ∧
  (Job.state j = PREPROCESSING ∨ Job.state j = RUNNING ∧ Job.pages j ≠ [] ∨
   Job.state j = ASSEMBLING ∧ all_done j = true).

Lemma total_begin job :
  total (λ w, stored job w ∧ resumable job w)
    (if decide (Job.state job ∈ [QUEUED; RETRYING]) then
       job ← call2 job Job.begin_preprocessing; checkpoint job "job.preprocessing" []
     else mret job)
    (begun job) never.
Proof.
  destruct (decide (Job.state job ∈ [QUEUED; RETRYING; PREPROCESSING])) as [Hin|Hnin].
  - eapply total_conseq with (X := never); [by apply total_start | | | done].
    + intros w (Hs & Hr & _). done.
    + intros j w (?&?&?&?&?). split_and!; try done. by left.
  - rewrite decide_False by set_solver. apply total_ret.
    intros w (Hs & Hr & Hst). split_and!; try done. right. destruct (Job.state job); set_solver.
Qed.

Lemma total_set_pages job j prepared :
  Job.id j = Job.id job → Job.attempt j = Job.attempt job → Job.state j = PREPROCESSING →
  prepared ≠ [] →
  total (λ w, stored j w ∧ Forall (page_ready w) (pages_of prepared))
    (job ← call1 j (Job.set_pages (pages_of prepared));
     checkpoint job "job.pages_prepared" [("total_pages", JInt (Job.total_pages job))])
    (started job) never.
Proof.
  intros Hid Hatt Hst Hne.
  assert (steady (λ w, Forall (page_ready w) (pages_of prepared))) as HF
    by (apply (steady_Forall page_ready), steady_page_ready).
  eapply total_bind_pure.
  { apply (total_call1 _ _ (λ j', Job.id j' = Job.id j ∧ Job.revision j' = Job.revision j ∧
      Job.attempt j' = Job.attempt j ∧ Job.pages j' = pages_of prepared ∧
      Job.state j' = PREPROCESSING)); [|done].
    intros n. unfold Job.set_pages. rewrite bool_decide_eq_true_2 by done. simpl.
    rewrite bool_decide_eq_false_2 by (by apply pages_of_not_nil). eexists. by split_and!. }
  intros j2 (Hid2 & Hrev2 & Hatt2 & Hpg2 & Hst2).
  eapply total_conseq with (X := never); [by apply (total_checkpoint j)|done| |done].
  intros j3 w (-> & ? & ?). unfold started. simpl. rewrite Hpg2.
  split_and!; try done; [congruence..| |by left]. by apply pages_of_not_nil.
Qed.

Lemma total_prepare_pages job j up :
  total (begun job j)
    (if decide (Job.pages j = []) then
       if decide (Job.state j = PREPROCESSING) then
         prepared ← at_local (bound j) (preprocessor_prepare up j);
         job ← call1 j (Job.set_pages (pages_of prepared));
         checkpoint job "job.pages_prepared" [("total_pages", JInt (Job.total_pages job))]
       else raise (mk_exc RuntimeError "job checkpoint has no prepared pages", bound j)
     else mret j)
    (started job) never.
Proof.
  case_decide as Hp.
  2:{ apply total_ret. intros w (Hs & Hr & Hid & Hatt & Hst). split_and!; try done. naive_solver. }
  intros w (Hs & Hr & Hid & Hatt & Hst).
  destruct Hst as [Hst|[[_ Hne]|[_ Hd%all_done_spec]]]; [|done|by destruct Hd].
  rewrite decide_True by done.
  refine (total_bind (λ w, stored j w ∧ True) _ _ _ (started job) never _ _ w (conj Hs I)).
  { apply total_at_local, total_port; [apply Hprepare | apply steady_const]. }
  intros prepared. clear w Hs Hr. apply (total_fact (prepared ≠ [])); [by intros w (_ & Hne & _)|].
  intros Hne. eapply total_pre; [by apply (total_set_pages job j prepared)|].
  intros w ([Hs _] & _ & Hpres). split; [done|]. by apply pages_of_ready.
Qed.

Lemma total_resume job j up :
  Job.id j = Job.id job → Job.attempt j = Job.attempt job → Job.pages j ≠ [] →
  (Job.state j = PREPROCESSING ∨ Job.state j = RUNNING ∨ Job.state j = ASSEMBLING ∧ all_done j = true) →
  total (λ w, stored j w ∧ Forall (page_ready w) (Job.pages j))
    (if decide (Job.state j = PREPROCESSING) then
       job ← call1 j Job.begin_running;
       job ← checkpoint job "job.running" [];
       run_pages max_page_retries retry_base_seconds job up
     else if decide (Job.state j = ASSEMBLING) then
       r ← finish j up;
       mret (match r with inl job => job | inr job => job end)
     else if decide (Job.state j = RUNNING) then run_pages max_page_retries retry_base_seconds j up
     else raise (mk_exc RuntimeError
            ("cannot recover job from " +:+ job_state_str (Job.state j)), bound j))
    (λ j' w, completed job j' w) never.
Proof.
  intros Hid Hatt Hne Hst.
  assert (steady (λ w, Forall (page_ready w) (Job.pages j))) as HF
    by (apply (steady_Forall page_ready), steady_page_ready).
  case_decide as H1; [|case_decide as H2; [|case_decide as H3]].
  - eapply total_bind_pure.
    { apply (total_call1 _ _ (λ j', Job.id j' = Job.id j ∧ Job.revision j' = Job.revision j ∧
        Job.attempt j' = Job.attempt j ∧ Job.pages j' = Job.pages j ∧ Job.state j' = RUNNING)); [|done].
      intros n. unfold Job.begin_running. rewrite transition_run by (rewrite H1; set_solver). by eexists. }
    intros j3 (Hid3 & Hrev3 & Hatt3 & Hpg3 & Hst3).
    eapply total_bind_eq; [by apply (total_checkpoint j)|].
    eapply total_conseq with (X := never); [apply (total_run_pages (committed j3))| | |].
    + done.
    + simpl. by rewrite Hpg3.
    + intros w [??]. split; [done|]. simpl. by rewrite Hpg3.
    + intros j' w. apply completed_trans; simpl; congruence.
    + done.
  - eapply total_bind; [apply total_finish; [done|]|].
    { destruct Hst as [?|[?|[_ ?]]]; congruence. }
    intros r. apply total_never. intros w (j' & -> & Hc). simpl. by eapply completed_trans.
  - eapply total_conseq with (X := never); [by apply total_run_pages|done| |done].
    intros j' w. by apply completed_trans.
  - exfalso. destruct Hst as [?|[?|[? _]]]; congruence.
Qed.

Lemma total_process_live job up :
  total (λ w, stored job w ∧ resumable job w)
    (process_live max_page_retries retry_base_seconds job up)
    (λ j' w, completed job j' w) never.
Proof.
  unfold process_live. eapply total_bind; [apply total_begin|]. intros j1.
  eapply total_bind; [apply total_prepare_pages|]. intros j2 w (Hs & Hid & Hatt & Hne & Hr & Hst).
  revert w Hs Hr. assert (steady (λ w, Forall (page_ready w) (Job.pages j2))) as HF
    by (apply (steady_Forall page_ready), steady_page_ready).
  intros w Hs Hr. refine (total_bind_eq (λ w, stored j2 w ∧ Forall (page_ready w) (Job.pages j2)) _ _ None
    _ _ never _ _ w (conj Hs Hr)).
  - apply total_at_local, total_cancel_if_requested; destruct Hst as [?|[?|[? _]]]; congruence.
  - by apply total_resume.
Qed.

Lemma total_process message job upload :
  msg_schema_version message = 1 → msg_attempt message = Job.attempt job →
  Job.id job = msg_job_id message →
  total (λ w, stored job w ∧ resumable job w ∧
           dget (w_uploads w) (Job.upload_id job) = Some upload)
    (process max_page_retries retry_base_seconds message)
    (λ r w, ∃ j', r = Some j' ∧ completed job j' w) never.
Proof.
  intros Hv Hatt Hid w (Hs & Hr & Hup). unfold process. rewrite Hv, bool_decide_eq_true_2 by done. change (negb true) with false.
  cbv iota.
  assert (Job.terminal job = false) as Hterm.
  { destruct Hr as [_ Hr]. unfold Job.terminal. by destruct (Job.state job). }
  pose proof (total_process_live job upload w (conj Hs Hr)) as Hlive.
  destruct (process_live max_page_retries retry_base_seconds job upload w) as [[j'|e|] w'] eqn:E; [|done..].
  assert (database (jobs_get (msg_job_id message)) w = (Ret (Some job), w)) as Hget.
  { destruct Hs as [Hs _]. rewrite Hid in Hs. unfold database, try_except.
    erewrite try_else_run; [done|]. simpl.
    unfold atomic, atomic_alone, InMemoryJobRepository.get, gets. by rewrite Hs. }
  assert (process_body max_page_retries retry_base_seconds message w = (Ret (Some j'), w')) as Hbody.
  { unfold process_body. erewrite bind_run by (unfold at_local, map_exn; by rewrite Hget).
    rewrite Hatt, bool_decide_eq_true_2, Hterm by done. change (negb true) with false. cbv iota.
    erewrite bind_run.
    2:{ unfold at_local, map_exn, database, try_except. erewrite try_else_run; [done|]. simpl.
        unfold atomic, atomic_alone, InMemoryUploadRepository.get, gets. by rewrite Hup. }
    cbv iota. by erewrite bind_run. }
  erewrite bind_run by (unfold attempt; by rewrite Hbody). by exists j'.
Qed.

(** C3: the worker completes what it is given.  Next to no other task, with an
    engine that recognises every page and a preprocessor that finds at least
    one page, a delivery for the current attempt of a job in any resumable
    state (a new or retried job, or any checkpoint an interrupted run left)
    returns, within the loop's fuel, the job [SUCCEEDED] in the same attempt,
    stored with every page done and its documents present. *)
Theorem process_completes message job upload w :
  msg_schema_version message = 1 → msg_attempt message = Job.attempt job →
  Job.id job = msg_job_id message →
  stored job w → resumable job w →
  dget (w_uploads w) (Job.upload_id job) = Some upload →
  ∃ j' w', process max_page_retries retry_base_seconds message w = (Ret (Some j'), w') ∧
    completed job j' w'.
Proof.
  intros Hv Hatt Hid Hs Hr Hup.
  pose proof (total_process message job upload Hv Hatt Hid w (conj Hs (conj Hr Hup))) as H.
  destruct (process _ _ message w) as [[r|e|] w']; [|done..].
  destruct H as (j' & -> & ?). by exists j', w'.
Qed.
End completes.
