(* ===== verification/WorkerFacts.v ===== *)
(** * The worker's error paths, retries and repeated deliveries

    - [retry_budget]: a page whose engine keeps failing with a retryable error
      is tried [max_page_retries + 1] times, with exponential delays, and then
      fails the job;
    - [stale_delivery], [terminal_delivery]: deliveries that must not touch the job;
    - [duplicate_delivery]: what two workers on the same attempt can do. *)

From Stdlib Require Import Ascii.
From Stdlib Require Import QArith.
From S2P Require Import Prelude PyData PyText PyValue Json JsonFacts Status Domain DomainFacts.
From S2P Require Import Ports Sha256 Engine Memory History MemoryFacts Worker WorkerSafety.
From S2P Require Import WorkerTotal.

#[local] Open Scope Z_scope.

(** ** The retry budget *)

Section budget.
Context `{!OCREngine World}.
Context (max_page_retries : Z) (retry_base_seconds : Q) (e : exc).
Hypothesis Hfail : ∀ image n options request_id w,
  engine_recognize image n options request_id w = (Exn e, w).
Hypothesis Htransient : isinstance e TransientEngineError = true.
Hypothesis Hretries : 0 ≤ max_page_retries.

Lemma transient_class :
  isinstance e Exception_ = true ∧
  isinstance_any e [ConcurrentJobUpdateError; DatabaseUnavailableError] = false.
Proof.
  revert Htransient. unfold isinstance_any, isinstance. simpl.
  by destruct (exc_cls e).
Qed.

Definition delays (from n : nat) : list Q :=
  map (λ k, retry_base_seconds * inject_Z (2 ^ Z.of_nat k))%Q (seq from n).

Definition slept (s : list Q) (w : World) : Prop := w_sleeps w = s.

Lemma steady_slept s : steady (slept s).
Proof. intros w w' Hc Hw. unfold slept. by rewrite (calm_sleeps _ _ Hc). Qed.

(** The stored job after [k] failed attempts on page [i], none saved as failed. *)
Definition tried (job : Job.t) (i : nat) (k : Z) (s : list Q) (j : Job.t) (w : World) : Prop :=
  stored j w ∧ slept s w ∧
  ∃ p, with_pages_of job (<[i := p]> (Job.pages job)) j ∧
    Page.state p ≠ Page_SUCCEEDED ∧ Page.processing_attempts p = k.

(** What a round with a failing engine ends with after [k] failed attempts. *)
Definition failed_round (job : Job.t) (i : nat) (k : Z) (s : list Q) (r : PageRound) (w : World) : Prop :=
  if decide (k < max_page_retries)
  then ∃ j', r = PageAgain j' (Some e) ∧ tried job i (k + 1) (s ++ [(retry_base_seconds * inject_Z (2 ^ k))%Q]) j' w
  else ∃ j' j1, r = PageBreak j' (Some e) ∧ Job.id j' = Job.id job ∧ tried job i (k + 1) s j1 w.

Lemma start_pending p : Page.state p ≠ Page_SUCCEEDED →
  Page.processing_attempts (Page.start p) = Page.processing_attempts p + 1 ∧
  Page.state (Page.start p) = Page_RUNNING.
Proof. intros Hnd. unfold Page.start. by rewrite decide_False. Qed.

Lemma total_save_slept {L} (l : L) j j' ty pl s :
  Job.id j' = Job.id j → Job.revision j' = Job.revision j →
  total (λ w, stored j w ∧ slept s w) (at_local l (save_and_emit j' ty pl))
    (λ r w, (stored (committed j') w ∧ slept s w) ∧ r.1 = committed j') never.
Proof.
  intros Hid Hrev. apply total_at_local. eapply total_conseq with (X := never);
    [apply (total_save j j' ty pl (slept s)); [done..|apply steady_slept] | done | tauto | done].
Qed.

Lemma total_failing_round_at image job i k s j err p :
  0 ≤ k ≤ max_page_retries → (i < length (Job.pages job))%nat →
  with_pages_of job (<[i := p]> (Job.pages job)) j →
  Page.state p ≠ Page_SUCCEEDED → Page.processing_attempts p = k →
  total (λ w, stored j w ∧ slept s w)
    (page_round max_page_retries retry_base_seconds image i j err) (failed_round job i k s) never.
Proof.
  intros Hk Hi Hwp Hnd Hatt. destruct transient_class as [Hexc Hany].
  assert (Job.pages j !! i = Some p) as Hpg.
  { rewrite (wpo_pages _ _ _ Hwp). by apply list_lookup_insert_eq. }
  unfold page_round, failed_round.
  eapply (total_bind_eq _ (λ w, stored j w ∧ slept s w) _ p).
  { apply total_at_local, total_lift. unfold get_page. by rewrite Hpg. }
  rewrite decide_False by lia. destruct (start_pending p Hnd) as [Hatt1 Hst1]. rewrite Hatt in Hatt1.
  set (p1 := Page.start p) in *. set (job1 := Job.update_page i p1 j).
  eapply total_bind_pure; [by apply (total_save_slept _ j job1)|]. intros [job2 ev]. cbn [fst]. intros ->.
  eapply (total_bind_eq _ (λ w, stored (committed job1) w ∧ slept s w) _
    (inl (e, MkPageLocals p1 true (committed job1)))).
  { intros w Hw. unfold attempt, recognize_page. erewrite bind_run_exn; [done|].
    unfold at_local, map_exn. by rewrite Hfail. }
  rewrite Hexc, Hany, Htransient. cbn [orb negb]. cbv iota. cbn [pl_page pl_owned pl_job].
  set (p2 := Page.with_error_reason _ _). set (job3 := Job.update_page i p2 (committed job1)).
  assert (Page.processing_attempts p2 = k + 1) as Hatt2 by exact Hatt1.
  assert (Job.pages job3 = <[i:=p2]> (Job.pages job)) as Hpg3.
  { unfold job3. simpl. rewrite list_insert_insert_eq.
    rewrite (wpo_pages _ _ _ Hwp). by rewrite list_insert_insert_eq. }
  rewrite Hatt2. case_decide as Hlt.
  - rewrite bool_decide_eq_false_2 by lia.
    eapply total_bind_pure; [by apply (total_save_slept _ (committed job1) job3)|].
    intros [job4 ev2]. cbn [fst]. intros ->. replace (k + 1 - 1) with k by lia.
    intros w [[Hs1 Hs2] Hsl]. exists (committed job3). split; [done|]. split; [by split|]. split.
    + unfold slept in *. simpl. by rewrite Hsl.
    + exists p2. split; [|split; [|done]]; [destruct Hwp; split; simpl; done|].
      unfold p2. simpl. by rewrite Hst1.
  - rewrite bool_decide_eq_true_2 by lia.
    apply total_ret. intros w [Hs Hsl]. exists job3, (committed job1).
    split; [done|]. split; [by destruct Hwp|]. split; [done|]. split; [done|].
    exists p1. split; [|by rewrite Hst1]. destruct Hwp. split; simpl; try done.
    by rewrite wpo_pages, list_insert_insert_eq.
Qed.

(** One round with a failing engine. *)
Lemma total_failing_round image job i k s j err :
  0 ≤ k ≤ max_page_retries → (i < length (Job.pages job))%nat →
  total (tried job i k s j)
    (page_round max_page_retries retry_base_seconds image i j err) (failed_round job i k s) never.
Proof.
  intros Hk Hi w (Hs & Hsl & p & Hwp & Hnd & Hatt).
  by apply (total_failing_round_at image job i k s j err p Hk Hi Hwp Hnd Hatt w).
Qed.

Lemma tried_state job i k s j w : tried job i k s j w → Job.state j = Job.state job.
Proof. intros (_ & _ & p & Hwp & _). apply Hwp. Qed.

Lemma total_tried_reload job i k s j :
  total (tried job i k s j) (reload j) (λ r w, r = (j, false) ∧ tried job i k s j w) never.
Proof. exact (total_reload j (λ w, slept s w ∧ _)). Qed.

(** One iteration of the loop. *)
Lemma total_failing_iteration image job i k s caller mine j err fuel Q :
  0 ≤ k ≤ max_page_retries → (i < length (Job.pages job))%nat → Job.state job = RUNNING →
  (k < max_page_retries → ∀ caller' mine' j',
     total (tried job i (k + 1) (s ++ [(retry_base_seconds * inject_Z (2 ^ k))%Q]) j')
       (page_loop max_page_retries retry_base_seconds fuel image i caller' mine' j' (Some e)) Q never) →
  (k = max_page_retries → ∀ caller' mine' j' j1 w, Job.id j' = Job.id job →
     tried job i (k + 1) s j1 w → Q (inr (caller', mine', j', Some e)) w) →
  total (tried job i k s j)
    (page_loop max_page_retries retry_base_seconds (S fuel) image i caller mine j err) Q never.
Proof.
  intros Hk Hi Hst Hagain Hbreak. eapply total_fact; [apply tried_state|]. intros Hj.
  simpl page_loop. eapply total_bind_eq; [apply total_at_local, total_tried_reload|].
  cbv iota beta. rewrite decide_False by congruence.
  eapply total_bind; [by apply total_map_exn, total_failing_round|]. unfold failed_round.
  intros r w Hr. case_decide.
  - destruct Hr as (j' & -> & Hj'). by eapply Hagain.
  - destruct Hr as (j' & j1 & -> & Hid & Hj'). eapply Hbreak; [lia | done..].
Qed.

(** The loop, from [k] failed attempts on. *)
Lemma total_failing_loop n image job i k s caller mine j err fuel :
  n = Z.to_nat (max_page_retries - k) → (n < fuel)%nat →
  0 ≤ k ≤ max_page_retries → (i < length (Job.pages job))%nat → Job.state job = RUNNING →
  total (tried job i k s j)
    (page_loop max_page_retries retry_base_seconds fuel image i caller mine j err)
    (λ r w, ∃ caller' mine' j' j1, r = inr (caller', mine', j', Some e) ∧ Job.id j' = Job.id job ∧
       tried job i (max_page_retries + 1) (s ++ delays (Z.to_nat k) n) j1 w) never.
Proof.
  revert k s caller mine j err fuel.
  induction n as [|n IH]; intros k s caller mine j err fuel Hn Hfuel Hk Hi Hst;
    (destruct fuel as [|fuel]; [lia|]); apply total_failing_iteration; try done; try lia.
  - intros -> caller' mine' j' j1 w Hid Hj1. exists caller', mine', j', j1.
    unfold delays. simpl. by rewrite app_nil_r.
  - intros Hlt caller' mine' j'. eapply total_conseq with (X := never);
      [apply (IH (k + 1)); try done; lia | done | | done].
    intros r w (c & m & j2 & j1 & -> & Hid & Hj1). exists c, m, j2, j1.
    split_and!; [done..|]. revert Hj1. rewrite <- app_assoc.
    replace (Z.to_nat (k + 1)) with (S (Z.to_nat k)) by lia.
    unfold delays. simpl. by rewrite Z2Nat.id by lia.
Qed.

(** What an exhausted page leaves. *)
Definition exhausted (job : Job.t) (i : nat) (s : list Q) (r : Job.t) (w : World) : Prop :=
  stored r w ∧ slept s w ∧ Job.state r = FAILED ∧ Job.id r = Job.id job ∧
  Job.error_reason r = Some (reason_of e) ∧ Job.internal_code r = code_value (internal_code_of e) ∧
  ∃ p, Job.pages r = <[i := p]> (Job.pages job) ∧ Page.state p = Page_FAILED ∧
    Page.processing_attempts p = max_page_retries + 1 ∧ Page.error_reason p = Some (reason_of e).

Lemma total_fail_job j F r c :
  Job.state j = RUNNING → steady F →
  total (λ w, stored j w ∧ F w) (fail_job j r c)
    (λ j' w, stored j' w ∧ F w ∧ Job.state j' = FAILED ∧ Job.id j' = Job.id j ∧
       Job.error_reason j' = Some r ∧ Job.internal_code j' = code_value c ∧
       Job.pages j' = Job.pages j) never.
Proof.
  intros Hst HF. unfold fail_job.
  eapply total_bind_pure with (G := λ _, True);
    [apply total_at_local, total_port; [apply answers_now | done]|]. intros n1 _.
  eapply total_bind_pure with (G := λ _, True);
    [apply total_at_local, total_port; [apply answers_now | done]|]. intros n2 _.
  rewrite decide_False by congruence. unfold Job.fail.
  rewrite transition_run by (rewrite Hst; set_solver).
  pose (j1 := Job.with_completed_at (Some n2) (Job.with_error_reason (Some r)
    (Job.with_internal_code (code_value c) (Job.with_updated_at n1 (Job.with_state FAILED j))))).
  eapply (total_bind_eq _ (λ w, stored j w ∧ F w) _ (j1, "job.failed")); [by apply total_ret|].
  cbv iota beta.
  eapply (total_bind_pure _ (λ w, stored (committed j1) w ∧ F w) (λ r, r.1 = committed j1)).
  { apply total_at_local. eapply total_conseq with (X := never);
      [by apply (total_save j j1)|..]; [done | tauto | done]. }
  intros [saved ev]. cbn [fst]. intros ->. apply total_ret. intros w [? ?]. by split_and!.
Qed.

Lemma total_exhausted job i page :
  Job.state job = RUNNING → Job.pages job !! i = Some page →
  Page.state page ≠ Page_SUCCEEDED → Page.processing_attempts page = 0 →
  ∀ s, total (λ w, stored job w ∧ slept s w ∧ present (Page.input_object_key page) w)
    (process_page max_page_retries retry_base_seconds job i page)
    (exhausted job i (s ++ delays 0 (Z.to_nat max_page_retries))) never.
Proof.
  intros Hst Hpg Hnd Hatt s. assert (i < length (Job.pages job))%nat as Hi by by eapply lookup_lt_Some.
  unfold process_page.
  eapply total_bind; [apply total_at_local, total_get_bytes; tauto|]. intros image.
  eapply total_bind.
  { eapply total_pre; [apply (total_failing_loop (Z.to_nat max_page_retries) image job i 0 s); try done; lia|].
    intros w (Hs & Hsl & _). split; [done|]. split; [done|]. exists page.
    rewrite list_insert_id by done. by split. }
  intros r w (caller & mine & j & j1 & -> & Hid & Hj1). revert w Hj1.
  set (s' := s ++ _).
  assert (total (tried job i (max_page_retries + 1) s' j1) (reload j)
    (λ r w, r = (j1, false) ∧ tried job i (max_page_retries + 1) s' j1 w) never) as Hreload.
  { eapply total_fact with (F := Job.id j1 = Job.id j).
    - intros w (_ & _ & p & Hwp & _). rewrite Hid. apply Hwp.
    - intros Hjid. unfold reload. rewrite <- Hjid.
      eapply total_bind_eq; [exact (total_get j1 (λ w, slept s' w ∧ _))|]. by apply total_ret. }
  match goal with |- ∀ w, ?P → match ?m w with _ => _ end =>
    change (total (tried job i (max_page_retries + 1) s' j1) m (exhausted job i s') never) end.
  eapply total_bind_eq; [apply total_at_local, Hreload|]. cbv iota beta.
  intros w0 (Hs0 & Hsl0 & p & Hwp & Hp & Hpatt). revert w0 Hs0 Hsl0.
  assert (∀ A P (m : M (exc * Job.t) World A) Q, total (λ w, stored j1 w ∧ slept s' w) m Q P →
    ∀ w, stored j1 w → slept s' w → match m w with (Ret a, w') => Q a w' | (Exn e, w') => P e w'
      | (NoFuel, _) => False end) as Hintro by (intros A P m Q Hm w ??; by apply (Hm w)).
  apply Hintro. pose proof (steady_slept s') as HF.
  assert (Job.pages j1 = <[i:=p]> (Job.pages job)) as Hpg1 by apply Hwp.
  eapply (total_bind_eq _ (λ w, stored j1 w ∧ slept s' w) _ p).
  { apply total_at_local, total_lift. unfold get_page. by rewrite Hpg1, list_lookup_insert_eq. }
  cbn [default].
  set (p1 := Page.fail _ _ _). set (j2 := Job.update_page i p1 j1).
  eapply total_bind_pure; [by apply (total_save_slept _ j1 j2)|].
  intros [saved ev]. cbn [fst]. intros ->.
  eapply total_bind_pure with (G := λ _, True);
    [apply total_at_local, total_port; [|done]|].
  { intros w. do 2 eexists. split_and!; [done | by apply calm_of | done | exact I]. }
  intros ? _. apply total_map_exn.
  eapply total_conseq with (X := never); [apply (total_fail_job (committed j2)); [|done]| done | |done].
  - simpl. by rewrite (wpo_state _ _ _ Hwp).
  - intros r' w (Hs & Hsl & Hf & Hrid & Hre & Hrc & Hrp).
    split; [done|]. split_and!; try done.
    + rewrite Hrid. simpl. apply Hwp.
    + exists p1. rewrite Hrp. simpl. by rewrite Hpg1, list_insert_insert_eq.
Qed.

(** C14: the retry budget.  When the engine keeps failing on a page with a
    retryable error, [_process_page] makes exactly [max_page_retries + 1]
    attempts, sleeps [base * 2^k] seconds after attempt [k+1] for
    [k = 0 .. max_page_retries - 1], and then stores the page and the job as
    [FAILED] with the reason and code of the error; the other pages are as they
    were. *)
Theorem retry_budget job i page s w :
  Job.state job = RUNNING → Job.pages job !! i = Some page →
  Page.state page = Page_PENDING → Page.processing_attempts page = 0 →
  stored job w → w_sleeps w = s → present (Page.input_object_key page) w →
  ∃ r w', process_page max_page_retries retry_base_seconds job i page w = (Ret r, w') ∧
    exhausted job i
      (s ++ map (λ k, retry_base_seconds * inject_Z (2 ^ Z.of_nat k))%Q (seq 0 (Z.to_nat max_page_retries))) r w'.
Proof.
  intros Hst Hpg Hp Hatt Hs Hsl Hin.
  pose proof (total_exhausted job i page Hst Hpg ltac:(congruence) Hatt s w) as H.
  specialize (H (conj Hs (conj Hsl Hin))).
  destruct (process_page _ _ _ _ _ w) as [[r|?|] w']; [by exists r, w' | done..].
Qed.
End budget.

(** ** Deliveries that must not touch the job *)

Section deliveries.
Context `{!OCREngine World, !DocumentPreprocessor World}.
Context (max_page_retries : Z) (retry_base_seconds : Q).

Abbreviation process := (process max_page_retries retry_base_seconds).

Lemma get_job_run i w :
  database (jobs_get i) w = (Ret (dget (w_jobs w) i), w).
Proof. done. Qed.

(** A message of another attempt (an old delivery after a retry) returns
    the stored job and changes nothing at all. *)
Lemma stale_delivery message job w :
  msg_schema_version message = 1 → dget (w_jobs w) (msg_job_id message) = Some job →
  Job.attempt job ≠ msg_attempt message →
  process message w = (Ret (Some job), w).
Proof.
  intros Hv Hj Ha. unfold Worker.process. rewrite Hv, bool_decide_eq_true_2 by done.
  change (negb true) with false. cbv iota.
  assert (process_body max_page_retries retry_base_seconds message w = (Ret (Some job), w)) as Hb.
  { unfold process_body. erewrite bind_run.
    2:{ unfold at_local, map_exn. by rewrite get_job_run, Hj. }
    cbv beta iota. by rewrite bool_decide_eq_false_2. }
  erewrite bind_run; [|unfold attempt; by rewrite Hb]. done.
Qed.

Definition terminal_event_type (s : JobState) : string :=
  match s with
  | CANCELLED => "job.cancelled" | FAILED => "job.failed" | _ => "job.succeeded"
  end.

(** An event that records the end of [job]'s current attempt. *)
Definition ends (job : Job.t) (ev : JobEvent.t) : Prop :=
  JobEvent.event_type ev = terminal_event_type (Job.state job) ∧
  InMemoryJobEventRepository.same_attempt
    (dget (JobEvent.payload ev) "attempt") (Some (JInt (Job.attempt job))) = true.

Abbreviation elog := InMemoryJobEventRepository.log.

(** [append] of a terminal event: it is there afterwards, and if one was there
    before, nothing changes. *)
Lemma append_terminal job ev w :
  Job.terminal job = true → JobEvent.job_id ev = Job.id job →
  JobEvent.event_type ev = terminal_event_type (Job.state job) →
  dget (JobEvent.payload ev) "attempt" = Some (JInt (Job.attempt job)) →
  ∃ r w', InMemoryJobEventRepository.append ev w = (Ret r, w') ∧ w_jobs w' = w_jobs w ∧
    Exists (ends job) (elog w' (Job.id job)) ∧
    (Exists (ends job) (elog w (Job.id job)) → w' = w).
Proof.
  intros Ht Hid Hty Hatt.
  assert (InMemoryJobEventRepository.terminal_event (JobEvent.event_type ev) = true) as Hte.
  { rewrite Hty. apply terminal_state_spec in Ht as [E|[E|E]]; by rewrite E. }
  unfold InMemoryJobEventRepository.append. rewrite Hid.
  erewrite bind_run by done.
  destruct (InMemoryJobEventRepository.existing ev (elog w (Job.id job))) as [item|] eqn:E.
  - exists item, w. split_and!; try done. apply existing_Some in E as [Hin He].
    apply Exists_exists. exists item. split; [done|]. unfold same_end in He.
    rewrite Hty, Hatt in He. apply andb_true_iff in He as [[_ He]%andb_true_iff ?].
    by apply bool_decide_eq_true in He.
  - do 2 eexists. split_and!; [done | done | |].
    + unfold elog. simpl. rewrite lookup_insert_eq. simpl.
      apply Exists_app. right. constructor. split; [done|]. simpl. rewrite Hatt.
      by apply (py_eq_refl (JInt _)).
    + intros [x [Hin [Hx1 Hx2]]]%Exists_exists. exfalso. apply existing_None in E.
      rewrite Forall_forall in E. specialize (E x Hin). unfold same_end in E.
      rewrite Hte, Hty, Hx1, Hatt, Hx2, bool_decide_eq_true_2 in E by done. done.
Qed.

Lemma terminal_body message job w :
  dget (w_jobs w) (msg_job_id message) = Some job → Job.id job = msg_job_id message →
  Job.attempt job = msg_attempt message → Job.terminal job = true →
  ∃ w', process_body max_page_retries retry_base_seconds message w = (Ret (Some job), w') ∧
    w_jobs w' = w_jobs w ∧ Exists (ends job) (elog w' (Job.id job)) ∧
    (Exists (ends job) (elog w (Job.id job)) → w_events w' = w_events w).
Proof.
  intros Hj Hid Ha Ht.
  assert (∃ r w', repair_terminal_event job w = (Ret r, w') ∧
    w_jobs w' = w_jobs w ∧ Exists (ends job) (elog w' (Job.id job)) ∧
    (Exists (ends job) (elog w (Job.id job)) → w_events w' = w_events w)) as (r & w' & Hr & Hrest).
  { assert (∀ ty pl, ty = terminal_event_type (Job.state job) →
      dget (dupdate [("attempt", JInt (Job.attempt job))] pl) "attempt" = Some (JInt (Job.attempt job)) →
      ∃ r w', emit job ty pl w = (Ret r, w') ∧
        w_jobs w' = w_jobs w ∧ Exists (ends job) (elog w' (Job.id job)) ∧
        (Exists (ends job) (elog w (Job.id job)) → w_events w' = w_events w)) as Hemit.
    { intros ty pl Hty Hpl. unfold emit. erewrite bind_run by done.
      destruct (append_terminal job (job_event job ty pl (w_clock w)) (put_clock (w_clock w + 1) w))
        as (r & w' & Happ & Hjobs & Hex & Hsame); try done.
      exists r, w'. split_and!; [|done|done|].
      - unfold database, try_except. by erewrite try_else_run.
      - intros Hx. by rewrite (Hsame Hx). }
    unfold repair_terminal_event.
    apply terminal_state_spec in Ht as [E|[E|E]]; rewrite E in *; by apply Hemit. }
  exists w'. split; [|done]. unfold process_body.
  erewrite bind_run by (unfold at_local, map_exn; by rewrite get_job_run, Hj).
  cbv beta iota. rewrite bool_decide_eq_true_2, Ht by done. change (negb true) with false. cbv iota.
  erewrite bind_run by (unfold at_local, map_exn; by rewrite Hr). done.
Qed.

(** C15: redelivery of a finished attempt.  A message for a job that has ended
    returns the job without changing any stored job; afterwards the terminal
    event of the attempt is in the log (it is repaired if it was lost), and
    further deliveries add no event. *)
Theorem terminal_delivery message job w :
  msg_schema_version message = 1 → dget (w_jobs w) (msg_job_id message) = Some job →
  Job.id job = msg_job_id message → Job.attempt job = msg_attempt message →
  Job.terminal job = true →
  ∃ w', process message w = (Ret (Some job), w') ∧ w_jobs w' = w_jobs w ∧
    Exists (ends job) (elog w' (Job.id job)) ∧
    ∃ w'', process message w' = (Ret (Some job), w'') ∧ w_jobs w'' = w_jobs w ∧
      w_events w'' = w_events w'.
Proof.
  intros Hv Hj Hid Ha Ht.
  assert (∀ w w', process_body max_page_retries retry_base_seconds message w = (Ret (Some job), w') →
    process message w = (Ret (Some job), w')) as Hp.
  { intros w1 w2 Hb. unfold Worker.process. rewrite Hv, bool_decide_eq_true_2 by done.
    change (negb true) with false. cbv iota.
    erewrite bind_run; [|unfold attempt; by rewrite Hb]. done. }
  destruct (terminal_body message job w) as (w' & Hb & Hjobs & Hex & _); [done..|].
  exists w'. split_and!; [by apply Hp | done | done |].
  destruct (terminal_body message job w') as (w'' & Hb' & Hjobs' & _ & Hsame); try done.
  { by rewrite Hjobs. }
  exists w''. split_and!; [by apply Hp | congruence | by apply Hsame].
Qed.
End deliveries.

(** ** A concrete world *)

Module Sample.

Definition engine : OCREngine World := λ image n _ rid w,
  (Ret (FakeOCREngine.result (Some "fake-visualization") image n rid), w).

(** A preprocessor that renders one page. *)
Definition preprocessor : DocumentPreprocessor World := λ upload job w,
  let key := "jobs/" +:+ uuid_str (Job.id job) +:+ "/page-1.png" in
  (Ret [MkPreparedPage 1 key], put_objects (dset (w_objects w) key ("pixels", "image/png", sha256 "pixels")) w).

Definition upload : Upload.t :=
  Upload.Mk "owner" "a.pdf" 6 "application/pdf" (sha256 "source") "uploads/2/source" 2
    UploadState_COMPLETED 0 (Some 1) (Some "application/pdf") None.

Definition job : Job.t := Job.new "owner" 2 "req" [] None 7 0 0.

Definition message : JobWorkMessage := MkJobWorkMessage 7 1 "req" 1.

(** A new job with its completed upload. *)
Definition world : World :=
  MkWorld [(2%N, upload)] [(7%N, job)] true ∅ [] [("uploads/2/source", ("source", "application/pdf", sha256 "source"))]
    [] [] 10 100 [].

(** The same job in the middle of its only page. *)
Definition running_job : Job.t :=
  Job.with_pages [Page.new 1 "page-1"] (Job.with_state RUNNING job).

Definition running_world : World :=
  MkWorld [(2%N, upload)] [(7%N, running_job)] true ∅ []
    [("page-1", ("pixels", "image/png", sha256 "pixels"))] [] [] 10 100 [].

(** A second worker, whose engine works, on the same message. *)
Definition other_worker (w : World) : World :=
  let _ := engine in let _ := preprocessor in
  (@process World _ _ _ _ preprocessor engine _ _ 3 1 message w).2.

(** This worker's engine answers with a protocol error. *)
Definition failing_engine : OCREngine Shared := λ _ _ _ _ s,
  (Exn (mk_exc EngineProtocolError "PaddleOCR-VL returned 400"), s).
Definition no_preprocessor : DocumentPreprocessor Shared := λ _ _ s, (Ret [], s).

Definition interleaved : outcome exc (option Job.t) * Shared :=
  @process Shared _ _ _ _ no_preprocessor failing_engine _ _ 3 1 message
    (MkShared running_world (replicate 9 (λ w, w) ++ [other_worker])).

(** State, page states, progress and number of artifacts. *)
Definition summary (j : Job.t) : JobState * list PageState * Z * nat :=
  (Job.state j, Page.state <$> Job.pages j, Job.progress j, length (Job.artifacts j)).

End Sample.

Example other_worker_ex :
  Sample.summary <$> dget (w_jobs (Sample.other_worker Sample.world)) 7%N =
    Some (SUCCEEDED, [Page_SUCCEEDED], 10000, 5%nat).
Proof. vm_compute. reflexivity. Qed.

(** *** The sample ports satisfy the hypotheses of the theorems *)

Lemma sample_engine_answers image n options request_id :
  answers (@engine_recognize World Sample.engine image n options request_id)
    (λ result _, wf_json (JObj (result_structured result)) = true ∧
                 wf_json (JObj (result_engine_metadata result)) = true).
Proof. intros w. do 2 eexists. split_and!; [done | apply calm_refl | done | reflexivity..]. Qed.

Lemma sample_prepare_answers upload job :
  answers (@preprocessor_prepare World Sample.preprocessor upload job)
    (λ prepared w, prepared ≠ [] ∧ Forall (λ p, present (prepared_object_key p) w) prepared).
Proof.
  intros w. do 2 eexists. split_and!; [done | | done | done |].
  - apply calm_put. rewrite <- str_assoc, endswith_app by (simpl; lia). done.
  - repeat constructor. unfold present. simpl. rewrite dget_dset_eq. by eexists.
Qed.

Lemma quiet_pure {W} (inv : W → Prop) view {A} (r : outcome exc A) :
  quiet inv view (λ w, (r, w)).
Proof. intros w Hi _. simpl. split_and!; [done | reflexivity | by destruct r]. Qed.

#[export] Instance sample_quiet_engine : @QuietEngine World wf_world mview Sample.engine.
Proof. intros b n o r. apply quiet_pure. Qed.

#[export] Instance sample_quiet_preprocessor :
  @QuietPreprocessor World wf_world mview Sample.preprocessor.
Proof. intros u j. apply quiet_of. intros w. by split. Qed.

#[export] Instance failing_quiet_engine :
  @QuietEngine Shared shared_inv (λ s, mview (sh_world s)) Sample.failing_engine.
Proof. intros b n o r. apply quiet_pure. Qed.

#[export] Instance no_quiet_preprocessor :
  @QuietPreprocessor Shared shared_inv (λ s, mview (sh_world s)) Sample.no_preprocessor.
Proof. intros u j. apply quiet_pure. Qed.

Lemma sample_wf w :
  w_jobs w = [(7%N, Sample.job)] ∨ w_jobs w = [(7%N, Sample.running_job)] →
  w_events w = ∅ → wf_world w.
Proof.
  intros Hj He. split.
  - destruct Hj as [-> | ->]; apply NoDup_singleton.
  - intros i j. destruct Hj as [-> | ->]; simpl; case_decide; naive_solver.
  - intros i. unfold InMemoryJobEventRepository.log. rewrite He, lookup_empty. apply log_ok_nil.
Qed.

Lemma process_completes_witness :
  ∃ j' w', @process World _ _ _ _ Sample.preprocessor Sample.engine _ _ 3 1 Sample.message Sample.world
    = (Ret (Some j'), w') ∧ completed Sample.job j' w'.
Proof.
  apply (@process_completes Sample.engine Sample.preprocessor 3 1
    sample_engine_answers sample_prepare_answers ltac:(lia)
    Sample.message Sample.job Sample.upload Sample.world);
    try reflexivity; [by split | by split].
Defined.

Lemma sample_tasks_ok : Forall task_ok (replicate 9 (λ w, w) ++ [Sample.other_worker]).
Proof.
  apply Forall_app. split.
  - apply Forall_replicate. intros w Hw. by split.
  - constructor; [|constructor]. intros w Hw.
    destruct (@rg_process World wf_world mview exact _ _ _ _ Sample.preprocessor Sample.engine _ _
      _ _ _ _ _ _ _ _ 3 1 Sample.message w Hw I) as (? & ? & _). by split.
Qed.

(** Two deliveries of one attempt can leave a [SUCCEEDED] job
    with a [FAILED] page.  Both workers keep every promise of [process_safe],
    yet when the first one's engine fails after the second one has finished the
    job, [_process_page] reloads the finished job and calls [page.fail] on its
    [SUCCEEDED] page, which has no guard, and the save goes through. *)
Theorem duplicate_delivery :
  Forall task_ok (sh_schedule (MkShared Sample.running_world
    (replicate 9 (λ w, w) ++ [Sample.other_worker]))) ∧
  match Sample.interleaved.1 with
  | Ret (Some j) => Sample.summary j = (SUCCEEDED, [Page_FAILED], 0, 5%nat)
  | _ => False
  end ∧
  Sample.summary <$> dget (w_jobs (sh_world Sample.interleaved.2)) 7%N =
    Some (SUCCEEDED, [Page_FAILED], 0, 5%nat).
Proof.
  split; [apply sample_tasks_ok|]. split; vm_compute; reflexivity.
Qed.

Lemma process_safe_witness :
  shared_inv (MkShared Sample.running_world (replicate 9 (λ w, w) ++ [Sample.other_worker])) ∧
  shared_inv Sample.interleaved.2.
Proof.
  assert (shared_inv (MkShared Sample.running_world (replicate 9 (λ w, w) ++ [Sample.other_worker])))
    as H. { split; [apply sample_wf; [by right | done] | apply sample_tasks_ok]. }
  split; [exact H|].
  exact (proj1 (@process_safe Shared shared_inv (λ s, mview (sh_world s)) exact _ _ _ _
    Sample.no_preprocessor Sample.failing_engine _ _ _ _ _ _ _ _ _ _ 3 1 Sample.message _ H)).
Defined.

(** An engine that is always down. *)
Definition down_engine : OCREngine World := λ _ _ _ _ w,
  (Exn (mk_exc EngineTimeoutError "PaddleOCR-VL request timed out"), w).

(** The first delay is half a second. *)
Lemma retry_budget_witness :
  ∃ r w', @process_page World _ _ down_engine _ _ 3 (1 # 2) Sample.running_job 0 (Page.new 1 "page-1")
      Sample.running_world = (Ret r, w') ∧
    exhausted 3 (mk_exc EngineTimeoutError "PaddleOCR-VL request timed out")
      Sample.running_job 0 ([] ++ [1 # 2; 2 # 2; 4 # 2]%Q) r w'.
Proof.
  apply (@retry_budget down_engine 3 (1 # 2) (mk_exc EngineTimeoutError "PaddleOCR-VL request timed out"));
    try reflexivity; [lia | by split | by eexists].
Defined.

Lemma stale_delivery_witness :
  @process World _ _ _ _ Sample.preprocessor Sample.engine _ _ 3 1
    (MkJobWorkMessage 7 2 "req" 1) Sample.world = (Ret (Some Sample.job), Sample.world).
Proof. apply stale_delivery; [reflexivity | reflexivity | discriminate]. Defined.

(** The sample job after it failed, with its terminal event lost. *)
Definition failed_job : Job.t :=
  match Job.fail "engine_timeout" 50002 5 6 Sample.running_job with inr j => j | inl _ => Sample.job end.
Definition failed_world : World := put_jobs [(7%N, failed_job)] Sample.running_world.

Lemma terminal_delivery_witness :
  ∃ w', @process World _ _ _ _ Sample.preprocessor Sample.engine _ _ 3 1 Sample.message failed_world
      = (Ret (Some failed_job), w') ∧ w_jobs w' = w_jobs failed_world ∧
    Exists (ends failed_job) (InMemoryJobEventRepository.log w' (Job.id failed_job)) ∧
    ∃ w'', @process World _ _ _ _ Sample.preprocessor Sample.engine _ _ 3 1 Sample.message w'
        = (Ret (Some failed_job), w'') ∧ w_jobs w'' = w_jobs failed_world ∧
      w_events w'' = w_events w'.
Proof. apply terminal_delivery; reflexivity. Defined.
