(* ===== verification/FileValidation.v ===== *)
(** * File validation by signature

    Models [infrastructure/file_validation.py], class
    [MagicBytesFileValidator].  The checks do not touch the world, so [validate]
    is a result and [file_validator] the port built from it. *)

From Stdlib Require Import Ascii.
From S2P Require Import Prelude PyData PyText Json Status Domain Ports.

#[local] Open Scope Z_scope.

Definition bytes_of (l : list N) : string := of_chars (ascii_of_N <$> l).

Definition signatures : list (string * string) :=
  [("%PDF-", "application/pdf");
   (bytes_of [137; 80; 78; 71; 13; 10; 26; 10]%N, "image/png");
   (bytes_of [255; 216; 255]%N, "image/jpeg");
   ("BM", "image/bmp");
   (bytes_of [73; 73; 42; 0]%N, "image/tiff");
   (bytes_of [77; 77; 0; 42]%N, "image/tiff");
   ("RIFF", "image/webp")].

Fixpoint detect_in (l : list (string * string)) (data : string) : option string :=
  match l with
  | [] => None
  | (signature, content_type) :: l =>
      if startswith signature data then Some content_type else detect_in l data
  end.

Definition detect (data : string) : option string := detect_in signatures data.

Definition upload_size_mismatch : exc :=
  business_error UPLOAD_HASH_MISMATCH "上传对象大小不匹配" "upload_size_mismatch" None.
Definition unknown_magic_bytes : exc :=
  business_error UPLOAD_UNSUPPORTED_FILE_TYPE "文件真实类型不受支持" "unknown_magic_bytes" None.
Definition invalid_webp_signature : exc :=
  business_error UPLOAD_SECURITY_REJECTED "图片容器签名无效" "invalid_webp_signature" None.
Definition content_type_mismatch (declared detected : string) : exc :=
  business_error UPLOAD_SECURITY_REJECTED "声明类型与文件真实类型不一致" "content_type_mismatch"
    (Some (JObj [("declared", JStr declared); ("detected", JStr detected)])).
Definition encrypted_pdf : exc :=
  business_error UPLOAD_SECURITY_REJECTED "暂不支持加密 PDF" "encrypted_pdf" None.

(** [data[: 2 * 1024 * 1024]] *)
Definition pdf_head (data : string) : string :=
  of_chars (take (Z.to_nat (2 * 1024 * 1024)) (chars data)).

Definition validate (upload : Upload.t) (data : string) : exc + FileValidationResult :=
  if negb (bool_decide (bytes_len data = Upload.size_bytes upload)) then inl upload_size_mismatch
  else match detect data with
  | None => inl unknown_magic_bytes
  | Some detected =>
      if bool_decide (detected = "image/webp") &&
         negb (bool_decide (slice 8 12 data = "WEBP"))
      then inl invalid_webp_signature
      else if negb (bool_decide (detected = Upload.content_type upload))
      then inl (content_type_mismatch (Upload.content_type upload) detected)
      else if bool_decide (detected = "application/pdf") && contains "/Encrypt" (pdf_head data)
      then inl encrypted_pdf
      else inr (MkFileValidationResult detected)
  end.

#[export] Instance file_validator {W} : FileValidator W := λ upload data, lift (validate upload data).

(** ** Correctness *)

Lemma detect_in_Some l data t :
  detect_in l data = Some t → ∃ s, (s, t) ∈ l ∧ startswith s data = true.
Proof.
  induction l as [|[s t'] l IH]; simpl; [done|].
  destruct (startswith s data) eqn:E; [intros [= ->]; exists s; split; [left | done]|].
  intros (s' & ? & ?)%IH. exists s'. split; [by right | done].
Qed.

Lemma detect_in_None l data :
  detect_in l data = None ↔ Forall (λ '(s, _), startswith s data = false) l.
Proof.
  induction l as [|[s t] l IH]; simpl; [by split|].
  rewrite Forall_cons, <- IH. destruct (startswith s data); naive_solver.
Qed.

(** Two signatures of a text: one of them is a prefix of the other. *)
Lemma startswith_two a b data :
  startswith a data = true → startswith b data = true →
  startswith a b = true ∨ startswith b a = true.
Proof.
  unfold startswith. rewrite !bool_decide_eq_true. intros Ha Hb.
  destruct (decide (length (chars a) ≤ length (chars b))%nat).
  - left. rewrite <- Hb, take_take, Nat.min_l by done. exact Ha.
  - right. rewrite <- Ha, take_take, Nat.min_l by lia. exact Hb.
Qed.

(** No signature is a prefix of another one, so the order in which they are
    tried does not matter. *)
Lemma signatures_prefix_free :
  Forall (λ '(s, _), Forall (λ '(s', _), startswith s s' = true → s = s') signatures) signatures.
Proof.
  assert (forallb (λ p, forallb (λ q, negb (startswith p.1 q.1) || bool_decide (p.1 = q.1))
    signatures) signatures = true) as H by (vm_compute; reflexivity).
  rewrite forallb_forall in H. apply Forall_forall. intros [s t] Hs. apply Forall_forall.
  intros [s' t'] Hs' Hp. specialize (H (s, t) ltac:(by apply list_elem_of_In)).
  rewrite forallb_forall in H. specialize (H (s', t') ltac:(by apply list_elem_of_In)).
  simpl in H. rewrite Hp in H. by apply bool_decide_eq_true in H.
Qed.

Lemma signatures_functional s t t' : (s, t) ∈ signatures → (s, t') ∈ signatures → t = t'.
Proof.
  intros H H'. apply dget_elem in H; [|apply (bool_decide_unpack _); vm_compute; exact I].
  apply dget_elem in H'; [|apply (bool_decide_unpack _); vm_compute; exact I]. congruence.
Qed.

Lemma detect_spec data t :
  detect data = Some t ↔ ∃ s, (s, t) ∈ signatures ∧ startswith s data = true.
Proof.
  split; [apply detect_in_Some|]. intros (s & Hin & Hs). unfold detect.
  destruct (detect_in signatures data) as [t'|] eqn:E.
  - apply detect_in_Some in E as (s' & Hin' & Hs'). f_equal.
    pose proof signatures_prefix_free as Hf. rewrite Forall_forall in Hf.
    destruct (startswith_two s s' data Hs Hs') as [H|H].
    + specialize (Hf _ Hin). rewrite Forall_forall in Hf. specialize (Hf _ Hin' H). subst.
      by eapply signatures_functional.
    + specialize (Hf _ Hin'). rewrite Forall_forall in Hf. specialize (Hf _ Hin H). subst.
      by eapply signatures_functional.
  - apply detect_in_None in E. rewrite Forall_forall in E. specialize (E _ Hin). simpl in E. congruence.
Qed.

(** What the validator accepts.  It returns a type exactly when the data
    have the declared size, start with a signature of the declared type, carry
    the [WEBP] tag if that type is WebP, and mention no [/Encrypt] in their
    first 2 MiB if it is PDF; the type it returns is the declared one.  (The
    signatures are prefix free, so their order plays no part.)  Every refusal
    is one of the five business errors. *)
Theorem validate_spec upload data :
  (∀ r, validate upload data = inr r ↔
     detected_content_type r = Upload.content_type upload ∧
     bytes_len data = Upload.size_bytes upload ∧
     (∃ s, (s, Upload.content_type upload) ∈ signatures ∧ startswith s data = true) ∧
     (Upload.content_type upload = "image/webp" → slice 8 12 data = "WEBP") ∧
     (Upload.content_type upload = "application/pdf" → contains "/Encrypt" (pdf_head data) = false)) ∧
  (∀ e, validate upload data = inl e → exc_cls e = BusinessError).
Proof.
  setoid_rewrite <- detect_spec. unfold validate. split.
  2:{ intros e. repeat (case_match; try (intros; simplify_eq; done)). }
  intros [dt]. cbn [detected_content_type].
  destruct (decide (bytes_len data = Upload.size_bytes upload)) as [Hl|Hl];
    [rewrite (bool_decide_eq_true_2 _ Hl)|rewrite (bool_decide_eq_false_2 _ Hl); simpl; naive_solver].
  cbv beta iota delta [negb]. destruct (detect data) as [t|]; [|naive_solver].
  destruct (decide (t = Upload.content_type upload)) as [->|Ht].
  2:{ rewrite (bool_decide_eq_false_2 _ Ht). split; [|naive_solver].
    intros H. destruct (bool_decide (t = _) && _); discriminate H. }
  rewrite (bool_decide_eq_true_2 (Upload.content_type upload = Upload.content_type upload)) by done.
  destruct (decide (Upload.content_type upload = "image/webp")) as [Ew|Ew].
  - rewrite (bool_decide_eq_true_2 _ Ew).
    rewrite (bool_decide_eq_false_2 (Upload.content_type upload = "application/pdf")) by (by rewrite Ew).
    destruct (decide (slice 8 12 data = "WEBP")) as [Es|Es];
      [rewrite (bool_decide_eq_true_2 _ Es) | rewrite (bool_decide_eq_false_2 _ Es)]; simpl;
      [|naive_solver].
    split; [intros [= <-]; split_and!; try done; congruence | intros [-> _]; done].
  - rewrite (bool_decide_eq_false_2 _ Ew). cbn [andb].
    destruct (decide (Upload.content_type upload = "application/pdf")) as [Ep|Ep];
      [rewrite (bool_decide_eq_true_2 _ Ep) | rewrite (bool_decide_eq_false_2 _ Ep)]; cbn [andb].
    + destruct (contains _ _); [naive_solver|].
      split; [intros [= <-]; by split_and! | intros [-> _]; done].
    + split; [intros [= <-]; by split_and! | intros [-> _]; done].
Qed.
