(* ===== verification/Messaging.v ===== *)
(** * Work orders: the outbox dispatcher and the Kafka message

    Models [infrastructure/messaging.py].  The Kafka client is a parameter
    ([KafkaProducer], the protocol the file declares).  Parsing follows Python's
    [int] and [uuid.UUID] on ASCII texts, including signs, surrounding white
    space, underscores, the [0x] prefix, braces and the [urn:uuid:] prefix. *)

From Stdlib Require Import Ascii.
From S2P Require Import Prelude PyData PyText PyValue Json JsonFacts Status Progress Domain Ports.

#[local] Open Scope Z_scope.

(** ** [int(x)] *)

(** Digits with single underscores between them; [prev]: a digit was just read. *)
Fixpoint digits_value (base : N) (digit : ascii → option N) (l : list ascii) (acc : N)
    (prev : bool) : option N :=
  match l with
  | [] => if prev then Some acc else None
  | c :: l =>
      if decide (c = "_"%char) then (if prev then digits_value base digit l acc false else None)
      else match digit c with
           | Some d => digits_value base digit l (acc * base + d)%N true
           | None => None
           end
  end.

Definition dec_digit (c : ascii) : option N :=
  if is_digit c then Some (code c - 48)%N else None.

(** The [0x] prefix, with the underscore that may follow it. *)
Definition drop_hex_prefix (l : list ascii) : list ascii :=
  match l with
  | z :: x :: r =>
      if decide (z = "0"%char ∧ (x = "x"%char ∨ x = "X"%char)) then
        match r with c :: r' => if decide (c = "_"%char) then r' else r | [] => [] end
      else l
  | _ => l
  end.

Definition split_sign (l : list ascii) : bool * list ascii :=
  match l with
  | c :: r => if decide (c = "-"%char) then (true, r)
              else if decide (c = "+"%char) then (false, r) else (false, l)
  | [] => (false, [])
  end.

Definition signed (neg : bool) (n : N) : Z := if neg then - Z.of_N n else Z.of_N n.

(** [int(s)] and [int(s, 16)]; the former refuses more than 4300 digits. *)
Definition int_base10 (s : string) : exc + Z :=
  let '(neg, l) := split_sign (chars (strip s)) in
  if decide (4300 < length (filter (λ c, is_digit c = true) l))%nat
  then inl (mk_exc ValueError "Exceeds the limit for integer string conversion")
  else match digits_value 10 dec_digit l 0 false with
       | Some n => inr (signed neg n)
       | None => inl (mk_exc ValueError "invalid literal for int() with base 10")
       end.

Definition int_base16 (s : string) : exc + Z :=
  let '(neg, l) := split_sign (chars (strip s)) in
  match digits_value 16 hex_value (drop_hex_prefix l) 0 false with
  | Some n => inr (signed neg n)
  | None => inl (mk_exc ValueError "invalid literal for int() with base 16")
  end.

(** The decimal parts of a float literal: its digits without the point, and the
    exponent of ten. *)
Definition float_parts (lit : string) : bool * N * Z :=
  let '(neg, l) := split_sign (chars lit) in
  let '(ip, r) := span_digits l in
  let '(fr, r) := match r with
                  | c :: r' => if decide (c = "."%char) then span_digits r' else ([], r)
                  | [] => ([], []) end in
  let e := match r with
           | c :: r' => let '(eneg, ds) := split_sign r' in signed eneg (undec ds)
           | [] => 0 end in
  (neg, undec (ip ++ fr), e - Z.of_nat (length fr)).

(** [int(x)] of the float nearest to the literal, [None] for an infinity: round
    to 53 bits, then drop the fraction. *)
Definition float_trunc (lit : string) : option Z :=
  let '(neg, m, e) := float_parts lit in
  if decide (m = 0%N) then Some 0 else
  let p := Z.of_N m * 10 ^ Z.max 0 e in
  let q := 10 ^ Z.max 0 (- e) in
  let scaled k := (p * 2 ^ Z.max 0 (- k), q * 2 ^ Z.max 0 k) in
  let k0 := Z.log2 p - Z.log2 q - 52 in
  let k := let '(a, b) := scaled k0 in if decide (a < 2 ^ 52 * b) then k0 - 1 else k0 in
  let n := let '(a, b) := scaled k in div_half_even a b in
  let v := n * 2 ^ Z.max 0 k / 2 ^ Z.max 0 (- k) in
  if decide (2 ^ 1024 ≤ v) then None else Some (if neg then - v else v).

Example float_trunc_ex :
  map float_trunc ["2.0"; "-2.9"; "0.99999999999999999999"; "1e3"; "1e23"; "2.5e-07"; "1e400"] =
  [Some 2; Some (-2); Some 1; Some 1000; Some 99999999999999991611392; Some 0; None].
Proof. vm_compute. reflexivity. Qed.

(** [int(v)] of a JSON value *)
Definition py_int (v : json) : exc + Z :=
  match v with
  | JInt n => inr n
  | JBool b => inr (int_of_bool b)
  | JFloat lit =>
      match float_trunc lit with
      | Some n => inr n
      | None => inl (mk_exc (Foreign "OverflowError") "cannot convert float infinity to integer")
      end
  | JStr s => int_base10 s
  | JNull | JList _ | JObj _ => inl (mk_exc TypeError
      "int() argument must be a string, a bytes-like object or a real number")
  end.

(** ** [uuid.UUID(s)] *)

(** [s.replace(p, "")]; [fuel] bounds the length of the text. *)
Fixpoint remove_all (fuel : nat) (p s : list ascii) : list ascii :=
  match fuel, s with
  | S f, c :: s' =>
      if decide (take (length p) s = p) then remove_all f p (drop (length p) s)
      else c :: remove_all f p s'
  | _, _ => []
  end.
Definition remove (p : string) (s : list ascii) : list ascii := remove_all (length s) (chars p) s.

Definition is_brace (c : ascii) : bool := bool_decide (c = "{"%char ∨ c = "}"%char).
Fixpoint lstrip_braces (l : list ascii) : list ascii :=
  match l with c :: l' => if is_brace c then lstrip_braces l' else l | [] => [] end.
(** [s.strip("{}")] *)
Definition strip_braces (l : list ascii) : list ascii :=
  reverse (lstrip_braces (reverse (lstrip_braces l))).

Definition parse_uuid (s : string) : exc + UUID :=
  let h := filter (λ c, c ≠ "-"%char) (strip_braces (remove "uuid:" (remove "urn:" (chars s)))) in
  if decide (count_points h = 32%nat) then
    n ← int_base16 (of_chars h);
    if decide (0 ≤ n < 2 ^ 128) then inr (Z.to_N n)
    else inl (mk_exc ValueError "int is out of range (need a 128-bit value)")
  else inl (mk_exc ValueError "badly formed hexadecimal UUID string").

Example parse_uuid_ex :
  (parse_uuid "{urn:uuid:0190A1B2-c3d4-7e5f-8091-a2b3c4d5e6f7}",
   parse_uuid "0190a1b2c3d47e5f8091a2b3c4d5e6f7") =
  (inr 0x0190a1b2c3d47e5f8091a2b3c4d5e6f7%N, inr 0x0190a1b2c3d47e5f8091a2b3c4d5e6f7%N).
Proof. vm_compute. reflexivity. Qed.

(** ** The message *)

(** [payload[key]] *)
Definition item (payload : dict) (key : string) : exc + json :=
  match dget payload key with Some v => inr v | None => inl (mk_exc KeyError key) end.

(** [JobWorkMessage(job_id=UUID(str(payload["job_id"])), ...)] *)
Definition message_of_payload (payload : dict) : exc + JobWorkMessage :=
  job_id ← item payload "job_id";
  job_id ← parse_uuid (py_str job_id);
  attempt ← item payload "attempt";
  attempt ← py_int attempt;
  request_id ← item payload "request_id";
  schema_version ← py_int (default (JInt 1) (dget payload "schema_version"));
  mret (MkJobWorkMessage job_id attempt (py_str request_id) schema_version).

Definition decode_job_message (value : string) : exc + JobWorkMessage :=
  match loads value with
  | None => inl (mk_exc JSONDecodeError "Expecting value")
  | Some (JObj payload) => message_of_payload payload
  | Some _ => inl (mk_exc ValueError "job message must be an object")
  end.

Definition payload_of (message : JobWorkMessage) : dict :=
  [("schema_version", JInt (msg_schema_version message));
   ("job_id", JStr (uuid_str (msg_job_id message)));
   ("attempt", JInt (msg_attempt message));
   ("request_id", JStr (msg_request_id message))].

Definition encode_job_message (message : JobWorkMessage) : string :=
  dumps true (JObj (payload_of message)).

(** [KafkaProducer.send_and_wait(topic, value, key=key)] *)
Class KafkaProducer (W : Type) := send_and_wait : string → string → string → M exc W ().

(** [KafkaJobPublisher.publish] *)
Definition kafka_publish {W} `{!KafkaProducer W} (topic : string) (message : JobWorkMessage) :
    M exc W () :=
  let payload := encode_job_message message in
  try_except (send_and_wait topic payload (uuid_str (msg_job_id message)))
    (λ e, if isinstance e DependencyError then None
          else if isinstance e Exception_
          then Some (raise (mk_exc QueueUnavailableError "Kafka publish failed"))
          else None).

(** ** [OutboxDispatcher] *)

Section dispatcher.
Context {W : Type} `{!OutboxRepository W, !QueuePublisher W}.

Definition outbox_call {A} (message : string) (operation : M exc W A) : M exc W A :=
  try_except operation (λ e,
    if isinstance e DependencyError then None
    else if isinstance e Exception_ then Some (raise (mk_exc DatabaseUnavailableError message))
    else None).

(** The body of the loop; the result is the number of published events. *)
Definition dispatch_event (event : OutboxEvent) : M exc W Z :=
  if negb (bool_decide (outbox_event_type event = "ocr.job.requested.v1")) then mret 0
  else
    message ← lift (message_of_payload (outbox_payload event));
    _ ← publisher_publish message;
    _ ← outbox_call "outbox update failed" (outbox_mark_published (outbox_id event));
    mret 1.

Fixpoint dispatch_events (events : list OutboxEvent) (published : Z) : M exc W Z :=
  match events with
  | [] => mret published
  | event :: events =>
      n ← dispatch_event event;
      dispatch_events events (published + n)
  end.

Definition dispatch_once (limit : Z) : M exc W Z :=
  events ← outbox_call "outbox read failed" (outbox_pending limit);
  dispatch_events events 0.
End dispatcher.
