(* ===== verification/MessagingFacts.v ===== *)
(** * Work orders: round trips and delivery

    - a message the service puts in the outbox is the one a worker decodes
      ([message_roundtrip], [requested_event_message]);
    - a dispatch publishes a prefix of the pending work orders, oldest first, and
      marks exactly what it has published ([dispatch_spec]). *)

From Stdlib Require Import Ascii Sorted.
From S2P Require Import Prelude PyData PyText PyValue Json JsonFacts Status Domain Ports Memory.
From S2P Require Import Messaging.

#[local] Open Scope Z_scope.

(** ** [UUID(str(u)) == u] *)

Lemma take_eq_in {A} n (p s : list A) x : take n s = p → x ∈ p → x ∈ s.
Proof. intros <- H. by apply (elem_of_submseteq _ _ _ H), submseteq_take. Qed.

Lemma remove_id p s c : c ∈ chars p → (c ∉ s) → remove p s = s.
Proof.
  intros Hp Hs. unfold remove. induction s as [|d s IH]; simpl; [done|].
  rewrite decide_False.
  - f_equal. apply IH. set_solver.
  - intros H. apply Hs. eapply take_eq_in; [exact H | done].
Qed.

Definition is_lower_hex (c : ascii) : bool := is_digit c || ((97 <=? code c) && (code c <=? 102))%N.

Lemma hex_digit_lower n : (n < 16)%N → is_lower_hex (hex_digit n) = true ∧ hex_value (hex_digit n) = Some n.
Proof.
  intros Hn. assert (n ∈ N.of_nat <$> seq 0 16) as Hin.
  { apply list_elem_of_fmap. exists (N.to_nat n). rewrite N2Nat.id. split; [done|].
    apply elem_of_seq. lia. }
  clear Hn. revert n Hin. apply Forall_forall. repeat constructor.
Qed.

Lemma hex_lower w n : Forall (λ c, is_lower_hex c = true) (hex w n).
Proof.
  revert n. induction w as [|w IH]; intros n; simpl; [constructor|].
  apply Forall_app. split; [done|]. constructor; [|done]. apply hex_digit_lower. by apply N.mod_lt.
Qed.

Lemma lower_hex_not c : is_lower_hex c = true →
  c ≠ "-"%char ∧ c ≠ ":"%char ∧ c ≠ "_"%char ∧ c ≠ "x"%char ∧ c ≠ "X"%char ∧ c ≠ "+"%char ∧
  is_brace c = false ∧ is_space c = false ∧ is_cont c = false.
Proof.
  intros H. split_and!; try (by intros ->); apply not_true_is_false; revert H;
    unfold is_lower_hex, is_digit, is_brace, is_space, is_cont; cbv zeta.
  - by intros H [-> | ->]%bool_decide_eq_true.
  - rewrite !orb_true_iff, !andb_true_iff, !N.leb_le. lia.
  - rewrite !orb_true_iff, !andb_true_iff, !N.leb_le, N.ltb_lt. lia.
Qed.

(** The characters of a UUID text: hexadecimal digits and hyphens. *)
Lemma uuid_chars u c : c ∈ chars (uuid_str u) → is_lower_hex c = true ∨ c = "-"%char.
Proof.
  unfold uuid_str. rewrite chars_of_chars. pose proof (hex_lower 32 u) as H. rewrite Forall_forall in H.
  assert (∀ n m, c ∈ take n (drop m (hex 32 u)) → is_lower_hex c = true) as Ht.
  { intros n m Hc. apply H. eapply elem_of_submseteq; [exact Hc|].
    etransitivity; [apply submseteq_take | apply submseteq_drop]. }
  assert (∀ m, c ∈ drop m (hex 32 u) → is_lower_hex c = true) as Hd.
  { intros m Hc. apply H. eapply elem_of_submseteq; [exact Hc | apply submseteq_drop]. }
  rewrite !elem_of_app, !list_elem_of_singleton. pose proof (Ht 8%nat 0%nat) as H0. rewrite drop_0 in H0.
  intros [?|[?|[?|[?|[?|[?|[?|[?|?]]]]]]]]; eauto.
Qed.

Lemma filter_hyphen l : Forall (λ c, is_lower_hex c = true) l → filter (λ c, c ≠ "-"%char) l = l.
Proof.
  induction 1 as [|c l Hc Hl IH]; [done|]. rewrite filter_cons, decide_True, IH; [done|].
  by apply lower_hex_not.
Qed.

Lemma uuid_digits u : filter (λ c, c ≠ "-"%char) (chars (uuid_str u)) = hex 32 u.
Proof.
  unfold uuid_str. rewrite chars_of_chars.
  pose proof (hex_lower 32 u) as H. revert H. generalize (hex 32 u). intros h H.
  rewrite !filter_app. change (filter (λ c, c ≠ "-"%char) ["-"%char]) with (@nil ascii).
  cbn [app].
  assert (∀ n m, filter (λ c, c ≠ "-"%char) (take n (drop m h)) = take n (drop m h)) as Hf
    by (intros; apply filter_hyphen; by apply Forall_take, Forall_drop).
  rewrite (Hf 8%nat 0%nat : filter _ (take 8 h) = take 8 h), !Hf, (filter_hyphen (drop 20 h))
    by by apply Forall_drop.
  assert (∀ n, drop (n + 4) h = drop 4 (drop n h)) as Hd by (intros; by rewrite drop_drop).
  rewrite (Hd 16%nat : drop 20 h = _), take_drop, (Hd 12%nat : drop 16 h = _), take_drop,
    (Hd 8%nat : drop 12 h = _), take_drop. apply take_drop.
Qed.

Lemma lstrip_braces_id l : Forall (λ c, is_brace c = false) l → lstrip_braces l = l.
Proof. destruct 1 as [|c l Hc]; simpl; [done | by rewrite Hc]. Qed.

Lemma strip_braces_id l : Forall (λ c, is_brace c = false) l → strip_braces l = l.
Proof.
  intros H. unfold strip_braces. rewrite (lstrip_braces_id l) by done.
  rewrite lstrip_braces_id; [apply reverse_involutive | by apply Forall_reverse].
Qed.

Lemma lstrip_chars_id l : Forall (λ c, is_space c = false) l → lstrip_chars l = l.
Proof. destruct 1 as [|c l Hc]; simpl; [done | by rewrite Hc]. Qed.

Lemma strip_id s : Forall (λ c, is_space c = false) (chars s) → strip s = s.
Proof.
  intros H. unfold strip. rewrite (lstrip_chars_id (chars s)) by done.
  rewrite lstrip_chars_id by by apply Forall_reverse.
  by rewrite reverse_involutive, of_chars_chars.
Qed.

Lemma count_points_plain l : Forall (λ c, is_cont c = false) l → count_points l = length l.
Proof. induction 1 as [|c l Hc Hl IH]; simpl; [done | by rewrite Hc, IH]. Qed.

Lemma digits_value_app base digit l d acc prev c n :
  c ≠ "_"%char → digit c = Some d → digits_value base digit l acc prev = Some n ∨ (l = [] ∧ acc = n) →
  Forall (λ c, c ≠ "_"%char) l →
  digits_value base digit (l ++ [c]) acc prev = Some (n * base + d)%N.
Proof.
  intros Hc Hd Hl Hn. revert acc prev Hl. induction Hn as [|x l Hx Hl' IH]; intros acc prev Hl; simpl.
  - rewrite decide_False, Hd by done. destruct Hl as [Hl|[_ ->]]; [|done].
    simpl in Hl. by destruct prev; simplify_eq.
  - rewrite decide_False by done. destruct Hl as [Hl|[? _]]; [|done].
    simpl in Hl. rewrite decide_False in Hl by done. destruct (digit x); [|done]. apply IH. by left.
Qed.

Lemma digits_value_hex w n : (0 < w)%nat → (n < 16 ^ N.of_nat w)%N →
  digits_value 16 hex_value (hex w n) 0 false = Some n.
Proof.
  revert n. induction w as [|w IH]; intros n Hw Hn; [lia|]. simpl.
  rewrite (N.div_mod n 16) at 3 by done. rewrite (N.mul_comm 16).
  assert (n mod 16 < 16)%N as Hm by by apply N.mod_lt.
  destruct (hex_digit_lower _ Hm) as [Hl Hv].
  apply digits_value_app; [by apply lower_hex_not | done | |].
  - rewrite Nat2N.inj_succ, N.pow_succ_r' in Hn. destruct w as [|w].
    + right. split; [done|]. rewrite N.div_small; [done|]. simpl in Hn. lia.
    + left. apply IH; [lia|]. apply N.Div0.div_lt_upper_bound. lia.
  - eapply Forall_impl; [apply hex_lower|]. intros c Hc. by apply lower_hex_not.
Qed.

Lemma int_base16_hex w n : (1 < w)%nat → (n < 16 ^ N.of_nat w)%N →
  int_base16 (of_chars (hex w n)) = inr (Z.of_N n).
Proof.
  intros Hw Hn. unfold int_base16. pose proof (hex_lower w n) as Hlow.
  rewrite strip_id, chars_of_chars.
  2:{ rewrite chars_of_chars. eapply Forall_impl; [exact Hlow|]. intros c Hc. by apply lower_hex_not. }
  pose proof (digits_value_hex w n ltac:(lia) Hn) as Hd. pose proof (hex_length w n) as Hlen.
  destruct (hex w n) as [|a [|b l]] eqn:E; simpl in Hlen; [lia..|].
  apply Forall_cons in Hlow as [Ha Hlow]. apply Forall_cons in Hlow as [Hb _].
  apply lower_hex_not in Ha as (Ha1 & _ & _ & _ & _ & Ha2 & _).
  apply lower_hex_not in Hb as (_ & _ & _ & Hb1 & Hb2 & _).
  unfold split_sign. rewrite !decide_False by done. unfold drop_hex_prefix.
  rewrite decide_False by naive_solver. by rewrite Hd.
Qed.

Lemma parse_uuid_str u : (u < 2 ^ 128)%N → parse_uuid (uuid_str u) = inr u.
Proof.
  intros Hu. unfold parse_uuid.
  assert (":"%char ∉ chars (uuid_str u)) as Hc.
  { intros [H|H]%uuid_chars; [by apply lower_hex_not in H as (_&?&_) | done]. }
  assert (":"%char ∈ chars "urn:" ∧ ":"%char ∈ chars "uuid:") as [H1 H2]
    by (split; apply (bool_decide_unpack _); vm_compute; exact I).
  rewrite (remove_id _ _ _ H1 Hc), (remove_id _ _ _ H2 Hc).
  rewrite strip_braces_id.
  2:{ apply Forall_forall. intros c [H| ->]%uuid_chars; [by apply lower_hex_not | done]. }
  rewrite uuid_digits. rewrite count_points_plain, hex_length, decide_True by
    (done || (eapply Forall_impl; [apply hex_lower|]; intros c Hc'; by apply lower_hex_not)).
  rewrite int_base16_hex by (exact Hu || lia). simpl.
  rewrite decide_True by lia. by rewrite N2Z.id.
Qed.

(** ** The message round trip *)

Definition ascii_text (s : string) : Prop := Forall (λ c, (code c < 127)%N) (chars s).

Lemma escape_ascii_plain l :
  Forall (λ c, (code c < 127)%N) l → escape_ascii 0 0 l = l ≫= escape_char.
Proof.
  induction 1 as [|c l Hc Hl IH]; [done|]. simpl.
  rewrite (proj2 (N.ltb_lt _ _) Hc), IH. done.
Qed.

Lemma write_str_ascii s : ascii_text s → write_str true s = write_str false s.
Proof. intros H. unfold write_str. by rewrite escape_ascii_plain. Qed.

Lemma uuid_ascii u : ascii_text (uuid_str u).
Proof.
  apply Forall_forall. intros c [H| ->]%uuid_chars; [|done].
  revert H. unfold is_lower_hex, is_digit. rewrite orb_true_iff, !andb_true_iff, !N.leb_le. lia.
Qed.

Lemma encode_plain message :
  ascii_text (msg_request_id message) →
  encode_job_message message = dumps false (JObj (payload_of message)).
Proof.
  intros H. unfold encode_job_message, dumps, payload_of. f_equal.
  cbn [write map commas].
  rewrite (write_str_ascii (uuid_str _)) by apply uuid_ascii.
  rewrite (write_str_ascii (msg_request_id _)) by done. reflexivity.
Qed.

Lemma message_of_payload_of message :
  (msg_job_id message < 2 ^ 128)%N → message_of_payload (payload_of message) = inr message.
Proof.
  intros H. unfold message_of_payload.
  apply result_bind_inr. eexists. split; [reflexivity|]. cbn [py_str].
  apply result_bind_inr. eexists. split; [by apply parse_uuid_str|].
  do 4 (apply result_bind_inr; eexists; split; [reflexivity|]).
  by destruct message.
Qed.

Lemma payload_wf message : wf_json (JObj (payload_of message)) = true.
Proof. reflexivity. Qed.

(** C16: the message round trip.  What [KafkaJobPublisher] encodes for a message
    with a 128-bit job id and a request id of printable ASCII text, the worker
    decodes to the same message. *)
Theorem message_roundtrip message :
  (msg_job_id message < 2 ^ 128)%N → ascii_text (msg_request_id message) →
  decode_job_message (encode_job_message message) = inr message.
Proof.
  intros Hu Hr. unfold decode_job_message.
  rewrite encode_plain, loads_dumps_wf by (done || apply payload_wf).
  by apply message_of_payload_of.
Qed.

Lemma message_roundtrip_witness :
  decode_job_message (encode_job_message (MkJobWorkMessage 0x0190a1b2c3d47e5f8091a2b3c4d5e6f7 3 "req-1" 1))
  = inr (MkJobWorkMessage 0x0190a1b2c3d47e5f8091a2b3c4d5e6f7 3 "req-1" 1).
Proof.
  apply message_roundtrip; [reflexivity|]. apply (bool_decide_unpack _). vm_compute. exact I.
Defined.

(** ** The outbox *)

Abbreviation unpublished := (λ e : OutboxEvent, outbox_published_at e = None).

(** All pending events, oldest first. *)
Definition backlog (w : World) : list OutboxEvent :=
  py_sorted outbox_created_at false (filter unpublished (dvalues (w_outbox w))).

(** Every event is stored once and under its own id. *)
Record wf_outbox (w : World) : Prop := {
  wfo_keys : NoDup (w_outbox w).*1;
  wfo_ids : Forall (λ kv, kv.1 = outbox_id kv.2) (w_outbox w)
}.

(** Filtering commutes with sorting. *)
Lemma sort_insert_filter_out {A} (key : A → Z) (P : A → Prop) `{!∀ x, Decision (P x)} x l :
  ¬ P x → filter P (sort_insert key false x l) = filter P l.
Proof.
  intros Hx. induction l as [|y l IH]; simpl.
  - by rewrite filter_cons, decide_False.
  - case_match; [by rewrite filter_cons, decide_False|]. rewrite !filter_cons, IH. done.
Qed.

Lemma sort_insert_least {A} (key : A → Z) x l :
  Forall (λ y, key x ≤ key y) l → sort_insert key false x l = x :: l.
Proof.
  destruct 1 as [|y l Hy Hl]; simpl; [done|]. unfold before. by rewrite (proj2 (Z.leb_le _ _) Hy).
Qed.

Lemma sort_insert_filter_in {A} (key : A → Z) (P : A → Prop) `{!∀ x, Decision (P x)} x l :
  P x → StronglySorted (λ a b, key a ≤ key b) l →
  filter P (sort_insert key false x l) = sort_insert key false x (filter P l).
Proof.
  intros Hx. induction 1 as [|y l Hl IH Hy]; simpl.
  - by rewrite filter_cons, decide_True.
  - unfold before. destruct (Z.leb_spec (key x) (key y)).
    + rewrite filter_cons, decide_True by done. rewrite sort_insert_least; [done|].
      apply Forall_forall. intros z [_ Hz]%list_elem_of_filter.
      apply elem_of_cons in Hz as [->|Hz]; [done|].
      rewrite Forall_forall in Hy. specialize (Hy z Hz). lia.
    + rewrite !filter_cons, IH. case_decide; [|done]. simpl. unfold before.
      by rewrite (proj2 (Z.leb_gt _ _)) by done.
Qed.

Lemma py_sorted_strongly {A} (key : A → Z) l :
  StronglySorted (λ a b, key a ≤ key b) (py_sorted key false l).
Proof.
  apply Sorted_StronglySorted; [intros a b c; lia|].
  eapply Sorted_ind; [constructor | | apply (py_sorted_sorted key false)].
  intros a k _ ? Hh. constructor; [done|]. destruct Hh as [|b k Hb]; constructor.
  simpl in Hb. lia.
Qed.

Lemma py_sorted_filter {A} (key : A → Z) (P : A → Prop) `{!∀ x, Decision (P x)} l :
  py_sorted key false (filter P l) = filter P (py_sorted key false l).
Proof.
  induction l as [|x l IH]; [done|]. rewrite filter_cons. simpl py_sorted at 2.
  case_decide; simpl; rewrite ?IH.
  - symmetry. apply sort_insert_filter_in; [done | apply py_sorted_strongly].
  - symmetry. by apply sort_insert_filter_out.
Qed.

Lemma wf_outbox_ids w : wf_outbox w → NoDup (outbox_id <$> dvalues (w_outbox w)).
Proof.
  intros [Hk Hi]. replace (outbox_id <$> dvalues (w_outbox w)) with (w_outbox w).*1; [done|].
  unfold dvalues. rewrite <- list_fmap_compose. apply list_fmap_ext.
  intros i [k e] Hx. rewrite Forall_lookup in Hi. exact (Hi i _ Hx).
Qed.

Lemma backlog_ids w : wf_outbox w → NoDup (outbox_id <$> backlog w).
Proof.
  intros Hw. unfold backlog. rewrite (py_sorted_perm outbox_created_at false).
  pose proof (wf_outbox_ids w Hw) as H. revert H. generalize (dvalues (w_outbox w)). intros l.
  induction l as [|e l IH]; [done|]. csimpl. intros [Hn Hl]%NoDup_cons. rewrite filter_cons.
  case_decide; csimpl; [|auto]. apply NoDup_cons. split; [|auto].
  intros (x & Hx & [_ Hin]%list_elem_of_filter)%list_elem_of_fmap. apply Hn.
  rewrite Hx. by apply list_elem_of_fmap_2.
Qed.

Lemma filter_other_ids id (l : list OutboxEvent) :
  (id ∉ outbox_id <$> l) → filter (λ x, outbox_id x ≠ id) l = l.
Proof.
  induction l as [|x l IH]; [done|]. csimpl. intros H. rewrite filter_cons, decide_True, IH; [done|..];
    set_solver.
Qed.

(** Marking an event takes it, and only it, out of the unpublished ones. *)
Lemma dset_unpublished items id e now :
  NoDup items.*1 → Forall (λ kv, kv.1 = outbox_id kv.2) items → dget items id = Some e →
  filter unpublished (dvalues (dset items id (InMemoryOutboxRepository.set_published now e))) =
  filter (λ x, outbox_id x ≠ id) (filter unpublished (dvalues items)).
Proof.
  intros Hk Hi. induction Hi as [|[k x] items Hx Hi IH]; [done|]. csimpl in *.
  apply NoDup_cons in Hk as [Hn Hk]. subst k. case_decide as E.
  - intros [= <-]. csimpl. rewrite !filter_cons. rewrite (decide_False (P := _ = None)) by done.
    assert (id ∉ outbox_id <$> filter unpublished (dvalues items)) as Hnid.
    { intros (y & Hy & [_ Hin]%list_elem_of_filter)%list_elem_of_fmap. apply Hn.
      unfold dvalues in Hin. apply list_elem_of_fmap in Hin as ([k' y'] & -> & Hin).
      rewrite Forall_forall in Hi. pose proof (Hi _ Hin) as Hid. simpl in *. subst.
      apply list_elem_of_fmap. exists (outbox_id y', y'). split; [by simpl; congruence | done]. }
    case_decide; [rewrite filter_cons, decide_False by (intros ?; done)|];
      by rewrite filter_other_ids.
  - intros He. csimpl. rewrite !filter_cons, IH by done. case_decide; [|done].
    by rewrite filter_cons, decide_True.
Qed.

Lemma mark_run w e rest :
  wf_outbox w → backlog w = e :: rest →
  ∃ now, let w' := put_outbox (dset (w_outbox w) (outbox_id e)
                     (InMemoryOutboxRepository.set_published now e)) w in
    InMemoryOutboxRepository.mark_published (outbox_id e) w = (Ret (), w') ∧
    backlog w' = rest ∧ wf_outbox w'.
Proof.
  intros Hw Hb. pose proof Hw as [Hk Hi].
  assert (dget (w_outbox w) (outbox_id e) = Some e) as Hget.
  { assert (e ∈ backlog w) as Hin by (rewrite Hb; left). unfold backlog in Hin.
    rewrite (py_sorted_perm outbox_created_at false) in Hin.
    apply list_elem_of_filter in Hin as [_ Hin]. unfold dvalues in Hin.
    apply list_elem_of_fmap in Hin as ([k e'] & -> & Hin). rewrite Forall_forall in Hi.
    specialize (Hi _ Hin). simpl in *. subst. by apply dget_elem. }
  exists (w_clock w). simpl. split_and!.
  - unfold InMemoryOutboxRepository.mark_published. erewrite bind_run by done.
    erewrite bind_run by done. by rewrite Hget.
  - unfold backlog at 1. simpl. rewrite dset_unpublished, py_sorted_filter by done.
    fold (backlog w). rewrite Hb, filter_cons, decide_False by (intros ?; done).
    apply filter_other_ids. pose proof (backlog_ids w Hw) as Hn. rewrite Hb in Hn. csimpl in Hn.
    by apply NoDup_cons in Hn as [? _].
  - split; simpl; [by apply dset_NoDup|].
    revert Hget. clear -Hi. induction Hi as [|[k x] items Hx Hi IH]; simpl; [done|].
    case_decide; [intros [= ->]; subst; by constructor | intros; constructor; auto].
Qed.

(** [e] is a work order for [m]. *)
Definition order_for (e : OutboxEvent) (m : JobWorkMessage) : Prop :=
  outbox_event_type e = "ocr.job.requested.v1" ∧ message_of_payload (outbox_payload e) = inr m.

Section dispatch.
Context `{!QueuePublisher World}.

(** A publisher hands the message to the queue, or raises and does not. *)
Hypothesis Hpub : ∀ m w,
  publisher_publish m w = (Ret (), put_messages (w_messages w ++ [m]) w) ∨
  ∃ e, publisher_publish m w = (Exn e, w).

(** [n] of the orders [ms] went out and are marked. *)
Record sent (n : nat) (ms : list JobWorkMessage) (w w' : World) : Prop := {
  sent_messages : w_messages w' = w_messages w ++ take n ms;
  sent_backlog : backlog w' = drop n (backlog w);
  sent_jobs : w_jobs w' = w_jobs w;
  sent_uploads : w_uploads w' = w_uploads w;
  sent_objects : w_objects w' = w_objects w;
  sent_events : w_events w' = w_events w;
  sent_has_events : w_has_events w' = w_has_events w;
  sent_wf : wf_outbox w'
}.

Lemma dispatch_event_run e m w rest :
  wf_outbox w → backlog w = e :: rest → order_for e m →
  (∃ w', dispatch_event e w = (Ret 1, w') ∧ sent 1 [m] w w') ∨
  (∃ x, dispatch_event e w = (Exn x, w) ∧ publisher_publish m w = (Exn x, w)).
Proof.
  intros Hw Hb [Ht Hm]. unfold dispatch_event. rewrite bool_decide_eq_true_2 by done.
  cbn [negb]. cbv iota. rewrite Hm. destruct (Hpub m w) as [Hp|(x & Hx)].
  - left. set (w1 := put_messages _ w) in Hp.
    assert (wf_outbox w1) as Hw1 by (destruct Hw; by split).
    destruct (mark_run w1 e rest Hw1 Hb) as (now & Hmark & Hb' & Hw').
    set (w2 := put_outbox _ w1) in *. exists w2. split.
    + erewrite bind_run by done. cbv beta. erewrite bind_run by exact Hp.
      erewrite bind_run; [done|]. unfold outbox_call, try_except.
      by erewrite try_else_run by exact Hmark.
    + split; try done. by rewrite Hb', Hb.
  - right. exists x. split; [|exact Hx]. erewrite bind_run by done. cbv beta.
    by erewrite bind_run_exn by exact Hx.
Qed.

Lemma dispatch_events_run events ms w rest k :
  wf_outbox w → backlog w = events ++ rest → Forall2 order_for events ms →
  ∃ n r w', dispatch_events events k w = (r, w') ∧ sent n ms w w' ∧
    match r with
    | Ret j => n = length events ∧ j = k + Z.of_nat n
    | Exn x => (n < length events)%nat ∧ ∃ m w0, publisher_publish m w0 = (Exn x, w0)
    | NoFuel => False
    end.
Proof.
  intros Hw Hb Hms. revert w k Hw Hb.
  induction Hms as [|e m events ms Hm Hms IH]; intros w k Hw Hb; simpl.
  { exists 0%nat, (Ret k), w. split; [done|]. split; [|split; [done | lia]].
    split; try done. by rewrite app_nil_r. }
  destruct (dispatch_event_run e m w (events ++ rest) Hw Hb Hm) as [(w1 & Hrun & H1)|(x & Hrun & Hx)].
  - destruct (IH w1 (k + 1)) as (n & r & w' & Hrun' & H2 & Hr).
    { apply H1. } { by rewrite (sent_backlog _ _ _ _ H1), Hb. }
    exists (S n), r, w'. split; [by erewrite bind_run by exact Hrun|]. split.
    + destruct H1, H2. split; try congruence.
      * rewrite sent_messages1, sent_messages0, <- app_assoc. done.
      * rewrite sent_backlog1, sent_backlog0, drop_drop. done.
    + destruct r; [lia | split; [simpl; lia | apply Hr] | done].
  - exists 0%nat, (Exn x), w. split; [by erewrite bind_run_exn by exact Hrun|].
    split; [|split; [simpl; lia | by exists m, w]]. split; try done. by rewrite app_nil_r.
Qed.

(** A dispatch works on the oldest pending events. *)
Lemma dispatch_once_run limit w :
  0 ≤ limit → dispatch_once limit w = dispatch_events (take (Z.to_nat limit) (backlog w)) 0 w.
Proof.
  intros Hl. unfold dispatch_once. erewrite bind_run; [done|].
  unfold outbox_call, try_except. erewrite try_else_run; [done|]. simpl.
  unfold atomic, atomic_alone, InMemoryOutboxRepository.pending, gets.
  fold (backlog w). rewrite py_slice_nonneg by lia. by rewrite Z.sub_0_r.
Qed.

(** Delivery of the outbox.  When the pending events are work orders, one
    dispatch publishes a prefix of them in the order of their creation, at most
    [limit], and marks exactly the published ones: none is lost and none is
    published again by the next dispatch.  If every publication succeeds the
    prefix is as long as it can be and its length is the result; otherwise the
    error is that of a publication, and the failed order and the ones after it
    stay pending. *)
Lemma dispatch_spec limit ms w :
  0 ≤ limit → wf_outbox w → Forall2 order_for (backlog w) ms →
  ∃ n r w', dispatch_once limit w = (r, w') ∧ sent n ms w w' ∧
    match r with
    | Ret j => n = Nat.min (Z.to_nat limit) (length (backlog w)) ∧ j = Z.of_nat n
    | Exn x => (n < Nat.min (Z.to_nat limit) (length (backlog w)))%nat ∧
        ∃ m w0, publisher_publish m w0 = (Exn x, w0)
    | NoFuel => False
    end.
Proof.
  intros Hl Hw Hms. set (k := Z.to_nat limit).
  destruct (dispatch_events_run (take k (backlog w)) (take k ms) w (drop k (backlog w)) 0 Hw)
    as (n & r & w' & Hrun & Hs & Hr).
  { by rewrite take_drop. } { by apply Forall2_take. }
  exists n, r, w'. split; [by rewrite dispatch_once_run|].
  rewrite length_take in Hr. split.
  - destruct Hs. split; try done. rewrite sent_messages0. f_equal. rewrite take_take. f_equal.
    destruct r; lia || done.
  - destruct r; [|done..]. destruct Hr as [-> ->]. split; [done | lia].
Qed.
End dispatch.

(** Two work orders, and a queue that takes one message only. *)
Module SampleOutbox.

Definition order (id job : UUID) (at_time : Z) : OutboxEvent :=
  MkOutboxEvent job "ocr.job.requested.v1" (payload_of (MkJobWorkMessage job 1 "req" 1)) "req"
    id at_time None.

Definition world : World :=
  put_outbox [(1%N, order 1 7 20); (2%N, order 2 8 10)] empty_world.

Definition publisher : QueuePublisher World := λ m w,
  match w_messages w with
  | [] => (Ret (), put_messages [m] w)
  | _ => (Exn (mk_exc QueueUnavailableError "Kafka publish failed"), w)
  end.

End SampleOutbox.

Lemma dispatch_spec_witness :
  ∃ n r w', @dispatch_once World _ SampleOutbox.publisher 5 SampleOutbox.world = (r, w') ∧
    sent n [MkJobWorkMessage 8 1 "req" 1; MkJobWorkMessage 7 1 "req" 1] SampleOutbox.world w' ∧
    match r with
    | Ret j => n = Nat.min 5 (length (backlog SampleOutbox.world)) ∧ j = Z.of_nat n
    | Exn x => (n < Nat.min 5 (length (backlog SampleOutbox.world)))%nat ∧
        ∃ m w0, @publisher_publish World SampleOutbox.publisher m w0 = (Exn x, w0)
    | NoFuel => False
    end.
Proof.
  apply (@dispatch_spec SampleOutbox.publisher).
  - intros m w. unfold publisher_publish, SampleOutbox.publisher.
    destruct (w_messages w) as [|m' l] ; [by left | right; by eexists].
  - lia.
  - split; [apply (bool_decide_unpack _); vm_compute; exact I | repeat constructor].
  - repeat constructor.
Defined.

Example dispatch_ex :
  let '(r, w) := @dispatch_once World _ SampleOutbox.publisher 5 SampleOutbox.world in
  (match r with Exn e => Some (exc_cls e) | _ => None end,
   msg_job_id <$> w_messages w, outbox_id <$> backlog w) =
  (Some QueueUnavailableError, [8%N], [1%N]).
Proof. vm_compute. reflexivity. Qed.
