(* ===== verification/Services.v ===== *)
(** * The application service

    Models [contexts/ocr/application/services.py], class
    [OCRApplicationService], over the ports.  Each method is the whole use case
    behind one route: uploads, jobs, cancellation, retry, listings. *)

From Stdlib Require Import Ascii.
From S2P Require Import Prelude PyData PyText Json Status Domain Ports Sha256 Dto.

#[local] Open Scope Z_scope.

(** [PurePath(filename).name] on POSIX *)
Definition path_name (filename : string) : string :=
  default "" (last (filter (λ p, p ≠ "" ∧ p ≠ ".")
    (split_n "/"%char (String.length filename) filename))).

Example path_name_ex :
  map path_name ["a.pdf"; "x/y/a.pdf"; "/tmp/a.pdf/"; "a/."; "../.."; "/"] =
  ["a.pdf"; "a.pdf"; "a.pdf"; "a"; ".."; ""].
Proof. vm_compute. reflexivity. Qed.

(** ** The business errors the service raises *)

Definition upload_not_found : exc :=
  business_error UPLOAD_NOT_FOUND "上传会话不存在" "upload_not_found" None.
Definition upload_unauthorized : exc :=
  business_error USER_UNAUTHORIZED "无权访问该上传会话" "user_unauthorized" None.
Definition job_not_found : exc := business_error JOB_NOT_FOUND "任务不存在" "job_not_found" None.
Definition job_unauthorized : exc :=
  business_error USER_UNAUTHORIZED "无权访问该任务" "user_unauthorized" None.
Definition job_not_cancellable : exc :=
  business_error JOB_NOT_CANCELLABLE "当前任务状态不允许取消" "job_not_cancellable" None.
Definition job_not_retryable : exc :=
  business_error JOB_NOT_RETRYABLE "仅失败或已取消任务可以重试" "job_not_retryable" None.
Definition idempotency_conflict : exc :=
  business_error COMMON_IDEMPOTENCY_CONFLICT "幂等键已用于其他请求" "idempotency_conflict" None.
Definition upload_not_completed : exc :=
  business_error UPLOAD_NOT_COMPLETED "上传尚未完成或未通过校验" "upload_not_completed" None.
Definition upload_object_missing : exc :=
  business_error UPLOAD_NOT_COMPLETED "尚未找到已上传对象" "upload_object_missing" None.

Definition upload_size_or_hash_mismatch : exc :=
  business_error UPLOAD_HASH_MISMATCH "上传文件大小或哈希不匹配" "upload_hash_mismatch" None.
Definition upload_hash_mismatch : exc :=
  business_error UPLOAD_HASH_MISMATCH "上传文件哈希校验失败" "upload_hash_mismatch" None.

Definition supported_types : list string :=
  ["application/pdf"; "image/jpeg"; "image/png"; "image/webp"; "image/bmp"; "image/tiff"].

Section service.
Context {W : Type}.
Context `{!UploadRepository W, !JobRepository W, !OutboxRepository W, !ObjectStorage W,
  !FileValidator W, !Runtime W}.
Context (max_upload_bytes : Z).

Definition database {A} (operation : M exc W A) : M exc W A :=
  try_except operation (λ e,
    if isinstance_any e
         [BusinessError; ConcurrentJobUpdateError; DependencyError; DuplicateIdempotencyKeyError]
    then None
    else if isinstance e Exception_
    then Some (raise (mk_exc DatabaseUnavailableError "database operation failed"))
    else None).

Definition storage {A} (operation : M exc W A) : M exc W A :=
  try_except operation (λ e,
    if isinstance_any e [BusinessError; DependencyError; FileNotFoundError] then None
    else if isinstance e Exception_
    then Some (raise (mk_exc StorageUnavailableError "object storage operation failed"))
    else None).

Definition job_event (job : Job.t) (event_type : string) (payload : dict) (now : datetime) :
    JobEvent.t :=
  JobEvent.Mk (Job.id job) event_type (Job.state job) (Job.progress job) (Job.request_id job)
    (dupdate [("attempt", JInt (Job.attempt job))] payload) 0 now.

Definition save_and_emit (job : Job.t) (event_type : string) (payload : dict) :
    M exc W (Job.t * JobEvent.t) :=
  now ← utc_now;
  database (jobs_save_with_event job (job_event job event_type payload now)).

Definition owned_upload (upload_id : UUID) (owner_id : string) : M exc W Upload.t :=
  upload ← database (uploads_get upload_id);
  match upload with
  | None => raise upload_not_found
  | Some upload =>
      if negb (bool_decide (Upload.owner_id upload = owner_id)) then raise upload_unauthorized
      else mret upload
  end.

Definition owned_job (job_id : UUID) (owner_id : string) : M exc W Job.t :=
  job ← database (jobs_get job_id);
  match job with
  | None => raise job_not_found
  | Some job =>
      if negb (bool_decide (Job.owner_id job = owner_id)) then raise job_unauthorized
      else mret job
  end.

Definition to_job_dto (job : Job.t) : M exc W JobDTO :=
  upload ← database (uploads_get (Job.upload_id job));
  mret (job_dto job (match upload with Some u => Upload.filename u | None => "" end)).

(** ** Uploads *)

Definition create_upload (request : CreateUploadRequest) (owner_id : string) : M exc W UploadDTO :=
  if decide (max_upload_bytes < cur_size_bytes request) then
    raise (business_error UPLOAD_FILE_TOO_LARGE "文件超过允许的大小" "upload_file_too_large"
      (Some (JObj [("max_size_bytes", JInt max_upload_bytes)])))
  else if decide (cur_content_type request ∉ supported_types) then
    raise (business_error UPLOAD_UNSUPPORTED_FILE_TYPE "仅支持 PDF 和静态图片"
      "upload_unsupported_file_type" None)
  else
  let safe_filename := path_name (cur_filename request) in
  upload_id ← uuid7;
  let object_key := "uploads/" +:+ uuid_str upload_id +:+ "/source" in
  created_at ← utc_now;
  let upload := Upload.Mk owner_id safe_filename (cur_size_bytes request)
    (cur_content_type request) (cur_sha256 request) object_key upload_id UploadState_UPLOADING
    created_at None None None in
  target ← storage (storage_create_upload_target object_key (cur_content_type request)
    (cur_size_bytes request) (cur_sha256 request));
  let upload := Upload.with_multipart_upload_id (target_upload_id target) upload in
  _ ← database (uploads_add upload);
  mret (MkUploadDTO (Upload.id upload) (Upload.object_key upload) (Some (target_url target))
    (target_method target) (target_headers target) (target_upload_id target)
    (target_part_size_bytes target)
    (map (λ '(number, url), MkUploadPartDTO number url) (target_part_urls target))
    (upload_state_str (Upload.state upload)) 900).

(** [complete_upload]: the part after the two session checks *)
Definition finish_upload (upload : Upload.t) (parts : option (list (Z * string))) :
    M exc W CompleteUploadDTO :=
  _ ← storage (storage_complete_upload (Upload.object_key upload)
    (Upload.multipart_upload_id upload) (default [] parts));
  info ← storage (storage_stat (Upload.object_key upload));
  match info with
  | None => raise upload_object_missing
  | Some info =>
      if negb (bool_decide (info_size_bytes info = Upload.size_bytes upload)) ||
         match info_sha256 info with
         | Some d => truthy d && negb (bool_decide (d = Upload.sha256 upload))
         | None => false
         end
      then
        _ ← database (uploads_save (Upload.reject upload));
        raise upload_size_or_hash_mismatch
      else
      data ← try_except (storage (storage_get_bytes (Upload.object_key upload)))
        (λ e, if isinstance e FileNotFoundError then Some (raise upload_object_missing) else None);
      if negb (bool_decide (sha256 data = Upload.sha256 upload)) then
        _ ← database (uploads_save (Upload.reject upload));
        raise upload_hash_mismatch
      else
      validation ← validator_validate upload data;
      now ← utc_now;
      upload ← lift (Upload.complete (detected_content_type validation) now upload);
      _ ← database (uploads_save upload);
      mret (MkCompleteUploadDTO (Upload.id upload) (upload_state_str (Upload.state upload))
        (detected_content_type validation))
  end.

Definition complete_upload (upload_id : UUID) (owner_id : string)
    (provided_sha256 multipart_upload_id : option string) (parts : option (list (Z * string))) :
    M exc W CompleteUploadDTO :=
  upload ← owned_upload upload_id owner_id;
  if match provided_sha256 with
     | Some d => negb (bool_decide (d = Upload.sha256 upload)) | None => false end
  then raise (business_error UPLOAD_HASH_MISMATCH "客户端确认哈希与上传会话不一致"
         "completion_hash_mismatch" None)
  else if truthy_opt (Upload.multipart_upload_id upload) &&
          negb (bool_decide (multipart_upload_id = Upload.multipart_upload_id upload))
  then raise (business_error COMMON_STATE_CONFLICT "多段上传会话标识不匹配"
         "multipart_upload_id_mismatch" None)
  else
  match Upload.state upload with
  | UploadState_COMPLETED =>
      mret (MkCompleteUploadDTO (Upload.id upload) (upload_state_str (Upload.state upload))
        (or_str (Upload.detected_content_type upload) (Upload.content_type upload)))
  | UploadState_REJECTED =>
      raise (business_error COMMON_STATE_CONFLICT "上传会话状态不允许完成"
        "upload_state_conflict" None)
  | UploadState_UPLOADING => finish_upload upload parts
  end.

(** ** Jobs *)

(** The answer to a request whose idempotency key already has a job. *)
Definition replay (existing : Job.t) (upload : Upload.t) (request : CreateJobRequest) :
    M exc W JobDTO :=
  if negb (bool_decide (Job.upload_id existing = Upload.id upload)) ||
     negb (py_eq (JObj (Job.options existing)) (JObj (cjr_options request)))
  then raise idempotency_conflict
  else to_job_dto existing.

Definition requested_event (id : UUID) (job : Job.t) (request_id : string) (now : datetime) :
    OutboxEvent :=
  MkOutboxEvent (Job.id job) "ocr.job.requested.v1"
    [("schema_version", JInt 1); ("job_id", JStr (uuid_str (Job.id job)));
     ("attempt", JInt (Job.attempt job)); ("request_id", JStr request_id)]
    request_id id now None.

(** [create_job]: the part that creates a job *)
Definition create_new_job (upload : Upload.t) (request : CreateJobRequest)
    (owner_id request_id : string) (idempotency_key : option string) : M exc W JobDTO :=
  job_id ← uuid7;
  created_at ← utc_now;
  updated_at ← utc_now;
  let job := Job.new owner_id (Upload.id upload) request_id (cjr_options request)
    idempotency_key job_id created_at updated_at in
  outbox_event_id ← uuid7;
  outbox_time ← utc_now;
  let outbox_event := requested_event outbox_event_id job request_id outbox_time in
  r ← attempt (
    now ← utc_now;
    database (jobs_add_with_outbox_and_event job outbox_event (job_event job "job.queued" [] now)));
  match r with
  | inr _ => to_job_dto job
  | inl e =>
      if isinstance e DuplicateIdempotencyKeyError then
        match idempotency_key with
        | None => raise e
        | Some key =>
            if negb (truthy key) then raise e else
            existing ← database (jobs_find_by_idempotency_key owner_id key);
            match existing with
            | None => raise (mk_exc DatabaseUnavailableError
                "idempotent job was committed but cannot be reloaded")
            | Some existing => replay existing upload request
            end
        end
      else raise e
  end.

Definition create_job (request : CreateJobRequest) (owner_id request_id : string)
    (idempotency_key : option string) : M exc W JobDTO :=
  upload ← owned_upload (cjr_upload_id request) owner_id;
  if negb (bool_decide (Upload.state upload = UploadState_COMPLETED)) then
    raise upload_not_completed
  else
  existing ← match idempotency_key with
             | Some key => if truthy key
                           then database (jobs_find_by_idempotency_key owner_id key)
                           else mret None
             | None => mret None
             end;
  match existing with
  | Some existing => replay existing upload request
  | None => create_new_job upload request owner_id request_id idempotency_key
  end.

Definition get_job (job_id : UUID) (owner_id : string) : M exc W JobDTO :=
  job ← owned_job job_id owner_id;
  to_job_dto job.

Definition get_job_domain (job_id : UUID) (owner_id : string) : M exc W Job.t :=
  owned_job job_id owner_id.

Definition list_jobs (owner_id : string) (page page_size : Z) : M exc W JobListDTO :=
  '(jobs, total) ← database (jobs_list owner_id ((page - 1) * page_size) page_size);
  items ← collect to_job_dto jobs;
  mret (MkJobListDTO items total page page_size).

(** The [try] body of [cancel_job]. *)
Definition cancel_body (job : Job.t) (request_id : string) : M exc W Job.t :=
  let previous := Job.state job in
  let job := Job.with_request_id request_id job in
  now ← utc_now;
  job ← lift (Job.request_cancel now job);
  job ← (if decide (previous ∈ [QUEUED; RETRYING]) then
           now1 ← utc_now; now2 ← utc_now; lift (Job.cancel now1 now2 job)
         else mret job);
  '(saved, _) ← save_and_emit job
    (if decide (Job.state job = CANCELLED) then "job.cancelled" else "job.cancel_requested") [];
  mret saved.

(** [for save_attempt in range(3)] *)
Fixpoint cancel_attempts (save_attempts : list Z) (job_id : UUID) (owner_id request_id : string) :
    M exc W JobDTO :=
  match save_attempts with
  | [] => raise (mk_exc AssertionError "unreachable")
  | save_attempt :: rest =>
      job ← owned_job job_id owner_id;
      if decide (Job.state job ∈ [CANCELLED; SUCCEEDED]) then raise job_not_cancellable
      else if decide (Job.state job = CANCEL_REQUESTED) then to_job_dto job
      else
      r ← attempt (cancel_body job request_id);
      match r with
      | inr job => to_job_dto job
      | inl e =>
          if isinstance e ConcurrentJobUpdateError then
            if decide (save_attempt < 2) then cancel_attempts rest job_id owner_id request_id
            else raise (mk_exc DatabaseUnavailableError "job cancellation was updated concurrently")
          else if isinstance e ValueError then raise job_not_cancellable
          else raise e
      end
  end.

Definition cancel_job (job_id : UUID) (owner_id request_id : string) : M exc W JobDTO :=
  cancel_attempts [0; 1; 2] job_id owner_id request_id.

Fixpoint retry_attempts (save_attempts : list Z) (job_id : UUID) (owner_id request_id : string) :
    M exc W JobDTO :=
  match save_attempts with
  | [] => raise (mk_exc AssertionError "unreachable")
  | save_attempt :: rest =>
      job ← owned_job job_id owner_id;
      now ← utc_now;
      match Job.retry request_id now job with
      | inl e =>
          if isinstance e ValueError then
            if bool_decide (Job.state job = RETRYING) && bool_decide (0 < save_attempt)
            then to_job_dto job
            else raise job_not_retryable
          else raise e
      | inr job =>
          outbox_event_id ← uuid7;
          outbox_time ← utc_now;
          let outbox_event := requested_event outbox_event_id job request_id outbox_time in
          r ← attempt (
            now ← utc_now;
            database (jobs_save_with_outbox_and_event job outbox_event
              (job_event job "job.retrying" [] now)));
          match r with
          | inr (job, _) => to_job_dto job
          | inl e =>
              if isinstance e ConcurrentJobUpdateError then
                if decide (save_attempt < 2) then retry_attempts rest job_id owner_id request_id
                else raise (mk_exc DatabaseUnavailableError "job retry was updated concurrently")
              else raise e
          end
      end
  end.

Definition retry_job (job_id : UUID) (owner_id request_id : string) : M exc W JobDTO :=
  retry_attempts [0; 1; 2] job_id owner_id request_id.

(** ** Artifacts *)

Definition artifact_item (artifact : Artifact.t) : M exc W ArtifactDTO :=
  download_url ← try_except (storage (storage_create_download_url (Artifact.object_key artifact)))
    (λ e, if isinstance e FileNotFoundError
          then Some (raise (business_error JOB_RESULT_NOT_READY "任务结果对象暂不可用"
                 "job_artifact_missing" None))
          else None);
  mret (artifact_dto artifact download_url).

Definition list_artifacts (job_id : UUID) (owner_id : string) : M exc W (list ArtifactDTO) :=
  job ← owned_job job_id owner_id;
  if negb (bool_decide (Job.state job = SUCCEEDED)) then
    raise (business_error JOB_RESULT_NOT_READY "任务结果尚未就绪" "job_result_not_ready" None)
  else collect artifact_item (Job.artifacts job).
End service.
