(* ===== verification/ServiceSafety.v ===== *)
(** * The service under interference

    The service is run in any world whose repository is a [JobStore] and whose
    other ports leave the jobs alone, next to any number of workers and other
    requests.  Every request commits legal revisions only, and every answer
    about a job is the DTO of a committed revision that belongs to the caller
    ([service_safe]). *)

From S2P Require Import Prelude PyData PyText Json Status Domain DomainFacts Ports History Sha256.
From S2P Require Import Dto Services.

#[local] Open Scope Z_scope.

Section safety.
Context {W : Type} (inv : W → Prop) (view : W → UUID → slot) (K : Contract).
Context `{!UploadRepository W, !JobRepository W, !ObjectStorage W, !FileValidator W, !Runtime W}.
Context `{!JobStore inv view K, !QuietUploads inv view, !QuietStorage inv view,
  !QuietValidator inv view, !QuietRuntime inv view, !NewIds inv view K}.
Context (max_upload_bytes : Z).

Abbreviation R := (evolves view).
Abbreviation stable := (stable view).
Abbreviation tracked := (tracked view K).
Abbreviation snapshot := (snapshot view K).
Abbreviation quiet := (quiet inv view).

Ltac stab :=
  repeat first [done | apply stable_and | apply stable_tracked | apply stable_snapshot | apply stable_True].

(** ** Building blocks *)

Lemma rg_service_database {A} P (m : M exc W A) Q :
  rg inv R P m Q (λ _ _, True) → rg inv R P (database m) Q (λ _ _, True).
Proof.
  intros Hm. unfold database. rule rg_try_except; [done|]. intros e.
  destruct (isinstance_any e _); [done|].
  destruct (isinstance e Exception_); [by rule rg_raise | done].
Qed.

Lemma rg_service_storage {A} P (m : M exc W A) Q :
  rg inv R P m Q (λ _ _, True) → rg inv R P (storage m) Q (λ _ _, True).
Proof.
  intros Hm. unfold storage. rule rg_try_except; [done|]. intros e.
  destruct (isinstance_any e _); [done|].
  destruct (isinstance e Exception_); [by rule rg_raise | done].
Qed.

(** A port that leaves the jobs alone, with a stable assertion. *)
Lemma rg_service_port {A} (m : M exc W A) F `{!quiet m} : stable F → rg inv R F m (λ _, F) (λ _ _, True).
Proof. apply rg_quiet_any. apply _. Qed.

#[local] Instance quiet_database {A} (m : M exc W A) : quiet m → quiet (database m).
Proof. intros Hm. exact (rg_service_database _ _ _ Hm). Qed.

#[local] Instance quiet_storage {A} (m : M exc W A) : quiet m → quiet (storage m).
Proof. intros Hm. exact (rg_service_storage _ _ _ Hm). Qed.

(** A request that only uses ports which leave the jobs alone. *)
Ltac solve_quiet :=
  repeat first
    [ match goal with H : Some _ = Some _ |- _ => injection H as <- end
    | apply _
    | case_match
    | apply quiet_bind; [|intros ?]
    | apply quiet_try; [|intros ?]
    | done ].

(** ** Reading *)

(** [d] describes a committed revision of a job of [owner_id] with [P]. *)
Definition answered (owner_id : string) (P : Job.t → Prop) (d : JobDTO) (w : W) : Prop :=
  ∃ j filename, d = job_dto j filename ∧ Job.owner_id j = owner_id ∧ P j ∧ snapshot j w.

Lemma rg_to_job_dto (P : Job.t → Prop) o j :
  Job.owner_id j = o → P j → rg inv R (snapshot j) (to_job_dto j) (answered o P) (λ _ _, True).
Proof.
  intros Ho HP. unfold to_job_dto.
  rule_bind; [rule rg_service_port; stab|]. intros upload. rule rg_ret.
  intros w Hw. by do 2 eexists.
Qed.

Lemma rg_owned_job i o :
  rg inv R (λ _, True) (owned_job i o)
    (λ j w, Job.id j = i ∧ Job.owner_id j = o ∧ snapshot j w) (λ _ _, True).
Proof.
  unfold owned_job. rule_bind; [apply rg_service_database; exact (get_rg inv view K i)|].
  intros [j|]; [|by rule rg_raise].
  case_match eqn:E; [by rule rg_raise|].
  rule rg_ret. apply negb_false_iff, bool_decide_eq_true in E. naive_solver.
Qed.

Lemma rg_get_job i o :
  rg inv R (λ _, True) (get_job i o) (answered o (λ j, Job.id j = i)) (λ _ _, True).
Proof.
  unfold get_job. rule_bind; [apply rg_owned_job|]. intros j.
  apply rg_fact. intros Hi. apply rg_fact. intros Ho. by apply rg_to_job_dto.
Qed.

(** ** Cancelling and retrying *)

Lemma rg_service_save j ty pl :
  rg inv R (tracked j) (save_and_emit j ty pl)
    (λ r w, r.1 = committed j ∧ snapshot (committed j) w) (λ _ _, True).
Proof.
  unfold save_and_emit. rule_bind; [rule rg_service_port; stab|]. intros now.
  apply rg_service_database; exact (save_with_event_rg inv view K j _).
Qed.

Lemma rg_lift_eq {A} P (r : exc + A) :
  rg inv R P (lift r) (λ a w, r = inr a ∧ P w) (λ _ _, True).
Proof. rule rg_lift. by destruct r. Qed.

Definition cancelling (i : UUID) (j : Job.t) : Prop :=
  Job.id j = i ∧ (Job.state j = CANCELLED ∨ Job.state j = CANCEL_REQUESTED).

Lemma derived_request_id rid j : derived j (Job.with_request_id rid j).
Proof. by apply derived_same. Qed.

Lemma request_cancel_state n j j' : Job.request_cancel n j = inr j' → Job.state j' = CANCEL_REQUESTED.
Proof. intros H. by invert_method H. Qed.

Lemma cancel_state n1 n2 j j' : Job.cancel n1 n2 j = inr j' → Job.state j' = CANCELLED.
Proof. intros H. by invert_method H. Qed.

Lemma retry_state rid n j j' : Job.retry rid n j = inr j' → Job.state j' = RETRYING.
Proof. intros H. by invert_method H. Qed.

Lemma rg_cancel_body i o j rid :
  Job.id j = i → Job.owner_id j = o →
  rg inv R (snapshot j) (cancel_body j rid)
    (λ r w, cancelling i r ∧ Job.owner_id r = o ∧ snapshot r w) (λ _ _, True).
Proof.
  intros Hi Ho. unfold cancel_body. rule_bind; [rule rg_service_port; stab|]. intros n.
  rule_bind; [apply rg_lift_eq|]. intros j1. apply rg_fact. intros H1.
  assert (derived j j1) as Hd1 by (etrans; [apply derived_request_id | by eapply derived_request_cancel]).
  pose proof (request_cancel_state _ _ _ H1) as Hs1.
  rule_bind mid (λ j2 w, (derived j j2 ∧ (Job.state j2 = CANCELLED ∨ Job.state j2 = CANCEL_REQUESTED))
    ∧ snapshot j w).
  - case_decide; [|rule rg_ret; by auto].
    rule_bind; [rule rg_service_port; stab|]. intros n1. rule_bind; [rule rg_service_port; stab|]. intros n2.
    eapply rg_conseq; [apply rg_lift_eq | done | | done].
    intros j2 w [H2 ?]. split; [|done]. split; [|left; by eapply cancel_state].
    etrans; [done | by eapply derived_cancel].
  - intros j2. apply rg_fact. intros [Hd Hs].
    rule_bind; [eapply rg_pre; [apply rg_service_save|]|].
    + intros w Hw. by eapply tracked_derived, snapshot_tracked.
    + intros [saved ev]. cbn [fst]. apply rg_fact. intros ->. rule rg_ret. intros w Hw. simpl.
      destruct Hd. split; [split; simpl; [congruence | done]|]. split; [simpl; congruence | done].
Qed.

Lemma rg_cancel_job i o rid :
  rg inv R (λ _, True) (cancel_job i o rid) (answered o (cancelling i)) (λ _ _, True).
Proof.
  unfold cancel_job. generalize [0; 1; 2]. intros attempts.
  induction attempts as [|n attempts IH]; simpl; [by rule rg_raise|].
  rule_bind; [apply rg_owned_job|]. intros j.
  apply rg_fact. intros Hi. apply rg_fact. intros Ho.
  case_decide; [by rule rg_raise|].
  case_decide; [apply rg_to_job_dto; [done | by split; auto]|].
  rule_bind; [apply rg_attempt; by apply rg_cancel_body|]. intros [e|j'].
  - case_match; [case_match; [exact IH | by rule rg_raise]|]. case_match; by rule rg_raise.
  - apply rg_fact. intros ?. apply rg_fact. intros ?. by apply rg_to_job_dto.
Qed.

Lemma rg_retry_job i o rid :
  rg inv R (λ _, True) (retry_job i o rid)
    (answered o (λ j, Job.id j = i ∧ Job.state j = RETRYING)) (λ _ _, True).
Proof.
  unfold retry_job. generalize [0; 1; 2]. intros attempts.
  induction attempts as [|n attempts IH]; simpl; [by rule rg_raise|].
  rule_bind; [apply rg_owned_job|]. intros j.
  apply rg_fact. intros Hi. apply rg_fact. intros Ho.
  rule_bind; [rule rg_service_port; stab|]. intros now.
  destruct (Job.retry rid now j) as [e|j1] eqn:Hr.
  { case_match; [|by rule rg_raise]. case_match eqn:E; [|by rule rg_raise].
    apply andb_true_iff in E as [E%bool_decide_eq_true _]. by apply rg_to_job_dto. }
  pose proof (derived_retry _ _ _ _ Hr) as Hd. pose proof (retry_state _ _ _ _ Hr) as Hs.
  rule_bind; [rule rg_service_port; stab|]. intros id. rule_bind; [rule rg_service_port; stab|]. intros t.
  rule_bind.
  { apply rg_attempt. rule_bind; [rule rg_service_port; stab|]. intros t'.
    eapply rg_pre; [apply rg_service_database; exact (save_with_outbox_and_event_rg inv view K j1 _ _)|].
    intros w Hw. by eapply tracked_derived, snapshot_tracked. }
  intros [e|[j2 ev]]; [case_match; [case_match; [exact IH | by rule rg_raise] | by rule rg_raise]|].
  cbn [fst]. apply rg_fact. intros ->. destruct Hd.
  apply rg_to_job_dto; [simpl; congruence | simpl; split; congruence].
Qed.

(** ** Creating *)

Definition describes (upload : Upload.t) (request : CreateJobRequest) (j : Job.t) : Prop :=
  Job.upload_id j = Upload.id upload ∧
  (Job.options j = cjr_options request ∨
   py_eq (JObj (Job.options j)) (JObj (cjr_options request)) = true).

Lemma rg_replay o existing upload request :
  Job.owner_id existing = o →
  rg inv R (snapshot existing) (replay existing upload request)
    (answered o (describes upload request)) (λ _ _, True).
Proof.
  intros Ho. unfold replay. case_match eqn:E; [by rule rg_raise|].
  apply orb_false_iff in E as [E1%negb_false_iff E2%negb_false_iff].
  apply bool_decide_eq_true in E1. apply rg_to_job_dto; [done | by split; auto].
Qed.

Lemma rg_find o k :
  owner_ok K o →
  rg inv R (λ _, True) (database (jobs_find_by_idempotency_key o k))
    (λ r w, ∀ j, r = Some j → Job.owner_id j = o ∧ snapshot j w) (λ _ _, True).
Proof.
  intros Ho. apply rg_service_database. eapply rg_conseq; [exact (find_rg inv view K o k Ho) | done | | done].
  intros r w H j Hj. by destruct (H j Hj) as (? & _ & ?).
Qed.

Lemma rg_owned_upload i o :
  rg inv R (λ _, True) (owned_upload i o) (λ u _, Upload.owner_id u = o) (λ _ _, True).
Proof.
  unfold owned_upload. rule_bind; [rule rg_service_port; stab|].
  intros [u|]; [|by rule rg_raise]. case_match eqn:E; [by rule rg_raise|].
  apply negb_false_iff, bool_decide_eq_true in E. by rule rg_ret.
Qed.

Lemma birth_new o u rid opts k i c up : birth (Job.new o u rid opts k i c up).
Proof. by split. Qed.

Lemma rg_create_new_job upload request o rid key :
  owner_ok K o →
  rg inv R (λ _, True) (create_new_job upload request o rid key)
    (answered o (describes upload request)) (λ _ _, True).
Proof.
  intros Ho. unfold create_new_job. rule_bind; [exact (new_id_rg inv view K)|]. intros job_id.
  eapply rg_pre with (λ _, new_id K job_id ∧ True); [|done]. apply rg_fact. intros Hnew.
  do 4 (rule_bind; [rule rg_service_port; stab | intros ?]). rule_bind.
  { apply rg_attempt. rule_bind; [rule rg_service_port; stab|]. intros now.
    apply rg_service_database. by apply (add_with_outbox_and_event_rg inv view K), Hnew. }
  intros [e|ev].
  - case_match; [|by rule rg_raise]. case_match; [|by rule rg_raise].
    case_match; [by rule rg_raise|]. rule_bind; [by apply rg_find|].
    intros [existing|]; [|by rule rg_raise].
    eapply rg_pre with (λ w, Job.owner_id existing = o ∧ snapshot existing w); [|naive_solver].
    apply rg_fact. by apply rg_replay.
  - apply rg_to_job_dto; [done|]. split; [done | by left].
Qed.

(** The job of the answer is for a completed upload of the caller. *)
Definition job_for (o : string) (request : CreateJobRequest) (j : Job.t) : Prop :=
  ∃ upload, Upload.owner_id upload = o ∧ Upload.state upload = UploadState_COMPLETED ∧
    describes upload request j.

Lemma answered_mono o (P P' : Job.t → Prop) d w :
  (∀ j, P j → P' j) → answered o P d w → answered o P' d w.
Proof. intros H (j & f & ? & ? & ? & ?). exists j, f. auto. Qed.

Lemma rg_create_job request o rid key :
  owner_ok K o →
  rg inv R (λ _, True) (create_job request o rid key)
    (answered o (job_for o request)) (λ _ _, True).
Proof.
  intros Hok. unfold create_job. rule_bind; [apply rg_owned_upload|]. intros upload.
  eapply rg_pre with (λ _, Upload.owner_id upload = o ∧ True); [|done].
  apply rg_fact. intros Ho. case_match eqn:E; [by rule rg_raise|].
  apply negb_false_iff, bool_decide_eq_true in E.
  assert (∀ m : M exc W JobDTO,
    rg inv R (λ _, True) m (answered o (describes upload request)) (λ _ _, True) →
    rg inv R (λ _, True) m (answered o (job_for o request)) (λ _ _, True)) as Hweak.
  { intros m Hm. eapply rg_conseq; [exact Hm | done | | done].
    intros d w. apply answered_mono. intros j Hj. by exists upload. }
  rule_bind mid (λ r w, ∀ j, r = Some j → Job.owner_id j = o ∧ snapshot j w).
  - case_match; [case_match; [by apply rg_find|]|]; by rule rg_ret.
  - intros [existing|]; [|eapply rg_pre; [by apply Hweak, rg_create_new_job | done]].
    eapply rg_pre with (λ w, Job.owner_id existing = o ∧ snapshot existing w); [|naive_solver].
    apply rg_fact. intros ?. eapply rg_conseq; [by apply rg_replay | done | | done].
    intros d w. apply answered_mono. intros j Hj. by exists upload.
Qed.

(** ** The other requests *)

Lemma quiet_to_job_dto j : quiet (to_job_dto j).
Proof. unfold to_job_dto. solve_quiet. Qed.

Lemma quiet_list_jobs o page size : quiet (list_jobs o page size).
Proof.
  unfold list_jobs. apply quiet_bind; [apply quiet_database; exact (list_quiet inv view K o _ _)|]. intros [jobs total].
  apply quiet_bind; [apply quiet_collect; intros; apply quiet_to_job_dto|]. intros ?. apply quiet_ret.
Qed.

Lemma quiet_owned_upload i o : quiet (owned_upload i o).
Proof. unfold owned_upload. solve_quiet. Qed.

Lemma quiet_create_upload request o : quiet (create_upload max_upload_bytes request o).
Proof. unfold create_upload. solve_quiet. Qed.

Lemma quiet_finish_upload upload parts : quiet (finish_upload upload parts).
Proof. unfold finish_upload. solve_quiet. Qed.

Lemma quiet_complete_upload_request i o d m parts : quiet (complete_upload i o d m parts).
Proof.
  unfold complete_upload. apply quiet_bind; [apply quiet_owned_upload|]. intros upload.
  repeat case_match; first [apply quiet_raise | apply quiet_finish_upload | apply quiet_ret].
Qed.

Lemma quiet_artifact_item a : quiet (artifact_item a).
Proof. unfold artifact_item. solve_quiet. Qed.

(** *** The listings *)

(** Every item is the DTO of a committed revision of a job of [owner_id]. *)
Definition listed (owner_id : string) (l : JobListDTO) (w : W) : Prop :=
  Forall (λ d, answered owner_id (λ _, True) d w) (jl_items l).

Lemma rg_list_jobs o page size :
  owner_ok K o → rg inv R (λ _, True) (list_jobs o page size) (listed o) (λ _ _, True).
Proof.
  intros Ho. unfold list_jobs.
  rule_bind; [apply rg_service_database; exact (list_rg inv view K o _ _ Ho)|]. intros [jobs total].
  set (J := λ w, Forall (λ j, Job.owner_id j = o ∧ snapshot j w) jobs).
  assert (stable J) as HJ.
  { intros w w' HR Hw. eapply Forall_impl; [exact Hw|]. intros j [??].
    split; [done | by eapply stable_snapshot]. }
  rule_bind; [apply (rg_collect_all inv R jobs to_job_dto J (λ j d, ∃ f, d = job_dto j f))|].
  - intros j _. unfold to_job_dto. rule_bind; [rule rg_service_port; exact HJ|].
    intros upload. rule rg_ret. intros w Hw. split; [exact Hw | by eexists].
  - intros items. rule rg_ret. intros w [Hw Hitems]. unfold listed. simpl.
    apply Forall_forall. intros d Hd. apply list_elem_of_lookup in Hd as [k Hk].
    destruct (Forall2_lookup_r _ _ _ _ _ Hitems Hk) as (j & Hj & f & ->).
    destruct (Forall_lookup_1 _ _ _ _ Hw Hj). exists j, f. by split_and!.
Qed.

(** The answer lists the artifacts of a committed succeeded revision of job [i]
    of [owner_id]. *)
Definition artifacts_of (owner_id : string) (i : UUID) (l : list ArtifactDTO) (w : W) : Prop :=
  ∃ j, Job.id j = i ∧ Job.owner_id j = owner_id ∧ Job.state j = SUCCEEDED ∧ snapshot j w ∧
    Forall2 (λ a d, ∃ url, d = artifact_dto a url) (Job.artifacts j) l.

Lemma rg_artifact_item P a :
  stable P → rg inv R P (artifact_item a) (λ d w, P w ∧ ∃ url, d = artifact_dto a url) (λ _ _, True).
Proof.
  intros HP. unfold artifact_item. rule_bind mid (λ (_ : string), P).
  - assert (quiet (storage (storage_create_download_url (Artifact.object_key a)))) as Hq by apply _.
    eapply rg_quiet_any; [apply quiet_try; [exact Hq|] | exact HP]. intros e. destruct (isinstance e FileNotFoundError); [apply _ | done].
  - intros url. rule rg_ret. intros w Hw. split; [exact Hw | by eexists].
Qed.

Lemma rg_list_artifacts i o :
  rg inv R (λ _, True) (list_artifacts i o) (artifacts_of o i) (λ _ _, True).
Proof.
  unfold list_artifacts. rule_bind; [apply rg_owned_job|]. intros j.
  apply rg_fact. intros Hi. apply rg_fact. intros Ho.
  case_match eqn:E; [by rule rg_raise|]. apply negb_false_iff, bool_decide_eq_true in E.
  eapply rg_conseq; [apply (rg_collect_all inv R _ artifact_item (snapshot j)); intros a _;
    apply rg_artifact_item; stab | done | | done].
  intros l w [Hw Hl]. exists j. by split_and!.
Qed.

(** [m] commits legally whatever runs next to it, and what it answers is [Q] of
    the world at that time. *)
Definition answering {A} (Q : A → W → Prop) (m : M exc W A) : Prop :=
  ∀ w, inv w → inv (m w).2 ∧ evolves view w (m w).2 ∧ ∀ a, (m w).1 = Ret a → Q a (m w).2.

(** ... the DTO of a committed revision of a job of [owner_id] with [P]. *)
Definition serves (owner_id : string) (P : Job.t → Prop) : M exc W JobDTO → Prop :=
  answering (answered owner_id P).

Definition harmless {A} (m : M exc W A) : Prop := answering (λ _ _, True) m.

Lemma rg_answering {A} Q (m : M exc W A) : rg inv R (λ _, True) m Q (λ _ _, True) → answering Q m.
Proof.
  intros Hm w Hw. destruct (Hm w Hw I) as (? & ? & Hpost). split_and!; [done..|].
  intros d Hd. by rewrite Hd in Hpost.
Qed.

(** C4: safety of the service.  Next to any other tasks that keep the
    repository's promises, and whatever the ports return or raise, every
    request changes the stored jobs by legal commits only; and whatever it
    answers about jobs is about committed revisions of jobs of the caller: the
    requested job for [get_job] and for the loop of the event stream
    ([get_job_domain]), [CANCELLED] or [CANCEL_REQUESTED] for [cancel_job],
    [RETRYING] for [retry_job], one for a completed upload of the caller with
    the requested options for [create_job], every item of [list_jobs], and for
    [list_artifacts] the artifacts of the requested job, which has succeeded.
    [create_job] and [list_jobs] are for an owner id the repository accepts
    (PostgreSQL: the canonical text of a UUID; in memory: any). *)
Theorem service_safe owner request_id :
  (∀ i, serves owner (λ j, Job.id j = i) (get_job i owner)) ∧
  (∀ i, answering (λ j w, Job.id j = i ∧ Job.owner_id j = owner ∧ snapshot j w) (get_job_domain i owner)) ∧
  (∀ i, serves owner (cancelling i) (cancel_job i owner request_id)) ∧
  (∀ i, serves owner (λ j, Job.id j = i ∧ Job.state j = RETRYING) (retry_job i owner request_id)) ∧
  (owner_ok K owner → ∀ request key,
     serves owner (job_for owner request) (create_job request owner request_id key)) ∧
  (owner_ok K owner → ∀ page size, answering (listed owner) (list_jobs owner page size)) ∧
  (∀ i, answering (artifacts_of owner i) (list_artifacts i owner)) ∧
  (∀ page size, harmless (list_jobs owner page size)) ∧
  (∀ request, harmless (create_upload max_upload_bytes request owner)) ∧
  (∀ i d m parts, harmless (complete_upload i owner d m parts)).
Proof.
  split_and!; intros; apply rg_answering.
  - apply rg_get_job.
  - apply rg_owned_job.
  - apply rg_cancel_job.
  - apply rg_retry_job.
  - by apply rg_create_job.
  - by apply rg_list_jobs.
  - apply rg_list_artifacts.
  - apply quiet_list_jobs.
  - apply quiet_create_upload.
  - apply quiet_complete_upload_request.
Qed.
End safety.
