(* ===== verification/ServiceFacts.v ===== *)
(** * The service on the in-memory adapters

    What each request does when it runs alone in a [World]: isolation of the
    owners, pagination, cancellation, retry, creation of jobs and idempotency,
    and the integrity of completed uploads. *)

From Stdlib Require Import Ascii Sorted.
From S2P Require Import Prelude PyData PyText Json JsonFacts Status Domain DomainFacts Ports.
From S2P Require Import Sha256 History Memory MemoryFacts Dto FileValidation Messaging Services.

#[local] Open Scope Z_scope.

Abbreviation elog := InMemoryJobEventRepository.log.

(** The same world, but for the clock and the [uuid7] counter. *)
Record idle (w w' : World) : Prop := {
  idle_uploads : w_uploads w' = w_uploads w;
  idle_jobs : w_jobs w' = w_jobs w;
  idle_has_events : w_has_events w' = w_has_events w;
  idle_events : w_events w' = w_events w;
  idle_outbox : w_outbox w' = w_outbox w;
  idle_objects : w_objects w' = w_objects w;
  idle_messages : w_messages w' = w_messages w
}.

#[export] Instance idle_preorder : PreOrder idle.
Proof. split; [by split|]. intros w1 w2 w3 [] []. split; congruence. Qed.

(** A world in which a request has stored job revisions, events and outbox
    entries, and nothing else. *)
Record worked (w w' : World) : Prop := {
  worked_uploads : w_uploads w' = w_uploads w;
  worked_has_events : w_has_events w' = w_has_events w;
  worked_objects : w_objects w' = w_objects w;
  worked_messages : w_messages w' = w_messages w
}.

#[export] Instance worked_preorder : PreOrder worked.
Proof. split; [by split|]. intros w1 w2 w3 [] []. split; congruence. Qed.

Lemma idle_worked w w' : idle w w' → worked w w'.
Proof. by destruct 1. Qed.

(** An event of type [ty] for the attempt of [job] is in the log of [job]. *)
Definition recorded (ty : string) (job : Job.t) (w : World) : Prop :=
  Exists (λ ev, JobEvent.event_type ev = ty ∧
    InMemoryJobEventRepository.same_attempt
      (dget (JobEvent.payload ev) "attempt") (Some (JInt (Job.attempt job))) = true)
    (elog w (Job.id job)).

Definition filename_of (w : World) (upload_id : UUID) : string :=
  match dget (w_uploads w) upload_id with Some u => Upload.filename u | None => "" end.

(** The answer about a job. *)
Definition answer (w : World) (job : Job.t) : JobDTO := job_dto job (filename_of w (Job.upload_id job)).

Lemma answer_worked w w' job : worked w w' → answer w' job = answer w job.
Proof. intros []. unfold answer, filename_of. by f_equal; rewrite worked_uploads0. Qed.

(** ** Reading *)

Lemma owned_job_run i o w :
  owned_job i o w =
  (match dget (w_jobs w) i with
   | None => Exn job_not_found
   | Some job => if bool_decide (Job.owner_id job = o) then Ret job else Exn job_unauthorized
   end, w).
Proof.
  unfold owned_job. erewrite bind_run by done. destruct (dget (w_jobs w) i) as [job|]; [|done].
  by case_bool_decide.
Qed.

Lemma owned_upload_run i o w :
  owned_upload i o w =
  (match dget (w_uploads w) i with
   | None => Exn upload_not_found
   | Some u => if bool_decide (Upload.owner_id u = o) then Ret u else Exn upload_unauthorized
   end, w).
Proof.
  unfold owned_upload. erewrite bind_run by done. destruct (dget (w_uploads w) i) as [u|]; [|done].
  by case_bool_decide.
Qed.

Lemma to_job_dto_run job w : to_job_dto job w = (Ret (answer w job), w).
Proof. done. Qed.

Lemma owned_job_found i o w job :
  dget (w_jobs w) i = Some job → Job.owner_id job = o → owned_job i o w = (Ret job, w).
Proof. intros Hj Ho. by rewrite owned_job_run, Hj, bool_decide_eq_true_2. Qed.

Lemma owned_upload_found i o w u :
  dget (w_uploads w) i = Some u → Upload.owner_id u = o → owned_upload i o w = (Ret u, w).
Proof. intros Hj Ho. by rewrite owned_upload_run, Hj, bool_decide_eq_true_2. Qed.

(** Everything a request about job [i] can do is to raise [e]. *)
Definition job_denied (i : UUID) (owner request_id : string) (e : exc) (w : World) : Prop :=
  get_job i owner w = (Exn e, w) ∧
  get_job_domain i owner w = (Exn e, w) ∧
  cancel_job i owner request_id w = (Exn e, w) ∧
  retry_job i owner request_id w = (Exn e, w) ∧
  list_artifacts i owner w = (Exn e, w).

Definition upload_denied (i : UUID) (owner request_id : string) (e : exc) (w : World) : Prop :=
  (∀ d m parts, complete_upload i owner d m parts w = (Exn e, w)) ∧
  (∀ options key, create_job (MkCreateJobRequest i options) owner request_id key w = (Exn e, w)).

Lemma job_denied_run i o rid e w : owned_job i o w = (Exn e, w) → job_denied i o rid e w.
Proof.
  intros H. unfold job_denied, get_job, get_job_domain, list_artifacts, cancel_job, retry_job.
  cbn [cancel_attempts retry_attempts]. split_and!; try done; by erewrite bind_run_exn.
Qed.

Lemma upload_denied_run i o rid e w : owned_upload i o w = (Exn e, w) → upload_denied i o rid e w.
Proof.
  intros H. unfold upload_denied, complete_upload, create_job. cbn [cjr_upload_id].
  split; intros; by erewrite bind_run_exn.
Qed.

(** C7: isolation of the owners.  Every request about a job or an upload of
    another owner is refused as unauthorized, and about one that does not exist
    as not found; neither changes anything, not even the clock. *)
Theorem owner_isolation owner request_id i w :
  (∀ job, dget (w_jobs w) i = Some job → Job.owner_id job ≠ owner →
     job_denied i owner request_id job_unauthorized w) ∧
  (dget (w_jobs w) i = None → job_denied i owner request_id job_not_found w) ∧
  (∀ u, dget (w_uploads w) i = Some u → Upload.owner_id u ≠ owner →
     upload_denied i owner request_id upload_unauthorized w) ∧
  (dget (w_uploads w) i = None → upload_denied i owner request_id upload_not_found w).
Proof.
  split_and!; intros; (apply job_denied_run || apply upload_denied_run);
    rewrite ?owned_job_run, ?owned_upload_run; simplify_option_eq; try done.
  all: by case_bool_decide.
Qed.

(** ** Pagination *)

Lemma collect_run {A B} (f : A → Mem B) (g : A → B) l w :
  (∀ a, f a w = (Ret (g a), w)) → collect f l w = (Ret (map g l), w).
Proof.
  intros Hf. induction l as [|a l IH]; [done|]. simpl.
  erewrite bind_run by apply Hf. by erewrite bind_run by apply IH.
Qed.

(** The jobs of an owner, newest first. *)
Definition newest_first (o : string) (w : World) (jobs : list Job.t) : Prop :=
  jobs ≡ₚ filter (λ j, Job.owner_id j = o) (dvalues (w_jobs w)) ∧
  Sorted (λ a b, Job.created_at b ≤ Job.created_at a) jobs.

Lemma list_jobs_run o page size w :
  1 ≤ page → 0 ≤ size →
  ∃ jobs, newest_first o w jobs ∧
    jobs = py_sorted Job.created_at true (filter (λ j, Job.owner_id j = o) (dvalues (w_jobs w))) ∧
    list_jobs o page size w =
      (Ret (MkJobListDTO
        (map (answer w) (take (Z.to_nat size) (drop (Z.to_nat ((page - 1) * size)) jobs)))
        (Z.of_nat (length jobs)) page size), w).
Proof.
  intros Hp Hs. eexists. split; [split; [apply py_sorted_perm|]|split; [done|]].
  - eapply Sorted_ind; [constructor | | apply (py_sorted_sorted Job.created_at true)].
    intros a l _ ? Hh. constructor; [done|]. destruct Hh as [|b l Hb]; constructor.
    simpl in Hb. lia.
  - assert (∀ offset limit, database (jobs_list o offset limit) w =
      (let items := py_sorted Job.created_at true
         (filter (λ j, Job.owner_id j = o) (dvalues (w_jobs w))) in
       Ret (py_slice offset (offset + limit) items, Z.of_nat (length items)), w)) as Hl by done.
    unfold list_jobs. erewrite bind_run by apply Hl. cbv beta iota.
    rewrite py_slice_nonneg by nia. replace ((page - 1) * size + size - (page - 1) * size) with size by lia.
    by erewrite bind_run by exact (collect_run _ (answer w) _ w (λ j, to_job_dto_run j w)).
Qed.

Lemma pages_concat {A} (n size : nat) (l : list A) :
  concat (map (λ k, take size (drop (k * size) l)) (seq 0 n)) = take (n * size) l.
Proof.
  revert l. induction n as [|n IH]; intros l; [done|].
  rewrite seq_S, map_app, concat_app, IH. simpl. rewrite app_nil_r.
  rewrite Nat.add_comm. apply (take_take_drop l).
Qed.

(** C13: pagination.  For a page size [n > 0] the pages 1, 2, ... of [list_jobs]
    cut one list, the owner's jobs sorted newest first, into consecutive pieces
    of [n]: read in order they give every job of the owner once, nothing of
    anybody else, and the total is its length. *)
Theorem pagination owner size w :
  0 < size →
  ∃ jobs, newest_first owner w jobs ∧
    (∀ page, 1 ≤ page → ∃ items,
       list_jobs owner page size w =
         (Ret (MkJobListDTO items (Z.of_nat (length jobs)) page size), w) ∧
       items = map (answer w) (take (Z.to_nat size) (drop (Z.to_nat ((page - 1) * size)) jobs))) ∧
    (∀ pages, Z.of_nat (length jobs) ≤ Z.of_nat pages * size →
       concat (map (λ k, match (list_jobs owner (Z.of_nat k + 1) size w).1 with
                         | Ret l => jl_items l | _ => [] end) (seq 0 pages)) =
       map (answer w) jobs).
Proof.
  intros Hs. destruct (list_jobs_run owner 1 size w) as (jobs & Hn & Ej & _); [lia..|].
  exists jobs. split; [done|].
  assert (∀ page, 1 ≤ page → list_jobs owner page size w =
    (Ret (MkJobListDTO
      (map (answer w) (take (Z.to_nat size) (drop (Z.to_nat ((page - 1) * size)) jobs)))
      (Z.of_nat (length jobs)) page size), w)) as Hrun.
  { intros page Hp. destruct (list_jobs_run owner page size w) as (jobs' & _ & Ej' & ->); [lia..|].
    by rewrite Ej', <- Ej. }
  split; [intros page Hp; eexists; by split; [apply Hrun|]|].
  intros pages Hlen.
  transitivity (map (answer w) (take (pages * Z.to_nat size) jobs)).
  - rewrite <- pages_concat, concat_map, map_map. f_equal. apply map_ext. intros k.
    rewrite Hrun by lia. cbn [fst jl_items]. do 3 f_equal. lia.
  - by rewrite take_ge by lia.
Qed.

(** ** Committing a revision *)

(** The event a request emits about [job]. *)
Definition about (job : Job.t) (ty : string) (ev : JobEvent.t) : Prop :=
  JobEvent.job_id ev = Job.id job ∧ JobEvent.event_type ev = ty ∧
  dget (JobEvent.payload ev) "attempt" = Some (JInt (Job.attempt job)).

Lemma append_recorded job ty ev w :
  about job ty ev →
  ∃ r w', InMemoryJobEventRepository.append ev w = (Ret r, w') ∧ worked w w' ∧
    w_jobs w' = w_jobs w ∧ w_outbox w' = w_outbox w ∧ recorded ty job w'.
Proof.
  intros (Hid & Hty & Hatt). unfold InMemoryJobEventRepository.append.
  erewrite bind_run by done. rewrite Hid.
  destruct (InMemoryJobEventRepository.existing ev (elog w (Job.id job))) as [item|] eqn:E.
  - exists item, w. split_and!; try done. apply existing_Some in E as [Hin He].
    apply Exists_exists. exists item. split; [done|]. unfold same_end in He.
    rewrite Hty, Hatt in He. apply andb_true_iff in He as [[_ He]%andb_true_iff ?].
    by apply bool_decide_eq_true in He.
  - do 2 eexists. split_and!; [done | done | done | done |].
    unfold recorded, elog. simpl. rewrite lookup_insert_eq. simpl.
    apply Exists_app. right. constructor. split; [done|]. simpl. rewrite Hatt.
    by apply (py_eq_refl (JInt _)).
Qed.

Lemma recorded_ext ty j j' w :
  Job.id j' = Job.id j → Job.attempt j' = Job.attempt j → recorded ty j w → recorded ty j' w.
Proof. intros Hi Ha. unfold recorded. by rewrite Hi, Ha. Qed.

(** What a commit of [j] with an event of type [ty] leaves. *)
Record saved (ty : string) (j : Job.t) (w w' : World) : Prop := {
  saved_worked : worked w w';
  saved_outbox : w_outbox w' = w_outbox w;
  saved_jobs : w_jobs w' = dset (w_jobs w) (Job.id j) (committed j);
  saved_recorded : recorded ty (committed j) w'
}.

Lemma commit_run j0 j ty ev w :
  stored j0 w → Job.id j = Job.id j0 → Job.revision j = Job.revision j0 → about j ty ev →
  ∃ r w', InMemoryJobRepository.save_with_event j ev w = (Ret (committed j, r), w') ∧ saved ty j w w'.
Proof.
  intros [Hj He] Hid Hrev Hev.
  destruct (save_with_event_run j ev w) as (r & w2 & Happ & ->).
  rewrite He, Hid, Hj. cbn [negb]. rewrite decide_True by done.
  exists r, w2. split; [done|].
  set (w1 := put_jobs (dset (w_jobs w) (Job.id j) (committed j)) w) in Happ.
  destruct (append_recorded j ty ev w1 Hev) as (r' & w2' & Happ' & Hw & Hjobs & Hout & Hrec).
  rewrite Happ in Happ'. simplify_eq. split; [|done|done|by apply (recorded_ext ty j)].
  transitivity w1; [by split | done].
Qed.

Lemma about_job_event j ty now : about j ty (job_event j ty [] now).
Proof. by split_and!. Qed.

Lemma tick_idle w : idle w (put_clock (w_clock w + 1) w).
Proof. by split. Qed.

Lemma stored_idle j w w' : idle w w' → stored j w → stored j w'.
Proof. intros [] [Hj He]. split; congruence. Qed.

Lemma saved_idle ty j w w1 w' : idle w w1 → saved ty j w1 w' → saved ty j w w'.
Proof.
  intros Hi [Hw Ho Hj Hr]. pose proof (idle_worked _ _ Hi) as Hi'. destruct Hi.
  split; [by etrans | congruence | congruence | done].
Qed.

Lemma save_and_emit_run j0 j ty w :
  stored j0 w → Job.id j = Job.id j0 → Job.revision j = Job.revision j0 →
  ∃ r w', save_and_emit j ty [] w = (Ret (committed j, r), w') ∧ saved ty j w w'.
Proof.
  intros Hs Hid Hrev. unfold save_and_emit. erewrite bind_run by done.
  set (w1 := put_clock _ w). assert (idle w w1) as Hi by apply tick_idle.
  destruct (commit_run j0 j ty (job_event j ty [] (w_clock w)) w1) as (r & w' & Hrun & Hsv);
    [by eapply stored_idle | done | done | apply about_job_event |].
  exists r, w'. split; [|by eapply saved_idle].
  unfold database, try_except. by erewrite try_else_run.
Qed.

(** ** Cancellation *)

(** The revision a cancellation of [job] commits. *)
Record cancelled_from (job j' : Job.t) (request_id : string) : Prop := {
  cancelled_id : Job.id j' = Job.id job;
  cancelled_state : Job.state j' =
    if decide (Job.state job ∈ [QUEUED; RETRYING]) then CANCELLED else CANCEL_REQUESTED;
  cancelled_revision : Job.revision j' = Job.revision job + 1;
  cancelled_attempt : Job.attempt j' = Job.attempt job;
  cancelled_pages : Job.pages j' = Job.pages job;
  cancelled_request_id : Job.request_id j' = request_id;
  cancelled_completed_at :
    Job.state j' = CANCELLED → is_Some (Job.completed_at j')
}.

Definition cancel_event (job : Job.t) : string :=
  if decide (Job.state job ∈ [QUEUED; RETRYING]) then "job.cancelled" else "job.cancel_requested".

Lemma cancel_body_run job rid w :
  stored job w → Job.state job ∈ [QUEUED; PREPROCESSING; RUNNING; ASSEMBLING; RETRYING] →
  ∃ j w', cancel_body job rid w = (Ret (committed j), w') ∧
    cancelled_from job (committed j) rid ∧ Job.upload_id j = Job.upload_id job ∧
    saved (cancel_event job) j w w'.
Proof.
  intros Hs Hst. unfold cancel_body. erewrite bind_run by done.
  set (w1 := put_clock _ w). assert (idle w w1) as Hi1 by apply tick_idle.
  unfold Job.request_cancel. rewrite transition_run by done. erewrite bind_run by done.
  set (j1 := Job.with_updated_at _ _).
  assert (∃ j w2, (if decide (Job.state job ∈ [QUEUED; RETRYING]) then
       now1 ← utc_now; now2 ← utc_now; lift (Job.cancel now1 now2 j1) else mret j1) w1 = (Ret j, w2) ∧
     idle w w2 ∧ cancelled_from job (committed j) rid ∧
     Job.upload_id j = Job.upload_id job ∧ Job.revision j = Job.revision job ∧
     Job.state j = if decide (Job.state job ∈ [QUEUED; RETRYING]) then CANCELLED else CANCEL_REQUESTED)
    as (j & w2 & Hrun & Hi2 & Hc & Hup & Hrev & Hjst).
  { case_decide as Hd.
    - erewrite bind_run by done. erewrite bind_run by done.
      unfold Job.cancel. rewrite transition_run by (simpl; set_solver).
      do 2 eexists. split; [done|]. split; [by split|]. split; [|done].
      split; simpl; try done. by rewrite decide_True.
    - do 2 eexists. split; [done|]. split; [by split|]. split; [|done].
      split; simpl; try done. by rewrite decide_False. }
  erewrite bind_run by apply Hrun.
  destruct (save_and_emit_run job j (cancel_event job) w2) as (r & w' & Hsave & Hsv);
    [by eapply stored_idle | apply Hc | done |].
  exists j, w'. split_and!; [|done|done|by eapply saved_idle].
  assert (cancel_event job =
    if decide (Job.state j = CANCELLED) then "job.cancelled" else "job.cancel_requested") as Hty.
  { unfold cancel_event. rewrite Hjst. by destruct (decide (Job.state job ∈ _)). }
  rewrite Hty in Hsave. by erewrite bind_run by exact Hsave.
Qed.

(** A decidable fact about constants. *)
Ltac decided := apply (bool_decide_unpack _); vm_compute; exact I.

(** C9: the outcome of a cancellation, for a job of the caller in any state.
    A queued or retrying job is stored as [CANCELLED] with a completion time; a
    job a worker has started is stored as [CANCEL_REQUESTED] and keeps its
    pages; either is the next revision, committed with its event.  A request
    that was made before is answered again without a change.  A finished job
    cannot be cancelled and is left as it is. *)
Theorem cancel_outcome job owner request_id w :
  stored job w → Job.owner_id job = owner →
  match Job.state job with
  | CANCEL_REQUESTED => cancel_job (Job.id job) owner request_id w = (Ret (answer w job), w)
  | CANCELLED | SUCCEEDED | FAILED => ∃ w',
      cancel_job (Job.id job) owner request_id w = (Exn job_not_cancellable, w') ∧ idle w w'
  | _ => ∃ j w', cancel_job (Job.id job) owner request_id w = (Ret (answer w (committed j)), w') ∧
      cancelled_from job (committed j) request_id ∧ saved (cancel_event job) j w w'
  end.
Proof.
  intros Hs Ho. pose proof Hs as [Hj _].
  assert (Job.state job ∈ [QUEUED; PREPROCESSING; RUNNING; ASSEMBLING; RETRYING] →
    ∃ j w', cancel_job (Job.id job) owner request_id w = (Ret (answer w (committed j)), w') ∧
      cancelled_from job (committed j) request_id ∧ saved (cancel_event job) j w w') as Hlive.
  { intros Hin. destruct (cancel_body_run job request_id w Hs Hin) as (j & w' & Hrun & Hc & Hup & Hsv).
    exists j, w'. split_and!; [|done|done]. unfold cancel_job. cbn [cancel_attempts].
    assert ((Job.state job ∉ [CANCELLED; SUCCEEDED]) ∧ Job.state job ≠ CANCEL_REQUESTED) as [Hn1 Hn2].
    { revert Hin. destruct (Job.state job); intros Hin;
        first [split; decided | exfalso; revert Hin; decided]. }
    erewrite bind_run by by apply owned_job_found. rewrite (decide_False _ _ Hn1), (decide_False _ _ Hn2).
    erewrite bind_run by (unfold attempt; by rewrite Hrun). cbv iota beta.
    rewrite to_job_dto_run. f_equal. f_equal. apply answer_worked, Hsv. }
  destruct (Job.state job) eqn:E; try (apply Hlive; decided).
  - unfold cancel_job. cbn [cancel_attempts]. erewrite bind_run by by apply owned_job_found.
    by rewrite decide_False, decide_True by (rewrite E; decided).
  - exists w. split; [|done]. unfold cancel_job. cbn [cancel_attempts].
    erewrite bind_run by by apply owned_job_found. by rewrite decide_True by (rewrite E; decided).
  - exists w. split; [|done]. unfold cancel_job. cbn [cancel_attempts].
    erewrite bind_run by by apply owned_job_found. by rewrite decide_True by (rewrite E; decided).
  - exists (put_clock (w_clock w + 1) w). split; [|apply tick_idle].
    unfold cancel_job. cbn [cancel_attempts]. erewrite bind_run by by apply owned_job_found.
    rewrite !decide_False by (rewrite E; decided).
    erewrite bind_run.
    2:{ unfold attempt, cancel_body. erewrite bind_run by done.
        unfold Job.request_cancel, Job.transition. rewrite decide_False by (simpl; rewrite E; set_solver).
        by erewrite bind_run_exn. }
    done.
Qed.

(** ** Retry *)

(** The outbox entry that orders an attempt: the payload is the message the
    publisher sends for it. *)
Definition work_order (id : UUID) (j : Job.t) (request_id : string) (now : datetime) : OutboxEvent :=
  MkOutboxEvent (Job.id j) "ocr.job.requested.v1"
    (payload_of (MkJobWorkMessage (Job.id j) (Job.attempt j) request_id 1)) request_id id now None.

(** A commit that also put the work order [ev] of [j] in the outbox. *)
Record ordered (ty : string) (j : Job.t) (ev : OutboxEvent) (w w' : World) : Prop := {
  ordered_worked : worked w w';
  ordered_outbox : w_outbox w' = dset (w_outbox w) (outbox_id ev) ev;
  ordered_jobs : w_jobs w' = dset (w_jobs w) (Job.id j) j;
  ordered_recorded : recorded ty j w'
}.

Lemma ordered_idle ty j ev w w1 w' : idle w w1 → ordered ty j ev w1 w' → ordered ty j ev w w'.
Proof.
  intros Hi [Hw Ho Hj Hr]. pose proof (idle_worked _ _ Hi) as Hi'. destruct Hi.
  split; [by etrans | congruence | congruence | done].
Qed.

Lemma order_run j0 j ty ev e w :
  stored j0 w → Job.id j = Job.id j0 → Job.revision j = Job.revision j0 → about j ty e →
  ∃ r w', database (jobs_save_with_outbox_and_event j ev e) w = (Ret (committed j, r), w') ∧
    ordered ty (committed j) ev w w'.
Proof.
  intros Hs Hid Hrev He.
  destruct (commit_run j0 j ty e w Hs Hid Hrev He) as (r & w1 & Hrun & [Hw Ho Hj Hr]).
  exists r, (put_outbox (dset (w_outbox w1) (outbox_id ev) ev) w1). split.
  - unfold database, try_except. erewrite try_else_run; [done|].
    simpl. unfold save_with_outbox_and_event. by erewrite bind_run by exact Hrun.
  - split; [by destruct Hw | simpl; by rewrite Ho | done | done].
Qed.

(** C10: the outcome of a retry, for a job of the caller in any state.  A failed
    or cancelled job is stored as the next revision, [RETRYING] in the next
    attempt as [Job.retry] leaves it, in one commit with its event and with the
    work order for the new attempt in the outbox; any other job is refused and
    left as it is. *)
Theorem retry_outcome job owner request_id w :
  stored job w → Job.owner_id job = owner →
  if decide (Job.state job ∈ [FAILED; CANCELLED]) then
    ∃ j id now w', retry_job (Job.id job) owner request_id w = (Ret (answer w (committed j)), w') ∧
      Job.retry request_id (w_clock w) job = inr j ∧
      ordered "job.retrying" (committed j) (work_order id j request_id now) w w'
  else ∃ w',
    retry_job (Job.id job) owner request_id w = (Exn job_not_retryable, w') ∧ idle w w'.
Proof.
  intros Hs Ho. pose proof Hs as [Hj _].
  unfold retry_job. cbn [retry_attempts]. case_decide as Hd.
  - assert (∃ j, Job.retry request_id (w_clock w) job = inr j ∧ Job.id j = Job.id job ∧
      Job.revision j = Job.revision job ∧ Job.upload_id j = Job.upload_id job)
      as (j & Hr & Hid & Hrev & Hup).
    { unfold Job.retry. rewrite transition_run by done. by eexists. }
    set (w3 := put_clock (w_clock w + 1 + 1 + 1) (put_uuids (w_uuids w + 1)%N w)).
    destruct (order_run job j "job.retrying"
      (requested_event (w_uuids w) j request_id (w_clock w + 1))
      (job_event j "job.retrying" [] (w_clock w + 1 + 1)) w3) as (r & w' & Hrun & Hord);
      [by eapply stored_idle; [|exact Hs] | done | done | apply about_job_event |].
    exists j, (w_uuids w), (w_clock w + 1), w'. split_and!; [|done|by eapply ordered_idle; [|exact Hord]].
    erewrite bind_run by by apply owned_job_found. erewrite bind_run by done. cbv beta.
    rewrite Hr. cbv iota. erewrite bind_run by done. erewrite bind_run by done. cbv zeta beta.
    erewrite bind_run.
    2:{ unfold attempt. erewrite bind_run by done. 
        match goal with |- context [database _ ?w0] => change w0 with w3 end.
        match goal with |- context [job_event j "job.retrying" [] ?t] =>
          change t with (w_clock w + 1 + 1) end.
        match goal with |- context [requested_event ?i j request_id ?t] =>
          change t with (w_clock w + 1); change i with (w_uuids w) end.
        by rewrite Hrun. }
    cbv iota beta. rewrite to_job_dto_run. do 2 f_equal. rewrite (answer_worked w).
    { done. } eapply ordered_worked, ordered_idle; [|exact Hord]. by split.
  - exists (put_clock (w_clock w + 1) w). split; [|apply tick_idle].
    erewrite bind_run by by apply owned_job_found. erewrite bind_run by done.
    unfold Job.retry, Job.transition. rewrite decide_False by done. cbn.
    by rewrite andb_false_r.
Qed.

(** ** Creating a job *)

Abbreviation find_key o k w :=
  (head (filter (λ item, InMemoryJobRepository.same_key o k item = true) (dvalues (w_jobs w)))).

(** The job a request with this key was answered with before. *)
Definition earlier (o : string) (key : option string) (w : World) : option Job.t :=
  match key with
  | Some k => if truthy k then find_key o k w else None
  | None => None
  end.

(** The earlier job answers the request: same upload, equal options. *)
Definition same_request (job : Job.t) (upload : Upload.t) (request : CreateJobRequest) : bool :=
  bool_decide (Job.upload_id job = Upload.id upload) &&
  py_eq (JObj (Job.options job)) (JObj (cjr_options request)).

Lemma create_job_run request o rid key upload w :
  dget (w_uploads w) (cjr_upload_id request) = Some upload → Upload.owner_id upload = o →
  create_job request o rid key w =
  if bool_decide (Upload.state upload = UploadState_COMPLETED) then
    match earlier o key w with
    | Some job => if same_request job upload request then (Ret (answer w job), w)
                  else (Exn idempotency_conflict, w)
    | None => create_new_job upload request o rid key w
    end
  else (Exn upload_not_completed, w).
Proof.
  intros Hu Ho. unfold create_job. erewrite bind_run by by apply owned_upload_found.
  case_bool_decide; [|done]. cbn [negb]. cbv iota.
  assert (match key with
          | Some key => if truthy key then database (jobs_find_by_idempotency_key o key) else mret None
          | None => mret None end w = (Ret (earlier o key w), w)) as Hf.
  { unfold earlier. destruct key as [k|]; [|done]. by destruct (truthy k). }
  erewrite bind_run by exact Hf. destruct (earlier o key w) as [job|]; [|done].
  unfold replay, same_request. rewrite <- negb_andb.
  by destruct (bool_decide _ && py_eq _ _).
Qed.

Lemma find_key_None o k w :
  find_key o k w = None →
  existsb (InMemoryJobRepository.same_key o k) (dvalues (w_jobs w)) = false.
Proof.
  intros H. apply not_true_iff_false. intros (j & Hin & Hk)%existsb_exists.
  assert (j ∈ filter (λ item, InMemoryJobRepository.same_key o k item = true) (dvalues (w_jobs w)))
    as Hf by (apply list_elem_of_filter; split; [done | by apply list_elem_of_In]).
  by destruct (filter _ _); [apply not_elem_of_nil in Hf|].
Qed.

(** [uuid7] is about to return an id that is not in use. *)
Definition fresh (w : World) : Prop := dget (w_jobs w) (w_uuids w) = None.

Lemma create_new_job_run upload request o rid key w :
  w_has_events w = true → fresh w → earlier o key w = None →
  ∃ t1 t2 id now w',
    let job := Job.new o (Upload.id upload) rid (cjr_options request) key (w_uuids w) t1 t2 in
    create_new_job upload request o rid key w = (Ret (answer w job), w') ∧
    ordered "job.queued" job (work_order id job rid now) w w'.
Proof.
  intros He Hf Hk.
  set (t := w_clock w).
  set (job := Job.new o (Upload.id upload) rid (cjr_options request) key (w_uuids w) t (t + 1)).
  set (ev := requested_event (w_uuids w + 1) job rid (t + 1 + 1)).
  set (w0 := put_clock (t + 1 + 1 + 1 + 1) (put_uuids (w_uuids w + 1 + 1)%N w)).
  set (w1 := put_outbox (dset (w_outbox w) (outbox_id ev) ev) (put_jobs (dset (w_jobs w) (Job.id job) job) w0)).
  destruct (append_recorded job "job.queued" (job_event job "job.queued" [] (t + 1 + 1 + 1)) w1)
    as (r & w' & Happ & Hw & Hjobs & Hout & Hrec); [apply about_job_event|].
  assert (worked w w') as Hw' by (transitivity w1; [by split | done]).
  exists t, (t + 1), (w_uuids w + 1)%N, (t + 1 + 1), w'. cbv zeta. split; [|by split].
  unfold create_new_job. do 5 (erewrite bind_run by done; cbv beta zeta).
  assert (InMemoryJobRepository.add job w0 =
    (Ret (), put_jobs (dset (w_jobs w) (Job.id job) job) w0)) as Hadd.
  { unfold InMemoryJobRepository.add. erewrite bind_run by done.
    change (dget (w_jobs w0) (Job.id job)) with (dget (w_jobs w) (w_uuids w)). rewrite Hf.
    assert (match Job.idempotency_key job with
      | Some key => truthy key && existsb (InMemoryJobRepository.same_key (Job.owner_id job) key)
                                    (dvalues (w_jobs w0))
      | None => false end = false) as Hdup.
    { change (Job.idempotency_key job) with key. unfold earlier in Hk. destruct key as [k|]; [|done].
      destruct (truthy k); [|done]. by apply find_key_None. }
    by rewrite Hdup. }
  assert (jobs_add_with_outbox_and_event job ev (job_event job "job.queued" [] (t + 1 + 1 + 1)) w0 =
    (Ret r, w')) as Hrun.
  { simpl. unfold add_with_outbox_and_event. erewrite bind_run by exact Hadd.
    erewrite bind_run by done.
    assert (atomic (gets w_has_events) w1 = (Ret (E := exc) true, w1)) as Hg
      by (unfold atomic, atomic_alone, gets; simpl; by rewrite He).
    erewrite bind_run by exact Hg. exact Happ. }
  erewrite bind_run.
  2:{ unfold attempt. erewrite bind_run by done. unfold database, try_except.
      by erewrite try_else_run by exact Hrun. }
  cbv iota beta. rewrite to_job_dto_run. do 2 f_equal. by apply answer_worked.
Qed.

(** C11: the outcome of a creation.  For a completed upload of the caller and a
    key (if any) that no job has, exactly one job is stored: new, [QUEUED] in
    its first attempt, with its event and its work order in the outbox.  A key
    that has a job answers with that job, or is a conflict when the request
    differs, and then nothing changes; neither does it for an incomplete
    upload. *)
Theorem create_outcome request owner request_id key upload w :
  dget (w_uploads w) (cjr_upload_id request) = Some upload → Upload.owner_id upload = owner →
  w_has_events w = true → fresh w →
  match Upload.state upload, earlier owner key w with
  | UploadState_COMPLETED, None => ∃ job id now w',
      create_job request owner request_id key w = (Ret (answer w job), w') ∧
      birth job ∧ Job.id job = w_uuids w ∧ Job.owner_id job = owner ∧ Job.upload_id job = Upload.id upload ∧
      Job.options job = cjr_options request ∧ Job.idempotency_key job = key ∧
      Job.request_id job = request_id ∧ dget (w_jobs w) (Job.id job) = None ∧
      ordered "job.queued" job (work_order id job request_id now) w w'
  | UploadState_COMPLETED, Some job => create_job request owner request_id key w =
      (if same_request job upload request then Ret (answer w job) else Exn idempotency_conflict, w)
  | _, _ => create_job request owner request_id key w = (Exn upload_not_completed, w)
  end.
Proof.
  intros Hu Ho He Hf. pose proof (create_job_run request owner request_id key upload w Hu Ho) as Hrun.
  destruct (Upload.state upload); [exact Hrun| |exact Hrun].
  change (bool_decide (UploadState_COMPLETED = UploadState_COMPLETED)) with true in Hrun.
  cbv iota in Hrun.
  destruct (earlier owner key w) as [job|] eqn:Ek; [by destruct (same_request job upload request)|].
  destruct (create_new_job_run upload request owner request_id key w He Hf Ek)
    as (t1 & t2 & id & now & w' & Hnew & Hord). rewrite Hnew in Hrun.
  do 4 eexists. split; [exact Hrun|]. split; [by split|]. by split_and!.
Qed.

Lemma earlier_ordered o key rid upload request ev w w' t1 t2 k :
  key = Some k → truthy k = true → earlier o key w = None → fresh w →
  let job := Job.new o (Upload.id upload) rid (cjr_options request) key (w_uuids w) t1 t2 in
  ordered "job.queued" job ev w w' → earlier o key w' = Some job.
Proof.
  intros -> Ht Hk Hf job Hord. unfold earlier in *. rewrite Ht in *.
  rewrite (ordered_jobs _ _ _ _ _ Hord), dset_fresh by exact Hf.
  unfold dvalues. rewrite fmap_app, filter_app. fold (dvalues (w_jobs w)).
  destruct (filter _ (dvalues (w_jobs w))); [|done]. simpl.
  rewrite filter_cons, decide_True; [done|]. by apply bool_decide_eq_true.
Qed.

Lemma earlier_spec o k w job :
  earlier o (Some k) w = Some job →
  job ∈ dvalues (w_jobs w) ∧ Job.owner_id job = o ∧ Job.idempotency_key job = Some k.
Proof.
  unfold earlier. destruct (truthy k); [|done]. unfold find_key. intros H.
  assert (job ∈ filter (λ j, bool_decide (Job.owner_id j = o ∧ Job.idempotency_key j = Some k) = true)
    (dvalues (w_jobs w))) as Hin.
  { destruct (filter _ _); [done|]. simpl in H. injection H as ->. by left. }
  apply list_elem_of_filter in Hin as [H'%bool_decide_eq_true Hin]. tauto.
Qed.

(** A creation that succeeds leaves a job for its key, and answers with it. *)
Lemma created_for_key request owner request_id k upload d w w' :
  truthy k = true → wf_json (JObj (cjr_options request)) = true →
  w_has_events w = true → fresh w →
  dget (w_uploads w) (cjr_upload_id request) = Some upload → Upload.owner_id upload = owner →
  create_job request owner request_id (Some k) w = (Ret d, w') →
  w_uploads w' = w_uploads w ∧ Upload.state upload = UploadState_COMPLETED ∧
  ∃ job, earlier owner (Some k) w' = Some job ∧ same_request job upload request = true ∧
    d = answer w' job.
Proof.
  intros Ht Hwf He Hf Hu Ho Hrun. rewrite (create_job_run _ _ _ _ upload) in Hrun by done.
  case_bool_decide as Hst; [|done].
  destruct (earlier owner (Some k) w) as [job|] eqn:Ek.
  - destruct (same_request job upload request) eqn:Es; [|done]. injection Hrun as <- <-.
    split_and!; [done..|]. by exists job.
  - destruct (create_new_job_run upload request owner request_id (Some k) w He Hf Ek)
      as (t1 & t2 & id & now & w1 & Hnew & Hord). rewrite Hnew in Hrun. injection Hrun as <- <-.
    pose proof (ordered_worked _ _ _ _ _ Hord) as Hw.
    split_and!; [by rewrite (worked_uploads _ _ Hw) | done|]. eexists. split_and!.
    + exact (earlier_ordered _ _ _ _ _ _ _ _ _ _ k eq_refl Ht Ek Hf Hord).
    + unfold same_request. rewrite bool_decide_eq_true_2 by done. simpl Job.options.
      by rewrite py_eq_refl.
    + symmetry. by apply answer_worked.
Qed.

(** C8: idempotency.  After a creation with a key has succeeded there is one job
    of the caller for the key, and it is the answer to every further request for
    a completed upload of the caller under the key, with nothing changed: the
    same request, and any other for the same upload with equal options, gets the
    same answer; a request for another upload, or with other options, is refused
    as an idempotency conflict. *)
Theorem create_idempotent request owner request_id k d w w' :
  truthy k = true → wf_json (JObj (cjr_options request)) = true →
  w_has_events w = true → fresh w →
  create_job request owner request_id (Some k) w = (Ret d, w') →
  (∀ request_id', create_job request owner request_id' (Some k) w' = (Ret d, w')) ∧
  ∃ job, job ∈ dvalues (w_jobs w') ∧ Job.owner_id job = owner ∧ Job.idempotency_key job = Some k ∧
    d = answer w' job ∧
    ∀ other upload request_id', dget (w_uploads w') (cjr_upload_id other) = Some upload →
      Upload.owner_id upload = owner → Upload.state upload = UploadState_COMPLETED →
      create_job other owner request_id' (Some k) w' =
      (if bool_decide (Job.upload_id job = Upload.id upload) &&
          py_eq (JObj (Job.options job)) (JObj (cjr_options other))
       then Ret d else Exn idempotency_conflict, w').
Proof.
  intros Ht Hwf He Hf Hrun.
  destruct (dget (w_uploads w) (cjr_upload_id request)) as [upload|] eqn:Hu.
  2:{ unfold create_job in Hrun. erewrite bind_run_exn in Hrun; [done|]. by rewrite owned_upload_run, Hu. }
  destruct (decide (Upload.owner_id upload = owner)) as [Ho|Hno].
  2:{ unfold create_job in Hrun. erewrite bind_run_exn in Hrun; [done|].
      by rewrite owned_upload_run, Hu, bool_decide_eq_false_2. }
  destruct (created_for_key request owner request_id k upload d w w') as (Hup & Hst & job & Ej & Es & ->);
    [done..|].
  destruct (earlier_spec _ _ _ _ Ej) as (Hin & Hjo & Hjk). split.
  - intros rid. by rewrite (create_job_run _ _ _ _ upload), bool_decide_eq_true_2, Ej, Es
      by (done || by rewrite Hup).
  - exists job. split_and!; [done..|]. intros other upload' rid Hu' Ho' Hs'.
    rewrite (create_job_run _ _ _ _ upload'), bool_decide_eq_true_2, Ej by done.
    unfold same_request. by destruct (_ && _).
Qed.

(** ** Completing an upload *)

(** The two checks of the session before the object is looked at. *)
Definition session_ok (u : Upload.t) (provided_sha256 multipart_upload_id : option string) : Prop :=
  (provided_sha256 = None ∨ provided_sha256 = Some (Upload.sha256 u)) ∧
  (truthy_opt (Upload.multipart_upload_id u) = true →
   multipart_upload_id = Upload.multipart_upload_id u).

(** The object has the declared size and digest, and so does the digest the
    store reports. *)
Definition intact (u : Upload.t) (data digest : string) : bool :=
  bool_decide (bytes_len data = Upload.size_bytes u) &&
  negb (truthy digest && negb (bool_decide (digest = Upload.sha256 u))) &&
  bool_decide (sha256 data = Upload.sha256 u).

(** The stored upload [u] is replaced by [u'], and nothing else changes. *)
Record upload_stored (u u' : Upload.t) (w w' : World) : Prop := {
  us_uploads : w_uploads w' = dset (w_uploads w) (Upload.id u) u';
  us_jobs : w_jobs w' = w_jobs w;
  us_events : w_events w' = w_events w;
  us_outbox : w_outbox w' = w_outbox w;
  us_objects : w_objects w' = w_objects w
}.

Lemma uploads_save_run u u' w :
  dget (w_uploads w) (Upload.id u) = Some u → Upload.id u' = Upload.id u →
  ∃ w', database (uploads_save u') w = (Ret (), w') ∧ upload_stored u u' w w'.
Proof.
  intros Hu Hid. exists (put_uploads (dset (w_uploads w) (Upload.id u) u') w).
  split; [|by split]. unfold database, try_except. erewrite try_else_run; [done|].
  simpl. unfold atomic, atomic_alone, InMemoryUploadRepository.save.
  erewrite bind_run by done. rewrite Hid, Hu. done.
Qed.

Lemma stat_run k w :
  storage (storage_stat k) w =
  (Ret (match dget (w_objects w) k with
        | Some (data, content_type, digest) =>
            Some (MkObjectInfo k (bytes_len data) (Some digest) content_type)
        | None => None
        end), w).
Proof.
  unfold storage, try_except. erewrite try_else_run; [done|].
  simpl. unfold atomic, atomic_alone, InMemoryObjectStorage.stat, gets.
  by destruct (dget (w_objects w) k) as [[[??]?]|].
Qed.

Lemma finish_upload_run u parts w :
  dget (w_uploads w) (Upload.id u) = Some u → Upload.state u = UploadState_UPLOADING →
  match dget (w_objects w) (Upload.object_key u) with
  | None => finish_upload u parts w = (Exn upload_object_missing, w)
  | Some (data, _, digest) =>
      if intact u data digest then
        match validate u data with
        | inl e => finish_upload u parts w = (Exn e, w)
        | inr r => ∃ u' w',
            finish_upload u parts w = (Ret (MkCompleteUploadDTO (Upload.id u) "completed"
              (detected_content_type r)), w') ∧
            Upload.complete (detected_content_type r) (w_clock w) u = inr u' ∧
            upload_stored u u' w w'
        end
      else ∃ e w', finish_upload u parts w = (Exn e, w') ∧
        (e = upload_size_or_hash_mismatch ∨ e = upload_hash_mismatch) ∧
        upload_stored u (Upload.reject u) w w'
  end.
Proof.
  intros Hu Hst. unfold finish_upload. erewrite bind_run by done.
  erewrite bind_run by apply stat_run.
  destruct (dget (w_objects w) (Upload.object_key u)) as [[[data ct] digest]|] eqn:Ho; [|done].
  cbv beta iota. cbn [info_size_bytes info_sha256]. cbv iota. unfold intact.
  destruct (uploads_save_run u (Upload.reject u) w Hu eq_refl) as (w1 & Hrej & Hs1).
  destruct (bool_decide (bytes_len data = Upload.size_bytes u)); cbn [negb orb andb].
  2:{ do 2 eexists. split; [by erewrite bind_run by exact Hrej | auto]. }
  destruct (truthy digest && negb (bool_decide (digest = Upload.sha256 u))); cbn [negb orb andb].
  { do 2 eexists. split; [by erewrite bind_run by exact Hrej | auto]. }
  erewrite bind_run.
  2:{ unfold try_except. erewrite try_else_run; [done|]. unfold storage, try_except.
      erewrite try_else_run; [done|]. simpl. unfold atomic, atomic_alone, InMemoryObjectStorage.get_bytes.
      erewrite bind_run by done. by rewrite Ho. }
  destruct (bool_decide (sha256 data = Upload.sha256 u)); cbn [negb].
  2:{ do 2 eexists. split; [by erewrite bind_run by exact Hrej | auto]. }
  destruct (validate u data) as [e|r] eqn:Ev.
  { erewrite bind_run_exn; [done|]. unfold validator_validate, file_validator. by rewrite Ev. }
  erewrite bind_run by (unfold validator_validate, file_validator; by rewrite Ev).
  erewrite bind_run by done. unfold Upload.complete. rewrite decide_True by done.
  set (u' := Upload.with_completed_at _ _). set (w2 := put_clock _ w).
  destruct (uploads_save_run u u' w2 Hu eq_refl) as (w' & Hsave & Hs').
  exists u', w'. split_and!; [|done|by destruct Hs'].
  erewrite bind_run by done. cbv beta. by erewrite bind_run by exact Hsave.
Qed.

(** C12: integrity of uploads.  Completing a session of the caller that is
    [UPLOADING] looks at the stored object: only if its size and its SHA-256
    digest are the declared ones and the validator accepts it is the upload
    stored as [COMPLETED]; with another size or digest it is stored as
    [REJECTED] and refused; if the object is missing or not acceptable, nothing
    changes.  A [COMPLETED] session is answered again, a [REJECTED] one refused. *)
Theorem complete_upload_outcome u owner provided multipart parts w :
  dget (w_uploads w) (Upload.id u) = Some u → Upload.owner_id u = owner →
  session_ok u provided multipart →
  let call := complete_upload (Upload.id u) owner provided multipart parts in
  match Upload.state u, dget (w_objects w) (Upload.object_key u) with
  | UploadState_COMPLETED, _ => ∃ t, call w = (Ret (MkCompleteUploadDTO (Upload.id u) "completed" t), w)
  | UploadState_REJECTED, _ => ∃ e, call w = (Exn e, w)
  | UploadState_UPLOADING, None => call w = (Exn upload_object_missing, w)
  | UploadState_UPLOADING, Some (data, _, digest) =>
      if intact u data digest then
        match validate u data with
        | inl e => call w = (Exn e, w)
        | inr r => ∃ u' w',
            call w = (Ret (MkCompleteUploadDTO (Upload.id u) "completed" (detected_content_type r)), w') ∧
            Upload.complete (detected_content_type r) (w_clock w) u = inr u' ∧
            upload_stored u u' w w'
        end
      else ∃ e w', call w = (Exn e, w') ∧
        (e = upload_size_or_hash_mismatch ∨ e = upload_hash_mismatch) ∧
        upload_stored u (Upload.reject u) w w'
  end.
Proof.
  intros Hu Ho [Hp Hm] call.
  assert (∀ r, (match Upload.state u with
    | UploadState_COMPLETED => mret (MkCompleteUploadDTO (Upload.id u)
        (upload_state_str (Upload.state u))
        (or_str (Upload.detected_content_type u) (Upload.content_type u)))
    | UploadState_REJECTED => raise (business_error COMMON_STATE_CONFLICT "上传会话状态不允许完成"
        "upload_state_conflict" None)
    | UploadState_UPLOADING => finish_upload u parts
    end : Mem _) w = r → call w = r) as Hcall.
  { intros r <-. unfold call, complete_upload. erewrite bind_run by by apply owned_upload_found.
    assert (match provided with
            | Some d => negb (bool_decide (d = Upload.sha256 u)) | None => false end = false) as ->.
    { destruct Hp as [-> | ->]; [done|]. by rewrite bool_decide_eq_true_2. }
    assert (truthy_opt (Upload.multipart_upload_id u) &&
      negb (bool_decide (multipart = Upload.multipart_upload_id u)) = false) as ->; [|done].
    destruct (truthy_opt (Upload.multipart_upload_id u)); [|done].
    by rewrite bool_decide_eq_true_2 by auto. }
  pose proof (finish_upload_run u parts w Hu) as Hfin.
  destruct (Upload.state u).
  - specialize (Hfin eq_refl).
    destruct (dget (w_objects w) (Upload.object_key u)) as [[[data ct] digest]|]; [|by apply Hcall].
    destruct (intact u data digest).
    + destruct (validate u data) as [e|r]; [by apply Hcall|].
      destruct Hfin as (u' & w' & Hrun & ?). exists u', w'. split; [by apply Hcall | done].
    + destruct Hfin as (e & w' & Hrun & ?). exists e, w'. split; [by apply Hcall | done].
  - eexists. by apply Hcall.
  - eexists. by apply Hcall.
Qed.

(** ** A concrete world *)

Module SampleService.

Definition upload : Upload.t :=
  Upload.Mk "owner" "a.pdf" 8 "application/pdf" (sha256 "%PDF-1.7") "uploads/2/source" 2
    UploadState_COMPLETED 0 (Some 1) (Some "application/pdf") None.

(** The same upload before it was completed. *)
Definition uploading : Upload.t := Upload.with_state UploadState_UPLOADING upload.

Definition job : Job.t := Job.new "owner" 2 "req" [("lang", JStr "zh")] (Some "key") 7 3 3.

Definition failed : Job.t := match Job.fail "engine_timeout" 50002 5 6 job with inr j => j | inl _ => job end.

Definition world_with (u : Upload.t) (jobs : list Job.t) : World :=
  MkWorld [(2%N, u)] ((λ j, (Job.id j, j)) <$> jobs) true ∅ []
    [("uploads/2/source", ("%PDF-1.7", "application/pdf", sha256 "%PDF-1.7"))] [] [] 10 100 [].

Definition request : CreateJobRequest := MkCreateJobRequest 2 [("lang", JStr "en")].

End SampleService.

Lemma pagination_witness :
  ∃ jobs, newest_first "owner" (SampleService.world_with SampleService.upload [SampleService.job]) jobs ∧
    (∀ page, 1 ≤ page → ∃ items,
       list_jobs "owner" page 20 (SampleService.world_with SampleService.upload [SampleService.job]) =
         (Ret (MkJobListDTO items (Z.of_nat (length jobs)) page 20),
          SampleService.world_with SampleService.upload [SampleService.job]) ∧
       items = map (answer (SampleService.world_with SampleService.upload [SampleService.job]))
         (take (Z.to_nat 20) (drop (Z.to_nat ((page - 1) * 20)) jobs))) ∧
    (∀ pages, Z.of_nat (length jobs) ≤ Z.of_nat pages * 20 →
       concat (map (λ k, match (list_jobs "owner" (Z.of_nat k + 1) 20
           (SampleService.world_with SampleService.upload [SampleService.job])).1 with
           | Ret l => jl_items l | _ => [] end) (seq 0 pages)) =
       map (answer (SampleService.world_with SampleService.upload [SampleService.job])) jobs).
Proof. apply pagination. lia. Defined.

Lemma cancel_outcome_witness :
  ∃ j w', cancel_job 7 "owner" "req-2" (SampleService.world_with SampleService.upload [SampleService.job]) =
      (Ret (answer (SampleService.world_with SampleService.upload [SampleService.job]) (committed j)), w') ∧
    cancelled_from SampleService.job (committed j) "req-2" ∧
    saved "job.cancelled" j (SampleService.world_with SampleService.upload [SampleService.job]) w'.
Proof.
  exact (cancel_outcome SampleService.job "owner" "req-2"
    (SampleService.world_with SampleService.upload [SampleService.job]) (conj eq_refl eq_refl) eq_refl).
Defined.

Lemma retry_outcome_witness :
  ∃ j id now w', retry_job 7 "owner" "req-2" (SampleService.world_with SampleService.upload [SampleService.failed]) =
      (Ret (answer (SampleService.world_with SampleService.upload [SampleService.failed]) (committed j)), w') ∧
    Job.retry "req-2" 10 SampleService.failed = inr j ∧
    ordered "job.retrying" (committed j) (work_order id j "req-2" now)
      (SampleService.world_with SampleService.upload [SampleService.failed]) w'.
Proof.
  exact (retry_outcome SampleService.failed "owner" "req-2"
    (SampleService.world_with SampleService.upload [SampleService.failed]) (conj eq_refl eq_refl) eq_refl).
Defined.

Lemma create_outcome_witness :
  ∃ job id now w',
    create_job SampleService.request "owner" "req" (Some "other")
      (SampleService.world_with SampleService.upload [SampleService.job]) =
      (Ret (answer (SampleService.world_with SampleService.upload [SampleService.job]) job), w') ∧
    birth job ∧ Job.id job = 100%N ∧ Job.owner_id job = "owner" ∧ Job.upload_id job = 2%N ∧
    Job.options job = cjr_options SampleService.request ∧ Job.idempotency_key job = Some "other" ∧
    Job.request_id job = "req" ∧
    dget (w_jobs (SampleService.world_with SampleService.upload [SampleService.job])) (Job.id job) = None ∧
    ordered "job.queued" job (work_order id job "req" now)
      (SampleService.world_with SampleService.upload [SampleService.job]) w'.
Proof.
  exact (create_outcome SampleService.request "owner" "req" (Some "other") SampleService.upload
    (SampleService.world_with SampleService.upload [SampleService.job]) eq_refl eq_refl eq_refl eq_refl).
Defined.

Lemma create_idempotent_witness :
  ∃ d w', create_job SampleService.request "owner" "req" (Some "other")
      (SampleService.world_with SampleService.upload []) = (Ret d, w') ∧
    create_job SampleService.request "owner" "req-2" (Some "other") w' = (Ret d, w').
Proof.
  destruct (create_job SampleService.request "owner" "req" (Some "other")
    (SampleService.world_with SampleService.upload [])) as [[d|e|] w'] eqn:E.
  - exists d, w'. split; [reflexivity|].
    exact (proj1 (create_idempotent SampleService.request "owner" "req" "other" d
      (SampleService.world_with SampleService.upload []) w' eq_refl eq_refl eq_refl eq_refl E) "req-2").
  - exfalso. vm_compute in E. discriminate E.
  - exfalso. vm_compute in E. discriminate E.
Defined.

Lemma complete_upload_outcome_witness :
  ∃ u' w', complete_upload 2 "owner" None None None (SampleService.world_with SampleService.uploading []) =
      (Ret (MkCompleteUploadDTO 2 "completed" "application/pdf"), w') ∧
    Upload.complete "application/pdf" 10 SampleService.uploading = inr u' ∧
    upload_stored SampleService.uploading u' (SampleService.world_with SampleService.uploading []) w'.
Proof.
  pose proof (complete_upload_outcome SampleService.uploading "owner" None None None
    (SampleService.world_with SampleService.uploading []) eq_refl eq_refl) as H.
  assert (session_ok SampleService.uploading None None) as Hs by (split; [by left | discriminate]).
  specialize (H Hs). cbv zeta in H.
  change (Upload.state SampleService.uploading) with UploadState_UPLOADING in H.
  change (dget (w_objects _) _) with (Some ("%PDF-1.7", "application/pdf", sha256 "%PDF-1.7")) in H.
  cbv beta iota in H.
  assert (intact SampleService.uploading "%PDF-1.7" (sha256 "%PDF-1.7") = true) as Hi
    by (vm_compute; reflexivity).
  assert (validate SampleService.uploading "%PDF-1.7" = inr (MkFileValidationResult "application/pdf")) as Hv
    by (vm_compute; reflexivity).
  rewrite Hi, Hv in H. exact H.
Defined.
