(* ===== verification/EndToEnd.v ===== *)
(** * From the request to the result

    The service, the outbox dispatcher, the Kafka message and the worker put
    together: a request that creates a job leads, through one dispatch and one
    delivery, to a finished job whose documents the owner can download. *)

From Stdlib Require Import Ascii Sorted.
From Stdlib Require Import QArith.
From S2P Require Import Prelude PyData PyText PyValue Json JsonFacts Status Domain DomainFacts.
From S2P Require Import Ports Sha256 Engine History Memory MemoryFacts Dto FileValidation Worker.
From S2P Require Import WorkerSafety WorkerTotal WorkerFacts Messaging MessagingFacts Services.
From S2P Require Import ServiceSafety ServiceFacts.

#[local] Open Scope Z_scope.

(** The order the service puts in the outbox is one the dispatcher understands. *)
Lemma requested_event_order id job request_id now :
  (Job.id job < 2 ^ 128)%N →
  order_for (requested_event id job request_id now)
    (MkJobWorkMessage (Job.id job) (Job.attempt job) request_id 1).
Proof.
  intros H. split; [done|].
  exact (message_of_payload_of (MkJobWorkMessage (Job.id job) (Job.attempt job) request_id 1) H).
Qed.

(** Adding an event to an outbox in which everything is published. *)
Lemma filter_dset_published (items : list (UUID * OutboxEvent)) id ev :
  filter unpublished (dvalues items) = [] → outbox_published_at ev = None →
  filter unpublished (dvalues (dset items id ev)) = [ev].
Proof.
  intros Hp Hev. induction items as [|[k x] items IH]; csimpl in *.
  { by rewrite filter_cons, decide_True. }
  rewrite filter_cons in Hp. case_decide as Hx; [done|].
  case_decide; csimpl; rewrite filter_cons.
  - by rewrite decide_True, Hp.
  - rewrite decide_False by done. auto.
Qed.

Lemma backlog_add w ev :
  backlog w = [] → outbox_published_at ev = None →
  backlog (put_outbox (dset (w_outbox w) (outbox_id ev) ev) w) = [ev].
Proof.
  intros Hb Hev. unfold backlog. simpl. rewrite filter_dset_published; [done| |done].
  apply Permutation_nil_r. rewrite <- Hb. symmetry. apply (py_sorted_perm outbox_created_at false).
Qed.

Lemma wf_outbox_add w ev :
  wf_outbox w → wf_outbox (put_outbox (dset (w_outbox w) (outbox_id ev) ev) w).
Proof.
  intros [Hk Hi]. split; simpl; [by apply dset_NoDup|].
  induction Hi as [|[k x] items Hx Hi IH]; simpl; [by repeat constructor|].
  csimpl in Hk. apply NoDup_cons in Hk as [_ Hk].
  case_decide; [subst k; constructor; [done|] | constructor; auto]. done.
Qed.

Definition download_url (key : string) : string := "memory://" +:+ key +:+ "?download=1".

Lemma list_artifacts_run job owner w :
  dget (w_jobs w) (Job.id job) = Some job → Job.owner_id job = owner → Job.state job = SUCCEEDED →
  Forall (λ a, present (Artifact.object_key a) w) (Job.artifacts job) →
  list_artifacts (Job.id job) owner w =
    (Ret (map (λ a, artifact_dto a (download_url (Artifact.object_key a))) (Job.artifacts job)), w).
Proof.
  intros Hj Ho Hs Hp. unfold list_artifacts. erewrite bind_run by by apply owned_job_found.
  rewrite bool_decide_eq_true_2 by done. cbn [negb]. cbv iota.
  induction Hp as [|a l Ha Hl IH]; [done|]. simpl.
  assert (artifact_item a w = (Ret (artifact_dto a (download_url (Artifact.object_key a))), w)) as Hit.
  { unfold artifact_item. destruct Ha as [[[data ct] d] Ha].
    erewrite bind_run; [done|]. unfold try_except. erewrite try_else_run; [done|].
    unfold Services.storage, try_except. erewrite try_else_run; [done|]. simpl.
    unfold atomic, atomic_alone, InMemoryObjectStorage.create_download_url.
    erewrite bind_run by done. unfold InMemoryObjectStorage.stat. simpl. by rewrite Ha. }
  erewrite bind_run by exact Hit. by erewrite bind_run by exact IH.
Qed.

#[export] Instance file_validator_quiet {W} (inv : W → Prop) view :
  QuietValidator inv view.
Proof.
  intros u d w Hi _. unfold validator_validate, file_validator, lift.
  destruct (validate u d); simpl; split_and!; done || reflexivity.
Qed.

Section end_to_end.
Context `{!OCREngine World, !DocumentPreprocessor World}.
Context `{!QuietEngine wf_world mview, !QuietPreprocessor wf_world mview}.
Context (max_page_retries : Z) (retry_base_seconds : Q).
Hypothesis Hengine : ∀ image n options request_id,
  answers (engine_recognize image n options request_id)
    (λ result _, wf_json (JObj (result_structured result)) = true ∧
                 wf_json (JObj (result_engine_metadata result)) = true).
Hypothesis Hprepare : ∀ upload job,
  answers (preprocessor_prepare upload job)
    (λ prepared w, prepared ≠ [] ∧ Forall (λ p, present (prepared_object_key p) w) prepared).
Hypothesis Hretries : 0 ≤ max_page_retries.

(** The first half: the request and the dispatch. *)
Lemma request_and_dispatch request owner request_id key upload w :
  wf_world w → w_has_events w = true → fresh w → (w_uuids w < 2 ^ 128)%N →
  wf_outbox w → backlog w = [] →
  dget (w_uploads w) (cjr_upload_id request) = Some upload → Upload.owner_id upload = owner →
  Upload.id upload = cjr_upload_id request →
  Upload.state upload = UploadState_COMPLETED → earlier owner key w = None →
  ∃ job w1 w2,
    create_job request owner request_id key w = (Ret (answer w job), w1) ∧
    dispatch_once 100 w1 = (Ret 1, w2) ∧
    w_messages w2 = w_messages w ++ [MkJobWorkMessage (Job.id job) 1 request_id 1] ∧
    birth job ∧ Job.owner_id job = owner ∧ (Job.id job < 2 ^ 128)%N ∧
    stored job w2 ∧ Job.pages job = [] ∧ Job.upload_id job = Upload.id upload ∧
    dget (w_uploads w2) (Upload.id upload) = Some upload ∧ wf_world w2.
Proof.
  intros Hw He Hf Hid Hwo Hb Hu Ho Huid Hst Hk.
  destruct (create_new_job_run upload request owner request_id key w He Hf Hk)
    as (t1 & t2 & id & now & w1 & Hrun & Hord). simpl in Hrun, Hord.
  set (job := Job.new _ _ _ _ _ _ _ _) in *. set (ev := work_order id job request_id now) in *.
  pose proof (create_job_run request owner request_id key upload w Hu Ho) as Hc.
  rewrite bool_decide_eq_true_2, Hk, Hrun in Hc by done.
  destruct (rg_create_job wf_world mview exact request owner request_id key I w Hw I) as (Hw1 & _ & _).
  rewrite Hc in Hw1. simpl in Hw1.
  destruct Hord as [[Hup Hev Hob Hms] Hout Hjobs _].
  assert (backlog w1 = [ev] ∧ wf_outbox w1) as [Hb1 Hwo1].
  { assert (w_outbox w1 = w_outbox (put_outbox (dset (w_outbox w) (outbox_id ev) ev) w)) as E by done.
    pose proof (backlog_add w ev Hb eq_refl) as H1. pose proof (wf_outbox_add w ev Hwo) as [H2 H3].
    split; [unfold backlog in *; by rewrite E|]. split; by rewrite E. }
  assert (∀ m w, publisher_publish m w = (Ret (), put_messages (w_messages w ++ [m]) w) ∨
    ∃ e, publisher_publish m w = (Exn (A := ()) (E := exc) e, w)) as Hpub by by left.
  destruct (dispatch_events_run Hpub [ev] [MkJobWorkMessage (Job.id job) 1 request_id 1] w1 [] 0)
    as (n & r & w2 & Hd & Hs & Hr); [done | done | |].
  { constructor; [|constructor]. by apply requested_event_order. }
  change (dispatch_events (take (Z.to_nat 100) [ev]) 0 w1 = (r, w2)) in Hd.
  rewrite <- Hb1, <- dispatch_once_run in Hd by lia.
  assert (r = Ret 1) as ->.
  { destruct r as [j|e|]; [|exfalso|done].
    - by destruct Hr as [-> ->].
    - destruct Hr as (_ & m & w0 & H). discriminate H. }
  destruct Hr as [-> _]. destruct Hs as [Hs1 Hs2 Hs3 Hs4 Hs5 Hs6 Hs7 Hs8].
  assert (stored job w1) as [Hst1 Hst2].
  { split; [by rewrite Hjobs, dget_dset_eq | by rewrite Hev]. }
  exists job, w1, w2. split; [exact Hc|]. split; [exact Hd|]. split; [by rewrite Hs1, Hms|].
  split; [by split|]. split; [done|]. split; [exact Hid|].
  split; [split; [by rewrite Hs3 | by rewrite Hs7]|]. split; [done|]. split; [done|].
  split; [by rewrite Hs4, Hup, Huid|]. by apply (untouched_ok w1 w2).
Qed.

(** C1: from the request to the result.  For a completed upload of the caller,
    a request with a new key is answered with a [QUEUED] job; one dispatch of
    the outbox hands its work order to the queue; what Kafka carries of that
    order decodes to it; and its delivery to a worker returns the job
    [SUCCEEDED], after which the owner sees every page completed and can
    download every document, and nobody else sees the job. *)
Theorem end_to_end request owner request_id key upload w :
  wf_world w → w_has_events w = true → fresh w → (w_uuids w < 2 ^ 128)%N →
  wf_outbox w → backlog w = [] →
  dget (w_uploads w) (cjr_upload_id request) = Some upload → Upload.owner_id upload = owner →
  Upload.id upload = cjr_upload_id request →
  Upload.state upload = UploadState_COMPLETED → earlier owner key w = None →
  ascii_text request_id →
  ∃ d message w1 w2 job w3 d',
    create_job request owner request_id key w = (Ret d, w1) ∧ jdto_status d = "queued" ∧
    dispatch_once 100 w1 = (Ret 1, w2) ∧ w_messages w2 = w_messages w ++ [message] ∧
    decode_job_message (encode_job_message message) = inr message ∧
    process max_page_retries retry_base_seconds message w2 = (Ret (Some job), w3) ∧
    get_job (jdto_job_id d) owner w3 = (Ret d', w3) ∧ jdto_status d' = "succeeded" ∧
    jdto_completed_pages d' = jdto_total_pages d' ∧ 0 < jdto_total_pages d' ∧
    (∃ items, list_artifacts (jdto_job_id d) owner w3 = (Ret items, w3) ∧
       map adto_object_key items = map Artifact.object_key (Job.artifacts job) ∧
       (3 ≤ length items)%nat) ∧
    (∀ other, other ≠ owner → job_denied (jdto_job_id d) other request_id job_unauthorized w3).
Proof.
  intros Hw He Hf Hid Hwo Hb Hu Ho Huid Hst Hk Hr.
  destruct (request_and_dispatch request owner request_id key upload w Hw He Hf Hid Hwo Hb Hu Ho
    Huid Hst Hk) as (job & w1 & w2 & Hc & Hd & Hm & Hbirth & Hjo & Hjid & Hjs & Hjp & Hju & Hu2 & Hw2).
  set (message := MkJobWorkMessage (Job.id job) 1 request_id 1) in *.
  pose proof (total_process max_page_retries retry_base_seconds Hengine Hprepare Hretries
    message job upload eq_refl (eq_sym (birth_attempt _ Hbirth)) eq_refl w2) as Hp.
  pose proof (rg_process wf_world mview exact max_page_retries retry_base_seconds message w2 Hw2 I)
    as (Hw3 & Hev & _).
  destruct (process max_page_retries retry_base_seconds message w2) as [[r|e|] w3] eqn:Ep;
    [|exfalso; apply Hp..].
  2-3: split; [exact Hjs|]; split; [split; [by rewrite Hjp | by rewrite (birth_state _ Hbirth)]|];
    by rewrite Hju.
  destruct Hp as (j & -> & Hcj).
  { split; [exact Hjs|]. split; [split; [by rewrite Hjp | by rewrite (birth_state _ Hbirth)]|].
    by rewrite Hju. }
  destruct Hcj as ([Hj3 _] & Hjd & _ & Hj4 & Hj5 & Hj6). simpl in Hev, Hw3.
  assert (Job.owner_id j = owner) as Hjo3.
  { specialize (Hev (Job.id job)). unfold mview in Hev. destruct Hjs as [Hjs _].
    rewrite Hjs, <- Hjd, Hj3 in Hev. apply live_order in Hev as (_ & [_ ->] & _). done. }
  assert (jdto_job_id (answer w job) = Job.id j) as Hdid by done.
  exists (answer w job), message, w1, w2, j, w3, (answer w3 j).
  rewrite Hdid. split; [exact Hc|]. split; [by simpl; rewrite (birth_state _ Hbirth)|].
  split; [exact Hd|]. split; [exact Hm|].
  split.
  { unfold decode_job_message. rewrite encode_plain, loads_dumps_wf by (done || apply payload_wf).
    by apply message_of_payload_of. }
  split; [exact Ep|]. split.
  { unfold get_job. erewrite bind_run by by apply owned_job_found. done. }
  split; [by simpl; rewrite Hj4|].
  apply all_done_spec in Hj5 as [Hne Hall].
  split; [by apply completed_all|]. split.
  { simpl. unfold Job.total_pages. destruct (Job.pages j); [done | simpl; lia]. }
  split.
  - destruct Hj6 as (md & js & per & mf & Ha & _ & _ & _ & _ & Hav).
    eexists. split; [apply list_artifacts_run; try done|].
    + unfold available, all_present in Hav. by rewrite Forall_fmap in Hav.
    + split; [by rewrite map_map|]. rewrite length_map, Ha. simpl. rewrite length_app. simpl. lia.
  - intros other Hother. apply job_denied_run. rewrite owned_job_run, Hj3.
    rewrite bool_decide_eq_false_2 by congruence. done.
Qed.
End end_to_end.

(** ** The sample ports, from a new request on *)

Definition new_world : World :=
  MkWorld [(2%N, Sample.upload)] [] true ∅ []
    [("uploads/2/source", ("source", "application/pdf", sha256 "source"))] [] [] 10 100 [].

Lemma empty_wf : wf_world new_world.
Proof.
  split; [constructor | done|]. intros i. unfold InMemoryJobEventRepository.log. simpl.
  rewrite lookup_empty. apply log_ok_nil.
Qed.

Lemma end_to_end_witness :
  ∃ d message w1 w2 job w3 d',
    create_job (MkCreateJobRequest 2 []) "owner" "req" (Some "k") new_world = (Ret d, w1) ∧
    jdto_status d = "queued" ∧
    dispatch_once 100 w1 = (Ret 1, w2) ∧ w_messages w2 = w_messages new_world ++ [message] ∧
    decode_job_message (encode_job_message message) = inr message ∧
    @process World _ _ _ _ Sample.preprocessor Sample.engine _ _ 3 1 message w2 = (Ret (Some job), w3) ∧
    get_job (jdto_job_id d) "owner" w3 = (Ret d', w3) ∧ jdto_status d' = "succeeded" ∧
    jdto_completed_pages d' = jdto_total_pages d' ∧ 0 < jdto_total_pages d' ∧
    (∃ items, list_artifacts (jdto_job_id d) "owner" w3 = (Ret items, w3) ∧
       map adto_object_key items = map Artifact.object_key (Job.artifacts job) ∧
       (3 ≤ length items)%nat) ∧
    (∀ other, other ≠ "owner" → job_denied (jdto_job_id d) other "req" job_unauthorized w3).
Proof.
  apply (@end_to_end Sample.engine Sample.preprocessor _ _ 3 1
    sample_engine_answers sample_prepare_answers ltac:(lia)
    (MkCreateJobRequest 2 []) "owner" "req" (Some "k") Sample.upload new_world empty_wf);
    try reflexivity.
  - split; constructor.
  - apply (bool_decide_unpack _). vm_compute. exact I.
Defined.

(** The service next to a worker on the same job: the worker runs between the
    steps of a cancellation. *)
Definition busy_world : Shared :=
  MkShared Sample.world (replicate 2 (λ w, w) ++ [Sample.other_worker]).

Lemma service_safe_witness :
  shared_inv busy_world ∧
  serves shared_inv (λ s, mview (sh_world s)) exact "owner" (cancelling 7) (cancel_job 7 "owner" "req").
Proof.
  split.
  - split; [apply sample_wf; [by left | done]|]. apply Forall_app. split.
    + apply Forall_replicate. intros w Hw. by split.
    + constructor; [|constructor]. intros w Hw.
      destruct (@rg_process World wf_world mview exact _ _ _ _ Sample.preprocessor Sample.engine _ _
        _ _ _ _ _ _ _ _ 3 1 Sample.message w Hw I) as (? & ? & _). by split.
  - exact (proj1 (proj2 (proj2 (service_safe shared_inv (λ s, mview (sh_world s)) exact 100 "owner" "req"))) 7%N).
Defined.

Example busy_cancel_ex :
  match (cancel_job 7 "owner" "req" busy_world).1 with
  | Exn e => exc_business e = exc_business job_not_cancellable
  | _ => False
  end.
Proof. vm_compute. reflexivity. Qed.
