(* ===== verification/Retention.v ===== *)
(** * Retention cleanup

    Models [contexts/ocr/application/retention.py], class
    [RetentionCleanupService], over the retention repository, the object store
    and the logger.

    [asyncio.gather] runs the deletions of a candidate concurrently and a
    deletion is one call of the store, so a run of it is an order of the keys:
    the parameter [schedule].  With [return_exceptions=True] every deletion is
    attempted, and the first failure in the order of the keys is raised
    afterwards. *)

From S2P Require Import Prelude PyData PyText Json Status Domain Ports.

#[local] Open Scope Z_scope.

Record RetentionBatchResult := MkRetentionBatchResult {
  batch_claimed : Z;
  batch_completed : Z;
  batch_deferred : Z;
  batch_deleted_objects : Z
}.

(** The constructor's checks. *)
Definition retention_init (delete_concurrency retry_delay_seconds : Z) : exc + () :=
  if decide (delete_concurrency < 1)
  then inl (mk_exc ValueError "delete_concurrency must be positive")
  else if decide (retry_delay_seconds < 1)
  then inl (mk_exc ValueError "retry_delay_seconds must be positive")
  else inr ().

(** [tuple(dict.fromkeys(l))]: the distinct elements, in the order of their
    first occurrence. *)
Definition fromkeys (l : list string) : list string :=
  (foldl (λ d k, dset d k ()) [] l).*1.

Definition object_keys (candidate : RetentionCandidate) : list string :=
  fromkeys (filter (λ k, truthy k = true) (cand_object_keys candidate)).

(** The local variables of [run_batch]'s loop. *)
Record Counts := MkCounts {
  completed : Z;
  deferred : Z;
  deleted_objects : Z
}.

Definition add_completed (c : Counts) : Counts :=
  MkCounts (completed c + 1) (deferred c) (deleted_objects c).
Definition add_deferred (c : Counts) : Counts :=
  MkCounts (completed c) (deferred c + 1) (deleted_objects c).
Definition add_deleted (n : Z) (c : Counts) : Counts :=
  MkCounts (completed c) (deferred c) (deleted_objects c + n).

Section service.
Context {W : Type}.
Context `{!RetentionRepository W, !ObjectStorage W, !StructuredLogger W, !Runtime W}.
Context (schedule : list string → list string) (retry_delay_seconds : Z).

(** The first failure in the order of the keys. *)
Fixpoint first_failure (keys : list string) (results : list (string * (exc + ()))) : option exc :=
  match keys with
  | [] => None
  | k :: keys =>
      match dget results k with
      | Some (inl e) => Some e
      | _ => first_failure keys results
      end
  end.

Definition delete_one (object_key : string) : M exc W (string * (exc + ())) :=
  r ← attempt (storage_delete_object object_key);
  mret (object_key, r).

Definition delete_objects (candidate : RetentionCandidate) : M exc W Z :=
  let keys := object_keys candidate in
  _ ← match cand_multipart_upload_id candidate with
      | Some upload_id =>
          if truthy upload_id then
            match keys with
            | [key] => storage_abort_multipart_upload key upload_id
            | _ => raise (mk_exc ValueError "multipart upload cleanup requires one source object")
            end
          else mret ()
      | None => mret ()
      end;
  results ← collect delete_one (schedule keys);
  match first_failure keys results with
  | Some e => raise e
  | None => mret (Z.of_nat (length keys))
  end.

Definition candidate_fields (candidate : RetentionCandidate) : dict :=
  [("aggregate_kind", JStr (aggregate_kind_str (cand_aggregate_kind candidate)));
   ("aggregate_id", JStr (uuid_str (cand_aggregate_id candidate)))].

Definition error_fields (candidate : RetentionCandidate) (e : exc) : dict :=
  candidate_fields candidate ++ [("error_type", JStr (cls_name (exc_cls e)))].

(** The [try] block of the loop; an exception carries the counters. *)
Definition clean_candidate (candidate : RetentionCandidate) (c : Counts) :
    M (exc * Counts) W Counts :=
  n ← at_local c (delete_objects candidate);
  let c := add_deleted n c in
  done ← at_local c (retention_complete candidate);
  if done : bool then
    let c := add_completed c in
    _ ← at_local c (logger_info "retention_candidate_deleted"
      (candidate_fields candidate ++
       [("object_count", JInt (Z.of_nat (length (cand_object_keys candidate))))]));
    mret c
  else
    let c := add_deferred c in
    _ ← at_local c (logger_error "retention_candidate_claim_lost" (candidate_fields candidate));
    mret c.

(** The [except Exception] clause. *)
Definition defer_candidate (candidate : RetentionCandidate) (e : exc) (c : Counts) :
    M exc W Counts :=
  let c := add_deferred c in
  now ← utc_now;
  let retry_at := now + retry_delay_seconds * 1000000 in
  _ ← try_except (retention_defer candidate retry_at) (λ defer_exc,
        if isinstance defer_exc Exception_
        then Some (logger_error "retention_candidate_defer_failed" (error_fields candidate defer_exc))
        else None);
  _ ← logger_error "retention_candidate_failed" (error_fields candidate e);
  mret c.

Definition process_candidate (candidate : RetentionCandidate) (c : Counts) : M exc W Counts :=
  r ← attempt (clean_candidate candidate c);
  match r with
  | inr c => mret c
  | inl (e, c) => if isinstance e Exception_ then defer_candidate candidate e c else raise e
  end.

Fixpoint process_candidates (candidates : list RetentionCandidate) (c : Counts) : M exc W Counts :=
  match candidates with
  | [] => mret c
  | candidate :: candidates =>
      c ← process_candidate candidate c;
      process_candidates candidates c
  end.

Definition run_batch (limit lease_seconds : Z) (now : option datetime) :
    M exc W RetentionBatchResult :=
  if decide (limit < 1) then raise (mk_exc ValueError "limit must be positive")
  else if decide (lease_seconds < 1) then raise (mk_exc ValueError "lease_seconds must be positive")
  else
  current_time ← match now with Some t => mret t | None => utc_now end;
  candidates ← retention_claim_expired current_time limit lease_seconds;
  c ← process_candidates candidates (MkCounts 0 0 0);
  mret (MkRetentionBatchResult (Z.of_nat (length candidates)) (completed c) (deferred c)
          (deleted_objects c)).
End service.

(** ** Deduplication *)

Lemma fromkeys_acc (l : list string) (d : list (string * ())) :
  NoDup d.*1 →
  NoDup (foldl (λ d k, dset d k ()) d l).*1 ∧
  ∀ k, k ∈ (foldl (λ d k, dset d k ()) d l).*1 ↔ k ∈ d.*1 ∨ k ∈ l.
Proof.
  revert d. induction l as [|x l IH]; intros d Hd; simpl; [split; [done | set_solver]|].
  destruct (IH (dset d x ()) (dset_NoDup _ _ _ Hd)) as [Hn He]. split; [done|].
  intros k. rewrite He, dset_keys, elem_of_cons. case_decide; set_solver.
Qed.

Lemma object_keys_NoDup c : NoDup (object_keys c).
Proof. apply (fromkeys_acc _ []). constructor. Qed.

Lemma object_keys_spec c k : k ∈ object_keys c ↔ truthy k = true ∧ k ∈ cand_object_keys c.
Proof.
  unfold object_keys, fromkeys.
  destruct (fromkeys_acc (filter (λ k, truthy k = true) (cand_object_keys c)) []) as [_ He];
    [constructor|].
  rewrite He, list_elem_of_filter. set_solver.
Qed.
