(* ===== verification/RetentionFacts.v ===== *)
(** * Retention cleanup: no orphaned object, and no candidate lost

    - [RetentionStore]: what the repository and the store promise, as rules of
      the rely/guarantee logic: a deletion makes its object [gone] for good, and
      the row of an aggregate may be deleted once its objects are gone;
    - [batch_safe]: under these rules, the batch keeps every invariant of the
      store;
    - [batch_accounting]: what a batch has done with every claimed candidate, and
      that its counters are the sums of it. *)

From S2P Require Import Prelude PyData PyText Json Status Domain Ports Retention.

#[local] Open Scope Z_scope.

(** ** The first failure *)

Lemma first_failure_None keys results :
  first_failure keys results = None →
  Forall (λ k, ∀ r, dget results k = Some r → r = inr ()) keys.
Proof.
  induction keys as [|k keys IH]; simpl; [constructor|].
  destruct (dget results k) as [[e|[]]|] eqn:E; intros H; [done|..];
    (constructor; [|auto]); intros r Hr; congruence.
Qed.

(** ** Safety *)

Section safety.
Context {W : Type} (inv : W → Prop) (R : relation W) `{!PreOrder R}.
Context `{!RetentionRepository W, !ObjectStorage W, !StructuredLogger W, !Runtime W}.
Context (gone : string → W → Prop).

Definition harmless_call {A} (m : M exc W A) : Prop :=
  rg inv R (λ _, True) m (λ _ _, True) (λ _ _, True).

Class RetentionStore := {
  gone_stable k w w' : R w w' → gone k w → gone k w';
  delete_rg k :
    rg inv R (λ _, True) (storage_delete_object k) (λ _, gone k) (λ _ _, True);
  complete_rg c :
    rg inv R (λ w, Forall (λ k, gone k w) (object_keys c)) (retention_complete c)
      (λ _ _, True) (λ _ _, True);
  claim_rg t l s : harmless_call (retention_claim_expired t l s);
  defer_rg c t : harmless_call (retention_defer c t);
  abort_rg k u : harmless_call (storage_abort_multipart_upload k u);
  info_rg e f : harmless_call (logger_info e f);
  error_rg e f : harmless_call (logger_error e f);
  clock_rg : harmless_call utc_now
}.

Context `{!RetentionStore}.
Context (schedule : list string → list string) (retry_delay_seconds : Z).
Hypothesis Hschedule : ∀ l, schedule l ≡ₚ l.

(** The results of the deletions so far: what is reported deleted is gone. *)
Definition reported (results : list (string * (exc + ()))) (w : W) : Prop :=
  ∀ k, (k, inr ()) ∈ results → gone k w.

Lemma rg_delete_one k results :
  rg inv R (reported results) (delete_one k) (λ r w, r.1 = k ∧ reported (results ++ [r]) w)
    (λ _ _, True).
Proof.
  unfold delete_one. rule_bind mid (λ r w, reported results w ∧ (r = inr () → gone k w)).
  - intros w Hi Hw. pose proof (delete_rg k w Hi I) as (Hi' & HR & Hq). unfold attempt.
    destruct (storage_delete_object k w) as [[[]|e|] w']; simpl in *; split_and!; try done.
    + intros k' Hk'. eapply gone_stable; [exact HR | by apply Hw].
    + intros k' Hk'. eapply gone_stable; [exact HR | by apply Hw].
  - intros r. rule rg_ret. intros w [Hw Hr]. split; [done|]. intros k' Hk'.
    apply elem_of_app in Hk' as [Hk'|Hk']; [by apply Hw|].
    apply list_elem_of_singleton in Hk'. injection Hk' as -> Er. by apply Hr.
Qed.

Lemma rg_deletions l results :
  rg inv R (reported results) (collect delete_one l)
    (λ rs w, rs.*1 = l ∧ reported (results ++ rs) w) (λ _ _, True).
Proof.
  revert results. induction l as [|k l IH]; intros results; simpl.
  { rule rg_ret. intros w Hw. split; [done|]. by rewrite app_nil_r. }
  rule_bind; [apply rg_delete_one|]. intros r.
  eapply rg_pre with (λ w, r.1 = k ∧ reported (results ++ [r]) w); [|done].
  intros w Hi [Hk Hw]. revert w Hi Hw.
  change (rg inv R (reported (results ++ [r])) (rs ← collect delete_one l; mret (r :: rs))
    (λ rs w, rs.*1 = k :: l ∧ reported (results ++ rs) w) (λ _ _, True)).
  rule_bind; [apply IH|]. intros rs. rule rg_ret. intros w [Hrs Hw].
  split; [by csimpl; rewrite Hk, Hrs|]. by rewrite <- app_assoc in Hw.
Qed.

(** If [_delete_objects] returns, every object of the candidate is gone. *)
Lemma rg_delete_objects c :
  rg inv R (λ _, True) (delete_objects schedule c)
    (λ _ w, Forall (λ k, gone k w) (object_keys c)) (λ _ _, True).
Proof.
  unfold delete_objects. rule_bind mid (λ _ _, True).
  { repeat case_match; first [by rule rg_ret | by rule rg_raise | apply abort_rg]. }
  intros ?. rule_bind.
  { eapply rg_pre; [apply (rg_deletions (schedule (object_keys c)) [])|].
    intros w _ k Hk. by apply not_elem_of_nil in Hk. }
  intros rs. simpl. destruct (first_failure _ _) eqn:E; [by rule rg_raise|].
  rule rg_ret. intros w [Hk Hw]. apply first_failure_None in E.
  assert (NoDup rs.*1) as Hn by (rewrite Hk, Hschedule; apply object_keys_NoDup).
  rewrite Forall_forall in E. apply Forall_forall. intros k Hin. apply Hw.
  assert (k ∈ rs.*1) as Hrs by by rewrite Hk, Hschedule.
  apply list_elem_of_fmap in Hrs as ([k' r] & -> & Hr). simpl in *.
  pose proof (dget_elem _ _ _ Hn Hr) as Hd. by rewrite (E k' Hin r Hd) in Hr.
Qed.

Lemma harmless_local {A L} (m : M exc W A) (l : L) :
  harmless_call m → rg inv R (λ _, True) (at_local l m) (λ _ _, True) (λ _ _, True).
Proof. intros Hm. by apply rg_at_local. Qed.

Lemma rg_clean_candidate c n :
  rg inv R (λ _, True) (clean_candidate schedule c n) (λ _ _, True) (λ _ _, True).
Proof.
  unfold clean_candidate. rule_bind; [apply rg_at_local, rg_delete_objects|]. intros deleted.
  rule_bind; [apply rg_at_local, complete_rg|]. intros [].
  - rule_bind; [apply harmless_local, info_rg|]. intros ?. by rule rg_ret.
  - rule_bind; [apply harmless_local, error_rg|]. intros ?. by rule rg_ret.
Qed.

Lemma rg_process_candidate c n :
  rg inv R (λ _, True) (process_candidate schedule retry_delay_seconds c n)
    (λ _ _, True) (λ _ _, True).
Proof.
  unfold process_candidate. rule_bind; [apply rg_attempt, rg_clean_candidate|].
  intros [[e n']|n']; (eapply rg_pre with (λ _, True); [|done]); [|by rule rg_ret].
  case_match; [|by rule rg_raise]. unfold defer_candidate.
  rule_bind; [apply clock_rg|]. intros now.
  rule_bind mid (λ _ _, True).
  - rule rg_try_except; [apply defer_rg|]. intros e'. destruct (isinstance e' Exception_); [apply error_rg | done].
  - intros ?. rule_bind; [apply error_rg|]. intros ?. by rule rg_ret.
Qed.

Lemma rg_run_batch limit lease_seconds now :
  rg inv R (λ _, True) (run_batch schedule retry_delay_seconds limit lease_seconds now)
    (λ _ _, True) (λ _ _, True).
Proof.
  unfold run_batch. case_decide; [by rule rg_raise|]. case_decide; [by rule rg_raise|].
  rule_bind mid (λ _ _, True); [destruct now; [by rule rg_ret | apply clock_rg]|]. intros t.
  rule_bind; [apply claim_rg|]. intros candidates.
  rule_bind mid (λ _ _, True); [|intros ?; by rule rg_ret].
  generalize (MkCounts 0 0 0). induction candidates as [|c cs IH]; intros n; simpl; [by rule rg_ret|].
  rule_bind; [apply rg_process_candidate|]. intros n'. apply IH.
Qed.

(** C17: safety of the cleanup.  A batch deletes the row of an aggregate only
    when every object of it is gone from the store: whatever fails or is lost
    on the way, and in whatever order the objects are deleted, it keeps every
    invariant [inv] that a deletion keeps and that deleting a row keeps once
    the objects of the row are gone (such as: no object without its row). *)
Theorem batch_safe limit lease_seconds now w :
  inv w →
  inv (run_batch schedule retry_delay_seconds limit lease_seconds now w).2 ∧
  R w (run_batch schedule retry_delay_seconds limit lease_seconds now w).2.
Proof.
  intros Hw. by destruct (rg_run_batch limit lease_seconds now w Hw I) as (? & ? & _).
Qed.
End safety.

(** ** Accounting *)

(** What the repository and the store are asked, and answer. *)
Inductive Entry :=
  | Removed (object_key : string)                    (* an object has been deleted *)
  | Done (candidate : RetentionCandidate)            (* [complete] answered [True] *)
  | Lost (candidate : RetentionCandidate)            (* [complete] answered [False] *)
  | Postponed (candidate : RetentionCandidate) (retry_at : datetime).  (* [defer] was called *)

Definition plus_counts (c d : Counts) : Counts :=
  MkCounts (completed c + completed d) (deferred c + deferred d) (deleted_objects c + deleted_objects d).

Definition total_counts (l : list Counts) : Counts := foldr plus_counts (MkCounts 0 0 0) l.

Lemma plus_counts_assoc a b c : plus_counts (plus_counts a b) c = plus_counts a (plus_counts b c).
Proof. destruct a, b, c. unfold plus_counts. simpl. f_equal; lia. Qed.

Section accounting.
Context {W : Type}.
Context `{!RetentionRepository W, !ObjectStorage W, !StructuredLogger W, !Runtime W}.
Context (history : W → list Entry).

(** A call that ends, with the entries it leaves: it returns, or raises an
    [Exception]. *)
Definition leaves {A} (m : M exc W A) (returned : A → list Entry) (raised : list Entry) : Prop := ∀ w,
  match m w with
  | (Ret a, w') => history w' = history w ++ returned a
  | (Exn e, w') => history w' = history w ++ raised ∧ isinstance e Exception_ = true
  | (NoFuel, _) => False
  end.

Class Journal := {
  journal_delete k : leaves (storage_delete_object k) (λ _, [Removed k]) [];
  journal_abort k u : leaves (storage_abort_multipart_upload k u) (λ _, []) [];
  journal_complete c : leaves (retention_complete c) (λ done : bool, [if done then Done c else Lost c]) [];
  journal_defer c t : leaves (retention_defer c t) (λ _, [Postponed c t]) [Postponed c t];
  journal_info e f : leaves (logger_info e f) (λ _, []) [];
  journal_error e f : leaves (logger_error e f) (λ _, []) [];
  journal_clock w : ∃ now w', utc_now w = (Ret now, w') ∧ history w' = history w
}.

Context `{!Journal} (schedule : list string → list string) (retry_delay_seconds : Z).
Hypothesis Hschedule : ∀ l, schedule l ≡ₚ l.

Definition raises {A} (m : M exc W A) (e : exc) : Prop := ∃ w, (m w).1 = Exn e.

Definition removals (c : RetentionCandidate) : list Entry := map Removed (schedule (object_keys c)).
Definition object_count (c : RetentionCandidate) : Z := Z.of_nat (length (object_keys c)).

(** The [try] block has run to its end: the entries and what has been counted. *)
Inductive cleaned (c : RetentionCandidate) : list Entry → Counts → Prop :=
  | cleaned_done : cleaned c (removals c ++ [Done c]) (MkCounts 1 0 (object_count c))
  | cleaned_lost : cleaned c (removals c ++ [Lost c]) (MkCounts 0 1 (object_count c)).

(** The [try] block has raised: while deleting, in [complete], or when the outcome
    was logged. *)
Inductive interrupted (c : RetentionCandidate) : list Entry → Counts → Prop :=
  | interrupted_deleting keys e : keys ⊆ object_keys c → raises (delete_objects schedule c) e →
      interrupted c (map Removed keys) (MkCounts 0 0 0)
  | interrupted_completing e : raises (retention_complete c) e →
      interrupted c (removals c) (MkCounts 0 0 (object_count c))
  | interrupted_done ev f e : raises (logger_info ev f) e →
      interrupted c (removals c ++ [Done c]) (MkCounts 1 0 (object_count c))
  | interrupted_lost ev f e : raises (logger_error ev f) e →
      interrupted c (removals c ++ [Lost c]) (MkCounts 0 1 (object_count c)).

(** A candidate is settled: cleaned, or interrupted and postponed from then on by
    the delay. *)
Inductive settled (c : RetentionCandidate) : list Entry → Counts → Prop :=
  | settled_cleaned seg n : cleaned c seg n → settled c seg n
  | settled_postponed seg n w now : interrupted c seg n → (utc_now w).1 = Ret now →
      settled c (seg ++ [Postponed c (now + retry_delay_seconds * 1000000)]) (add_deferred n).

(** *** The rules *)

Abbreviation at_history h := (λ w, history w = h).
Definition logging_raises (e : exc) (_ : W) : Prop := ∃ ev f, raises (logger_error ev f) e.

Lemma total_leaves {A} (m : M exc W A) returned raised h :
  leaves m returned raised →
  total (at_history h) m (λ a, at_history (h ++ returned a))
    (λ e w, (history w = h ++ raised ∧ isinstance e Exception_ = true) ∧ raises m e).
Proof.
  intros Hm w <-. specialize (Hm w). unfold raises. destruct (m w) as [[a|e|] w'] eqn:E; simpl; [done| |done].
  split; [done|]. exists w. by rewrite E.
Qed.

Definition succeeded (results : list (string * (exc + ()))) : list string :=
  omap (λ r, match r.2 with inr _ => Some r.1 | inl _ => None end) results.

Lemma total_deletions l h :
  total (at_history h) (collect delete_one l)
    (λ rs w, (rs.*1 = l ∧ Forall (λ r, ∀ e, r.2 = inl e → isinstance e Exception_ = true) rs) ∧
             history w = h ++ map Removed (succeeded rs)) never.
Proof.
  revert h. induction l as [|k l IH]; intros h; simpl.
  { apply total_ret. intros w Hw. by rewrite app_nil_r. }
  eapply total_bind with (Q := λ r w, (r.1 = k ∧ ∀ e, r.2 = inl e → isinstance e Exception_ = true) ∧
    history w = h ++ map Removed (succeeded [r])).
  - unfold delete_one. eapply total_bind; [apply total_attempt, total_leaves, journal_delete|].
    intros r. apply total_ret. intros w Hr. destruct r as [e|[]]; simpl.
    + destruct Hr as [[Hh He] _]. split; [|done]. split; [done|]. by intros ? [= <-].
    + done.
  - intros r. apply total_fact with (r.1 = k ∧ ∀ e, r.2 = inl e → isinstance e Exception_ = true);
      [by intros w [? _]|]. intros [Hk He].
    eapply total_pre; [|intros w [_ Hw]; exact Hw].
    eapply total_bind; [apply IH|]. intros rs. apply total_ret. intros w [[Hl Hf] Hh].
    split; [split; [csimpl; congruence | by constructor]|].
    rewrite Hh, <- app_assoc, <- map_app. unfold succeeded. simpl. by destruct (r.2).
Qed.

Lemma succeeded_sub rs : succeeded rs ⊆ rs.*1.
Proof.
  intros k Hk. apply list_elem_of_omap in Hk as ([k' [e|u]] & Hin & Hr); [done|].
  injection Hr as <-. apply list_elem_of_fmap. by exists (k', inr u).
Qed.

(** Without a failure every key is deleted. *)
Lemma succeeded_all keys rs :
  rs.*1 ≡ₚ keys → NoDup rs.*1 → first_failure keys rs = None → succeeded rs = rs.*1.
Proof.
  intros Hp Hn Hf. apply first_failure_None in Hf. rewrite Forall_forall in Hf.
  assert (∀ k r, (k, r) ∈ rs → r = inr ()) as Hall.
  { intros k r Hin. apply (Hf k); [|by apply dget_elem].
    rewrite <- Hp. apply list_elem_of_fmap. by exists (k, r). }
  clear -Hall. induction rs as [|[k r] rs IH]; [done|]. unfold succeeded in *. csimpl.
  rewrite (Hall k r) by by left. f_equal. apply IH. intros k' r' Hin. apply (Hall k'). by right.
Qed.

Lemma total_delete_objects c h :
  total (at_history h) (delete_objects schedule c)
    (λ n w, n = object_count c ∧ history w = h ++ removals c)
    (λ e w, isinstance e Exception_ = true ∧ ∃ keys, keys ⊆ object_keys c ∧ history w = h ++ map Removed keys).
Proof.
  unfold delete_objects. eapply total_bind with (Q := λ _, at_history h).
  { assert (∀ e : exc, isinstance e Exception_ = true → total (A := ()) (at_history h) (raise e)
      (λ _, at_history h) (λ e w, isinstance e Exception_ = true ∧
        ∃ keys, keys ⊆ object_keys c ∧ history w = h ++ map Removed keys)) as Hraise.
    { intros e He. apply total_raise. intros w Hw. split; [done|]. exists [].
      split; [intros k []%not_elem_of_nil | by rewrite app_nil_r]. }
    repeat case_match; try first [by apply total_ret | by apply Hraise].
    eapply total_conseq; [apply (total_leaves _ (λ _, []) [] h), journal_abort | done | |].
    - intros a w Hw. by rewrite app_nil_r in Hw.
    - intros e w [[Hw He] _]. split; [done|]. exists []. split; [intros k []%not_elem_of_nil | done]. }
  intros ?. eapply total_bind; [apply total_never, total_deletions|]. intros rs.
  eapply total_fact; [intros w [Hrs _]; exact Hrs|]. intros [Hk He].
  assert (rs.*1 ≡ₚ object_keys c) as Hp by (by rewrite Hk, Hschedule).
  destruct (first_failure _ _) as [e|] eqn:E.
  - apply total_raise. intros w [_ Hw]. split.
    + revert E. generalize (object_keys c). intros keys. induction keys as [|k keys IH]; simpl; [done|].
      destruct (dget rs k) as [[e'|]|] eqn:Ek; [|done..]. intros [= ->].
      apply dget_Some_elem in Ek. rewrite Forall_forall in He. by apply (He _ Ek).
    + exists (succeeded rs). split; [|done]. rewrite <- Hp. apply succeeded_sub.
  - apply total_ret. intros w [_ Hw]. split; [done|]. unfold removals. rewrite <- Hk.
    erewrite <- succeeded_all; [done | exact Hp | rewrite Hp; apply object_keys_NoDup | done].
Qed.

(** The outcome of the [try] block, from the counters [n0]. *)
Definition clean_post (c : RetentionCandidate) (n0 : Counts) (h : list Entry)
    (r : (exc * Counts) + Counts) (w : W) : Prop :=
  ∃ seg d, history w = h ++ seg ∧
    match r with
    | inr n => cleaned c seg d ∧ n = plus_counts n0 d
    | inl (e, n) => isinstance e Exception_ = true ∧ interrupted c seg d ∧ n = plus_counts n0 d
    end.

Lemma counts_eq a b c a' b' c' : a = a' → b = b' → c = c' → MkCounts a b c = MkCounts a' b' c'.
Proof. congruence. Qed.

(** Logging an outcome that has been counted. *)
Lemma total_logged c n0 n d h seg (m : M exc W ()) :
  leaves m (λ _, []) [] → cleaned c seg d → n = plus_counts n0 d → (∀ e, raises m e → interrupted c seg d) →
  total (at_history (h ++ seg)) (_ ← at_local n m; mret n) (λ n, clean_post c n0 h (inr n))
    (λ ec, clean_post c n0 h (inl ec)).
Proof.
  intros Hm Hc -> Hi. eapply total_bind.
  - apply total_at_local. eapply total_conseq; [by apply (total_leaves _ (λ _, []) [] (h ++ seg)) | done | |].
    + intros a w Hw. exact Hw.
    + intros e w [[Hw He] Hr]. exists seg, d. rewrite app_nil_r in Hw. split_and!; [done | done | by apply (Hi e) | done].
  - intros ?. apply total_ret. intros w Hw. rewrite app_nil_r in Hw. by exists seg, d.
Qed.

Lemma total_clean_candidate c n0 h :
  total (at_history h) (clean_candidate schedule c n0) (λ n, clean_post c n0 h (inr n))
    (λ ec, clean_post c n0 h (inl ec)).
Proof.
  unfold clean_candidate. eapply total_bind with (Q := λ n w, n = object_count c ∧ history w = h ++ removals c).
  { apply total_at_local. intros w Hw. pose proof (total_delete_objects c h w Hw) as Hd.
    destruct (delete_objects schedule c w) as [[n|e|] w'] eqn:E; [done| |done].
    destruct Hd as (He & keys & Hk & Hh). exists (map Removed keys), (MkCounts 0 0 0). split; [done|].
    split_and!; [done | apply (interrupted_deleting _ _ e); [done|]; exists w; by rewrite E |].
    destruct n0. apply counts_eq; simpl; lia. }
  intros n. apply total_fact with (n = object_count c); [by intros w [? _]|]. intros ->.
  eapply total_pre; [|intros w [_ Hw]; exact Hw].
  eapply total_bind; [apply total_at_local; eapply total_conseq;
    [apply (total_leaves _ (λ done : bool, [if done then Done c else Lost c]) [] (h ++ removals c)), journal_complete | done | intros done w Hw; exact Hw |]|].
  - intros e w [[Hw He] Hr]. exists (removals c), (MkCounts 0 0 (object_count c)).
    rewrite app_nil_r in Hw. split; [done|]. split_and!; [done | by apply (interrupted_completing _ e) |].
    destruct n0. apply counts_eq; simpl; lia.
  - intros []; rewrite <- app_assoc.
    + eapply total_logged; [apply journal_info | apply cleaned_done | | by intros e He; eapply interrupted_done].
      destruct n0. apply counts_eq; simpl; lia.
    + eapply total_logged; [apply journal_error | apply cleaned_lost | | by intros e He; eapply interrupted_lost].
      destruct n0. apply counts_eq; simpl; lia.
Qed.

Lemma total_defer_candidate c e n0 h seg d :
  interrupted c seg d →
  total (at_history (h ++ seg)) (defer_candidate retry_delay_seconds c e (plus_counts n0 d))
    (λ n w, ∃ seg' d', settled c seg' d' ∧ n = plus_counts n0 d' ∧ history w = h ++ seg') logging_raises.
Proof.
  intros Hi w Hw. unfold defer_candidate. destruct (journal_clock w) as (now & w1 & Hnow & Hh1).
  rewrite (bind_run _ _ _ _ _ Hnow). rewrite <- Hh1 in Hw. revert w1 Hw Hnow Hh1.
  set (t := now + retry_delay_seconds * 1000000). intros w1 Hw Hnow _.
  refine (total_bind (at_history (h ++ seg)) _ _ (λ _, at_history ((h ++ seg) ++ [Postponed c t])) _ _ _ _ w1 Hw).
  - eapply total_try_except; [apply total_leaves, journal_defer|]. intros e'.
    destruct (isinstance e' Exception_) eqn:E; [|by intros u [[_ He] _]; congruence].
    eapply total_pre; [|intros u [[Hu _] _]; exact Hu].
    eapply total_conseq; [apply (total_leaves _ (λ _, []) [] ((h ++ seg) ++ [Postponed c t])), journal_error | done | |].
    + intros x u Hu. by rewrite app_nil_r in Hu.
    + intros e2 u [_ Hr]. by eexists _, _.
  - intros ?. eapply total_bind; [eapply total_conseq; [apply (total_leaves _ (λ _, []) [] ((h ++ seg) ++ [Postponed c t])), journal_error |
      done | intros x u Hu; exact Hu |]|].
    + intros e2 u [_ Hr]. by eexists _, _.
    + intros ?. apply total_ret. intros u Hu. rewrite app_nil_r, <- app_assoc in Hu.
      exists (seg ++ [Postponed c t]), (add_deferred d). split_and!; [|by destruct n0, d; apply counts_eq; simpl; lia | done].
      apply (settled_postponed _ _ _ w now); [done | by rewrite Hnow].
Qed.

Lemma total_process_candidate c n0 h :
  total (at_history h) (process_candidate schedule retry_delay_seconds c n0)
    (λ n w, ∃ seg d, settled c seg d ∧ n = plus_counts n0 d ∧ history w = h ++ seg) logging_raises.
Proof.
  unfold process_candidate. eapply total_bind; [apply total_attempt, total_clean_candidate|].
  intros [[e n]|n].
  - intros w (seg & d & Hh & He & Hi & ->). rewrite He. exact (total_defer_candidate c e n0 h seg d Hi w Hh).
  - apply total_ret. intros w (seg & d & Hh & Hc & ->). exists seg, d. split; [by constructor | done].
Qed.

(** C18: the accounting of a batch.  If every call ends (it returns, or raises an
    [Exception]; the clock returns), a batch with valid parameters whose claim
    succeeds returns, unless the logger raises while a failure is being recorded.
    It then has settled every claimed candidate, in order and whatever happened to
    the others: its objects were deleted and [complete] has deleted the row, which
    is counted as completed, or has found the claim lost, which is counted as
    deferred; or the deletion, [complete], or the logging of the outcome raised,
    and [defer] was called for it, with the present time plus the delay, and it
    is counted as deferred (besides what the interrupted block had counted).  The
    counters are the sums over the candidates. *)
Theorem batch_accounting limit lease_seconds t candidates w w1 :
  1 ≤ limit → 1 ≤ lease_seconds →
  retention_claim_expired t limit lease_seconds w = (Ret candidates, w1) →
  let r := run_batch schedule retry_delay_seconds limit lease_seconds (Some t) w in
  match r.1 with
  | Ret result => ∃ fates, Forall2 (λ c fate, settled c fate.1 fate.2) candidates fates ∧
      history r.2 = history w1 ++ concat fates.*1 ∧
      result = (let n := total_counts fates.*2 in
        MkRetentionBatchResult (Z.of_nat (length candidates)) (completed n) (deferred n) (deleted_objects n))
  | Exn e => logging_raises e r.2
  | NoFuel => False
  end.
Proof.
  intros Hl Hs Hclaim. unfold run_batch. rewrite !decide_False by lia.
  rewrite (bind_run (mret t) _ w t w) by done. rewrite (bind_run _ _ _ _ _ Hclaim).
  assert (∀ n0 h, total (at_history h) (process_candidates schedule retry_delay_seconds candidates n0)
    (λ n w, ∃ fates, Forall2 (λ c fate, settled c fate.1 fate.2) candidates fates ∧
       n = plus_counts n0 (total_counts fates.*2) ∧ history w = h ++ concat fates.*1) logging_raises) as Hall.
  { clear Hclaim. induction candidates as [|c cs IH]; intros n0 h; simpl.
    - apply total_ret. intros u Hu. exists []. split_and!; [done | destruct n0; apply counts_eq; simpl; lia |].
      by rewrite app_nil_r.
    - eapply total_bind; [apply total_process_candidate|]. intros n u (seg & d & Hset & -> & Hu).
      refine (total_conseq _ _ _ _ _ _ _ (IH (plus_counts n0 d) (h ++ seg)) (λ u Hp, Hp) _ (λ e u Hp, Hp) u Hu).
      intros n u' (fates & Hf & -> & Hu'). exists ((seg, d) :: fates). split_and!.
      + by constructor.
      + by rewrite plus_counts_assoc.
      + simpl. by rewrite Hu', app_assoc. }
  specialize (Hall (MkCounts 0 0 0) (history w1) w1 eq_refl).
  destruct (process_candidates _ _ candidates (MkCounts 0 0 0) w1) as [[n|e|] w'] eqn:E; [| |done].
  - rewrite (bind_run _ _ _ _ _ E). destruct Hall as (fates & Hf & -> & Hh). exists fates.
    split_and!; [done | done|]. unfold plus_counts. simpl. by destruct (total_counts fates.*2).
  - unfold mbind, M_bind. by rewrite E.
Qed.
End accounting.

(** ** A concrete store *)

#[export] Instance RetentionCandidate_eq_dec : EqDecision RetentionCandidate.
Proof. solve_decision. Defined.

Module SampleRetention.

Record World := MkWorld {
  rows : list RetentionCandidate;
  objects : list string;
  records : list string
}.

#[global] Instance repository : RetentionRepository World := {
  retention_claim_expired _ _ _ w := (Ret (rows w), w);
  retention_complete c w :=
    (Ret (bool_decide (c ∈ rows w)), MkWorld (filter (λ c', c' ≠ c) (rows w)) (objects w) (records w));
  retention_defer _ _ w := (Ret (), w)
}.

Definition unused {A} : M exc World A := raise (mk_exc AssertionError "unused").

(** The object ["locked"] cannot be deleted. *)
#[global] Instance storage : ObjectStorage World := {
  storage_create_upload_target _ _ _ _ := unused;
  storage_stat _ := unused;
  storage_complete_upload _ _ _ := unused;
  storage_get_bytes _ := unused;
  storage_put_bytes _ _ _ := unused;
  storage_delete_object k w :=
    if decide (k = "locked") then (Exn (mk_exc StorageUnavailableError "object storage failed"), w)
    else (Ret (), MkWorld (rows w) (filter (λ k', k' ≠ k) (objects w)) (records w));
  storage_abort_multipart_upload _ _ w := (Ret (), w);
  storage_create_download_url _ := unused
}.

#[global] Instance logger : StructuredLogger World := {
  logger_info e _ w := (Ret (), MkWorld (rows w) (objects w) (records w ++ [e]));
  logger_error e _ w := (Ret (), MkWorld (rows w) (objects w) (records w ++ [e]))
}.

#[global] Instance runtime : Runtime World := {
  utc_now w := (Ret 0, w);
  uuid7 w := (Ret 0%N, w);
  sleeper _ w := (Ret (), w)
}.

Definition candidate (id : UUID) (keys : list string) : RetentionCandidate :=
  MkRetentionCandidate AggregateJob id 1 keys None.

Definition world : World :=
  MkWorld [candidate 1 ["a"; ""; "b"; "a"]; candidate 2 ["c"; "locked"; "d"]]
    ["a"; "b"; "c"; "locked"; "d"] [].

(** Every stored object belongs to a row. *)
Definition owned (w : World) : Prop :=
  ∀ k, k ∈ objects w → ∃ c, c ∈ rows w ∧ k ∈ object_keys c.

Definition shrinks : relation World := λ w w', objects w' ⊆ objects w.
Definition gone (k : string) (w : World) : Prop := k ∉ objects w.

#[global] Instance shrinks_preorder : PreOrder shrinks.
Proof. split; unfold shrinks; [by intros w | intros w1 w2 w3; set_solver]. Qed.

Lemma same_ok {A} (m : M exc World A) :
  (∀ w, rows (m w).2 = rows w ∧ objects (m w).2 = objects w) → harmless_call owned shrinks m.
Proof.
  intros Hm w Hw _. destruct (Hm w) as [Hr Ho]. unfold owned, shrinks in *. rewrite Hr, Ho.
  split_and!; [done | done | by destruct ((m w).1)].
Qed.

#[global] Instance store : RetentionStore owned shrinks gone.
Proof.
  split; try (intros; apply same_ok; by intros w).
  - unfold gone, shrinks. set_solver.
  - intros k w Hw _. simpl. destruct (decide (k = "locked")); simpl.
    + split_and!; [done | reflexivity | done].
    + split_and!.
      * intros k' [_ Hk']%list_elem_of_filter. by apply Hw.
      * intros k' Hk'. by apply list_elem_of_filter in Hk' as [_ ?].
      * intros [? _]%list_elem_of_filter. done.
  - intros c w Hw Hg. simpl. split_and!; [|by intros ? ?|done].
    intros k Hk. destruct (Hw k Hk) as (c' & Hc & Hin). exists c'. split; [|done].
    apply list_elem_of_filter. split; [|done]. intros ->.
    rewrite Forall_forall in Hg. by apply (Hg k).
Qed.

Lemma world_owned : owned world.
Proof.
  intros k Hk. simpl in Hk. repeat (apply elem_of_cons in Hk as [->|Hk]);
    [..|by apply not_elem_of_nil in Hk].
  1-2: exists (candidate 1 ["a"; ""; "b"; "a"]); split; apply (bool_decide_unpack _); vm_compute; exact I.
  all: exists (candidate 2 ["c"; "locked"; "d"]); split; apply (bool_decide_unpack _); vm_compute; exact I.
Qed.

(** A logger that fails on [info]. *)
Definition broken_logger : StructuredLogger World := {|
  logger_info _ _ w := (Exn (mk_exc RuntimeError "collector is down"), w);
  logger_error e _ w := (Ret (), MkWorld (rows w) (objects w) (records w ++ [e]))
|}.

End SampleRetention.

Lemma batch_safe_witness :
  SampleRetention.owned SampleRetention.world ∧
  SampleRetention.owned (run_batch (W := SampleRetention.World) reverse 30 10 60 None SampleRetention.world).2.
Proof.
  split; [apply SampleRetention.world_owned|].
  exact (proj1 (batch_safe SampleRetention.owned SampleRetention.shrinks SampleRetention.gone
    reverse 30 reverse_Permutation 10 60 None _ SampleRetention.world_owned)).
Defined.

(** The sample store with its journal. *)
Module SampleJournal.

Definition World : Type := SampleRetention.World * list Entry.

Definition on {A} (m : M exc SampleRetention.World A) (f : outcome exc A → list Entry) : M exc World A :=
  λ w, let '(r, u) := m w.1 in (r, (u, w.2 ++ f r)).

Definition if_returned {A} (l : list Entry) (r : outcome exc A) : list Entry :=
  match r with Ret _ => l | _ => [] end.

#[global] Instance repository : RetentionRepository World := {
  retention_claim_expired t l s := on (retention_claim_expired t l s) (if_returned []);
  retention_complete c := on (retention_complete c)
    (λ r, match r with Ret done => [if done : bool then Done c else Lost c] | _ => [] end);
  retention_defer c t := on (retention_defer c t) (λ _, [Postponed c t])
}.

#[global] Instance storage : ObjectStorage World := {
  storage_create_upload_target k c n h := on (storage_create_upload_target k c n h) (if_returned []);
  storage_stat k := on (storage_stat k) (if_returned []);
  storage_complete_upload k u p := on (storage_complete_upload k u p) (if_returned []);
  storage_get_bytes k := on (storage_get_bytes k) (if_returned []);
  storage_put_bytes k d c := on (storage_put_bytes k d c) (if_returned []);
  storage_delete_object k := on (storage_delete_object k) (if_returned [Removed k]);
  storage_abort_multipart_upload k u := on (storage_abort_multipart_upload k u) (if_returned []);
  storage_create_download_url k := on (storage_create_download_url k) (if_returned [])
}.

#[global] Instance logger : StructuredLogger World := {
  logger_info e f := on (logger_info e f) (if_returned []);
  logger_error e f := on (logger_error e f) (if_returned [])
}.

#[global] Instance runtime : Runtime World := {
  utc_now := on utc_now (if_returned []);
  uuid7 := on uuid7 (if_returned []);
  sleeper n := on (sleeper n) (if_returned [])
}.

#[global] Instance journal : Journal snd.
Proof.
  split; try (intros; intros [w h]; done).
  - intros k [w h]. unfold leaves. simpl. unfold on. simpl. destruct (decide (k = "locked")); simpl;
      [by rewrite app_nil_r | done].
  - intros [w h]. simpl. eexists _, _. split; [reflexivity|]. simpl. by rewrite app_nil_r.
Qed.

Definition world : World := (SampleRetention.world, []).
End SampleJournal.

Lemma batch_accounting_witness :
  let r := run_batch reverse 30 10 60 (Some 0) SampleJournal.world in
  (∃ result fates, r.1 = Ret result ∧
     Forall2 (λ c fate, settled reverse 30 c fate.1 fate.2) (SampleRetention.rows SampleRetention.world) fates ∧
     r.2.2 = concat fates.*1) ∧
  match r.1 with
  | Ret result => (batch_claimed result, batch_completed result, batch_deferred result, batch_deleted_objects result) =
      (2, 1, 1, 2)
  | _ => False
  end.
Proof.
  pose proof (batch_accounting snd reverse 30 reverse_Permutation 10 60 0 (SampleRetention.rows SampleRetention.world)
    SampleJournal.world SampleJournal.world ltac:(lia) ltac:(lia) eq_refl) as H.
  split; [|vm_compute; reflexivity]. destruct H as (fates & Hf & Hh & _).
  exists (MkRetentionBatchResult 2 1 1 2), fates. split; [vm_compute; reflexivity|].
  split; [exact Hf | exact Hh].
Defined.

Example batch_ex :
  let '(r, w) := run_batch (W := SampleRetention.World) reverse 30 10 60 (Some 0) SampleRetention.world in
  match r with
  | Ret r => (batch_claimed r, batch_completed r, batch_deferred r, batch_deleted_objects r,
              cand_aggregate_id <$> SampleRetention.rows w, SampleRetention.objects w) =
             (2, 1, 1, 2, [2%N], ["locked"])
  | _ => False
  end.
Proof. vm_compute. reflexivity. Qed.

(** When the logger fails after a row has been deleted, the
    [except] clause, which the [try] block shares with the deletion, counts the
    candidate a second time and defers the claim of a row that is gone:
    [completed + deferred] exceeds [claimed]. *)
Theorem deleted_then_deferred :
  let '(r, w) := @run_batch SampleRetention.World _ _ SampleRetention.broken_logger _ reverse 30 10 60
    (Some 0) (SampleRetention.MkWorld [SampleRetention.candidate 1 ["a"]] ["a"] []) in
  match r with
  | Ret r => batch_claimed r = 1 ∧ batch_completed r = 1 ∧ batch_deferred r = 1
  | _ => False
  end ∧
  SampleRetention.rows w = [] ∧ SampleRetention.objects w = [] ∧
  SampleRetention.records w = ["retention_candidate_failed"].
Proof. vm_compute. by split_and!. Qed.
