(* ===== verification/Readiness.v ===== *)
(** * Readiness

    Models [contexts/ocr/application/readiness.py] and the probes of
    [infrastructure/readiness.py].  The clients the probes call (the database
    pool, the Kafka metadata client, the HTTP client) are classes (the heartbeat probe is
    in [Sandbox], next to the heartbeat's writer); [wait_for] is [asyncio.wait_for], whose timer belongs to the event
    loop, and [schedule] the order in which [asyncio.gather] lets the probes
    run.

    [check_spec] states what a report says, whatever the order. *)

From Stdlib Require Import Ascii.
From S2P Require Import Prelude PyData PyText PyValue Json Status Ports.

#[local] Open Scope Z_scope.

Record DependencyReadinessCheck (W : Type) := MkCheck {
  check_name : string;
  check_internal_code : InternalStatusCode;
  check_probe : M exc W ()
}.
Arguments MkCheck {W}.
Arguments check_name {W} _.
Arguments check_internal_code {W} _.
Arguments check_probe {W} _.

Record ReadinessReport := MkReadinessReport {
  report_checks : list (string * string);
  report_internal_code : option InternalStatusCode;
  report_error_reason : option string
}.

(** [ReadinessReport.ready] *)
Definition ready (r : ReadinessReport) : bool := bool_decide (report_internal_code r = None).

(** The check of [ReadinessService.__init__]; the timeout in microseconds. *)
Definition readiness_init (timeout : Z) : exc + () :=
  if decide (timeout ≤ 0) then inl (mk_exc ValueError "readiness timeout must be positive")
  else inr ().

Section service.
Context {W : Type}.
Context (wait_for : Z → M exc W () → M exc W ()).
Context (schedule : list nat → list nat).
Context (timeout : Z).

Definition run_probe (check : DependencyReadinessCheck W) : M exc W bool :=
  try_else (wait_for timeout (check_probe check))
    (λ e, if isinstance e Exception_ then Some (mret false) else None)
    (λ _, mret true).

(** [asyncio.gather(...)]: the results in the order of the checks. *)
Definition run_probes (checks : list (DependencyReadinessCheck W)) : M exc W (list bool) :=
  results ← collect (λ i, match checks !! i with
                          | Some c => r ← run_probe c; mret (i, r)
                          | None => mret (i, false)
                          end) (schedule (seq 0 (length checks)));
  mret (map (λ i, default false (dget results i)) (seq 0 (length checks))).

(** The loop over the checks and their results. *)
Fixpoint tally (checks : list (DependencyReadinessCheck W)) (results : list bool)
    (entries : list (string * string)) (first_failure : option (DependencyReadinessCheck W)) :
    list (string * string) * option (DependencyReadinessCheck W) :=
  match checks, results with
  | c :: checks, succeeded :: results =>
      tally checks results
        (dset entries (check_name c) (if succeeded : bool then "ok" else "unavailable"))
        (match first_failure with
         | None => if succeeded : bool then None else Some c
         | Some f => Some f
         end)
  | _, _ => (entries, first_failure)
  end.

Definition report_of (checks : list (DependencyReadinessCheck W)) (results : list bool) :
    ReadinessReport :=
  match tally checks results [("application", "ok")] None with
  | (entries, None) => MkReadinessReport entries None None
  | (entries, Some f) =>
      MkReadinessReport entries (Some (check_internal_code f))
        (Some ("readiness_" +:+ check_name f +:+ "_unavailable"))
  end.

(** [ReadinessService.check] *)
Definition check (checks : list (DependencyReadinessCheck W)) : M exc W ReadinessReport :=
  results ← run_probes checks;
  mret (report_of checks results).
End service.

(** ** The probes *)

Class PostgresPool (W : Type) := pool_fetchval : string → M exc W json.

(** [fetch_all_metadata()] and [partitions_for_topic(topic)] *)
Class KafkaMetadata (W : Type) := kafka_partitions : string → M exc W (option (list Z)).

Class HTTPClient (W : Type) := http_get_status : string → M exc W Z.

Definition postgres_probe {W} `{!PostgresPool W} : M exc W () :=
  v ← pool_fetchval "SELECT 1";
  if negb (py_eq v (JInt 1)) then raise (mk_exc RuntimeError "postgres readiness query failed")
  else mret ().

Definition probe_key : string := ".monkeyocr-readiness-probe".

Definition object_storage_probe {W} `{!ObjectStorage W} : M exc W () :=
  _ ← storage_stat probe_key; mret ().

Definition kafka_probe {W} `{!KafkaMetadata W} (topic : string) : M exc W () :=
  partitions ← kafka_partitions topic;
  match partitions with
  | None | Some [] => raise (mk_exc RuntimeError "Kafka topic metadata is unavailable")
  | Some _ => mret ()
  end.

Definition http_status_probe {W} `{!HTTPClient W} (url : string) : M exc W () :=
  status ← http_get_status url;
  if negb (bool_decide (status = 200))
  then raise (mk_exc RuntimeError "dependency readiness endpoint is unavailable")
  else mret ().

(** ** What a report says *)

Section tally.
Context {W : Type}.
Implicit Types c f : DependencyReadinessCheck W.

Lemma tally_failure checks (up : DependencyReadinessCheck W → bool) entries first :
  (tally checks (map up checks) entries first).2 =
    match first with Some f => Some f | None => head (filter (λ c, up c = false) checks) end.
Proof.
  revert entries first. induction checks as [|c checks IH]; intros entries first; simpl.
  { by destruct first. }
  rewrite IH. destruct first as [f|]; [done|].
  rewrite filter_cons. destruct (up c) eqn:E; [by rewrite decide_False|by rewrite decide_True].
Qed.

Lemma tally_entries checks (up : DependencyReadinessCheck W → bool) entries first name :
  NoDup (map check_name checks) →
  dget (tally checks (map up checks) entries first).1 name =
    match head (filter (λ c, check_name c = name) checks) with
    | Some c => Some (if up c then "ok" else "unavailable")
    | None => dget entries name
    end.
Proof.
  revert entries first. induction checks as [|c checks IH]; intros entries first; simpl; [done|].
  intros [Hn Hd]%NoDup_cons. rewrite IH by done. rewrite filter_cons, dget_dset.
  destruct (decide (check_name c = name)) as [<-|Hne].
  - destruct (filter _ checks) as [|c' l] eqn:Ef; [done|].
    exfalso. apply Hn. assert (c' ∈ filter (λ b, check_name b = check_name c) checks) as Hin
      by (rewrite Ef; left).
    apply list_elem_of_filter in Hin as [Hname Hin]. apply list_elem_of_fmap. by exists c'.
  - done.
Qed.
End tally.

Section check.
Context {W : Type} (inv : W → Prop).
Context (wait_for : Z → M exc W () → M exc W ()) (schedule : list nat → list nat) (timeout : Z).
Context (up : DependencyReadinessCheck W → bool) (checks : list (DependencyReadinessCheck W)).
Hypothesis Hschedule : ∀ l, schedule l ≡ₚ l.

(** A probe that is up returns in time; one that is not raises, or times out. *)
Hypothesis Hprobe : ∀ c, c ∈ checks →
  total inv (wait_for timeout (check_probe c)) (λ _ w, inv w ∧ up c = true)
    (λ e w, inv w ∧ up c = false ∧ isinstance e Exception_ = true).

Lemma total_run_probe c : c ∈ checks →
  total inv (run_probe wait_for timeout c) (λ r w, inv w ∧ r = up c) never.
Proof.
  intros Hc w Hw. specialize (Hprobe c Hc w Hw). unfold run_probe, try_else.
  destruct (wait_for timeout (check_probe c) w) as [[[]|e|] w']; [| |done].
  - destruct Hprobe as [? ->]. by split.
  - destruct Hprobe as (? & -> & ->). by split.
Qed.

Lemma total_run_probes :
  total inv (run_probes wait_for schedule timeout checks)
    (λ rs w, inv w ∧ rs = map up checks) never.
Proof.
  unfold run_probes.
  eapply total_bind; [apply (total_collect _ _ inv
    (λ i r, r.1 = i ∧ ∀ c, checks !! i = Some c → r.2 = up c))|].
  - intros i _. destruct (checks !! i) as [c|] eqn:E; [|by apply total_ret].
    eapply total_bind; [apply total_run_probe; by eapply list_elem_of_lookup_2|].
    intros r. apply total_ret. intros w [Hw ->]. split; [done|]. simpl. split; [done|].
    by intros ? [= <-].
  - intros results. apply total_ret. intros w [Hw Hr]. split; [done|].
    assert (results.*1 = schedule (seq 0 (length checks))) as Hk.
    { clear -Hr. induction Hr as [|i r l rs [<- _] _ IH]; [done|]. csimpl. by f_equal. }
    assert (NoDup results.*1) as Hn by (rewrite Hk, Hschedule; apply NoDup_seq).
    apply list_eq. intros i. rewrite !list_lookup_fmap.
    destruct (checks !! i) as [c|] eqn:E.
    + rewrite lookup_seq_lt by by eapply lookup_lt_Some. simpl. f_equal.
      assert (i ∈ results.*1) as Hi.
      { rewrite Hk, Hschedule. apply elem_of_seq. apply lookup_lt_Some in E. lia. }
      apply list_elem_of_fmap in Hi as ([i' r] & -> & Hin).
      rewrite (dget_elem _ _ _ Hn Hin). simpl.
      apply list_elem_of_lookup in Hin as [k Hk'].
      destruct (Forall2_lookup_r _ _ _ _ _ Hr Hk') as (x & _ & <- & Hx). by apply Hx.
    + rewrite lookup_seq_ge; [done|]. by apply lookup_ge_None.
Qed.

(** What readiness reports, in whatever order the probes run and end.  The
    check never raises; the service is ready exactly when every dependency is
    up; otherwise the code and the reason are those of the first failing check
    in the configured order, and (for checks with different names) every
    dependency is listed with its own state. *)
Lemma check_spec w :
  inv w →
  ∃ r w', check wait_for schedule timeout checks w = (Ret r, w') ∧ inv w' ∧
    (ready r = true ↔ ∀ c, c ∈ checks → up c = true) ∧
    (∀ before c after, checks = before ++ c :: after →
       (∀ b, b ∈ before → up b = true) → up c = false →
       report_internal_code r = Some (check_internal_code c) ∧
       report_error_reason r = Some ("readiness_" +:+ check_name c +:+ "_unavailable")) ∧
    (NoDup (map check_name checks) → ∀ c, c ∈ checks →
       dget (report_checks r) (check_name c) = Some (if up c then "ok" else "unavailable")).
Proof.
  intros Hw. pose proof (total_run_probes w Hw) as Hr. unfold check.
  destruct (run_probes wait_for schedule timeout checks w) as [[rs|e|] w'] eqn:E; [|done..].
  destruct Hr as [Hw' ->]. erewrite bind_run by exact E. do 2 eexists. split; [done|]. split; [done|].
  unfold report_of. pose proof (tally_failure checks up [("application", "ok")] None) as Hf.
  pose proof (λ name, tally_entries checks up [("application", "ok")] None name) as He.
  destruct (tally _ _ _ _) as [entries first]. cbn [fst snd] in Hf, He. subst first.
  split; [|split].
  - destruct (head _) as [f|] eqn:Eh; unfold ready; simpl.
    + split; [done|]. intros Hall. apply head_Some_elem_of in Eh.
      apply list_elem_of_filter in Eh as [Hf Hin]. by rewrite Hall in Hf.
    + split; [|done]. intros _ c Hc. destruct (up c) eqn:Eu; [done|]. exfalso.
      apply head_None in Eh. apply (filter_nil_not_elem_of _ _ c Eh); done.
  - intros before c after -> Hb Hc. rewrite filter_app, filter_cons, decide_True by done.
    assert (filter (λ c, up c = false) before = []) as ->; [|done].
    clear -Hb. induction before as [|b l IH]; [done|]. rewrite filter_cons, decide_False.
    + apply IH. intros. apply Hb. by right.
    + by rewrite (Hb b) by left.
  - intros Hn c Hc.
    assert (dget entries (check_name c) = Some (if up c then "ok" else "unavailable")) as Hd.
    { rewrite He by done. destruct (head (filter (λ c0, check_name c0 = check_name c) checks)) as [c'|] eqn:Eh.
      - apply head_Some_elem_of, list_elem_of_filter in Eh as [Hname Hin].
        assert (c' = c) as ->; [|done].
        apply list_elem_of_lookup in Hc as [i Hi]. apply list_elem_of_lookup in Hin as [i' Hi'].
        assert (i' = i) as ->; [|congruence].
        eapply (NoDup_lookup _ _ _ (check_name c) Hn); rewrite list_lookup_fmap;
          [rewrite Hi'; simpl; by rewrite Hname | by rewrite Hi].
      - exfalso. apply head_None in Eh. apply (filter_nil_not_elem_of _ _ c Eh); done. }
    by destruct (head _).
Qed.
End check.

(** ** A concrete service: storage is down, Kafka is up *)

Module SampleReadiness.

Definition no_timer (timeout : Z) (m : M exc () ()) : M exc () () := m.

#[global] Instance metadata : KafkaMetadata () := λ topic w,
  (Ret (if decide (topic = "jobs") then Some [0; 1] else None), w).
#[global] Instance http : HTTPClient () := λ url w,
  (Ret (if decide (url = "http://engine/health") then 503 else 200), w).

Definition checks : list (DependencyReadinessCheck ()) :=
  [MkCheck "kafka" QUEUE_UNAVAILABLE (kafka_probe "jobs");
   MkCheck "engine" ENGINE_UNAVAILABLE (http_status_probe "http://engine/health");
   MkCheck "logging" INTERNAL_CONTROLLED_ERROR (http_status_probe "http://logging/health")].

Definition up (c : DependencyReadinessCheck ()) : bool := negb (bool_decide (check_name c = "engine")).

End SampleReadiness.

Lemma check_spec_witness :
  ∃ r w', check SampleReadiness.no_timer reverse 2000000 SampleReadiness.checks () = (Ret r, w') ∧ True ∧
    (ready r = true ↔ ∀ c, c ∈ SampleReadiness.checks → SampleReadiness.up c = true) ∧
    (∀ before c after, SampleReadiness.checks = before ++ c :: after →
       (∀ b, b ∈ before → SampleReadiness.up b = true) → SampleReadiness.up c = false →
       report_internal_code r = Some (check_internal_code c) ∧
       report_error_reason r = Some ("readiness_" +:+ check_name c +:+ "_unavailable")) ∧
    (NoDup (map check_name SampleReadiness.checks) → ∀ c, c ∈ SampleReadiness.checks →
       dget (report_checks r) (check_name c) =
         Some (if SampleReadiness.up c then "ok" else "unavailable")).
Proof.
  apply (check_spec (λ _, True) SampleReadiness.no_timer reverse 2000000
    SampleReadiness.up SampleReadiness.checks).
  - apply reverse_Permutation.
  - intros c Hc w _. unfold SampleReadiness.checks in Hc.
    repeat (apply elem_of_cons in Hc as [->|Hc]; [by destruct w|]). by apply not_elem_of_nil in Hc.
  - exact I.
Defined.

Example check_ex :
  match (check SampleReadiness.no_timer reverse 2000000 SampleReadiness.checks ()).1 with
  | Ret r => (ready r, report_internal_code r, report_error_reason r, report_checks r) =
      (false, Some ENGINE_UNAVAILABLE, Some "readiness_engine_unavailable",
       [("application", "ok"); ("kafka", "ok"); ("engine", "unavailable"); ("logging", "ok")])
  | _ => False
  end.
Proof. vm_compute. reflexivity. Qed.
