(* ===== verification/LoggerClient.v ===== *)
(** * The structured logger client

    Models [infrastructure/logger_client.py]: the redaction of log fields and
    the two loggers that apply it.  The HTTP client, pydantic's parsing of the
    logging service's answer and the standard library's [logging] are
    parameters; a record of the fallback logger is a level and a line.

    - [sanitize_agree], [clean_sanitize]: redaction depends on nothing that it hides
      and keeps everything else;
    - [log_noninterference]: what leaves the process, over HTTP or through the
      fallback logger, is the same for fields that differ in sensitive values;
      the client never raises. *)

From Stdlib Require Import Ascii.
From S2P Require Import Prelude PyData PyText PyValue Json Status Domain Ports.

#[local] Open Scope Z_scope.
#[local] Set Warnings "-register-all".

(** ** Redaction *)

Definition safe_identity_fields : list string :=
  ["api_key_id"; "api_key_fingerprint"; "content_type"].

Definition sensitive_names : list string :=
  ["authorization"; "api_key"; "content"; "document_content"; "file_content"; "markdown";
   "ocr_content"; "ocr_text"; "presigned_url"; "request_body"; "response_body"].

Definition sensitive_markers : list string :=
  ["password"; "secret"; "token"; "presigned"; "api_key_value"].

Definition is_sensitive_field (key : string) : bool :=
  let normalized := lower (strip key) in
  if bool_decide (normalized ∈ safe_identity_fields) then false
  else if bool_decide (normalized ∈ sensitive_names) then true
  else existsb (λ marker, contains marker normalized) sensitive_markers.

Definition redacted : json := JStr "[REDACTED]".

Fixpoint sanitize_value (value : json) : json :=
  match value with
  | JObj l => JObj (map (λ '(key, item),
      (key, if is_sensitive_field key then redacted else sanitize_value item)) l)
  | JList l => JList (map sanitize_value l)
  | v => v
  end.

Definition sanitize_fields (fields : dict) : dict :=
  match sanitize_value (JObj fields) with JObj l => l | _ => [] end.

(** [json.dumps(v, ensure_ascii=False, default=str)], with the default
    separators. *)
Fixpoint spaced (l : list (list ascii)) : list ascii :=
  match l with
  | [] => []
  | [x] => x
  | x :: l => x ++ [","%char; " "%char] ++ spaced l
  end.

Fixpoint write_default (v : json) : list ascii :=
  match v with
  | JList l => ["["%char] ++ spaced (map write_default l) ++ ["]"%char]
  | JObj l => ["{"%char] ++
      spaced (map (λ '(k, x), write_str false k ++ [":"%char; " "%char] ++ write_default x) l) ++
      ["}"%char]
  | v => write false v
  end.

Definition dumps_default (v : json) : string := of_chars (write_default v).

Example dumps_default_ex :
  dumps_default (JObj [("a", JInt 1); ("b", JList [JNull; JBool true])]) =
  of_chars ["{"%char; dquote; "a"%char; dquote; ":"%char; " "%char; "1"%char; ","%char; " "%char;
            dquote; "b"%char; dquote; ":"%char; " "%char; "["%char] +:+ "null, true]}".
Proof. vm_compute. reflexivity. Qed.

(** ** [LoggerClient] *)

(** [client.post(url, json=..., headers=..., timeout=...)]: the status and the
    parsed body, or the exception of [response.json()]. *)
Class LoggerHTTPClient (W : Type) :=
  logger_post : string → json → string → M exc W (Z * (exc + json)).

(** [logging.getLogger(name).log(level, line)] *)
Class StdLogging (W : Type) := std_log : string → string → M exc W ().

Section client.
Context {W : Type} `{!LoggerHTTPClient W, !StdLogging W, !Runtime W}.
(** [ApiEnvelope[dict].model_validate] *)
Context (model_validate : json → exc + ApiEnvelope dict).
Context (base_url service_token service_name : string).

Definition log_url : string :=
  rstrip_slash base_url +:+ "/v1/log-events".

(** [str(fields.get("request_id") or fields.get("trace_id") or "")] *)
Definition trace_id (fields : dict) : string :=
  let a := default JNull (dget fields "request_id") in
  let b := default JNull (dget fields "trace_id") in
  py_str (if json_truthy a then a else if json_truthy b then b else JStr "").

(** [level.upper()], and the level of the fallback logger: the two levels are
    ["info"] and ["error"]. *)
Definition upper_level (level : string) : string :=
  if decide (level = "error") then "ERROR" else "INFO".

Definition event_payload (event_id : UUID) (now : datetime) (level event : string)
    (safe_fields : dict) : json :=
  JObj [("event", JObj
    [("event_id", JStr (uuid_str event_id));
     ("timestamp", JStr (isoformat now));
     ("level", JStr (upper_level level));
     ("service", JStr service_name);
     ("message", JStr event);
     ("trace_id", JStr (trace_id safe_fields));
     ("metadata", JObj safe_fields)])].

(** The conditions under which the service's answer counts as accepted. *)
Definition accepted (status_code : Z) (envelope : ApiEnvelope dict) : bool :=
  bool_decide (status_code = 200) &&
  bool_decide (env_internal_code envelope = SUCCESS) &&
  match env_data envelope with
  | None => false
  | Some data => match dget data "accepted" with Some v => py_eq v (JInt 1) | None => false end
  end.

Definition rejection (status_code : Z) (envelope : ApiEnvelope dict) : exc :=
  mk_exc RuntimeError ("logging-service rejected event: http_status=" +:+ str_Z status_code +:+
    " internal_code=" +:+ str_Z (code_value (env_internal_code envelope))).

(** [LoggerClient._send] *)
Definition send (level event : string) (fields : dict) : M exc W () :=
  let safe_fields := sanitize_fields fields in
  event_id ← uuid7;
  now ← utc_now;
  let payload := event_payload event_id now level event safe_fields in
  try_except
    ('(status_code, body) ← logger_post log_url payload service_token;
     body ← lift body;
     envelope ← lift (model_validate body);
     if accepted status_code envelope then mret () else raise (rejection status_code envelope))
    (λ e, if isinstance e Exception_
          then Some (std_log (upper_level level)
                      (dumps_default payload))
          else None).

#[export] Instance logger_client : StructuredLogger W := {
  logger_info := send "info";
  logger_error := send "error"
}.
End client.

(** ** [StdlibStructuredLogger] *)

Section stdlib.
Context {W : Type} `{!StdLogging W}.

Definition write_std (level event : string) (fields : dict) : M exc W () :=
  std_log level (dumps_default (JObj (dupdate [("event", JStr event)] (sanitize_fields fields)))).

Definition stdlib_logger : StructuredLogger W := {|
  logger_info := write_std "INFO";
  logger_error := write_std "ERROR"
|}.
End stdlib.

(** ** What redaction hides *)

(** Two values that differ at most in the values of sensitive fields. *)
Inductive agree : json → json → Prop :=
  | agree_refl v : agree v v
  | agree_list l l' : Forall2 agree l l' → agree (JList l) (JList l')
  | agree_obj l l' :
      Forall2 (λ x x', x.1 = x'.1 ∧ (is_sensitive_field x.1 = true ∨ agree x.2 x'.2)) l l' →
      agree (JObj l) (JObj l').

Lemma sanitize_obj l :
  sanitize_value (JObj l) = JObj (map (λ x,
    (x.1, if is_sensitive_field x.1 then redacted else sanitize_value x.2)) l).
Proof. simpl. f_equal. apply map_ext. by intros [k v]. Qed.

Lemma sanitize_obj_fields l : JObj (sanitize_fields l) = sanitize_value (JObj l).
Proof. done. Qed.

Lemma agree_sanitize v : ∀ v', agree v v' → sanitize_value v = sanitize_value v'.
Proof.
  induction v as [| | | | |l IH|l IH] using json_ind'; intros v' H;
    inversion H as [|l1 l' F|l1 l' F]; subst; try done; clear H.
  - simpl. f_equal. induction F; [done|]. apply Forall_cons in IH as [? ?]. simpl. f_equal; auto.
  - rewrite !sanitize_obj. f_equal.
    induction F as [|[k x] [k' x'] l l' [E Hx] F IHF]; [done|]. apply Forall_cons in IH as [IHx IH].
    simpl in *. subst k'. f_equal; [|by apply IHF].
    destruct (is_sensitive_field k); [done|]. destruct Hx as [[=]|Hx]. f_equal. auto.
Qed.

Lemma sanitize_agree v : ∀ v', sanitize_value v = sanitize_value v' → agree v v'.
Proof.
  induction v as [| | | | |l IH|l IH] using json_ind'; intros v' H;
    try (destruct v'; simpl in H; simplify_eq; by constructor).
  - destruct v' as [| | | | |l'|l']; try discriminate H. injection H as H. apply agree_list.
    revert l' H. induction IH as [|x l Hx _ IHl]; intros [|x' l'] H; try discriminate H; [constructor|].
    injection H as H1 H2. constructor; auto.
  - destruct v' as [| | | | |l'|l']; try discriminate H. rewrite !sanitize_obj in H.
    injection H as H. apply agree_obj.
    revert l' H. induction IH as [|[k x] l Hx _ IHl]; intros [|[k' x'] l'] H; try discriminate H; [constructor|].
    simpl in *. injection H as -> H1 H2. constructor; [|auto]. split; [done|]. simpl.
    destruct (is_sensitive_field k'); [by left | right; auto].
Qed.

(** No sensitive field of the value has a value of its own. *)
Fixpoint clean (v : json) : bool :=
  match v with
  | JList l => forallb clean l
  | JObj l => forallb (λ '(k, x),
      if is_sensitive_field k then bool_decide (x = redacted) else clean x) l
  | _ => true
  end.

Lemma sanitize_clean v : clean (sanitize_value v) = true.
Proof.
  induction v as [| | | | |l IH|l IH] using json_ind'; try done; simpl; apply forallb_forall.
  - intros x Hx. apply in_map_iff in Hx as (y & <- & Hy). rewrite Forall_forall in IH.
    apply IH. by apply list_elem_of_In.
  - intros x Hx. apply in_map_iff in Hx as ([k y] & <- & Hy). simpl.
    destruct (is_sensitive_field k) eqn:E; rewrite ?E; [by rewrite bool_decide_eq_true|].
    rewrite Forall_forall in IH. apply (IH (k, y)). by apply list_elem_of_In.
Qed.

Lemma clean_sanitize v : clean v = true → sanitize_value v = v.
Proof.
  induction v as [| | | | |l IH|l IH] using json_ind'; try done; simpl; rewrite forallb_forall;
    intros H; f_equal.
  - induction IH as [|x l Hx _ IHl]; [done|]. simpl. rewrite Hx by (apply H; by left).
    f_equal. apply IHl. intros y Hy. apply H. by right.
  - induction IH as [|[k x] l Hx _ IHl]; [done|]. simpl in *. rewrite IHl by (intros; apply H; by right).
    specialize (H (k, x) (or_introl eq_refl)). simpl in H.
    destruct (is_sensitive_field k); [|by rewrite Hx]. apply bool_decide_eq_true in H. by subst x.
Qed.

Section noninterference.
Context {W : Type} `{!LoggerHTTPClient W, !StdLogging W, !Runtime W}.
Context (model_validate : json → exc + ApiEnvelope dict).
Context (base_url service_token service_name : string).

(** C19: confidentiality of the log.  Redaction identifies two records exactly
    when they differ in nothing but the values of sensitive fields, at any
    depth; its result has none left, and redacting again changes nothing.  So
    both loggers behave the same, in what they post, what they write to the
    fallback and what they raise, on any two such records. *)
Theorem log_noninterference fields fields' :
  (sanitize_fields fields = sanitize_fields fields' ↔ agree (JObj fields) (JObj fields')) ∧
  clean (JObj (sanitize_fields fields)) = true ∧
  sanitize_fields (sanitize_fields fields) = sanitize_fields fields ∧
  (agree (JObj fields) (JObj fields') →
   (∀ level event,
      mequiv (send model_validate base_url service_token service_name level event fields)
             (send model_validate base_url service_token service_name level event fields')) ∧
   (∀ level event, mequiv (write_std level event fields) (write_std level event fields'))).
Proof.
  assert (sanitize_fields fields = sanitize_fields fields' ↔ agree (JObj fields) (JObj fields')) as Hs.
  { split.
    - intros H. apply sanitize_agree. by rewrite <- !sanitize_obj_fields, H.
    - intros H%agree_sanitize. rewrite <- !sanitize_obj_fields in H. by injection H. }
  split; [exact Hs|]. split; [rewrite sanitize_obj_fields; apply sanitize_clean|]. split.
  { pose proof (clean_sanitize (JObj (sanitize_fields fields))) as H.
    rewrite <- (sanitize_obj_fields (sanitize_fields fields)) in H.
    rewrite sanitize_obj_fields in H at 1. injection H; [done | apply sanitize_clean]. }
  intros Ha%Hs. split; intros level event w.
  - unfold send. by rewrite Ha.
  - unfold write_std. by rewrite Ha.
Qed.

(** The client never raises, whatever the logging service does: the clock, the
    identifiers and the fallback logger do not, and the HTTP client ends. *)
Lemma send_never_raises level event fields :
  total (λ _ : W, True) uuid7 (λ _ _, True) never →
  total (λ _ : W, True) utc_now (λ _ _, True) never →
  (∀ l t, total (λ _ : W, True) (std_log l t) (λ _ _, True) never) →
  (∀ u b t, total (λ _ : W, True) (logger_post u b t)
     (λ r _, match r.2 with inl e => isinstance e Exception_ = true | inr _ => True end)
     (λ e _, isinstance e Exception_ = true)) →
  (∀ v e, model_validate v = inl e → isinstance e Exception_ = true) →
  total (λ _, True) (send model_validate base_url service_token service_name level event fields)
    (λ _ _, True) never.
Proof.
  intros Hu Hn Hl Hp Hm. unfold send. eapply total_bind; [apply Hu|]. intros id.
  eapply total_bind; [apply Hn|]. intros now.
  eapply total_try_except with (X := λ e _, isinstance e Exception_ = true).
  - eapply total_bind; [apply Hp|]. intros [status body]. simpl.
    eapply total_bind with (Q := λ _ _, True); [apply total_lift; by destruct body|]. intros v.
    eapply total_bind with (Q := λ _ _, True).
    { apply total_lift. destruct (model_validate v) eqn:E; [|done]. intros _ _. by eapply Hm. }
    intros env. destruct (accepted status env); [by apply total_ret | by apply total_raise].
  - intros e. simpl. destruct (isinstance e Exception_); [|by intros ? [=]].
    eapply total_pre; [apply Hl | done].
Qed.
End noninterference.
