(* ===== verification/Config.v ===== *)
(** * Settings

    Models [config.py]: the fields of [Settings] with their defaults and bounds,
    and its validators, in the order pydantic runs them.  Reading the environment
    and converting its strings to the types of the fields is pydantic's; [load]
    starts from the converted values, with the [Literal] fields still strings,
    and a refusal is pydantic's [ValidationError], a [ValueError].  A float
    field is the rational it denotes.

    [load_spec] characterises what is accepted, and with it what a production
    process can rely on. *)

From Stdlib Require Import Ascii QArith_base.
From S2P Require Import Prelude PyText Json Status.

#[local] Open Scope Z_scope.

Record Settings := MkSettings {
  environment : string;
  host : string;
  port : Z;
  max_upload_bytes : Z;
  require_gateway_identity : bool;
  dev_api_key_id : string;
  repository_adapter : string;
  storage_adapter : string;
  engine_adapter : string;
  preprocessor_adapter : string;
  database_url : option string;
  database_pool_size : Z;
  kafka_bootstrap_servers : option string;
  kafka_jobs_topic : string;
  kafka_jobs_dlq_topic : string;
  kafka_consumer_group : string;
  kafka_client_id : string;
  s3_endpoint_url : option string;
  s3_region : string;
  s3_access_key_id : option string;
  s3_secret_access_key : option string;
  s3_bucket : string;
  s3_presign_ttl_seconds : Z;
  multipart_part_size_bytes : Z;
  upload_session_ttl_seconds : Z;
  storage_service_url : option string;
  storage_service_token : option string;
  paddleocr_vl_base_url : option string;
  paddleocr_vl_model_name : string;
  paddleocr_vl_engine_version : string;
  paddleocr_vl_endpoint_path : string;
  paddleocr_vl_timeout_seconds : Q;
  sandbox_base_url : option string;
  sandbox_command : option string;
  sandbox_exchange_dir : option string;
  sandbox_timeout_seconds : Q;
  sandbox_max_pages : Z;
  sandbox_max_pixels : Z;
  sandbox_pdf_dpi : Z;
  logging_service_url : option string;
  logging_service_token : option string;
  logging_service_name : string;
  logging_service_timeout_seconds : Q;
  api_key_pepper : option string;
  worker_max_page_retries : Z;
  worker_retry_base_seconds : Q;
  worker_readiness_timeout_seconds : Q;
  worker_readiness_poll_seconds : Q;
  job_retention_days : Z;
  retention_cleanup_interval_seconds : Q;
  retention_cleanup_batch_size : Z;
  retention_cleanup_lease_seconds : Z;
  retention_cleanup_retry_seconds : Z;
  retention_cleanup_delete_concurrency : Z;
  sse_heartbeat_seconds : Q
}.

(** The defaults of the fields. *)
Definition defaults : Settings := {|
  environment := "dev";
  host := "0.0.0.0";
  port := 13001;
  max_upload_bytes := 104857600;
  require_gateway_identity := false;
  dev_api_key_id := "development";
  repository_adapter := "memory";
  storage_adapter := "memory";
  engine_adapter := "fake";
  preprocessor_adapter := "passthrough";
  database_url := None;
  database_pool_size := 10;
  kafka_bootstrap_servers := None;
  kafka_jobs_topic := "monkeyocr.events.jobs";
  kafka_jobs_dlq_topic := "monkeyocr.events.jobs.dlq";
  kafka_consumer_group := "monkeyocr-ocr-workers";
  kafka_client_id := "monkeyocr-backend";
  s3_endpoint_url := None;
  s3_region := "us-east-1";
  s3_access_key_id := None;
  s3_secret_access_key := None;
  s3_bucket := "monkeyocr-documents";
  s3_presign_ttl_seconds := 900;
  multipart_part_size_bytes := 8388608;
  upload_session_ttl_seconds := 3600;
  storage_service_url := None;
  storage_service_token := None;
  paddleocr_vl_base_url := None;
  paddleocr_vl_model_name := "PaddleOCR-VL-1.6";
  paddleocr_vl_engine_version := "3.6";
  paddleocr_vl_endpoint_path := "/layout-parsing";
  paddleocr_vl_timeout_seconds := 300%Q;
  sandbox_base_url := None;
  sandbox_command := None;
  sandbox_exchange_dir := None;
  sandbox_timeout_seconds := 120%Q;
  sandbox_max_pages := 500;
  sandbox_max_pixels := 100000000;
  sandbox_pdf_dpi := 180;
  logging_service_url := None;
  logging_service_token := None;
  logging_service_name := "monkeyocr-backend";
  logging_service_timeout_seconds := 2%Q;
  api_key_pepper := None;
  worker_max_page_retries := 3;
  worker_retry_base_seconds := 1%Q;
  worker_readiness_timeout_seconds := 900%Q;
  worker_readiness_poll_seconds := 5%Q;
  job_retention_days := 30;
  retention_cleanup_interval_seconds := 300%Q;
  retention_cleanup_batch_size := 20;
  retention_cleanup_lease_seconds := 3600;
  retention_cleanup_retry_seconds := 30;
  retention_cleanup_delete_concurrency := 8;
  sse_heartbeat_seconds := 15%Q
|}.

Definition with_environment v s := MkSettings v (host s) (port s) (max_upload_bytes s)
  (require_gateway_identity s) (dev_api_key_id s) (repository_adapter s) (storage_adapter s)
  (engine_adapter s) (preprocessor_adapter s) (database_url s) (database_pool_size s)
  (kafka_bootstrap_servers s) (kafka_jobs_topic s) (kafka_jobs_dlq_topic s) (kafka_consumer_group
  s) (kafka_client_id s) (s3_endpoint_url s) (s3_region s) (s3_access_key_id s)
  (s3_secret_access_key s) (s3_bucket s) (s3_presign_ttl_seconds s) (multipart_part_size_bytes s)
  (upload_session_ttl_seconds s) (storage_service_url s) (storage_service_token s)
  (paddleocr_vl_base_url s) (paddleocr_vl_model_name s) (paddleocr_vl_engine_version s)
  (paddleocr_vl_endpoint_path s) (paddleocr_vl_timeout_seconds s) (sandbox_base_url s)
  (sandbox_command s) (sandbox_exchange_dir s) (sandbox_timeout_seconds s) (sandbox_max_pages s)
  (sandbox_max_pixels s) (sandbox_pdf_dpi s) (logging_service_url s) (logging_service_token s)
  (logging_service_name s) (logging_service_timeout_seconds s) (api_key_pepper s)
  (worker_max_page_retries s) (worker_retry_base_seconds s) (worker_readiness_timeout_seconds s)
  (worker_readiness_poll_seconds s) (job_retention_days s) (retention_cleanup_interval_seconds s)
  (retention_cleanup_batch_size s) (retention_cleanup_lease_seconds s)
  (retention_cleanup_retry_seconds s) (retention_cleanup_delete_concurrency s)
  (sse_heartbeat_seconds s).
Definition with_repository_adapter v s := MkSettings (environment s) (host s) (port s)
  (max_upload_bytes s) (require_gateway_identity s) (dev_api_key_id s) v (storage_adapter s)
  (engine_adapter s) (preprocessor_adapter s) (database_url s) (database_pool_size s)
  (kafka_bootstrap_servers s) (kafka_jobs_topic s) (kafka_jobs_dlq_topic s) (kafka_consumer_group
  s) (kafka_client_id s) (s3_endpoint_url s) (s3_region s) (s3_access_key_id s)
  (s3_secret_access_key s) (s3_bucket s) (s3_presign_ttl_seconds s) (multipart_part_size_bytes s)
  (upload_session_ttl_seconds s) (storage_service_url s) (storage_service_token s)
  (paddleocr_vl_base_url s) (paddleocr_vl_model_name s) (paddleocr_vl_engine_version s)
  (paddleocr_vl_endpoint_path s) (paddleocr_vl_timeout_seconds s) (sandbox_base_url s)
  (sandbox_command s) (sandbox_exchange_dir s) (sandbox_timeout_seconds s) (sandbox_max_pages s)
  (sandbox_max_pixels s) (sandbox_pdf_dpi s) (logging_service_url s) (logging_service_token s)
  (logging_service_name s) (logging_service_timeout_seconds s) (api_key_pepper s)
  (worker_max_page_retries s) (worker_retry_base_seconds s) (worker_readiness_timeout_seconds s)
  (worker_readiness_poll_seconds s) (job_retention_days s) (retention_cleanup_interval_seconds s)
  (retention_cleanup_batch_size s) (retention_cleanup_lease_seconds s)
  (retention_cleanup_retry_seconds s) (retention_cleanup_delete_concurrency s)
  (sse_heartbeat_seconds s).
Definition with_storage_adapter v s := MkSettings (environment s) (host s) (port s)
  (max_upload_bytes s) (require_gateway_identity s) (dev_api_key_id s) (repository_adapter s) v
  (engine_adapter s) (preprocessor_adapter s) (database_url s) (database_pool_size s)
  (kafka_bootstrap_servers s) (kafka_jobs_topic s) (kafka_jobs_dlq_topic s) (kafka_consumer_group
  s) (kafka_client_id s) (s3_endpoint_url s) (s3_region s) (s3_access_key_id s)
  (s3_secret_access_key s) (s3_bucket s) (s3_presign_ttl_seconds s) (multipart_part_size_bytes s)
  (upload_session_ttl_seconds s) (storage_service_url s) (storage_service_token s)
  (paddleocr_vl_base_url s) (paddleocr_vl_model_name s) (paddleocr_vl_engine_version s)
  (paddleocr_vl_endpoint_path s) (paddleocr_vl_timeout_seconds s) (sandbox_base_url s)
  (sandbox_command s) (sandbox_exchange_dir s) (sandbox_timeout_seconds s) (sandbox_max_pages s)
  (sandbox_max_pixels s) (sandbox_pdf_dpi s) (logging_service_url s) (logging_service_token s)
  (logging_service_name s) (logging_service_timeout_seconds s) (api_key_pepper s)
  (worker_max_page_retries s) (worker_retry_base_seconds s) (worker_readiness_timeout_seconds s)
  (worker_readiness_poll_seconds s) (job_retention_days s) (retention_cleanup_interval_seconds s)
  (retention_cleanup_batch_size s) (retention_cleanup_lease_seconds s)
  (retention_cleanup_retry_seconds s) (retention_cleanup_delete_concurrency s)
  (sse_heartbeat_seconds s).
Definition with_engine_adapter v s := MkSettings (environment s) (host s) (port s)
  (max_upload_bytes s) (require_gateway_identity s) (dev_api_key_id s) (repository_adapter s)
  (storage_adapter s) v (preprocessor_adapter s) (database_url s) (database_pool_size s)
  (kafka_bootstrap_servers s) (kafka_jobs_topic s) (kafka_jobs_dlq_topic s) (kafka_consumer_group
  s) (kafka_client_id s) (s3_endpoint_url s) (s3_region s) (s3_access_key_id s)
  (s3_secret_access_key s) (s3_bucket s) (s3_presign_ttl_seconds s) (multipart_part_size_bytes s)
  (upload_session_ttl_seconds s) (storage_service_url s) (storage_service_token s)
  (paddleocr_vl_base_url s) (paddleocr_vl_model_name s) (paddleocr_vl_engine_version s)
  (paddleocr_vl_endpoint_path s) (paddleocr_vl_timeout_seconds s) (sandbox_base_url s)
  (sandbox_command s) (sandbox_exchange_dir s) (sandbox_timeout_seconds s) (sandbox_max_pages s)
  (sandbox_max_pixels s) (sandbox_pdf_dpi s) (logging_service_url s) (logging_service_token s)
  (logging_service_name s) (logging_service_timeout_seconds s) (api_key_pepper s)
  (worker_max_page_retries s) (worker_retry_base_seconds s) (worker_readiness_timeout_seconds s)
  (worker_readiness_poll_seconds s) (job_retention_days s) (retention_cleanup_interval_seconds s)
  (retention_cleanup_batch_size s) (retention_cleanup_lease_seconds s)
  (retention_cleanup_retry_seconds s) (retention_cleanup_delete_concurrency s)
  (sse_heartbeat_seconds s).
Definition with_preprocessor_adapter v s := MkSettings (environment s) (host s) (port s)
  (max_upload_bytes s) (require_gateway_identity s) (dev_api_key_id s) (repository_adapter s)
  (storage_adapter s) (engine_adapter s) v (database_url s) (database_pool_size s)
  (kafka_bootstrap_servers s) (kafka_jobs_topic s) (kafka_jobs_dlq_topic s) (kafka_consumer_group
  s) (kafka_client_id s) (s3_endpoint_url s) (s3_region s) (s3_access_key_id s)
  (s3_secret_access_key s) (s3_bucket s) (s3_presign_ttl_seconds s) (multipart_part_size_bytes s)
  (upload_session_ttl_seconds s) (storage_service_url s) (storage_service_token s)
  (paddleocr_vl_base_url s) (paddleocr_vl_model_name s) (paddleocr_vl_engine_version s)
  (paddleocr_vl_endpoint_path s) (paddleocr_vl_timeout_seconds s) (sandbox_base_url s)
  (sandbox_command s) (sandbox_exchange_dir s) (sandbox_timeout_seconds s) (sandbox_max_pages s)
  (sandbox_max_pixels s) (sandbox_pdf_dpi s) (logging_service_url s) (logging_service_token s)
  (logging_service_name s) (logging_service_timeout_seconds s) (api_key_pepper s)
  (worker_max_page_retries s) (worker_retry_base_seconds s) (worker_readiness_timeout_seconds s)
  (worker_readiness_poll_seconds s) (job_retention_days s) (retention_cleanup_interval_seconds s)
  (retention_cleanup_batch_size s) (retention_cleanup_lease_seconds s)
  (retention_cleanup_retry_seconds s) (retention_cleanup_delete_concurrency s)
  (sse_heartbeat_seconds s).
Definition with_require_gateway_identity v s := MkSettings (environment s) (host s) (port s)
  (max_upload_bytes s) v (dev_api_key_id s) (repository_adapter s) (storage_adapter s)
  (engine_adapter s) (preprocessor_adapter s) (database_url s) (database_pool_size s)
  (kafka_bootstrap_servers s) (kafka_jobs_topic s) (kafka_jobs_dlq_topic s) (kafka_consumer_group
  s) (kafka_client_id s) (s3_endpoint_url s) (s3_region s) (s3_access_key_id s)
  (s3_secret_access_key s) (s3_bucket s) (s3_presign_ttl_seconds s) (multipart_part_size_bytes s)
  (upload_session_ttl_seconds s) (storage_service_url s) (storage_service_token s)
  (paddleocr_vl_base_url s) (paddleocr_vl_model_name s) (paddleocr_vl_engine_version s)
  (paddleocr_vl_endpoint_path s) (paddleocr_vl_timeout_seconds s) (sandbox_base_url s)
  (sandbox_command s) (sandbox_exchange_dir s) (sandbox_timeout_seconds s) (sandbox_max_pages s)
  (sandbox_max_pixels s) (sandbox_pdf_dpi s) (logging_service_url s) (logging_service_token s)
  (logging_service_name s) (logging_service_timeout_seconds s) (api_key_pepper s)
  (worker_max_page_retries s) (worker_retry_base_seconds s) (worker_readiness_timeout_seconds s)
  (worker_readiness_poll_seconds s) (job_retention_days s) (retention_cleanup_interval_seconds s)
  (retention_cleanup_batch_size s) (retention_cleanup_lease_seconds s)
  (retention_cleanup_retry_seconds s) (retention_cleanup_delete_concurrency s)
  (sse_heartbeat_seconds s).
Definition with_database_url v s := MkSettings (environment s) (host s) (port s) (max_upload_bytes
  s) (require_gateway_identity s) (dev_api_key_id s) (repository_adapter s) (storage_adapter s)
  (engine_adapter s) (preprocessor_adapter s) v (database_pool_size s) (kafka_bootstrap_servers s)
  (kafka_jobs_topic s) (kafka_jobs_dlq_topic s) (kafka_consumer_group s) (kafka_client_id s)
  (s3_endpoint_url s) (s3_region s) (s3_access_key_id s) (s3_secret_access_key s) (s3_bucket s)
  (s3_presign_ttl_seconds s) (multipart_part_size_bytes s) (upload_session_ttl_seconds s)
  (storage_service_url s) (storage_service_token s) (paddleocr_vl_base_url s)
  (paddleocr_vl_model_name s) (paddleocr_vl_engine_version s) (paddleocr_vl_endpoint_path s)
  (paddleocr_vl_timeout_seconds s) (sandbox_base_url s) (sandbox_command s) (sandbox_exchange_dir
  s) (sandbox_timeout_seconds s) (sandbox_max_pages s) (sandbox_max_pixels s) (sandbox_pdf_dpi s)
  (logging_service_url s) (logging_service_token s) (logging_service_name s)
  (logging_service_timeout_seconds s) (api_key_pepper s) (worker_max_page_retries s)
  (worker_retry_base_seconds s) (worker_readiness_timeout_seconds s)
  (worker_readiness_poll_seconds s) (job_retention_days s) (retention_cleanup_interval_seconds s)
  (retention_cleanup_batch_size s) (retention_cleanup_lease_seconds s)
  (retention_cleanup_retry_seconds s) (retention_cleanup_delete_concurrency s)
  (sse_heartbeat_seconds s).

(** The bounds of the integer fields: [ge] and [le]. *)
Definition integer_bounds (s : Settings) : list (Z * Z * option Z) :=
  [(database_pool_size s, 2, Some 100);
   (s3_presign_ttl_seconds s, 60, Some 86400);
   (multipart_part_size_bytes s, 5242880, None);
   (upload_session_ttl_seconds s, 60, None);
   (sandbox_max_pages s, 1, Some 5000);
   (sandbox_max_pixels s, 1000000, None);
   (sandbox_pdf_dpi s, 72, Some 600);
   (worker_max_page_retries s, 0, None);
   (job_retention_days s, 1, None);
   (retention_cleanup_batch_size s, 1, Some 1000);
   (retention_cleanup_lease_seconds s, 1, None);
   (retention_cleanup_retry_seconds s, 1, None);
   (retention_cleanup_delete_concurrency s, 1, Some 64)].

(** The bounds of the float fields: [gt] and [le]. *)
Definition float_bounds (s : Settings) : list (Q * Q * option Q) :=
  [(logging_service_timeout_seconds s, 0%Q, Some 30%Q);
   (worker_readiness_timeout_seconds s, 0%Q, None);
   (worker_readiness_poll_seconds s, 0%Q, None);
   (retention_cleanup_interval_seconds s, 0%Q, None)].

(** ** Field validators *)

(** [s.replace(old, new)]; [fuel] bounds the length of the text. *)
Fixpoint replace_all (fuel : nat) (old new s : list ascii) : list ascii :=
  match fuel, s with
  | S f, c :: s' =>
      if decide (take (length old) s = old)
      then new ++ replace_all f old new (drop (length old) s)
      else c :: replace_all f old new s'
  | _, _ => []
  end.

Definition replace (old new s : string) : string :=
  of_chars (replace_all (String.length s) (chars old) (chars new) (chars s)).

Definition normalize_engine (value : string) : string :=
  if decide (lower value ∈ ["paddle"; "paddleocr"; "paddleocr_vl"; "paddleocr_vl_hps"])
  then "paddleocr-vl" else value.

Definition normalize_environment (value : string) : string :=
  if decide (value = "development") then "dev" else value.

Definition normalize_asyncpg_url (value : option string) : option string :=
  match value with
  | None => None
  | Some v => Some (replace "postgresql+asyncpg://" "postgresql://"
                      (replace "postgresql+psycopg://" "postgresql://" v))
  end.

Example normalize_url_ex :
  normalize_asyncpg_url (Some "postgresql+psycopg://u:p@db/ocr") = Some "postgresql://u:p@db/ocr".
Proof. vm_compute. reflexivity. Qed.

Definition refused (message : string) : exc := mk_exc ValueError message.

(** The [Literal] fields and the bounds. *)
Definition literals (s : Settings) : bool :=
  bool_decide (environment s ∈ ["dev"; "test"; "production"]) &&
  bool_decide (repository_adapter s ∈ ["memory"; "postgres"]) &&
  bool_decide (storage_adapter s ∈ ["memory"; "s3"; "storage-service"]) &&
  bool_decide (engine_adapter s ∈ ["fake"; "paddleocr-vl"]) &&
  bool_decide (preprocessor_adapter s ∈ ["passthrough"; "sandbox"]).

Definition in_bounds (s : Settings) : bool :=
  forallb (λ '(v, lo, hi), (lo <=? v) && match hi with Some hi => v <=? hi | None => true end)
    (integer_bounds s) &&
  forallb (λ '(v, lo, hi), negb (Qle_bool v lo) &&
                           match hi with Some hi => Qle_bool v hi | None => true end)
    (float_bounds s).

(** [sandbox_exchange_dir or sandbox_command or sandbox_base_url] *)
Definition sandbox_target (s : Settings) : bool :=
  truthy_opt (sandbox_exchange_dir s) || truthy_opt (sandbox_command s) ||
  truthy_opt (sandbox_base_url s).

Definition infer_durable_adapters (s : Settings) : Settings :=
  let s := if truthy_opt (database_url s) && bool_decide (repository_adapter s = "memory") &&
              negb (bool_decide (environment s = "test"))
           then with_repository_adapter "postgres" s else s in
  let s := if truthy_opt (storage_service_url s) && bool_decide (storage_adapter s = "memory") &&
              negb (bool_decide (environment s = "test"))
           then with_storage_adapter "storage-service" s
           else if truthy_opt (s3_endpoint_url s) && bool_decide (storage_adapter s = "memory") &&
                   negb (bool_decide (environment s = "test"))
           then with_storage_adapter "s3" s else s in
  let s := if sandbox_target s && bool_decide (preprocessor_adapter s = "passthrough") &&
              bool_decide (environment s = "production")
           then with_preprocessor_adapter "sandbox" s else s in
  if bool_decide (environment s = "production") then with_require_gateway_identity true s else s.

(** ["change-me" in value.lower() or len(value) < 32] *)
Definition placeholder (value : string) : bool :=
  contains "change-me" (lower value) || (py_len value <? 32).
Definition placeholder_opt (value : option string) : bool :=
  match value with Some v => placeholder v | None => false end.

Definition production_must_not_use_dev_adapters (s : Settings) : exc + Settings :=
  if negb (bool_decide (environment s = "production")) then inr s
  else if negb (bool_decide (repository_adapter s = "postgres")) || negb (truthy_opt (database_url s))
  then inl (refused "production requires PostgreSQL repository configuration")
  else
  _ ← (if bool_decide (storage_adapter s = "storage-service") then
         if negb (truthy_opt (storage_service_url s)) || negb (truthy_opt (storage_service_token s))
         then inl (refused "production storage-service requires URL and token") else inr ()
       else if bool_decide (storage_adapter s = "s3") then
         if negb (truthy_opt (s3_endpoint_url s))
         then inl (refused "production S3 adapter requires an endpoint") else inr ()
       else inl (refused "production requires durable object storage"));
  if negb (bool_decide (engine_adapter s = "paddleocr-vl")) ||
     negb (truthy_opt (paddleocr_vl_base_url s))
  then inl (refused "production requires the PaddleOCR-VL engine adapter")
  else if negb (bool_decide (preprocessor_adapter s = "sandbox")) || negb (sandbox_target s)
  then inl (refused "production requires the sandbox preprocessor")
  else if negb (require_gateway_identity s)
  then inl (refused "production must require gateway identity")
  else if negb (truthy_opt (api_key_pepper s))
  then inl (refused "production requires API_KEY_PEPPER")
  else if placeholder_opt (api_key_pepper s)
  then inl (refused "production API_KEY_PEPPER must be a non-placeholder secret")
  else if negb (truthy_opt (logging_service_url s)) || negb (truthy_opt (logging_service_token s))
  then inl (refused "production requires the logging service URL and token")
  else if placeholder_opt (logging_service_token s)
  then inl (refused "production logging token must be a non-placeholder secret")
  else if bool_decide (storage_adapter s = "storage-service") &&
          truthy_opt (storage_service_token s) && placeholder_opt (storage_service_token s)
  then inl (refused "production storage token must be a non-placeholder secret")
  else if negb (truthy_opt (kafka_bootstrap_servers s))
  then inl (refused "production requires Kafka brokers")
  else inr s.

(** The field validators that run before the types are checked. *)
Definition normalize (s : Settings) : Settings :=
  with_engine_adapter (normalize_engine (engine_adapter s))
    (with_environment (normalize_environment (environment s)) s).

(** [Settings(...)] *)
Definition load (s : Settings) : exc + Settings :=
  let s := normalize s in
  if negb (literals s) then inl (refused "literal_error")
  else if negb (in_bounds s) then inl (refused "out of bounds")
  else
  let s := with_database_url (normalize_asyncpg_url (database_url s)) s in
  production_must_not_use_dev_adapters (infer_durable_adapters s).

(** ** What is accepted *)

(** A configured value that is not a placeholder. *)
Definition secret (value : option string) : Prop :=
  ∃ v, value = Some v ∧ contains "change-me" (lower v) = false ∧ 32 ≤ py_len v.

Definition configured (value : option string) : Prop := truthy_opt value = true.

(** What a production process can rely on. *)
Record production_ready (s : Settings) : Prop := {
  ready_database : repository_adapter s = "postgres" ∧ configured (database_url s);
  ready_storage :
    (storage_adapter s = "storage-service" ∧ configured (storage_service_url s) ∧
     secret (storage_service_token s)) ∨
    (storage_adapter s = "s3" ∧ configured (s3_endpoint_url s));
  ready_engine : engine_adapter s = "paddleocr-vl" ∧ configured (paddleocr_vl_base_url s);
  ready_sandbox : preprocessor_adapter s = "sandbox" ∧ sandbox_target s = true;
  ready_identity : require_gateway_identity s = true;
  ready_pepper : secret (api_key_pepper s);
  ready_logging : configured (logging_service_url s) ∧ secret (logging_service_token s);
  ready_kafka : configured (kafka_bootstrap_servers s)
}.

(** The settings the validators compute, before the production check. *)
Definition resolve (s : Settings) : Settings :=
  infer_durable_adapters (with_database_url (normalize_asyncpg_url (database_url s)) (normalize s)).

Lemma secret_spec v : secret v ↔ truthy_opt v = true ∧ placeholder_opt v = false.
Proof.
  unfold secret, truthy_opt, placeholder_opt, placeholder. destruct v as [v|].
  2:{ split; [by intros (? & ? & _) | by intros []]. }
  split.
  - intros (? & [= <-] & -> & H). split; [|apply orb_false_iff; split; [done | lia]].
    destruct v; [by vm_compute in H | done].
  - intros [_ [H1 H2]%orb_false_iff]. exists v. split_and!; [done..|lia].
Qed.

Lemma production_check s :
  (∃ s', production_must_not_use_dev_adapters s = inr s') ↔
  (environment s = "production" → production_ready s).
Proof.
  unfold production_must_not_use_dev_adapters.
  destruct (bool_decide (environment s = "production")) eqn:Ee; simpl.
  2:{ apply bool_decide_eq_false in Ee. naive_solver. }
  apply bool_decide_eq_true in Ee.
  transitivity (production_ready s); [|naive_solver].
  split.
  - intros [s' H].
    repeat match type of H with
    | context [if ?b then _ else _] => destruct b eqn:?; simpl in H; try discriminate H
    end.
    all: repeat match goal with
    | H : negb _ = false |- _ => apply negb_false_iff in H
    | H : _ || _ = false |- _ => apply orb_false_iff in H as [? ?]
    | H : bool_decide _ = true |- _ => apply bool_decide_eq_true in H
    | H : ?a = true, H' : true && ?a && ?b = false |- _ => change (a && b = false) in H'
    | H : ?a = true, H' : ?a && ?b = false |- _ => rewrite H in H'; simpl in H'
    end.
    all: split; unfold configured; rewrite ?secret_spec; auto.
  - intros [[E1 H1] H2 [E3 H3] [E4 H4] H5 H6 [H7 H8] H9]. unfold configured in *.
    rewrite secret_spec in *. destruct H6 as [H6 H6']. destruct H8 as [H8 H8'].
    rewrite (bool_decide_eq_true_2 _ E1), H1, (bool_decide_eq_true_2 _ E3), H3.
    rewrite (bool_decide_eq_true_2 _ E4), H4, H5, H6, H6', H7, H8, H8', H9. simpl.
    destruct H2 as [(E & Ha & Hb)|(E & Ha)].
    + destruct Hb as [Hb Hc].
      rewrite (bool_decide_eq_true_2 _ E), Ha, Hb, Hc. simpl. by eexists.
    + rewrite E. rewrite (bool_decide_eq_false_2 ("s3" = "storage-service")) by done.
      rewrite (bool_decide_eq_true_2 ("s3" = "s3")) by done. rewrite Ha. simpl. by eexists.
Qed.

Lemma production_check_same s s' : production_must_not_use_dev_adapters s = inr s' → s' = s.
Proof.
  unfold production_must_not_use_dev_adapters.
  repeat match goal with
  | |- inl _ = inr _ → _ => intros [=]
  | |- inr _ = inr _ → _ => by intros [= ->]
  | |- context [if ?b then _ else _] => destruct b; simpl
  end.
Qed.

Lemma production_refusal s e :
  production_must_not_use_dev_adapters s = inl e → exc_cls e = ValueError.
Proof.
  unfold production_must_not_use_dev_adapters.
  repeat match goal with
  | |- inl _ = inl _ → _ => by intros [= <-]
  | |- inr _ = inl _ → _ => intros [=]
  | |- context [if ?b then _ else _] => destruct b; simpl
  end.
Qed.

Lemma load_production s s' :
  load s = inr s' → environment s' = "production" → production_ready s'.
Proof.
  unfold load. case_match; [done|]. case_match; [done|]. intros E He.
  pose proof (production_check_same _ _ E) as ->. by apply production_check; [by eexists|].
Qed.

(** C20: the accepted configurations.  Settings load exactly when, after the
    normalisation of the engine and environment names, every [Literal] field
    and every bounded field is valid and, in production, the resolved settings
    use the durable database, storage, engine and sandbox, enforce the gateway
    identity, and have their secrets, none a placeholder; the result is the
    resolved settings.  Every refusal is a [ValueError]. *)
Theorem load_spec s :
  (∀ s', load s = inr s' ↔
     s' = resolve s ∧ literals (normalize s) = true ∧ in_bounds (normalize s) = true ∧
     (environment s' = "production" → production_ready s')) ∧
  (∀ e, load s = inl e → exc_cls e = ValueError).
Proof.
  unfold load, resolve. split.
  - intros s'. destruct (literals (normalize s)); simpl; [|naive_solver].
    destruct (in_bounds (normalize s)); simpl; [|naive_solver].
    change (database_url s) with (database_url (normalize s)).
    set (t := infer_durable_adapters _). pose proof (production_check t) as H. split.
    + intros E. pose proof (production_check_same _ _ E) as ->. split_and!; try done.
      apply H. by eexists.
    + intros (-> & _ & _ & Hr). apply H in Hr as [s' E]. by rewrite E, (production_check_same _ _ E).
  - intros e. destruct (literals (normalize s)); simpl; [|by intros [= <-]].
    destruct (in_bounds (normalize s)); simpl; [|by intros [= <-]].
    apply production_refusal.
Qed.

(** A production configuration, given by its connection settings only. *)
Definition production_with (exchange_dir command : option string) : Settings :=
  {| environment := "production";
     host := host defaults;
     port := port defaults;
     max_upload_bytes := max_upload_bytes defaults;
     require_gateway_identity := require_gateway_identity defaults;
     dev_api_key_id := dev_api_key_id defaults;
     repository_adapter := repository_adapter defaults;
     storage_adapter := storage_adapter defaults;
     engine_adapter := "paddleocr";
     preprocessor_adapter := preprocessor_adapter defaults;
     database_url := Some "postgresql+asyncpg://ocr@db/ocr";
     database_pool_size := database_pool_size defaults;
     kafka_bootstrap_servers := Some "kafka:9092";
     kafka_jobs_topic := kafka_jobs_topic defaults;
     kafka_jobs_dlq_topic := kafka_jobs_dlq_topic defaults;
     kafka_consumer_group := kafka_consumer_group defaults;
     kafka_client_id := kafka_client_id defaults;
     s3_endpoint_url := Some "http://minio:9000";
     s3_region := s3_region defaults;
     s3_access_key_id := s3_access_key_id defaults;
     s3_secret_access_key := s3_secret_access_key defaults;
     s3_bucket := s3_bucket defaults;
     s3_presign_ttl_seconds := s3_presign_ttl_seconds defaults;
     multipart_part_size_bytes := multipart_part_size_bytes defaults;
     upload_session_ttl_seconds := upload_session_ttl_seconds defaults;
     storage_service_url := storage_service_url defaults;
     storage_service_token := storage_service_token defaults;
     paddleocr_vl_base_url := Some "http://engine:8080";
     paddleocr_vl_model_name := paddleocr_vl_model_name defaults;
     paddleocr_vl_engine_version := paddleocr_vl_engine_version defaults;
     paddleocr_vl_endpoint_path := paddleocr_vl_endpoint_path defaults;
     paddleocr_vl_timeout_seconds := paddleocr_vl_timeout_seconds defaults;
     sandbox_base_url := sandbox_base_url defaults;
     sandbox_command := command;
     sandbox_exchange_dir := exchange_dir;
     sandbox_timeout_seconds := sandbox_timeout_seconds defaults;
     sandbox_max_pages := sandbox_max_pages defaults;
     sandbox_max_pixels := sandbox_max_pixels defaults;
     sandbox_pdf_dpi := sandbox_pdf_dpi defaults;
     logging_service_url := Some "http://logging:13003";
     logging_service_token := Some "0123456789abcdef0123456789abcdef";
     logging_service_name := logging_service_name defaults;
     logging_service_timeout_seconds := logging_service_timeout_seconds defaults;
     api_key_pepper := Some "fedcba9876543210fedcba9876543210";
     worker_max_page_retries := worker_max_page_retries defaults;
     worker_retry_base_seconds := worker_retry_base_seconds defaults;
     worker_readiness_timeout_seconds := worker_readiness_timeout_seconds defaults;
     worker_readiness_poll_seconds := worker_readiness_poll_seconds defaults;
     job_retention_days := job_retention_days defaults;
     retention_cleanup_interval_seconds := retention_cleanup_interval_seconds defaults;
     retention_cleanup_batch_size := retention_cleanup_batch_size defaults;
     retention_cleanup_lease_seconds := retention_cleanup_lease_seconds defaults;
     retention_cleanup_retry_seconds := retention_cleanup_retry_seconds defaults;
     retention_cleanup_delete_concurrency := retention_cleanup_delete_concurrency defaults;
     sse_heartbeat_seconds := sse_heartbeat_seconds defaults |}.

Definition production_settings : Settings := production_with (Some "/exchange") None.

Example load_ex :
  match load production_settings with
  | inr s => (repository_adapter s, storage_adapter s, engine_adapter s, preprocessor_adapter s,
              database_url s, require_gateway_identity s) =
      ("postgres", "s3", "paddleocr-vl", "sandbox", Some "postgresql://ocr@db/ocr", true)
  | inl _ => False
  end ∧
  match load (with_environment "production" defaults) with
  | inl e => exc_msg e = "production requires PostgreSQL repository configuration"
  | inr _ => False
  end ∧
  load defaults = inr defaults.
Proof. vm_compute. by split_and!. Qed.
