(* ===== verification/Preprocessor.v ===== *)
(** * Document preprocessors

    Models [infrastructure/preprocessor.py]: the passthrough and static
    preprocessors, the HTTP adapter of the sandbox and the directory exchange
    with it.  The file system, the event loop's clock and [uuid4] are classes;
    a path is its list of components.  [SubprocessSandboxPreprocessor] is in
    [SandboxCommand]; the other end of the directory exchange is in [Sandbox].

    - [prepare_contained]: whatever the sandbox leaves in the exchange
      directory, the pages taken over are numbered from 1 and every file read
      lies inside the output directory;
    - [adapter_contained]: the same discipline for the HTTP adapter's answer;
    - [static_prepare_answers]: the static preprocessor keeps the promise the
      worker's theorems ask of a preprocessor. *)

From Stdlib Require Import Ascii.
From S2P Require Import Prelude PyData PyText PyValue Json JsonFacts Status Domain Ports.
From S2P Require Import Sha256 Messaging Memory MemoryFacts Worker WorkerTotal.

#[local] Open Scope Z_scope.

Definition preprocessing_error (message : string) : exc := mk_exc PreprocessingError message.

(** [f"jobs/{job.id}/attempts/{job.attempt}/pages"] *)
Definition pages_prefix (job : Job.t) : string :=
  "jobs/" +:+ uuid_str (Job.id job) +:+ "/attempts/" +:+ str_Z (Job.attempt job) +:+ "/pages".

Definition page_image_key (job : Job.t) (number : Z) : string :=
  pages_prefix job +:+ "/" +:+ fmt06 number +:+ ".png".

(** ** [PassthroughDocumentPreprocessor] and [StaticDocumentPreprocessor] *)

Definition passthrough_prepare {W} (upload : Upload.t) (job : Job.t) : M exc W (list PreparedPage) :=
  mret [MkPreparedPage 1 (Upload.object_key upload)].

Section static.
Context {W : Type} `{!ObjectStorage W}.

(** [for number, image in enumerate(page_images, start=number)] *)
Fixpoint put_images (job : Job.t) (number : Z) (images : list string) : M exc W (list PreparedPage) :=
  match images with
  | [] => mret []
  | image :: images =>
      let key := page_image_key job number in
      _ ← storage_put_bytes key image "image/png";
      pages ← put_images job (number + 1) images;
      mret (MkPreparedPage number key :: pages)
  end.

Definition static_prepare (page_images : list string) (upload : Upload.t) (job : Job.t) :
    M exc W (list PreparedPage) := put_images job 1 page_images.
End static.

(** ** [SandboxDocumentPreprocessorAdapter] *)

(** [client.post(...)]: the status and the parsed body, or the exception of
    [response.json()]. *)
Class PreprocessorHTTPClient (W : Type) :=
  preprocessor_post : string → json → string → M exc W (Z * (exc + json)).

Definition prepare_request (upload : Upload.t) (job : Job.t) : json :=
  JObj [("schema_version", JInt 1);
        ("source_object_key", JStr (Upload.object_key upload));
        ("source_content_type",
         match Upload.detected_content_type upload with Some t => JStr t | None => JNull end);
        ("output_prefix", JStr (pages_prefix job));
        ("request_id", JStr (Job.request_id job))].

(** [page[key]] for a page descriptor: a mapping, a string or a list indexed by
    a string, or a value that cannot be indexed. *)
Definition descriptor_item (page : json) (key : string) : exc + json :=
  match page with
  | JObj d => item d key
  | JStr _ => inl (mk_exc TypeError "string indices must be integers, not 'str'")
  | JList _ => inl (mk_exc TypeError "list indices must be integers or slices, not str")
  | _ => inl (mk_exc TypeError "object is not subscriptable")
  end.

(** The loop over [payload["pages"]]. *)
Fixpoint adapter_pages (output_prefix : string) (expected_number : Z) (descriptors : list json) :
    exc + list PreparedPage :=
  match descriptors with
  | [] => inr []
  | page :: descriptors =>
      number ← descriptor_item page "page_number";
      number ← py_int number;
      object_key ← descriptor_item page "object_key";
      let object_key := py_str object_key in
      if negb (bool_decide (number = expected_number))
      then inl (mk_exc ValueError "sandbox pages must be contiguous")
      else if negb (startswith output_prefix object_key)
      then inl (mk_exc ValueError "sandbox page is outside the job prefix")
      else
      pages ← adapter_pages output_prefix (expected_number + 1) descriptors;
      inr (MkPreparedPage number object_key :: pages)
  end.

(** The treatment of the response. *)
Definition adapter_response (job : Job.t) (status_code : Z) (body : exc + json) :
    exc + list PreparedPage :=
  if negb (bool_decide (status_code = 200))
  then inl (preprocessing_error ("sandbox preprocessor returned " +:+ str_Z status_code))
  else
  payload ← body;
  match payload with
  | JObj d =>
      match dget d "pages" with
      | Some (JList descriptors) =>
          match adapter_pages (pages_prefix job +:+ "/") 1 descriptors with
          | inl e => if isinstance_any e [KeyError; TypeError; ValueError]
                     then inl (preprocessing_error "sandbox page descriptor is invalid") else inl e
          | inr [] => inl (preprocessing_error "sandbox produced no pages")
          | inr pages => inr pages
          end
      | _ => inl (preprocessing_error "sandbox preprocessor response is invalid")
      end
  | _ => inl (preprocessing_error "sandbox preprocessor response is invalid")
  end.

Definition adapter_prepare {W} `{!PreprocessorHTTPClient W} (url : string) (upload : Upload.t)
    (job : Job.t) : M exc W (list PreparedPage) :=
  try_else (preprocessor_post url (prepare_request upload job) (Job.request_id job))
    (λ e, if isinstance e Exception_
          then Some (raise (preprocessing_error "sandbox preprocessor unavailable")) else None)
    (λ '(status_code, body), lift (adapter_response job status_code body)).

(** ** [DirectorySandboxPreprocessor] *)

Record Path := MkPath { path_absolute : bool; path_parts : list string }.

#[export] Instance Path_eq_dec : EqDecision Path.
Proof. solve_decision. Defined.

(** [Path(s)] *)
Definition parse_path (s : string) : Path :=
  MkPath (startswith "/" s)
    (filter (λ p, p ≠ "" ∧ p ≠ ".") (split_n "/"%char (String.length s) s)).

(** [directory / other] *)
Definition join_path (directory other : Path) : Path :=
  if path_absolute other then other
  else MkPath (path_absolute directory) (path_parts directory ++ path_parts other).

(** [root in path.parents] *)
Definition inside (root path : Path) : bool :=
  bool_decide (path_absolute root = path_absolute path) &&
  bool_decide (take (length (path_parts root)) (path_parts path) = path_parts root) &&
  bool_decide (length (path_parts root) < length (path_parts path))%nat.

Class FileSystem (W : Type) := {
  fs_mkdir : Path → M exc W ();
  fs_write : Path → string → M exc W ();
  fs_replace : Path → Path → M exc W ();
  fs_exists : Path → M exc W bool;
  fs_read_text : Path → M exc W string;
  fs_read_bytes : Path → M exc W string;
  fs_resolve : Path → M exc W Path;
  fs_rmtree : Path → M exc W ()       (* [ignore_errors=True] *)
}.

(** [uuid4().hex] *)
Class RandomHex (W : Type) := uuid4_hex : M exc W string.

Section directory.
Context {W : Type} `{!ObjectStorage W, !FileSystem W, !EventLoop W, !RandomHex W}.
Context (exchange_dir : Path) (timeout poll_interval max_pages max_pixels dpi : Z).

Definition sub (directory : Path) (name : string) : Path := join_path directory (MkPath false [name]).

Definition sandbox_request (upload : Upload.t) (job : Job.t) : json :=
  JObj [("input", JStr "input");
        ("sha256", JStr (Upload.sha256 upload));
        ("max_pages", JInt max_pages);
        ("max_pixels", JInt max_pixels);
        ("dpi", JInt dpi);
        ("request_id", JStr (Job.request_id job))].

(** [while not response_path.exists()] *)
Fixpoint wait_response (fuel : nat) (response_path : Path) (deadline : Z) : M exc W () :=
  match fuel with
  | O => out_of_fuel
  | S fuel =>
      present ← fs_exists response_path;
      if present : bool then mret () else
      now ← loop_time;
      if decide (deadline ≤ now)
      then raise (preprocessing_error "sandbox preprocessor timed out")
      else _ ← loop_sleep poll_interval; wait_response fuel response_path deadline
  end.

(** Enough rounds for the deadline to pass. *)
Definition wait_fuel : nat := Z.to_nat (timeout / poll_interval) + 3.

(** The body of the loop over the manifest's descriptors; [resolve_root] is how
    [output_dir.resolve()] is known there. *)
Definition import_page (output_dir : Path) (resolve_root : M exc W Path) (job : Job.t)
    (expected_number : Z) (descriptor : json) : M exc W PreparedPage :=
  match descriptor with
  | JObj d =>
      number ← lift (py_int (default (JInt expected_number) (dget d "page_number")));
      if negb (bool_decide (number = expected_number))
      then raise (preprocessing_error "sandbox pages must be contiguous and one-based")
      else
      match dget d "path" with
      | Some (JStr relative_path) =>
          page_path ← fs_resolve (join_path output_dir (parse_path relative_path));
          root ← resolve_root;
          if negb (inside root page_path)
          then raise (preprocessing_error "sandbox page path escapes output directory")
          else
          data ← fs_read_bytes page_path;
          if negb (truthy data) then raise (preprocessing_error "sandbox produced an empty page")
          else
          let object_key := page_image_key job number in
          _ ← storage_put_bytes object_key data "image/png";
          mret (MkPreparedPage number object_key)
      | _ => raise (preprocessing_error "sandbox page path is missing")
      end
  | _ => raise (preprocessing_error "sandbox page descriptor is invalid")
  end.

Fixpoint import_pages (output_dir : Path) (resolve_root : M exc W Path) (job : Job.t)
    (expected_number : Z) (descriptors : list json) : M exc W (list PreparedPage) :=
  match descriptors with
  | [] => mret []
  | descriptor :: descriptors =>
      page ← import_page output_dir resolve_root job expected_number descriptor;
      pages ← import_pages output_dir resolve_root job (expected_number + 1) descriptors;
      mret (page :: pages)
  end.

(** [json.loads(text)] *)
Definition json_loads (text : string) : M exc W json :=
  match loads text with
  | Some v => mret v
  | None => raise (mk_exc JSONDecodeError "Expecting value")
  end.

(** [_upload_pages] *)
Definition upload_pages (output_dir : Path) (job : Job.t) : M exc W (list PreparedPage) :=
  manifest ← try_except (text ← fs_read_text (sub output_dir "manifest.json"); json_loads text)
    (λ e, if isinstance_any e [OSError; JSONDecodeError]
          then Some (raise (preprocessing_error "sandbox did not produce a valid manifest"))
          else None);
  match manifest with
  | JObj d =>
      match dget d "pages" with
      | Some (JList descriptors) =>
          if negb (bool_decide (1 ≤ Z.of_nat (length descriptors) ≤ max_pages))
          then raise (preprocessing_error "sandbox page count is invalid")
          else
          root ← fs_resolve output_dir;
          import_pages output_dir (mret root) job 1 descriptors
      | _ => raise (preprocessing_error "sandbox page count is invalid")
      end
  | _ => raise (preprocessing_error "sandbox page count is invalid")
  end.

(** [response.get("ok")] and the reason of a refusal. *)
Definition check_response (response : json) : M exc W () :=
  match response with
  | JObj d =>
      if json_truthy (default JNull (dget d "ok")) then mret ()
      else
      let reason := default JNull (dget d "error_reason") in
      raise (preprocessing_error ("sandbox preprocessor rejected input: " +:+
        take_str 160 (py_str (if json_truthy reason then reason else JStr "sandbox_failed"))))
  | _ => raise (mk_exc AttributeError "object has no attribute 'get'")
  end.

(** The [try] body of [prepare]. *)
Definition exchange (request_dir : Path) (upload : Upload.t) (job : Job.t) :
    M exc W (list PreparedPage) :=
  _ ← fs_mkdir request_dir;
  source ← storage_get_bytes (Upload.object_key upload);
  _ ← fs_write (sub request_dir "input") source;
  _ ← fs_write (sub request_dir "request.tmp") (dumps false (sandbox_request upload job));
  _ ← fs_replace (sub request_dir "request.tmp") (sub request_dir "request.json");
  start ← loop_time;
  _ ← wait_response wait_fuel (sub request_dir "response.json") (start + timeout);
  text ← fs_read_text (sub request_dir "response.json");
  response ← json_loads text;
  _ ← check_response response;
  upload_pages (sub request_dir "output") job.

(** [DirectorySandboxPreprocessor.prepare] *)
Definition directory_prepare (upload : Upload.t) (job : Job.t) : M exc W (list PreparedPage) :=
  hex ← uuid4_hex;
  let request_dir := sub exchange_dir
    (uuid_str (Job.id job) +:+ "-" +:+ str_Z (Job.attempt job) +:+ "-" +:+ hex) in
  try_finally
    (try_except (exchange request_dir upload job)
      (λ e, if isinstance e PreprocessingError then None
            else if isinstance e Exception_
            then Some (raise (preprocessing_error "sandbox exchange failed"))
            else None))
    (fs_rmtree request_dir).
End directory.

(** ** The HTTP adapter *)

Definition numbered (from : Z) (pages : list PreparedPage) : Prop :=
  map prepared_page_number pages = seqZ from (Z.of_nat (length pages)).

Lemma numbered_nil n : numbered n [].
Proof. done. Qed.

Lemma numbered_cons n key pages :
  numbered (n + 1) pages → numbered n (MkPreparedPage n key :: pages).
Proof.
  unfold numbered. intros H. simpl. rewrite H.
  replace (Z.of_nat (S (length pages))) with (Z.succ (Z.of_nat (length pages))) by lia.
  rewrite (seqZ_cons n (Z.succ _)) by lia. f_equal; f_equal; lia.
Qed.

Lemma adapter_pages_spec prefix n l pages :
  adapter_pages prefix n l = inr pages →
  numbered n pages ∧ length pages = length l ∧
  Forall (λ p, startswith prefix (prepared_object_key p) = true) pages.
Proof.
  revert n pages. induction l as [|d l IH]; intros n pages; simpl.
  { intros [= <-]. split_and!; [apply numbered_nil | done | constructor]. }
  rewrite !result_bind_inr. intros (x & _ & H). rewrite result_bind_inr in H.
  destruct H as (number & _ & H). rewrite result_bind_inr in H. destruct H as (key & _ & H).
  destruct (bool_decide (number = n)) eqn:En; [|done]. apply bool_decide_eq_true in En as ->.
  simpl in H. destruct (startswith prefix (py_str key)) eqn:Es; [|done]. simpl in H.
  rewrite result_bind_inr in H. destruct H as (pages' & Hp & [= <-]).
  destruct (IH _ _ Hp) as (Hn & Hl & Hf).
  split_and!; [by apply numbered_cons | simpl; congruence | by constructor].
Qed.

(** The pages the adapter takes over: at least one, numbered from 1 without a
    gap, every object under the prefix of the job's attempt. *)
Lemma adapter_contained job status_code body pages :
  adapter_response job status_code body = inr pages →
  status_code = 200 ∧ pages ≠ [] ∧ numbered 1 pages ∧
  Forall (λ p, startswith (pages_prefix job +:+ "/") (prepared_object_key p) = true) pages.
Proof.
  unfold adapter_response. destruct (bool_decide (status_code = 200)) eqn:E; [|done].
  apply bool_decide_eq_true in E. cbn [negb]. destruct body as [e|v]; [done|].
  unfold mbind, result_bind. destruct v as [| | | | | |d]; try done.
  destruct (dget d "pages") as [[| | | | |l|]|]; try done.
  destruct (adapter_pages _ 1 l) as [e|ps] eqn:Ep; [by case_match|].
  apply adapter_pages_spec in Ep as (? & _ & ?). destruct ps; [done|]. by intros [= <-].
Qed.

(** ** The static preprocessor *)

Lemma png_not_json s : endswith ".json" (s +:+ ".png") = false.
Proof.
  unfold endswith. apply bool_decide_eq_false. set (k := (_ - _)%nat). clearbody k. intros H.
  assert (last (chars (s +:+ ".png")) = Some "g"%char) as H1 by by rewrite chars_app, last_app.
  rewrite <- (take_drop k (chars (s +:+ ".png"))), H, last_app in H1. discriminate H1.
Qed.

Lemma put_images_run (job : Job.t) n images w :
  ∃ pages w', put_images (W := World) job n images w = (Ret pages, w') ∧
    calm w w' ∧ w_jobs w' = w_jobs w ∧ length pages = length images ∧
    Forall (λ p, present (prepared_object_key p) w') pages.
Proof.
  revert n w. induction images as [|image images IH]; intros n w; simpl.
  { do 2 eexists. split_and!; [done | apply calm_refl | done | done | constructor]. }
  set (key := page_image_key job n).
  set (w1 := put_objects (dset (w_objects w) key (image, "image/png", sha256 image)) w).
  destruct (IH (n + 1) w1) as (pages & w' & Hr & Hc & Hj & Hl & Hp).
  assert (endswith ".json" key = false) as Hk.
  { assert (key = (pages_prefix job +:+ "/" +:+ fmt06 n) +:+ ".png") as ->
      by (unfold key, page_image_key; by rewrite !str_assoc).
    apply png_not_json. }
  assert (calm w w1) as Hc1 by (apply calm_put; by rewrite Hk).
  exists (MkPreparedPage n key :: pages), w'.
  split; [erewrite bind_run by done; by erewrite bind_run by exact Hr|].
  split; [by destruct Hc1, Hc; split; try congruence; auto|].
  split; [by rewrite Hj|]. split; [simpl; congruence|]. constructor; [|done].
  eapply calm_present; [exact Hc|]. unfold present. simpl. rewrite dget_dset_eq. by eexists.
Qed.

(** What [WorkerTotal.process_completes] asks of a preprocessor. *)
Lemma static_prepare_answers images upload job :
  images ≠ [] →
  answers (static_prepare (W := World) images upload job)
    (λ prepared w, prepared ≠ [] ∧ Forall (λ p, present (prepared_object_key p) w) prepared).
Proof.
  intros Hi w. destruct (put_images_run job 1 images w) as (pages & w' & Hr & Hc & Hj & Hl & Hp).
  exists pages, w'. split_and!; try done. intros ->. by destruct images.
Qed.

(** ** The directory exchange *)

(** What [int(...)] raises is an exception of the program. *)
Lemma py_int_exception v e : py_int v = inl e → isinstance e Exception_ = true.
Proof.
  intros E. destruct v; simpl in E; simplify_eq/=; try done; revert E;
    [case_match; [done|by intros [= <-]] |].
  unfold int_base10. repeat case_match; intros; simplify_eq; done.
Qed.

(** What a backend does with the files of a sandbox: a path resolved, a file
    read, an object stored.  Links and files may change between any two of
    these, so that a path resolves to anything, and not twice to the same. *)
Inductive Access :=
  | Resolved (p q : Path)
  | ReadText (p : Path)
  | ReadBytes (p : Path) (data : option string)      (* [None]: the read failed *)
  | Stored (object_key data : string).

(** A file may be taken for a page once a path below the output directory and
    the output directory itself have been resolved, the one inside the other. *)
Definition checked (o : Path) (before : list Access) (p : Path) : Prop :=
  ∃ relative root,
    Resolved (join_path o relative) p ∈ before ∧ Resolved o root ∈ before ∧ inside root p = true.

(** The accesses of an exchange, in order: only [texts] are read as text, only
    checked files as pages, and only what such a file held is stored, under the
    key of a page of the job's attempt. *)
Inductive Disciplined (texts : list Path) (o : Path) (job : Job.t) : list Access → Prop :=
  | Disciplined_nil : Disciplined texts o job []
  | Disciplined_resolve l p q :
      Disciplined texts o job l → Disciplined texts o job (l ++ [Resolved p q])
  | Disciplined_text l p :
      Disciplined texts o job l → p ∈ texts → Disciplined texts o job (l ++ [ReadText p])
  | Disciplined_page l p data :
      Disciplined texts o job l → checked o l p → Disciplined texts o job (l ++ [ReadBytes p data])
  | Disciplined_store l p n data :
      Disciplined texts o job l → ReadBytes p (Some data) ∈ l → truthy data = true →
      Disciplined texts o job (l ++ [Stored (page_image_key job n) data]).

(** The pages of a result: numbered from [n], each stored under its own key
    with what one of the files read held. *)
Definition taken (job : Job.t) (n : Z) (pages : list PreparedPage) (l : list Access) : Prop :=
  numbered n pages ∧
  Forall (λ page, prepared_object_key page = page_image_key job (prepared_page_number page) ∧
    ∃ p data, ReadBytes p (Some data) ∈ l ∧ Stored (prepared_object_key page) data ∈ l) pages.

Section contained.
Context {W : Type} `{!ObjectStorage W, !FileSystem W, !EventLoop W, !RandomHex W}.
Context (exchange_dir : Path) (timeout poll_interval max_pages max_pixels dpi : Z).

(** The accesses made so far, and the event loop's clock. *)
Context (trace : W → list Access) (clock : W → Z).

Definition at_ (l : list Access) (t : Z) (w : W) : Prop := trace w = l ∧ t ≤ clock w.

(** An exception of the program. *)
Definition raised (Q : W → Prop) (e : exc) (w : W) : Prop := Q w ∧ isinstance e Exception_ = true.

(** A call that ends, and makes the accesses [l'] when it returns, [l''] when it raises. *)
Definition makes {A} (m : M exc W A) (l' : A → list Access) (l'' : list Access) : Prop :=
  ∀ l t, total (at_ l t) m (λ a, at_ (l ++ l' a) t) (raised (at_ (l ++ l'') t)).

Definition plain {A} (m : M exc W A) : Prop := makes m (λ _, []) [].

(** The accesses made since [r] are disciplined, and [facts] are among them. *)
Definition knows (texts : list Path) (o : Path) (job : Job.t) (r facts : list Access) (t : Z) (w : W) : Prop :=
  ∃ l, at_ (r ++ l) t w ∧ Disciplined texts o job l ∧ facts ⊆ l.

(** What is known whatever happens. *)
Definition read_inside (texts : list Path) (o : Path) (job : Job.t) (r : list Access) (w : W) : Prop :=
  ∃ l, trace w = r ++ l ∧ Disciplined texts o job l.

(** The result of a whole exchange. *)
Definition imported (texts : list Path) (o : Path) (job : Job.t) (r : list Access)
    (pages : list PreparedPage) (w : W) : Prop :=
  1 ≤ Z.of_nat (length pages) ≤ max_pages ∧
  ∃ l, trace w = r ++ l ∧ Disciplined texts o job l ∧ taken job 1 pages l.

Section discipline.
Context {texts : list Path} {o : Path} {job : Job.t} {r : list Access}.

#[local] Abbreviation known := (knows texts o job r).
#[local] Abbreviation seen := (raised (read_inside texts o job r)).

Lemma known_seen facts t w : known facts t w → read_inside texts o job r w.
Proof. intros (l & [Hl _] & Hd & _). by exists l. Qed.

Lemma known_weaken facts facts' t w : facts' ⊆ facts → known facts t w → known facts' t w.
Proof. intros Hs (l & ? & ? & Hf). exists l. split_and!; [done..|]. by etrans. Qed.

(** A call whose accesses keep the discipline adds to what is known. *)
Lemma total_makes {A} (m : M exc W A) l' l'' facts t : makes m l' l'' →
  (∀ a l, Disciplined texts o job l → facts ⊆ l → Disciplined texts o job (l ++ l' a)) →
  (∀ l, Disciplined texts o job l → facts ⊆ l → Disciplined texts o job (l ++ l'')) →
  total (known facts t) m (λ a, known (l' a ++ facts) t) seen.
Proof.
  intros Hm Hret Hexn w (l & Hw & Hd & Hf). specialize (Hm (r ++ l) t w Hw).
  destruct (m w) as [[a|e|] w']; [| |done].
  - exists (l ++ l' a). rewrite app_assoc. split_and!; [done | by apply Hret | set_solver].
  - destruct Hm as [[Hl _] He]. split; [|done]. exists (l ++ l''). rewrite app_assoc.
    split; [done | by apply Hexn].
Qed.

Lemma total_plain {A} (m : M exc W A) facts t :
  plain m → total (known facts t) m (λ _, known facts t) seen.
Proof. intros Hm. apply (total_makes m (λ _, []) []); [exact Hm | |]; intros; by rewrite app_nil_r. Qed.

Lemma total_refuse {A} (e : exc) facts t (Q : A → W → Prop) : isinstance e Exception_ = true →
  total (known facts t) (raise (A := A) e) Q seen.
Proof. intros He. apply total_raise. intros w Hw. split; [by eapply known_seen | done]. Qed.

Lemma total_json_loads facts t text :
  total (known facts t) (json_loads text) (λ _, known facts t) seen.
Proof. unfold json_loads. destruct (loads text); [by apply total_ret | by apply total_refuse]. Qed.

End discipline.

Hypothesis Hput : ∀ k d c, makes (storage_put_bytes k d c) (λ _, [Stored k d]) [].
Hypothesis Htext : ∀ p, makes (fs_read_text p) (λ _, [ReadText p]) [ReadText p].
Hypothesis Hread : ∀ p, makes (fs_read_bytes p) (λ data, [ReadBytes p (Some data)]) [ReadBytes p None].
Hypothesis Hresolve : ∀ p, makes (fs_resolve p) (λ q, [Resolved p q]) [].

Section reading.
Context {texts : list Path} {o : Path} {job : Job.t} {r : list Access}.

#[local] Abbreviation known := (knows texts o job r).
#[local] Abbreviation seen := (raised (read_inside texts o job r)).

Lemma total_resolve p facts t :
  total (known facts t) (fs_resolve p) (λ q, known (Resolved p q :: facts) t) seen.
Proof.
  apply (total_makes _ (λ q, [Resolved p q]) []); [apply Hresolve | |]; intros.
  - by constructor.
  - by rewrite app_nil_r.
Qed.

Lemma total_text p facts t : p ∈ texts →
  total (known facts t) (fs_read_text p) (λ _, known facts t) seen.
Proof.
  intros Hp. eapply total_conseq;
    [eapply (total_makes (fs_read_text p) (λ _, [ReadText p]) [ReadText p] facts t) | done | | done];
    [apply Htext | by constructor | by constructor |].
  intros a w. eapply known_weaken. clear. set_solver.
Qed.

Lemma total_read p facts t : checked o facts p →
  total (known facts t) (fs_read_bytes p) (λ data, known (ReadBytes p (Some data) :: facts) t) seen.
Proof.
  intros (relative & root & H1 & H2 & Hi).
  assert (∀ l, facts ⊆ l → checked o l p) as Hc.
  { intros l Hl. exists relative, root. split_and!; [by apply Hl | by apply Hl | done]. }
  apply (total_makes _ (λ data, [ReadBytes p (Some data)]) [ReadBytes p None]);
    [apply Hread | |]; intros; constructor; auto.
Qed.

Lemma total_put n p data c facts t : ReadBytes p (Some data) ∈ facts → truthy data = true →
  total (known facts t) (storage_put_bytes (page_image_key job n) data c)
    (λ _, known (Stored (page_image_key job n) data :: facts) t) seen.
Proof.
  intros Hp Ht. apply (total_makes _ (λ _, [Stored (page_image_key job n) data]) []); [apply Hput | |]; intros.
  - econstructor; eauto.
  - by rewrite app_nil_r.
Qed.

(** The root has been resolved, or is resolved anew for each page. *)
Definition root_known (resolve_root : M exc W Path) (facts : list Access) : Prop := ∀ facts' t,
  facts ⊆ facts' →
  total (known facts' t) resolve_root (λ q, known (Resolved o q :: facts') t) seen.

Lemma root_known_ret root facts : Resolved o root ∈ facts → root_known (mret root) facts.
Proof. intros Hr facts' t Hs. apply total_ret. intros w. apply known_weaken. set_solver. Qed.

Lemma root_known_resolve facts : root_known (fs_resolve o) facts.
Proof. intros facts' t _. apply total_resolve. Qed.

(** A page taken over is known to be stored with what a file held. *)
Definition kept (n : Z) (facts : list Access) : Prop :=
  ∃ p data, ReadBytes p (Some data) ∈ facts ∧ Stored (page_image_key job n) data ∈ facts.

Lemma total_import_page rr n d facts t : root_known rr facts →
  total (known facts t) (import_page o rr job n d)
    (λ page w, page = MkPreparedPage n (page_image_key job n) ∧
       ∃ facts', facts ⊆ facts' ∧ kept n facts' ∧ known facts' t w) seen.
Proof.
  intros Hroot. unfold import_page. destruct d as [| | | | | |d]; try by apply total_refuse.
  eapply total_bind with (Q := λ _, known facts t).
  { apply total_lift. destruct (py_int _) as [e|] eqn:E; [|done].
    intros w Hw. split; [by eapply known_seen | by eapply py_int_exception]. }
  intros number. destruct (bool_decide (number = n)) eqn:En; [|by apply total_refuse].
  apply bool_decide_eq_true in En as ->. cbn [negb].
  destruct (dget d "path") as [[| | | |relative| |]|]; try by apply total_refuse.
  eapply total_bind; [apply total_resolve|]. intros p.
  eapply total_bind; [apply Hroot; set_solver|]. intros root.
  destruct (inside root p) eqn:Ei; [|by apply total_refuse]. cbn [negb].
  eapply total_bind; [apply total_read; exists (parse_path relative), root; split_and!; [set_solver.. | done]|].
  intros data. destruct (truthy data) eqn:Et; [|by apply total_refuse]. cbn [negb].
  eapply total_bind; [eapply total_put with (p := p); [left | done]|]. intros ?. apply total_ret.
  intros w Hw. split; [done|]. eexists. split_and!; [|exists p, data|exact Hw]; set_solver.
Qed.

Lemma total_import_pages rr n l facts t : root_known rr facts →
  total (known facts t) (import_pages o rr job n l)
    (λ pages w, length pages = length l ∧ numbered n pages ∧
       ∃ facts', known facts' t w ∧
         Forall (λ page, prepared_object_key page = page_image_key job (prepared_page_number page) ∧
           kept (prepared_page_number page) facts') pages ∧ facts ⊆ facts') seen.
Proof.
  intros Hroot. revert n facts Hroot. induction l as [|d l IH]; intros n facts Hroot; simpl.
  { apply total_ret. intros w Hw. split_and!; [done..|]. by exists facts. }
  eapply total_bind; [by apply total_import_page|]. intros page. simpl.
  apply (total_fact (page = MkPreparedPage n (page_image_key job n))); [tauto|]. intros ->.
  eapply total_pre; [|intros w [_ Hw]; exact Hw]. apply total_ex. intros facts1.
  apply (total_fact (facts ⊆ facts1 ∧ kept n facts1)); [tauto|]. intros [Hs1 Hk].
  eapply total_pre with (known facts1 t); [|tauto].
  eapply total_bind; [apply IH; intros f t' ?; apply Hroot; set_solver|].
  intros pages. apply total_ret. intros w (Hl & Hn & facts2 & Hw & Hf & Hs2).
  split_and!; [simpl; congruence | by apply numbered_cons |]. exists facts2.
  split_and!; [done | | set_solver]. constructor; [|done]. split; [done|].
  destruct Hk as (p & data & ? & ?). exists p, data. simpl. set_solver.
Qed.

(** What the callers conclude from it. *)
Lemma imported_intro pages facts t w :
  1 ≤ Z.of_nat (length pages) ≤ max_pages → numbered 1 pages → known facts t w →
  Forall (λ page, prepared_object_key page = page_image_key job (prepared_page_number page) ∧
    kept (prepared_page_number page) facts) pages →
  imported texts o job r pages w.
Proof.
  intros Hl Hn (l & [Ht _] & Hd & Hs) Hf. split; [done|]. exists l. split_and!; [done..|].
  split; [done|]. eapply Forall_impl; [exact Hf|]. intros page [Hk (p & data & ? & ?)]. rewrite Hk.
  split; [done|]. exists p, data. split; by apply Hs.
Qed.

Lemma total_upload_pages t : sub o "manifest.json" ∈ texts →
  total (known [] t) (upload_pages max_pages o job) (imported texts o job r) seen.
Proof.
  intros Htexts. unfold upload_pages. eapply total_bind with (Q := λ _, known [] t).
  { eapply total_try_except.
    - eapply total_bind; [by apply total_text|]. intros text. apply total_json_loads.
    - intros e. destruct (isinstance_any e [OSError; JSONDecodeError]); [|done].
      apply total_raise. by intros w [Hw _]. }
  intros manifest. destruct manifest as [| | | | | |d]; try by apply total_refuse.
  destruct (dget d "pages") as [[| | | | |l|]|]; try by apply total_refuse.
  destruct (bool_decide (1 ≤ _ ≤ max_pages)) eqn:Eb; [|by apply total_refuse].
  apply bool_decide_eq_true in Eb. cbn [negb].
  eapply total_bind; [apply total_resolve|]. intros root.
  eapply total_conseq; [apply total_import_pages, root_known_ret; left | done | | done].
  intros pages w (Hl & Hn & facts & Hw & Hf & _). eapply imported_intro; [|done..]. lia.
Qed.
End reading.

Hypothesis Hget : ∀ k, plain (storage_get_bytes k).
Hypothesis Hmkdir : ∀ p, plain (fs_mkdir p).
Hypothesis Hwrite : ∀ p s, plain (fs_write p s).
Hypothesis Hreplace : ∀ p q, plain (fs_replace p q).
Hypothesis Hexists : ∀ p, plain (fs_exists p).
Hypothesis Hrmtree : ∀ p l t, total (at_ l t) (fs_rmtree p) (λ _, at_ l t) never.
Hypothesis Hhex : ∀ l t, total (at_ l t) uuid4_hex (λ _, at_ l t) never.
Hypothesis Htime : ∀ l t, total (at_ l t) loop_time (λ now w, at_ l now w ∧ t ≤ now) never.
Hypothesis Hsleep : ∀ d l t, total (at_ l t) (loop_sleep d) (λ _, at_ l (t + d)) never.
Hypothesis Hpoll : 0 < poll_interval.
Hypothesis Htimeout : 0 ≤ timeout.

(** The deadline passes before the fuel runs out. *)
Lemma total_wait_response path deadline l t n :
  deadline ≤ t + poll_interval * (Z.of_nat n - 1) → (1 ≤ n)%nat →
  total (at_ l t) (wait_response poll_interval n path deadline) (λ _, at_ l t) (raised (at_ l t)).
Proof.
  revert t. induction n as [|n IH]; intros t Hd Hn; [lia|]. simpl.
  pose proof (Hexists path l t) as Hx. rewrite app_nil_r in Hx.
  eapply total_bind; [exact Hx|]. intros [|]; [apply total_ret; by rewrite ?app_nil_r|].
  rewrite app_nil_r. eapply total_bind; [apply total_never, Htime|]. intros now.
  apply (total_fact (t ≤ now)); [tauto|]. intros Hnow.
  assert (∀ w, at_ l now w → at_ l t w) as Hweak by (intros w [? ?]; split; [done | lia]).
  case_decide as Hdl.
  { apply total_raise. intros w [Hw _]. split; [by apply Hweak | done]. }
  eapply total_pre with (at_ l now); [|tauto].
  destruct n as [|n]; [exfalso; rewrite Z.sub_diag in Hd; lia|].
  eapply total_bind; [apply total_never, Hsleep|]. intros ?.
  eapply total_conseq; [apply IH; [|lia] | done | |].
  - replace (Z.of_nat (S (S n)) - 1) with (Z.of_nat (S n) - 1 + 1) in Hd by lia. lia.
  - intros _ w [? ?]. split; [done | lia].
  - intros e w [[? ?] ?]. split; [split; [done | lia] | done].
Qed.

Definition exchange_texts (dir : Path) : list Path :=
  [sub dir "response.json"; sub (sub dir "output") "manifest.json"].

Lemma total_exchange dir upload job r t :
  total (knows (exchange_texts dir) (sub dir "output") job r [] t)
    (exchange timeout poll_interval max_pages max_pixels dpi dir upload job)
    (imported (exchange_texts dir) (sub dir "output") job r)
    (raised (read_inside (exchange_texts dir) (sub dir "output") job r)).
Proof.
  unfold exchange.
  eapply total_bind; [apply total_plain, Hmkdir|]. intros ?.
  eapply total_bind; [apply total_plain, Hget|]. intros source.
  eapply total_bind; [apply total_plain, Hwrite|]. intros ?.
  eapply total_bind; [apply total_plain, Hwrite|]. intros ?.
  eapply total_bind; [apply total_plain, Hreplace|]. intros ?.
  unfold knows at 1. apply total_ex. intros l.
  apply (total_fact (Disciplined (exchange_texts dir) (sub dir "output") job l)); [tauto|]. intros Hd.
  eapply total_pre with (at_ (r ++ l) t); [|tauto].
  eapply total_bind; [apply total_never, Htime|]. intros start.
  assert (∀ w, at_ (r ++ l) start w →
    knows (exchange_texts dir) (sub dir "output") job r [] start w) as Hk.
  { intros w Hw. exists l. split_and!; [done..|]. apply list_subseteq_nil. }
  eapply total_pre with (at_ (r ++ l) start); [|tauto].
  eapply total_bind.
  { eapply total_conseq; [apply total_wait_response; unfold wait_fuel; [|lia] | done | | ].
    - pose proof (Z.div_mod timeout poll_interval ltac:(lia)).
      pose proof (Z.mod_pos_bound timeout poll_interval ltac:(lia)).
      pose proof (Z.div_pos timeout poll_interval ltac:(lia) ltac:(lia)).
      rewrite Nat2Z.inj_add, Z2Nat.id by done. nia.
    - intros ? w Hw. exact (Hk w Hw).
    - intros e w [Hw He]. split; [by eapply known_seen, Hk | done]. }
  intros ?. eapply total_bind; [apply total_text; left|]. intros text.
  eapply total_bind; [apply total_json_loads|]. intros response.
  eapply total_bind; [|intros ?; apply total_upload_pages; right; left].
  unfold check_response. destruct response as [| | | | | |d]; try by apply total_refuse.
  destruct (json_truthy (default JNull (dget d "ok"))); [by apply total_ret | by apply total_refuse].
Qed.

(** The cleanup keeps what is known of the accesses. *)
Lemma total_rmtree (P : W → Prop) dir : (∀ l t, ∀ w w', at_ l t w → at_ l t w' → P w → P w') →
  total P (fs_rmtree dir) (λ _, P) (never (E := exc)).
Proof.
  intros HP w Hw. pose proof (Hrmtree dir (trace w) (clock w) w) as Hx.
  destruct (fs_rmtree dir w) as [[|e|] w']; [|by destruct Hx..].
  eapply HP; [| |exact Hw]; [split; [done | apply Z.le_refl] | by apply Hx].
Qed.

End contained.

(** ** A concrete exchange: the manifest names a page and a file outside *)

Module SampleExchange.

Record World := MkWorld { w_trace : list Access; w_time : Z; w_manifest : string }.

Definition text (v : json) : string := dumps false v.

Definition page (path : string) : json := JObj [("path", JStr path)].

Definition manifest (paths : list string) : string := text (JObj [("pages", JList (map page paths))]).

(** [..] goes up, and the name ["link"] is a link to [/etc/passwd]. *)
Definition resolve (p : Path) : Path :=
  if decide (last (path_parts p) = Some "link") then MkPath true ["etc"; "passwd"]
  else MkPath (path_absolute p) (foldl (λ acc c,
    if decide (c = "..") then take (length acc - 1) acc else acc ++ [c]) [] (path_parts p)).

Definition ret {A} (a : A) : M exc World A := mret a.

Definition access (a : Access) (w : World) : World :=
  MkWorld (w_trace w ++ [a]) (w_time w) (w_manifest w).

#[global] Instance fs : FileSystem World := {
  fs_mkdir _ := ret ();
  fs_write _ _ := ret ();
  fs_replace _ _ := ret ();
  fs_exists _ w := (Ret (bool_decide (250000 ≤ w_time w)), w);
  fs_read_text p w :=
    (Ret (if decide (last (path_parts p) = Some "manifest.json") then w_manifest w
          else text (JObj [("ok", JBool true)])), access (ReadText p) w);
  fs_read_bytes p w := (Ret "pixels", access (ReadBytes p (Some "pixels")) w);
  fs_resolve p w := (Ret (resolve p), access (Resolved p (resolve p)) w);
  fs_rmtree _ := ret ()
}.

#[global] Instance loop : EventLoop World := {
  loop_time w := (Ret (w_time w), w);
  loop_sleep d w := (Ret (), MkWorld (w_trace w) (w_time w + d) (w_manifest w))
}.

#[global] Instance random_hex : RandomHex World := ret "ab".

Definition unused {A} : M exc World A := raise (mk_exc AssertionError "unused").

#[global] Instance storage : ObjectStorage World := {
  storage_create_upload_target _ _ _ _ := unused;
  storage_stat _ := unused;
  storage_complete_upload _ _ _ := unused;
  storage_get_bytes _ := ret "source";
  storage_put_bytes k d c w := (Ret (MkStoredObject k (bytes_len d) "" c), access (Stored k d) w);
  storage_delete_object _ := unused;
  storage_abort_multipart_upload _ _ := unused;
  storage_create_download_url _ := unused
}.

Definition upload : Upload.t :=
  Upload.Mk "owner" "a.pdf" 6 "application/pdf" "" "uploads/2/source" 2
    UploadState_COMPLETED 0 (Some 1) (Some "application/pdf") None.
Definition job : Job.t := Job.new "owner" 2 "req" [] None 7 0 0.
Definition root : Path := MkPath true ["exchange"].

Definition prepare (paths : list string) : outcome exc (list PreparedPage) * World :=
  directory_prepare (W := World) root 1000000 100000 500 100000000 180 upload job
    (MkWorld [] 0 (manifest paths)).

(** The files read for pages. *)
Definition pages_read (w : World) : list Path :=
  omap (λ a, match a with ReadBytes p _ => Some p | _ => None end) (w_trace w).

End SampleExchange.


Example prepare_ex :
  (match SampleExchange.prepare ["a.png"; "sub/b.png"] with
   | (Ret pages, w) => Some (map prepared_page_number pages, map path_parts (SampleExchange.pages_read w))
   | _ => None end,
   match SampleExchange.prepare ["a.png"; "../../../etc/shadow"] with
   | (Exn e, w) => Some (exc_msg e, length (SampleExchange.pages_read w)) | _ => None end,
   match SampleExchange.prepare ["link"] with
   | (Exn e, w) => Some (exc_msg e, length (SampleExchange.pages_read w)) | _ => None end) =
  (let dir := ["exchange"; uuid_str 7 +:+ "-1-ab"; "output"] in
   Some ([1; 2], [dir ++ ["a.png"]; dir ++ ["sub"; "b.png"]]),
   Some ("sandbox page path escapes output directory", 1%nat),
   Some ("sandbox page path escapes output directory", 0%nat)).
Proof. vm_compute. reflexivity. Qed.
