(* ===== verification/Schema.v ===== *)
(** * The database

    The tables of [alembic/versions/20260711_0001_initial_ocr_platform.py] as
    finite maps by primary or unique key, their constraints, and the few
    services of PostgreSQL and asyncpg the repositories use: statements and
    transactions that roll back, [jsonb], and error classes.

    A column that no statement of the program reads is left out (the [id]s and
    [updated_at]s of the dependent tables, [claimed_by], [metadata], ...), and so
    are the indexes that constrain nothing.  [progress_percent] is in hundredths.
    [db_deleted] is not a table: it records the ids of the jobs deleted so far,
    and no statement reads it. *)

From Stdlib Require Import Ascii.
From S2P Require Import Prelude PyData PyText Json Status Domain Ports.

#[local] Open Scope Z_scope.

(** ** Errors of asyncpg: the class, and the violated constraint as the message *)

Definition postgres_error (name constraint : string) : exc := mk_exc (Foreign name) constraint.

Definition unique_violation (constraint : string) : exc :=
  postgres_error "UniqueViolationError" constraint.
Definition foreign_key_violation (constraint : string) : exc :=
  postgres_error "ForeignKeyViolationError" constraint.
Definition check_violation (constraint : string) : exc :=
  postgres_error "CheckViolationError" constraint.
Definition data_error (column : string) : exc := postgres_error "DataError" column.

(** [getattr(exc, "sqlstate", None)] and [getattr(exc, "constraint_name", None)] *)
Definition sqlstate (e : exc) : option string :=
  match exc_cls e with
  | Foreign "UniqueViolationError" => Some "23505"
  | Foreign "ForeignKeyViolationError" => Some "23503"
  | Foreign "CheckViolationError" => Some "23514"
  | Foreign "DataError" => Some "22000"
  | _ => None
  end.

Definition constraint_name (e : exc) : option string :=
  match sqlstate e with Some _ => Some (exc_msg e) | None => None end.

(** ** Column types *)

Definition text (s : string) : bool := negb (bool_decide (ascii_of_N 0 ∈ chars s)).
Definition varchar (n : Z) (s : string) : bool := text s && (py_len s <=? n).
Definition int4 (n : Z) : bool := (- 2 ^ 31 <=? n) && (n <? 2 ^ 31).
Definition int8 (n : Z) : bool := (- 2 ^ 63 <=? n) && (n <? 2 ^ 63).
Definition nullable {A} (p : A → bool) (v : option A) : bool :=
  match v with Some a => p a | None => true end.

(** ** Rows *)

Record ApiKeyRow := MkApiKeyRow {
  ak_name : string;
  ak_key_prefix : string;
  ak_key_hash : string;
  ak_salt : string;
  ak_status : string;
  ak_last_used_at : option datetime;
  ak_revoked_at : option datetime;
  ak_created_at : datetime
}.

Record UploadRow := MkUploadRow {
  ur_api_key_id : UUID;
  ur_object_key : string;
  ur_filename : string;
  ur_declared_content_type : string;
  ur_detected_content_type : option string;
  ur_expected_sha256 : string;
  ur_verified_sha256 : option string;
  ur_expected_size : Z;
  ur_verified_size : option Z;
  ur_multipart_upload_id : option string;
  ur_status : string;
  ur_expires_at : datetime;
  ur_retention_claim_token : option UUID;
  ur_retention_lease_expires_at : option datetime;
  ur_completed_at : option datetime;
  ur_created_at : datetime
}.

Record JobRow := MkJobRow {
  jr_api_key_id : UUID;
  jr_upload_id : UUID;
  jr_request_id : string;
  jr_idempotency_key : option string;
  jr_status : string;
  jr_current_attempt : Z;
  jr_revision : Z;
  jr_total_pages : option Z;
  jr_completed_pages : Z;
  jr_progress_percent : Z;
  jr_options : json;
  jr_cancel_requested_at : option datetime;
  jr_finished_at : option datetime;
  jr_expires_at : datetime;
  jr_retention_claim_token : option UUID;
  jr_retention_lease_expires_at : option datetime;
  jr_last_internal_code : Z;
  jr_last_error_reason : option string;
  jr_created_at : datetime;
  jr_updated_at : datetime
}.

Record AttemptRow := MkAttemptRow {
  ar_status : string;
  ar_started_at : option datetime;
  ar_finished_at : option datetime;
  ar_engine_name : option string;
  ar_engine_version : option string;
  ar_model_name : option string
}.

Record PageRow := MkPageRow {
  pr_status : string;
  pr_retry_count : Z;
  pr_source_object_key : string;
  pr_result_object_key : option string;
  pr_visualization_object_key : option string;
  pr_result_sha256 : option string;
  pr_last_internal_code : Z;
  pr_last_error_reason : option string
}.

Record ArtifactRow := MkArtifactRow {
  fr_job_id : UUID;
  fr_attempt : Z;
  fr_page_number : option Z;
  fr_kind : string;
  fr_object_key : string;
  fr_content_type : string;
  fr_size_bytes : Z;
  fr_sha256 : string
}.

Record OutboxRow := MkOutboxRow {
  or_aggregate_type : string;
  or_aggregate_id : UUID;
  or_event_type : string;
  or_topic : string;
  or_partition_key : string;
  or_schema_version : Z;
  or_payload : json;
  or_published_at : option datetime;
  or_publish_attempts : Z;
  or_created_at : datetime
}.

Record EventRow := MkEventRow {
  er_event_type : string;
  er_internal_code : Z;
  er_payload : json;
  er_created_at : datetime
}.

(** ** The database *)

Record Db := MkDb {
  db_api_keys : gmap UUID ApiKeyRow;
  db_uploads : gmap UUID UploadRow;
  db_jobs : gmap UUID JobRow;
  db_attempts : gmap (UUID * Z) AttemptRow;      (* job_id, attempt *)
  db_pages : gmap (UUID * Z * Z) PageRow;        (* job_id, attempt, page_number *)
  db_artifacts : list ArtifactRow;
  db_outbox : gmap UUID OutboxRow;
  db_events : gmap (UUID * Z) EventRow;          (* job_id, sequence *)
  db_now : datetime;                             (* [now()] *)
  db_deleted : gset UUID
}.

Definition set_api_keys v d := MkDb v (db_uploads d) (db_jobs d) (db_attempts d) (db_pages d)
  (db_artifacts d) (db_outbox d) (db_events d) (db_now d) (db_deleted d).
Definition set_uploads v d := MkDb (db_api_keys d) v (db_jobs d) (db_attempts d) (db_pages d)
  (db_artifacts d) (db_outbox d) (db_events d) (db_now d) (db_deleted d).
Definition set_jobs v d := MkDb (db_api_keys d) (db_uploads d) v (db_attempts d) (db_pages d)
  (db_artifacts d) (db_outbox d) (db_events d) (db_now d) (db_deleted d).
Definition set_attempts v d := MkDb (db_api_keys d) (db_uploads d) (db_jobs d) v (db_pages d)
  (db_artifacts d) (db_outbox d) (db_events d) (db_now d) (db_deleted d).
Definition set_pages v d := MkDb (db_api_keys d) (db_uploads d) (db_jobs d) (db_attempts d) v
  (db_artifacts d) (db_outbox d) (db_events d) (db_now d) (db_deleted d).
Definition set_artifacts v d := MkDb (db_api_keys d) (db_uploads d) (db_jobs d) (db_attempts d)
  (db_pages d) v (db_outbox d) (db_events d) (db_now d) (db_deleted d).
Definition set_outbox v d := MkDb (db_api_keys d) (db_uploads d) (db_jobs d) (db_attempts d)
  (db_pages d) (db_artifacts d) v (db_events d) (db_now d) (db_deleted d).
Definition set_events v d := MkDb (db_api_keys d) (db_uploads d) (db_jobs d) (db_attempts d)
  (db_pages d) (db_artifacts d) (db_outbox d) v (db_now d) (db_deleted d).
Definition set_deleted v d := MkDb (db_api_keys d) (db_uploads d) (db_jobs d) (db_attempts d)
  (db_pages d) (db_artifacts d) (db_outbox d) (db_events d) (db_now d) v.

Definition empty_db : Db := MkDb ∅ ∅ ∅ ∅ ∅ [] ∅ ∅ 0 ∅.

(** A statement or a block of statements on one connection. *)
Abbreviation Sql := (M exc Db).

(** [async with connection.transaction()]: an exception rolls back. *)
Definition transaction {E A} (m : M E Db A) : M E Db A := λ d,
  match m d with
  | (Exn e, _) => (Exn e, d)
  | r => r
  end.

(** A connection from the pool: each statement outside a transaction, and each
    transaction, is one step; other connections run in between. *)
Class Database (W : Type) := sql : ∀ {A}, Sql A → M exc W A.

(** [$1::jsonb], and the text asyncpg returns for a [jsonb] column. *)
Class Jsonb := {
  jsonb_in : string → exc + json;
  jsonb_text : json → string
}.

(** ** Constraints *)

(** The first violated one. *)
Fixpoint satisfy (constraints : list (bool * exc)) : exc + () :=
  match constraints with
  | [] => inr ()
  | (true, _) :: constraints => satisfy constraints
  | (false, e) :: _ => inl e
  end.

Definition check_api_key (r : ApiKeyRow) : exc + () := satisfy
  [(varchar 120 (ak_name r), data_error "name");
   (varchar 24 (ak_key_prefix r), data_error "key_prefix");
   (varchar 24 (ak_status r), data_error "status");
   (bool_decide (ak_status r ∈ ["active"; "revoked"]), check_violation "ck_api_keys_status")].

(** [(claim_token IS NULL) = (lease_expires_at IS NULL)] *)
Definition claim_ok (token : option UUID) (lease : option datetime) : bool :=
  Bool.eqb (bool_decide (token = None)) (bool_decide (lease = None)).

Definition check_upload (r : UploadRow) : exc + () := satisfy
  [(text (ur_object_key r), data_error "object_key");
   (text (ur_filename r), data_error "filename");
   (varchar 160 (ur_declared_content_type r), data_error "declared_content_type");
   (nullable (varchar 160) (ur_detected_content_type r), data_error "detected_content_type");
   (varchar 64 (ur_expected_sha256 r), data_error "expected_sha256");
   (int8 (ur_expected_size r), data_error "expected_size");
   (nullable text (ur_multipart_upload_id r), data_error "multipart_upload_id");
   (varchar 32 (ur_status r), data_error "status");
   (0 <? ur_expected_size r, check_violation "ck_upload_sessions_size");
   (claim_ok (ur_retention_claim_token r) (ur_retention_lease_expires_at r),
    check_violation "ck_upload_sessions_retention_claim")].

Definition check_job (r : JobRow) : exc + () := satisfy
  [(varchar 128 (jr_request_id r), data_error "request_id");
   (nullable (varchar 160) (jr_idempotency_key r), data_error "idempotency_key");
   (varchar 32 (jr_status r), data_error "status");
   (int4 (jr_current_attempt r), data_error "current_attempt");
   (int8 (jr_revision r), data_error "revision");
   (nullable int4 (jr_total_pages r), data_error "total_pages");
   (int4 (jr_completed_pages r), data_error "completed_pages");
   (int4 (jr_last_internal_code r), data_error "last_internal_code");
   (nullable (varchar 160) (jr_last_error_reason r), data_error "last_error_reason");
   (0 <? jr_current_attempt r, check_violation "ck_ocr_jobs_attempt");
   (0 <=? jr_completed_pages r, check_violation "ck_ocr_jobs_completed_pages");
   ((0 <=? jr_progress_percent r) && (jr_progress_percent r <=? 10000),
    check_violation "ck_ocr_jobs_progress");
   (claim_ok (jr_retention_claim_token r) (jr_retention_lease_expires_at r),
    check_violation "ck_ocr_jobs_retention_claim")].

Definition check_attempt (attempt : Z) (r : AttemptRow) : exc + () := satisfy
  [(int4 attempt, data_error "attempt");
   (varchar 32 (ar_status r), data_error "status");
   (nullable (varchar 80) (ar_engine_name r), data_error "engine_name");
   (nullable (varchar 80) (ar_engine_version r), data_error "engine_version");
   (nullable (varchar 160) (ar_model_name r), data_error "model_name")].

Definition check_page (attempt page_number : Z) (r : PageRow) : exc + () := satisfy
  [(int4 attempt, data_error "attempt");
   (int4 page_number, data_error "page_number");
   (varchar 32 (pr_status r), data_error "status");
   (int4 (pr_retry_count r), data_error "retry_count");
   (text (pr_source_object_key r), data_error "source_object_key");
   (nullable text (pr_result_object_key r), data_error "result_object_key");
   (nullable text (pr_visualization_object_key r), data_error "visualization_object_key");
   (nullable (varchar 64) (pr_result_sha256 r), data_error "result_sha256");
   (int4 (pr_last_internal_code r), data_error "last_internal_code");
   (nullable (varchar 160) (pr_last_error_reason r), data_error "last_error_reason");
   (0 <? page_number, check_violation "ck_ocr_job_pages_page_number");
   (0 <=? pr_retry_count r, check_violation "ck_ocr_job_pages_retry_count")].

Definition check_artifact (r : ArtifactRow) : exc + () := satisfy
  [(int4 (fr_attempt r), data_error "attempt");
   (nullable int4 (fr_page_number r), data_error "page_number");
   (varchar 48 (fr_kind r), data_error "kind");
   (text (fr_object_key r), data_error "object_key");
   (varchar 160 (fr_content_type r), data_error "content_type");
   (int8 (fr_size_bytes r), data_error "size_bytes");
   (varchar 64 (fr_sha256 r), data_error "sha256")].

Definition check_outbox (r : OutboxRow) : exc + () := satisfy
  [(varchar 80 (or_aggregate_type r), data_error "aggregate_type");
   (varchar 120 (or_event_type r), data_error "event_type");
   (varchar 200 (or_topic r), data_error "topic");
   (varchar 200 (or_partition_key r), data_error "partition_key");
   (int4 (or_schema_version r), data_error "schema_version")].

Definition check_event (sequence : Z) (r : EventRow) : exc + () := satisfy
  [(int8 sequence, data_error "sequence");
   (varchar 120 (er_event_type r), data_error "event_type");
   (int4 (er_internal_code r), data_error "internal_code")].

(** The unique constraint of [ocr_artifacts]; null page numbers are distinct. *)
Definition same_artifact (a b : ArtifactRow) : bool :=
  bool_decide (fr_job_id a = fr_job_id b) && bool_decide (fr_attempt a = fr_attempt b) &&
  bool_decide (fr_kind a = fr_kind b) &&
  match fr_page_number a, fr_page_number b with
  | Some m, Some n => bool_decide (m = n)
  | _, _ => false
  end.

(** ** Facts *)

Lemma satisfy_spec l : satisfy l = inr () ↔ Forall (λ c, c.1 = true) l.
Proof.
  induction l as [|[[] e] l IH]; simpl; rewrite ?Forall_cons, ?IH; simpl; [|naive_solver..].
  by rewrite Forall_nil.
Qed.

Lemma transaction_ret {E A} (m : M E Db A) d a d' :
  transaction m d = (Ret a, d') ↔ m d = (Ret a, d').
Proof. unfold transaction. by destruct (m d) as [[| |]]. Qed.

(** A transaction that raises changes nothing. *)
Lemma transaction_exn {E A} (m : M E Db A) d e d' :
  transaction m d = (Exn e, d') → d' = d.
Proof. unfold transaction. destruct (m d) as [[| |]]; by intros [= <- <-]. Qed.
