(* ===== verification/Persistence.v ===== *)
(** * The PostgreSQL repositories

    Models [infrastructure/persistence.py] (the retention repository is in [PgRetention]):
    one module per class; every SQL
    statement is an operation on the tables of [Schema], with the parameters the
    method computes for it.  A statement outside a transaction and a transaction
    are single steps; the three statements of [AsyncpgJobRepository.get] are
    three steps, between which other connections run.

    A transaction is one step although PostgreSQL lets others read between its
    statements: its first statement locks the row of the job ([UPDATE], [INSERT],
    [FOR UPDATE]) or, for an event, takes the advisory lock of the job, and every
    other writer of the job's rows waits for the same lock.  Rows that tie in an
    [ORDER BY] come in the order of their keys.  [_save_job] raises with the job
    as it has left it ([exc * Job.t]). *)

From Stdlib Require Import Ascii.
From S2P Require Import Prelude PyData PyText PyValue Json Status Progress Domain Ports.
From S2P Require Import Messaging Schema.

#[local] Open Scope Z_scope.

(** ** Helpers *)

Definition absent {K A} `{Countable K} (m : gmap K A) (k : K) : bool :=
  match m !! k with Some _ => false | None => true end.

(** [timedelta(seconds=n)] and [timedelta(days=n)], in microseconds *)
Definition timedelta_seconds (n : Z) : Z := n * 1000000.
Definition timedelta_days (n : Z) : Z := n * 86400000000.

(** [_json(value)::jsonb] *)
Definition to_jsonb `{!Jsonb} (v : json) : exc + json := jsonb_in (dumps false v).

(** [_decode_json] of a [jsonb] column *)
Definition decode_json `{!Jsonb} (column : json) : exc + json :=
  match loads (jsonb_text column) with
  | Some v => inr v
  | None => inl (mk_exc JSONDecodeError "Expecting value")
  end.

(** [Enum(s)] for a string enumeration *)
Definition parse_enum {A} (name : string) (str : A → string) (values : list A) (s : string) : exc + A :=
  match filter (λ a, str a = s) values with
  | a :: _ => inr a
  | [] => inl (mk_exc ValueError (repr_str s +:+ " is not a valid " +:+ name))
  end.

Definition parse_upload_state : string → exc + UploadState :=
  parse_enum "UploadState" upload_state_str
    [UploadState_UPLOADING; UploadState_COMPLETED; UploadState_REJECTED].
Definition parse_job_state : string → exc + JobState :=
  parse_enum "JobState" job_state_str
    [QUEUED; PREPROCESSING; RUNNING; ASSEMBLING; CANCEL_REQUESTED; CANCELLED; RETRYING; SUCCEEDED; FAILED].
Definition parse_page_state : string → exc + PageState :=
  parse_enum "PageState" page_state_str [Page_PENDING; Page_RUNNING; Page_SUCCEEDED; Page_FAILED].
Definition parse_artifact_kind : string → exc + ArtifactKind :=
  parse_enum "ArtifactKind" artifact_kind_str [MARKDOWN; JSON; PAGE_IMAGE; VISUALIZATION; MANIFEST].

(** [COALESCE(a, b)] *)
Definition coalesce {A} (a b : option A) : option A := match a with Some _ => a | None => b end.

(** The rows whose key has a number, in the order of the numbers. *)
Definition numbered_rows {K A} `{Countable K} (number : K → option Z) (m : gmap K A) : list (Z * A) :=
  py_sorted fst false (omap (λ '(k, r), (λ n, (n, r)) <$> number k) (map_to_list m)).

(** ** [AsyncpgUploadRepository] *)

Module AsyncpgUploadRepository.

Definition db_status (state : UploadState) : string :=
  match state with UploadState_UPLOADING => "pending" | _ => upload_state_str state end.

Definition from_row (id : UUID) (row : UploadRow) : exc + Upload.t :=
  let status := if decide (ur_status row = "pending") then "uploading" else ur_status row in
  state ← parse_upload_state status;
  mret (Upload.Mk (uuid_str (ur_api_key_id row)) (ur_filename row) (ur_expected_size row)
    (ur_declared_content_type row) (ur_expected_sha256 row) (ur_object_key row) id state
    (ur_created_at row) (ur_completed_at row) (ur_detected_content_type row)
    (ur_multipart_upload_id row)).

(** [INSERT INTO upload_sessions] *)
Definition insert_row (id : UUID) (row : UploadRow) : Sql () :=
  d ← gets (λ d, d);
  _ ← lift (check_upload row);
  _ ← lift (satisfy
    [(absent (db_uploads d) id, unique_violation "upload_sessions_pkey");
     (negb (existsb (λ r, bool_decide (ur_object_key r.2 = ur_object_key row))
              (map_to_list (db_uploads d))), unique_violation "uq_upload_sessions_object_key");
     (negb (absent (db_api_keys d) (ur_api_key_id row)),
      foreign_key_violation "upload_sessions_api_key_id_fkey")]);
  modify (set_uploads (<[id := row]> (db_uploads d))).

(** [SELECT * FROM upload_sessions WHERE id=$1 AND retention_claim_token IS NULL] *)
Definition select_row (id : UUID) : Sql (option UploadRow) :=
  gets (λ d, row ← db_uploads d !! id;
             match ur_retention_claim_token row with None => Some row | Some _ => None end).

(** [UPDATE upload_sessions SET ... WHERE id=$1 AND retention_claim_token IS NULL];
    the command tag *)
Definition update_row (id : UUID) (status : string) (detected_content_type : option string)
    (completed_at : option datetime) : Sql string :=
  d ← gets (λ d, d);
  match db_uploads d !! id with
  | Some r =>
      match ur_retention_claim_token r with
      | Some _ => mret "UPDATE 0"
      | None =>
          let done := bool_decide (status = "completed") in
          let r' := MkUploadRow (ur_api_key_id r) (ur_object_key r) (ur_filename r)
            (ur_declared_content_type r) detected_content_type (ur_expected_sha256 r)
            (if done then Some (ur_expected_sha256 r) else ur_verified_sha256 r)
            (ur_expected_size r)
            (if done then Some (ur_expected_size r) else ur_verified_size r)
            (ur_multipart_upload_id r) status (ur_expires_at r) (ur_retention_claim_token r)
            (ur_retention_lease_expires_at r) completed_at (ur_created_at r) in
          _ ← lift (check_upload r');
          _ ← modify (set_uploads (<[id := r']> (db_uploads d)));
          mret "UPDATE 1"
      end
  | None => mret "UPDATE 0"
  end.

Section methods.
Context {W : Type} `{!Database W, !Runtime W}.
Context (upload_ttl_seconds : Z).

Definition add (upload : Upload.t) : M exc W () :=
  owner ← lift (parse_uuid (Upload.owner_id upload));
  sql (insert_row (Upload.id upload)
    (MkUploadRow owner (Upload.object_key upload) (Upload.filename upload)
      (Upload.content_type upload) None (Upload.sha256 upload) None (Upload.size_bytes upload)
      None (Upload.multipart_upload_id upload) (db_status (Upload.state upload))
      (Upload.created_at upload + timedelta_seconds upload_ttl_seconds)
      None None None (Upload.created_at upload))).

Definition get (upload_id : UUID) : M exc W (option Upload.t) :=
  row ← sql (select_row upload_id);
  match row with
  | Some row => upload ← lift (from_row upload_id row); mret (Some upload)
  | None => mret None
  end.

Definition save (upload : Upload.t) : M exc W () :=
  _ ← utc_now;
  status ← sql (update_row (Upload.id upload) (db_status (Upload.state upload))
    (Upload.detected_content_type upload) (Upload.completed_at upload));
  if negb (bool_decide (status = "UPDATE 1"))
  then raise (mk_exc RuntimeError "upload is unavailable for retention cleanup")
  else mret ().
End methods.

End AsyncpgUploadRepository.

(** ** [AsyncpgJobEventRepository] *)

Module AsyncpgJobEventRepository.

(** The rows of a job in the order of their numbers. *)
Definition rows_of (d : Db) (job_id : UUID) : list (Z * EventRow) :=
  numbered_rows (λ '(i, n), if decide (i = job_id) then Some n else None) (db_events d).

Definition terminal_event (event_type : string) : bool :=
  bool_decide (event_type ∈ ["job.cancelled"; "job.failed"; "job.succeeded"]).

(** [v->key] and [v->>key] *)
Definition json_field (v : json) (key : string) : option json :=
  match v with JObj l => dget l key | _ => None end.

Definition json_as_text `{!Jsonb} (v : json) : option string :=
  match v with
  | JNull => None
  | JBool true => Some "true"
  | JBool false => Some "false"
  | JInt n => Some (str_Z n)
  | JFloat lit => Some lit
  | JStr s => Some s
  | JList _ | JObj _ => Some (jsonb_text v)
  end.

(** [payload->'data'->>'attempt'] *)
Definition attempt_text `{!Jsonb} (payload : json) : option string :=
  data ← json_field payload "data"; attempt ← json_field data "attempt"; json_as_text attempt.

(** [SELECT sequence FROM job_events WHERE ... LIMIT 1] *)
Definition select_existing `{!Jsonb} (job_id : UUID) (event_type attempt : string) : Sql (option Z) :=
  gets (λ d, head (omap (λ '(n, r),
    if bool_decide (er_event_type r = event_type) &&
       bool_decide (attempt_text (er_payload r) = Some attempt) then Some n else None)
    (rows_of d job_id))).

(** [SELECT COALESCE(max(sequence),0)+1 FROM job_events WHERE job_id=$1] *)
Definition next_sequence (job_id : UUID) : Sql Z :=
  gets (λ d, foldr Z.max 0 (rows_of d job_id).*1 + 1).

(** [INSERT INTO job_events] *)
Definition insert_row (job_id : UUID) (sequence : Z) (row : EventRow) : Sql () :=
  d ← gets (λ d, d);
  _ ← lift (check_event sequence row);
  _ ← lift (satisfy
    [(absent (db_events d) (job_id, sequence), unique_violation "job_events_pkey");
     (negb (absent (db_jobs d) job_id), foreign_key_violation "job_events_job_id_fkey")]);
  modify (set_events (<[(job_id, sequence) := row]> (db_events d))).

(** The document of the [payload] column. *)
Definition event_document (event : JobEvent.t) : json :=
  JObj [("state", JStr (job_state_str (JobEvent.state event)));
        ("progress", JFloat (repr4 (JobEvent.progress event)));
        ("request_id", JStr (JobEvent.request_id event));
        ("data", JObj (JobEvent.payload event))].

(** [int(event.payload.get("internal_code", default_internal_code))], or the
    default. *)
Definition event_internal_code (event : JobEvent.t) : exc + Z :=
  let default_internal_code := if decide (JobEvent.state event = FAILED) then 30004 else 0 in
  match py_int (default (JInt default_internal_code) (dget (JobEvent.payload event) "internal_code")) with
  | inr n => inr n
  | inl e => if isinstance_any e [TypeError; ValueError] then inr default_internal_code else inl e
  end.

Definition append_with_connection `{!Jsonb} (event : JobEvent.t) : Sql JobEvent.t :=
  let job_id := JobEvent.job_id event in
  existing ← (if terminal_event (JobEvent.event_type event)
              then select_existing job_id (JobEvent.event_type event)
                (py_str (default (JStr "") (dget (JobEvent.payload event) "attempt")))
              else mret None);
  match existing with
  | Some sequence => mret (JobEvent.with_sequence sequence event)
  | None =>
      sequence ← next_sequence job_id;
      internal_code ← lift (event_internal_code event);
      payload ← lift (to_jsonb (event_document event));
      _ ← insert_row job_id sequence
        (MkEventRow (JobEvent.event_type event) internal_code payload (JobEvent.occurred_at event));
      mret (JobEvent.with_sequence sequence event)
  end.

(** [SELECT * FROM job_events WHERE job_id=$1 AND sequence>$2 ORDER BY sequence LIMIT 100] *)
Definition select_after (job_id : UUID) (sequence : Z) : Sql (list (Z * EventRow)) :=
  gets (λ d, take 100 (filter (λ r, sequence < r.1) (rows_of d job_id))).

(** [float(v)] of a progress, in ten-thousandths: what [repr4] prints. *)
Definition float4 (v : json) : exc + Z :=
  match v with
  | JInt n => inr (n * 10000)
  | JBool b => inr (int_of_bool b * 10000)
  | JFloat lit | JStr lit =>
      let '(neg, m, e) := float_parts lit in
      inr (signed neg (Z.to_N (Z.of_N m * 10 ^ Z.max 0 (e + 4) / 10 ^ Z.max 0 (- (e + 4)))))
  | _ => inl (mk_exc TypeError "float() argument must be a string or a real number")
  end.

Definition from_row `{!Jsonb} (job_id : UUID) (sequence : Z) (row : EventRow) : exc + JobEvent.t :=
  payload ← decode_json (er_payload row);
  payload ← match payload with
            | JObj l => inr l
            | _ => inl (mk_exc TypeError "indices must be integers")
            end;
  state ← item payload "state";
  state ← parse_job_state (py_str state);
  progress ← item payload "progress";
  progress ← float4 progress;
  request_id ← item payload "request_id";
  let data := match dget payload "data" with Some (JObj l) => l | _ => [] end in
  inr (JobEvent.Mk job_id (er_event_type row) state progress (py_str request_id) data sequence
    (er_created_at row)).

Section methods.
Context {W : Type} `{!Database W, !EventLoop W, !Jsonb}.

Definition append (event : JobEvent.t) : M exc W JobEvent.t :=
  sql (transaction (append_with_connection event)).

Definition list_after (job_id : UUID) (sequence : Z) : M exc W (list JobEvent.t) :=
  rows ← sql (select_after job_id sequence);
  lift (traverse (λ '(n, row), from_row job_id n row) rows).

(** [while loop.time() < deadline] *)
Fixpoint poll (fuel : nat) (job_id : UUID) (sequence deadline : Z) : M exc W (list JobEvent.t) :=
  match fuel with
  | O => out_of_fuel
  | S fuel =>
      now ← loop_time;
      if decide (now < deadline) then
        events ← list_after job_id sequence;
        match events with
        | _ :: _ => mret events
        | [] =>
            now ← loop_time;
            _ ← loop_sleep (Z.min 250000 (Z.max 0 (deadline - now)));
            poll fuel job_id sequence deadline
        end
      else mret []
  end.

(** A quarter of a second per round, and two rounds to reach the deadline. *)
Definition poll_fuel (timeout_seconds : Z) : nat := Z.to_nat (timeout_seconds * 4) + 3.

Definition wait_after (job_id : UUID) (sequence timeout_seconds : Z) : M exc W (list JobEvent.t) :=
  start ← loop_time;
  poll (poll_fuel timeout_seconds) job_id sequence (start + timedelta_seconds timeout_seconds).
End methods.

End AsyncpgJobEventRepository.

(** ** [AsyncpgOutboxRepository] *)

Module AsyncpgOutboxRepository.

(** [INSERT INTO outbox_events], also [AsyncpgJobRepository._insert_outbox] *)
Definition insert_outbox `{!Jsonb} (topic : string) (event : OutboxEvent) : Sql () :=
  payload ← lift (to_jsonb (JObj (outbox_payload event)));
  d ← gets (λ d, d);
  let row := MkOutboxRow "ocr_job" (outbox_aggregate_id event) (outbox_event_type event) topic
    (uuid_str (outbox_aggregate_id event)) 1 payload None 0 (outbox_created_at event) in
  _ ← lift (check_outbox row);
  _ ← lift (satisfy [(absent (db_outbox d) (outbox_id event), unique_violation "outbox_events_pkey")]);
  modify (set_outbox (<[outbox_id event := row]> (db_outbox d))).

(** [SELECT * FROM outbox_events WHERE published_at IS NULL ORDER BY created_at
    FOR UPDATE SKIP LOCKED LIMIT $1]: the locks end with the statement. *)
Definition select_pending (limit : Z) : Sql (list (UUID * OutboxRow)) :=
  if decide (limit < 0) then raise (postgres_error "InvalidRowCountInLimitClauseError" "limit") else
  gets (λ d, take (Z.to_nat limit) (py_sorted (λ r, or_created_at r.2) false
    (filter (λ r, or_published_at r.2 = None) (map_to_list (db_outbox d))))).

Definition from_row `{!Jsonb} (id : UUID) (row : OutboxRow) : exc + OutboxEvent :=
  payload ← decode_json (or_payload row);
  payload ← match payload with
            | JObj l => inr l
            | _ => inl (mk_exc AttributeError "object has no attribute 'get'")
            end;
  inr (MkOutboxEvent (or_aggregate_id row) (or_event_type row) payload
    (py_str (default (JStr "") (dget payload "request_id"))) id (or_created_at row)
    (or_published_at row)).

(** [UPDATE outbox_events SET published_at=now(), ... WHERE id=$1] *)
Definition update_published (event_id : UUID) : Sql () :=
  d ← gets (λ d, d);
  match db_outbox d !! event_id with
  | Some r =>
      modify (set_outbox (<[event_id := MkOutboxRow (or_aggregate_type r) (or_aggregate_id r)
        (or_event_type r) (or_topic r) (or_partition_key r) (or_schema_version r) (or_payload r)
        (Some (db_now d)) (or_publish_attempts r + 1) (or_created_at r)]> (db_outbox d)))
  | None => mret ()
  end.

Section methods.
Context {W : Type} `{!Database W, !Jsonb}.
Context (topic : string).

Definition add (event : OutboxEvent) : M exc W () := sql (insert_outbox topic event).

Definition pending (limit : Z) : M exc W (list OutboxEvent) :=
  rows ← sql (select_pending limit);
  lift (traverse (λ '(id, row), from_row id row) rows).

Definition mark_published (event_id : UUID) : M exc W () := sql (update_published event_id).
End methods.

End AsyncpgOutboxRepository.

(** ** [AsyncpgJobRepository] *)

Module AsyncpgJobRepository.

(** [job.total_pages or None] *)
Definition total_pages_column (job : Job.t) : option Z :=
  if decide (Job.total_pages job = 0) then None else Some (Job.total_pages job).

(** *** The rows of the statements *)

(** [VALUES (...)] of [_upsert_attempt], and the row after [DO UPDATE SET] *)
Definition attempt_row (job : Job.t) : AttemptRow :=
  MkAttemptRow (job_state_str (Job.state job)) (Job.started_at job) (Job.completed_at job)
    (Job.engine_name job) (Job.engine_version job) (Job.model_name job).

Definition merge_attempt (excluded old : AttemptRow) : AttemptRow :=
  MkAttemptRow (ar_status excluded)
    (coalesce (ar_started_at old) (ar_started_at excluded)) (ar_finished_at excluded)
    (coalesce (ar_engine_name excluded) (ar_engine_name old))
    (coalesce (ar_engine_version excluded) (ar_engine_version old))
    (coalesce (ar_model_name excluded) (ar_model_name old)).

(** The [INSERT] of [_insert_job] and the [UPDATE] of [_save_job] *)
Definition inserted_row (retention_days : Z) (owner : UUID) (options : json) (job : Job.t) : JobRow :=
  MkJobRow owner (Job.upload_id job) (Job.request_id job) (Job.idempotency_key job)
    (job_state_str (Job.state job)) (Job.attempt job) 0 (total_pages_column job)
    (Job.completed_pages job) (Job.progress job) options None None
    (Job.created_at job + timedelta_days retention_days) None None 0 (Job.error_reason job)
    (Job.created_at job) (Job.created_at job).

Definition updated_row (retention_days : Z) (cancel_requested_at : option datetime) (options : json)
    (job : Job.t) (r : JobRow) : JobRow :=
  MkJobRow (jr_api_key_id r) (jr_upload_id r) (Job.request_id job)
    (jr_idempotency_key r) (job_state_str (Job.state job)) (Job.attempt job)
    (jr_revision r + 1) (total_pages_column job) (Job.completed_pages job)
    (Job.progress job) options (coalesce (jr_cancel_requested_at r) cancel_requested_at)
    (Job.completed_at job)
    (default (Job.created_at job) (Job.completed_at job) + timedelta_days retention_days)
    (jr_retention_claim_token r) (jr_retention_lease_expires_at r)
    (Job.internal_code job) (Job.error_reason job) (jr_created_at r) (Job.updated_at job).

Definition page_row (page : Page.t) : PageRow :=
  MkPageRow (page_state_str (Page.state page)) (Page.processing_attempts page)
    (Page.input_object_key page) (Page.result_object_key page)
    (Page.visualization_object_key page) (Page.result_sha256 page) (Page.internal_code page)
    (Page.error_reason page).

Definition artifact_row (job : Job.t) (artifact : Artifact.t) : ArtifactRow :=
  MkArtifactRow (Job.id job) (Job.attempt job) (Artifact.page_number artifact)
    (artifact_kind_str (Artifact.kind artifact)) (Artifact.object_key artifact)
    (Artifact.content_type artifact) (Artifact.size_bytes artifact) (Artifact.sha256 artifact).

(** *** Statements *)

(** [INSERT INTO ocr_job_attempts ... ON CONFLICT (job_id,attempt) DO UPDATE] *)
Definition upsert_attempt (job : Job.t) : Sql () :=
  d ← gets (λ d, d);
  let key := (Job.id job, Job.attempt job) in
  let excluded := attempt_row job in
  let row := match db_attempts d !! key with
             | Some old => merge_attempt excluded old
             | None => excluded
             end in
  _ ← lift (check_attempt (Job.attempt job) excluded);
  _ ← lift (satisfy [(negb (absent (db_jobs d) (Job.id job)),
                      foreign_key_violation "ocr_job_attempts_job_id_fkey")]);
  modify (set_attempts (<[key := row]> (db_attempts d))).

(** [_insert_job] *)
Definition insert_job `{!Jsonb} (retention_days : Z) (job : Job.t) : Sql () :=
  owner ← lift (parse_uuid (Job.owner_id job));
  options ← lift (to_jsonb (JObj (Job.options job)));
  d ← gets (λ d, d);
  let row := inserted_row retention_days owner options job in
  _ ← lift (check_job row);
  _ ← lift (satisfy
    [(absent (db_jobs d) (Job.id job), unique_violation "ocr_jobs_pkey");
     (match Job.idempotency_key job with
      | Some key => negb (existsb (λ r, bool_decide (jr_api_key_id r.2 = owner) &&
                      bool_decide (jr_idempotency_key r.2 = Some key)) (map_to_list (db_jobs d)))
      | None => true
      end, unique_violation "uq_ocr_jobs_api_key_idempotency");
     (negb (absent (db_api_keys d) owner), foreign_key_violation "ocr_jobs_api_key_id_fkey");
     (negb (absent (db_uploads d) (Job.upload_id job)), foreign_key_violation "ocr_jobs_upload_id_fkey")]);
  _ ← modify (set_jobs (<[Job.id job := row]> (db_jobs d)));
  upsert_attempt job.

(** [UPDATE ocr_jobs SET ... WHERE id=$1 AND retention_claim_token IS NULL AND
    revision=$15 RETURNING revision] *)
Definition update_job `{!Jsonb} (retention_days : Z) (cancel_requested_at : option datetime)
    (job : Job.t) : Sql (option Z) :=
  options ← lift (to_jsonb (JObj (Job.options job)));
  d ← gets (λ d, d);
  match db_jobs d !! Job.id job with
  | Some r =>
      match jr_retention_claim_token r with
      | Some _ => mret None
      | None =>
          if decide (jr_revision r = Job.revision job) then
            let r' := updated_row retention_days cancel_requested_at options job r in
            _ ← lift (check_job r');
            _ ← modify (set_jobs (<[Job.id job := r']> (db_jobs d)));
            mret (Some (jr_revision r'))
          else mret None
      end
  | None => mret None
  end.

(** [INSERT INTO ocr_job_pages ... ON CONFLICT (job_id,attempt,page_number) DO UPDATE] *)
Definition upsert_page (job : Job.t) (page : Page.t) : Sql () :=
  d ← gets (λ d, d);
  let row := page_row page in
  _ ← lift (check_page (Job.attempt job) (Page.page_number page) row);
  _ ← lift (satisfy [(negb (absent (db_jobs d) (Job.id job)),
                      foreign_key_violation "ocr_job_pages_job_id_fkey")]);
  modify (set_pages (<[(Job.id job, Job.attempt job, Page.page_number page) := row]> (db_pages d))).

(** [DELETE FROM ocr_artifacts WHERE job_id=$1 AND attempt=$2] *)
Definition of_attempt (job_id : UUID) (attempt : Z) (r : ArtifactRow) : Prop :=
  fr_job_id r = job_id ∧ fr_attempt r = attempt.

#[export] Instance of_attempt_dec i a r : Decision (of_attempt i a r).
Proof. unfold of_attempt. apply _. Defined.

Definition delete_artifacts (job : Job.t) : Sql () :=
  modify (λ d, set_artifacts
    (filter (λ r, ¬ of_attempt (Job.id job) (Job.attempt job) r) (db_artifacts d)) d).

(** [INSERT INTO ocr_artifacts] *)
Definition insert_artifact (job : Job.t) (artifact : Artifact.t) : Sql () :=
  d ← gets (λ d, d);
  let row := artifact_row job artifact in
  _ ← lift (check_artifact row);
  _ ← lift (satisfy
    [(negb (existsb (same_artifact row) (db_artifacts d)), unique_violation "uq_ocr_artifacts_logical");
     (negb (absent (db_jobs d) (Job.id job)), foreign_key_violation "ocr_artifacts_job_id_fkey")]);
  modify (set_artifacts (db_artifacts d ++ [row])).

(** [_save_job]; the exception comes with the job, whose [revision] is assigned
    as soon as the row is updated. *)
Definition save_job `{!Jsonb} (retention_days : Z) (cancel_requested_at : option datetime)
    (job : Job.t) : M (exc * Job.t) Db Job.t :=
  revision ← at_local job (update_job retention_days cancel_requested_at job);
  match revision with
  | None => raise (mk_exc ConcurrentJobUpdateError "job was updated concurrently or retained", job)
  | Some revision =>
      let job := Job.with_revision revision job in
      at_local job (
        _ ← upsert_attempt job;
        _ ← foreach (Job.pages job) (upsert_page job);
        _ ← (if bool_decide (Job.artifacts job = []) then mret () else
             _ ← delete_artifacts job;
             foreach (Job.artifacts job) (insert_artifact job));
        mret job)
  end.

(** [SELECT j.*, a.... FROM ocr_jobs j LEFT JOIN ocr_job_attempts a ON ...
    WHERE j.id=$1 AND j.retention_claim_token IS NULL] *)
Definition select_job (job_id : UUID) : Sql (option (JobRow * option AttemptRow)) :=
  gets (λ d, r ← db_jobs d !! job_id;
             match jr_retention_claim_token r with
             | None => Some (r, db_attempts d !! (job_id, jr_current_attempt r))
             | Some _ => None
             end).

(** [SELECT * FROM ocr_job_pages WHERE job_id=$1 AND attempt=$2 ORDER BY page_number] *)
Definition select_pages (job_id : UUID) (attempt : Z) : Sql (list (Z * PageRow)) :=
  gets (λ d, numbered_rows (λ '(i, a, n),
    if decide (i = job_id ∧ a = attempt) then Some n else None) (db_pages d)).

(** [page_number NULLS FIRST, kind] *)
Definition artifact_before (a b : ArtifactRow) : bool :=
  match fr_page_number a, fr_page_number b with
  | None, Some _ => true
  | Some _, None => false
  | None, None => String.leb (fr_kind a) (fr_kind b)
  | Some m, Some n => (m <? n) || (bool_decide (m = n) && String.leb (fr_kind a) (fr_kind b))
  end.

(** [SELECT * FROM ocr_artifacts WHERE job_id=$1 AND attempt=$2
    ORDER BY page_number NULLS FIRST, kind] *)
Definition select_artifacts (job_id : UUID) (attempt : Z) : Sql (list ArtifactRow) :=
  gets (λ d, order_by artifact_before (filter (of_attempt job_id attempt) (db_artifacts d))).

(** *** [_from_rows] *)

Definition page_from_row (item : Z * PageRow) : exc + Page.t :=
  let '(page_number, r) := item in
  state ← parse_page_state (pr_status r);
  inr (Page.Mk page_number (pr_source_object_key r) state (pr_retry_count r) None None
    (pr_result_object_key r) (pr_result_sha256 r) (pr_visualization_object_key r)
    (pr_last_internal_code r) (pr_last_error_reason r)).

Definition artifact_from_row (r : ArtifactRow) : exc + Artifact.t :=
  kind ← parse_artifact_kind (fr_kind r);
  inr (Artifact.Mk kind (fr_object_key r) (fr_sha256 r) (fr_size_bytes r) (fr_content_type r)
    (fr_page_number r)).

(** [_decode_json(row["options"]) or {}]; the column holds an object. *)
Definition options_of `{!Jsonb} (column : json) : exc + dict :=
  options ← decode_json column;
  inr (match options with JObj l => l | _ => [] end).

Definition from_rows `{!Jsonb} (job_id : UUID) (row : JobRow * option AttemptRow)
    (pages : list (Z * PageRow)) (artifacts : list ArtifactRow) : exc + Job.t :=
  let '(r, a) := row in
  options ← options_of (jr_options r);
  state ← parse_job_state (jr_status r);
  pages ← traverse page_from_row pages;
  artifacts ← traverse artifact_from_row artifacts;
  inr (Job.Mk (uuid_str (jr_api_key_id r)) (jr_upload_id r) (jr_request_id r) options job_id state
    (jr_current_attempt r) (jr_revision r) pages artifacts (jr_idempotency_key r)
    (a ≫= ar_engine_name) (a ≫= ar_engine_version) (a ≫= ar_model_name)
    (jr_last_internal_code r) (jr_last_error_reason r) (jr_created_at r) (jr_updated_at r)
    (a ≫= ar_started_at) (jr_finished_at r)).

(** [SELECT id FROM ocr_jobs WHERE api_key_id=$1 AND idempotency_key=$2] *)
Definition select_by_key (owner : UUID) (key : string) : Sql (option UUID) :=
  gets (λ d, head (omap (λ '(i, r),
    if decide (jr_api_key_id r = owner ∧ jr_idempotency_key r = Some key) then Some i else None)
    (map_to_list (db_jobs d)))).

(** [WHERE api_key_id=$1 AND retention_claim_token IS NULL] *)
Definition owned_rows (owner : UUID) (d : Db) : list (UUID * JobRow) :=
  filter (λ r, jr_api_key_id r.2 = owner ∧ jr_retention_claim_token r.2 = None)
    (map_to_list (db_jobs d)).

(** [SELECT id ... ORDER BY created_at DESC OFFSET $2 LIMIT $3] *)
Definition select_ids (owner : UUID) (offset limit : Z) : Sql (list UUID) :=
  if decide (offset < 0 ∨ limit < 0)
  then raise (postgres_error "InvalidRowCountInLimitClauseError" "limit") else
  gets (λ d, map fst (take (Z.to_nat limit) (drop (Z.to_nat offset)
    (py_sorted (λ r, jr_created_at r.2) true (owned_rows owner d))))).

(** [SELECT count( * )] *)
Definition select_count (owner : UUID) : Sql Z :=
  gets (λ d, Z.of_nat (length (owned_rows owner d))).

Section methods.
Context {W : Type} `{!Database W, !Runtime W, !Jsonb}.
Context (topic : string) (retention_days : Z).

Definition add (job : Job.t) : M exc W () := sql (transaction (insert_job retention_days job)).

Definition add_with_outbox_and_event (job : Job.t) (outbox_event : OutboxEvent)
    (job_event : JobEvent.t) : M exc W JobEvent.t :=
  try_except
    (sql (transaction (
      _ ← insert_job retention_days job;
      _ ← AsyncpgOutboxRepository.insert_outbox topic outbox_event;
      AsyncpgJobEventRepository.append_with_connection job_event)))
    (λ e, if isinstance e Exception_ then Some (
       if bool_decide (sqlstate e = Some "23505") &&
          bool_decide (constraint_name e = Some "uq_ocr_jobs_api_key_idempotency")
       then raise (mk_exc DuplicateIdempotencyKeyError "duplicate idempotency key")
       else raise e) else None).

Definition get (job_id : UUID) : M exc W (option Job.t) :=
  row ← sql (select_job job_id);
  match row with
  | None => mret None
  | Some row =>
      pages ← sql (select_pages job_id (jr_current_attempt row.1));
      artifacts ← sql (select_artifacts job_id (jr_current_attempt row.1));
      job ← lift (from_rows job_id row pages artifacts);
      mret (Some job)
  end.

(** [datetime.now(UTC) if job.state in {...} else None] *)
Definition cancel_time (job : Job.t) : M exc W (option datetime) :=
  if decide (Job.state job ∈ [CANCEL_REQUESTED; CANCELLED])
  then now ← utc_now; mret (Some now) else mret None.

(** A transaction that saves [job] and then runs [rest] with the saved job. *)
Definition saving {A} (job : Job.t) (rest : Job.t → Sql A) : M exc W A :=
  cancel_requested_at ← cancel_time job;
  sql (map_exn fst (transaction (
    job ← save_job retention_days cancel_requested_at job;
    at_local job (rest job)))).

Definition save (job : Job.t) : M exc W Job.t := saving job mret.

Definition save_with_event (job : Job.t) (event : JobEvent.t) : M exc W (Job.t * JobEvent.t) :=
  saving job (λ job,
    event ← AsyncpgJobEventRepository.append_with_connection event;
    mret (job, event)).

Definition save_with_outbox_and_event (job : Job.t) (outbox_event : OutboxEvent)
    (job_event : JobEvent.t) : M exc W (Job.t * JobEvent.t) :=
  saving job (λ job,
    _ ← AsyncpgOutboxRepository.insert_outbox topic outbox_event;
    event ← AsyncpgJobEventRepository.append_with_connection job_event;
    mret (job, event)).

Definition find_by_idempotency_key (owner_id key : string) : M exc W (option Job.t) :=
  owner ← lift (parse_uuid owner_id);
  row ← sql (select_by_key owner key);
  match row with
  | Some id => get id
  | None => mret None
  end.

Definition list (owner_id : string) (offset limit : Z) : M exc W (list Job.t * Z) :=
  owner ← lift (parse_uuid owner_id);
  ids ← sql (select_ids owner offset limit);
  total ← sql (select_count owner);
  jobs ← collect get ids;
  mret (omap id jobs, total).
End methods.

End AsyncpgJobRepository.

(** ** The repositories over one database *)

Section repositories.
Context {W : Type} `{!Database W, !Runtime W, !EventLoop W, !Jsonb}.
Context (topic : string) (upload_ttl_seconds retention_days : Z).

Definition pg_uploads : UploadRepository W := {|
  uploads_add := AsyncpgUploadRepository.add upload_ttl_seconds;
  uploads_get := AsyncpgUploadRepository.get;
  uploads_save := AsyncpgUploadRepository.save
|}.

Definition pg_jobs : JobRepository W := {|
  jobs_add := AsyncpgJobRepository.add retention_days;
  jobs_get := AsyncpgJobRepository.get;
  jobs_save := AsyncpgJobRepository.save retention_days;
  jobs_save_with_event := AsyncpgJobRepository.save_with_event retention_days;
  jobs_find_by_idempotency_key := AsyncpgJobRepository.find_by_idempotency_key;
  jobs_list := AsyncpgJobRepository.list;
  jobs_add_with_outbox_and_event :=
    AsyncpgJobRepository.add_with_outbox_and_event topic retention_days;
  jobs_save_with_outbox_and_event :=
    AsyncpgJobRepository.save_with_outbox_and_event topic retention_days
|}.

Definition pg_events : JobEventRepository W := {|
  events_append := AsyncpgJobEventRepository.append;
  events_list_after := AsyncpgJobEventRepository.list_after;
  events_wait_after := AsyncpgJobEventRepository.wait_after
|}.

Definition pg_outbox : OutboxRepository W := {|
  outbox_add := AsyncpgOutboxRepository.add topic;
  outbox_pending := AsyncpgOutboxRepository.pending;
  outbox_mark_published := AsyncpgOutboxRepository.mark_published
|}.

End repositories.

(** ** One connection pool and a schedule of what the other connections do *)

Record PgWorld := MkPgWorld {
  pg_db : Db;
  pg_schedule : list (Db → Db);
  pg_clock : datetime;
  pg_ids : nat → UUID                   (* what [uuid7] will return *)
}.

#[export] Instance pg_database : Database PgWorld := λ A m w,
  let '(d, rest) := match pg_schedule w with
                    | f :: rest => (f (pg_db w), rest)
                    | [] => (pg_db w, [])
                    end in
  let '(r, d') := m d in (r, MkPgWorld d' rest (pg_clock w) (pg_ids w)).

#[export] Instance pg_runtime : Runtime PgWorld := {
  utc_now w := (Ret (pg_clock w), MkPgWorld (pg_db w) (pg_schedule w) (pg_clock w + 1) (pg_ids w));
  uuid7 w := (Ret (pg_ids w 0%nat),
              MkPgWorld (pg_db w) (pg_schedule w) (pg_clock w) (λ n, pg_ids w (S n)));
  sleeper n := mret ()
}.
