(* ===== verification/PersistenceFacts.v ===== *)
(** * The PostgreSQL repositories keep their promises

    The tables as a [JobStore]: what a row stands for, and that every statement
    and transaction of the job repository commits legal revisions only, next to
    other connections that do the same ([pg_refines_store]). *)

From S2P Require Import Prelude PyData PyText Json JsonFacts Status Domain DomainFacts Ports History.
From S2P Require Import Messaging MessagingFacts Schema Persistence.

#[local] Open Scope Z_scope.

(** ** What the job rows say of a job *)

(** The fields of a job its history is about. *)
Definition core (j : Job.t) : Job.t :=
  Job.Mk (Job.owner_id j) (Job.upload_id j) "" [] (Job.id j) (Job.state j) (Job.attempt j)
    (Job.revision j) [] [] (Job.idempotency_key j) None None None 0 None (Job.created_at j) 0 None None.

Definition row_core (i : UUID) (r : JobRow) : Job.t :=
  Job.Mk (uuid_str (jr_api_key_id r)) (jr_upload_id r) "" [] i
    (match parse_job_state (jr_status r) with inr s => s | inl _ => QUEUED end)
    (jr_current_attempt r) (jr_revision r) [] [] (jr_idempotency_key r) None None None 0 None
    (jr_created_at r) 0 None None.

(** The slot of a job; a claimed row is as good as deleted. *)
Definition pview (d : Db) (i : UUID) : slot :=
  if decide (i ∈ db_deleted d) then Retired else
  match db_jobs d !! i with
  | Some r => match jr_retention_claim_token r with None => Live (row_core i r) | Some _ => Retired end
  | None => Fresh
  end.

Lemma derived_core j0 j : derived j0 j → derived (core j0) (core j).
Proof. intros []. split; simpl; congruence || done. Qed.

Lemma parse_job_state_str s : parse_job_state (job_state_str s) = inr s.
Proof. by destruct s. Qed.

Lemma core_same j j' :
  Job.owner_id j' = Job.owner_id j → Job.upload_id j' = Job.upload_id j → Job.id j' = Job.id j →
  Job.state j' = Job.state j → Job.attempt j' = Job.attempt j → Job.revision j' = Job.revision j →
  Job.idempotency_key j' = Job.idempotency_key j → Job.created_at j' = Job.created_at j →
  core j' = core j.
Proof. unfold core. by intros -> -> -> -> -> -> -> ->. Qed.

Section refinement.
(** The ids of the jobs the retention cleanup deletes: [uuid7] does not hand
    them out again. *)
Context (retired_ids : gset UUID).

Definition pg_contract : Contract := {|
  kept := core;
  owner_ok o := ∃ u, (u < 2 ^ 128)%N ∧ o = uuid_str u;
  new_id i := i ∉ retired_ids
|}.

Record pg_inv (d : Db) : Prop := {
  inv_deleted : db_deleted d ⊆ retired_ids;
  inv_gone : ∀ i, i ∈ db_deleted d → db_jobs d !! i = None
}.

Abbreviation PR := (evolves pview).
Abbreviation prg := (rg pg_inv PR).
Abbreviation psnapshot := (snapshot pview pg_contract).
Abbreviation ptracked := (tracked pview pg_contract).

(** *** Statements *)

(** A statement that leaves the job rows alone. *)
Definition spares (d d' : Db) : Prop := db_jobs d' = db_jobs d ∧ db_deleted d' = db_deleted d.

Lemma spares_view d d' : spares d d' → pview d' = pview d.
Proof. intros [Hj Hd]. unfold pview. by rewrite Hj, Hd. Qed.

Lemma spares_ok d d' : spares d d' → pg_inv d → pg_inv d' ∧ PR d d'.
Proof.
  intros Hs [H1 H2]. pose proof Hs as [Hj Hd]. split.
  - split; by rewrite ?Hj, ?Hd.
  - intros i. rewrite (spares_view _ _ Hs). apply rtc_refl.
Qed.

Lemma rg_spares {E A} (m : M E Db A) P :
  (∀ d, spares d (m d).2) → stable pview P → prg P m (λ _, P) (λ _ _, True).
Proof.
  intros Hm HP d Hd HPd. destruct (spares_ok _ _ (Hm d) Hd) as [Hi HR].
  split_and!; [done..|]. destruct ((m d).1); [by eapply HP | done..].
Qed.

Lemma spares_bind {E A B} (m : M E Db A) (k : A → M E Db B) :
  (∀ d, spares d (m d).2) → (∀ a d, spares d (k a d).2) → ∀ d, spares d ((m ≫= k) d).2.
Proof.
  intros Hm Hk d. unfold mbind, M_bind. specialize (Hm d).
  destruct (m d) as [[a|e|] d']; simpl in *; [|done..].
  specialize (Hk a d'). destruct Hm as [E1 E2], Hk as [E3 E4]. split; congruence.
Qed.

Lemma spares_foreach {E A} (l : list A) (f : A → M E Db ()) :
  (∀ a d, spares d (f a d).2) → ∀ d, spares d (foreach l f d).2.
Proof.
  intros Hf. induction l as [|a l IH]; [done|]. apply spares_bind; [apply Hf | intros _; apply IH].
Qed.

Lemma spares_map_exn {E E' A} (f : E → E') (m : M E Db A) :
  (∀ d, spares d (m d).2) → ∀ d, spares d (map_exn f m d).2.
Proof. intros Hm d. specialize (Hm d). unfold map_exn. by destruct (m d) as [[| |]]. Qed.

(** A transaction keeps what its body keeps, and nothing changes if it raises. *)
Lemma rg_transaction {E A} P (m : M E Db A) Q X :
  prg P m Q X → prg P (transaction m) Q (λ _ _, True).
Proof.
  intros Hm d Hd HP. destruct (Hm d Hd HP) as (Hi & HR & Hpost). unfold transaction.
  destruct (m d) as [[a|e|] d']; simpl in *; [done | | done]. by split_and!.
Qed.

Lemma spares_lift {E A} (r : E + A) (d : Db) : spares d (lift (W := Db) r d).2.
Proof. by destruct r. Qed.

Create HintDb spares discriminated.
#[local] Hint Extern 1 (∀ d, spares d (_ d).2) => (intros; by split) : spares.
#[local] Hint Extern 1 (spares ?d (lift _ ?d).2) => apply spares_lift : spares.

(** Statements that leave the job rows alone, by their parts. *)
Ltac solve_spares :=
  repeat first
    [ intros ?; by split
    | intros ?; apply spares_lift
    | apply spares_bind; [|intros ?]
    | apply spares_foreach; intros ?
    | apply spares_map_exn
    | match goal with |- ∀ d, spares d ((match ?x with _ => _ end) d).2 => destruct x end ].

Lemma spares_upsert_attempt j : ∀ d, spares d (AsyncpgJobRepository.upsert_attempt j d).2.
Proof. unfold AsyncpgJobRepository.upsert_attempt. solve_spares. Qed.

Lemma spares_upsert_page j p : ∀ d, spares d (AsyncpgJobRepository.upsert_page j p d).2.
Proof. unfold AsyncpgJobRepository.upsert_page. solve_spares. Qed.

Lemma spares_insert_artifact j a : ∀ d, spares d (AsyncpgJobRepository.insert_artifact j a d).2.
Proof. unfold AsyncpgJobRepository.insert_artifact. solve_spares. Qed.

Lemma spares_append `{!Jsonb} e :
  ∀ d, spares d (AsyncpgJobEventRepository.append_with_connection e d).2.
Proof.
  unfold AsyncpgJobEventRepository.append_with_connection, AsyncpgJobEventRepository.insert_row.
  solve_spares.
Qed.

Lemma spares_insert_outbox `{!Jsonb} topic e :
  ∀ d, spares d (AsyncpgOutboxRepository.insert_outbox topic e d).2.
Proof. unfold AsyncpgOutboxRepository.insert_outbox. solve_spares. Qed.

(** *** The rows of jobs *)

Section job_rows.
Context `{!Jsonb} (retention_days : Z).

Lemma pview_live d i r :
  pg_inv d → db_jobs d !! i = Some r → jr_retention_claim_token r = None →
  pview d i = Live (row_core i r).
Proof.
  intros [_ Hg] Hr Hc. unfold pview. case_decide as Hi; [by rewrite Hg in Hr|]. by rewrite Hr, Hc.
Qed.

(** Replacing or adding the row of one job. *)
Lemma set_row_ok d i r :
  pg_inv d → i ∉ db_deleted d → rtc slot_step (pview d i)
    (match jr_retention_claim_token r with None => Live (row_core i r) | Some _ => Retired end) →
  pg_inv (set_jobs (<[i := r]> (db_jobs d)) d) ∧ PR d (set_jobs (<[i := r]> (db_jobs d)) d).
Proof.
  intros [H1 H2] Hi Hs. split.
  - split; [done|]. intros k Hk. simpl in *. rewrite lookup_insert_ne by (by intros ->). by apply H2.
  - intros k. unfold pview at 2. simpl. destruct (decide (i = k)) as [<-|Hne].
    + by rewrite decide_False, lookup_insert_eq by done.
    + rewrite lookup_insert_ne by done. unfold pview. apply rtc_refl.
Qed.

(** A working copy whose revision is the stored one is a copy of that row. *)
Lemma tracked_row d j r :
  pg_inv d → ptracked j d → db_jobs d !! Job.id j = Some r → jr_retention_claim_token r = None →
  jr_revision r = Job.revision j →
  derived (row_core (Job.id j) r) (core j).
Proof.
  intros Hd (j0 & Hj & Hs) Hr Hc Hrev. unfold snapshot in Hs.
  rewrite <- (derived_id _ _ Hj), (pview_live _ _ _ Hd Hr Hc) in Hs. simpl in Hs.
  assert (row_core (Job.id j) r = core j0) as ->; [|by apply derived_core].
  apply live_order in Hs as [[Hs|Hs] _]; [done|]. exfalso. simpl in Hs.
  pose proof (derived_revision _ _ Hj). lia.
Qed.

Lemma rg_update_job cancel j :
  prg (ptracked j) (AsyncpgJobRepository.update_job retention_days cancel j)
    (λ n d, ∀ k, n = Some k → k = Job.revision j + 1 ∧ psnapshot (committed j) d) (λ _ _, True).
Proof.
  unfold AsyncpgJobRepository.update_job. rule rg_bind_lift. destruct (to_jsonb (JObj (Job.options j))) as [e|options]; [done|].
  apply rg_bind_gets. intros d Hd Hj.
  destruct (db_jobs d !! Job.id j) as [r|] eqn:Hr; [|by rule rg_ret].
  destruct (jr_retention_claim_token r) eqn:Hc; [by rule rg_ret|].
  case_decide as Hrev; [|by rule rg_ret].
  pose proof (tracked_row _ _ _ Hd Hj Hr Hc Hrev) as Hder.
  set (r' := AsyncpgJobRepository.updated_row _ _ _ _ _).
  assert (row_core (Job.id j) r' = core (committed j)) as Hcore.
  { destruct Hder. simpl in *. unfold row_core, core. simpl.
    rewrite parse_job_state_str. f_equal; congruence. }
  rule rg_bind_lift. destruct (check_job r'); [done|].
  rule_bind; [|intros ?; rule rg_ret; intros d' Hd' k [= <-]; split; [|exact Hd']].
  - apply rg_modify. intros ? _ ->.
    destruct (set_row_ok d (Job.id j) r' Hd) as [??].
    + intros Hin. apply (inv_gone _ Hd) in Hin. congruence.
    + rewrite (pview_live _ _ _ Hd Hr Hc). change (jr_retention_claim_token r') with (jr_retention_claim_token r). rewrite Hc.
      cbv iota. rewrite Hcore. apply rtc_once, slot_commit.
      exists (core j). by split.
    + split_and!; [done..|]. unfold snapshot.
      rewrite (pview_live _ _ r'); [|done | simpl; by rewrite lookup_insert_eq | done].
      simpl. rewrite Hcore. apply rtc_refl.
  - simpl. by rewrite Hrev.
Qed.

Lemma rg_insert_job j :
  birth j → owner_ok pg_contract (Job.owner_id j) → new_id pg_contract (Job.id j) →
  prg (λ _, True) (AsyncpgJobRepository.insert_job retention_days j) (λ _, psnapshot j) (λ _ _, True).
Proof.
  intros [Hst Hat Hrv] (u & Hu & Ho) Hn. unfold AsyncpgJobRepository.insert_job.
  rewrite Ho, parse_uuid_str by done. rule rg_bind_lift. rule rg_bind_lift.
  destruct (to_jsonb (JObj (Job.options j))) as [e|options]; [done|]. apply rg_bind_gets. intros d Hd _.
  set (r := AsyncpgJobRepository.inserted_row _ _ _ _).
  assert (row_core (Job.id j) r = core j) as Hcore.
  { unfold row_core, core. simpl. rewrite parse_job_state_str. f_equal; congruence. }
  rule rg_bind_lift. destruct (check_job r); [done|].
  rule rg_bind_lift. destruct (satisfy _) as [e|[]] eqn:Hc; [done|].
  apply satisfy_spec, Forall_cons in Hc as [Hc _]. simpl in Hc. unfold absent in Hc.
  destruct (db_jobs d !! Job.id j) eqn:Hr; [done|].
  assert (Job.id j ∉ db_deleted d) as Hdel by (intros Hin%(inv_deleted _ Hd); by apply Hn).
  rule_bind mid (λ _, psnapshot j).
  - apply rg_modify. intros ? _ ->. destruct (set_row_ok d (Job.id j) r Hd Hdel) as [Hi HR].
    + change (jr_retention_claim_token r) with (@None UUID). cbv iota.
      unfold pview. rewrite decide_False, Hr, Hcore by done. by apply rtc_once, slot_create.
    + split_and!; [done..|]. unfold snapshot.
      rewrite (pview_live _ _ r); [|done | simpl; by rewrite lookup_insert_eq | done].
      rewrite Hcore. apply rtc_refl.
  - intros ?. apply rg_spares; [apply spares_upsert_attempt | apply stable_snapshot].
Qed.

(** The part of a transaction that follows the update of the job row. *)
Lemma rg_rest {E A} (m : M E Db A) j :
  (∀ d, spares d (m d).2) → prg (psnapshot j) m (λ _, psnapshot j) (λ _ _, True).
Proof. intros Hm. apply rg_spares; [done | apply stable_snapshot]. Qed.

Lemma rg_save_job cancel j :
  prg (ptracked j) (AsyncpgJobRepository.save_job retention_days cancel j)
    (λ j' d, j' = committed j ∧ psnapshot (committed j) d) (λ _ _, True).
Proof.
  unfold AsyncpgJobRepository.save_job.
  rule_bind; [apply rg_at_local; exact (rg_update_job cancel j)|]. intros [k|]; [|by rule rg_raise].
  eapply rg_pre with (λ d, k = Job.revision j + 1 ∧ psnapshot (committed j) d); [|by intros d Hk; apply Hk].
  apply rg_fact. intros ->.
  change (Job.with_revision (Job.revision j + 1) j) with (committed j).
  apply rg_at_local. do 2 (rule_bind; [apply rg_rest|]; [
    first [apply spares_upsert_attempt | apply spares_foreach; intros; apply spares_upsert_page]|];
    intros ?).
  rule_bind; [apply rg_rest | intros ?; by rule rg_ret].
  destruct (bool_decide _); [by split|]. apply spares_bind; [by split|]. intros ?.
  apply spares_foreach. intros. apply spares_insert_artifact.
Qed.
End job_rows.

(** *** Steps of the connection pool *)

(** What another connection may do between two steps. *)
Definition connection_ok (f : Db → Db) : Prop := ∀ d, pg_inv d → pg_inv (f d) ∧ PR d (f d).

Record pool_inv (w : PgWorld) : Prop := {
  pool_db : pg_inv (pg_db w);
  pool_schedule : Forall connection_ok (pg_schedule w);
  pool_ids : ∀ n, pg_ids w n ∉ retired_ids
}.

Definition wview (w : PgWorld) : UUID → slot := pview (pg_db w).

(** The tables the next statement finds: another connection may have come first. *)
Definition found (w : PgWorld) : Db :=
  match pg_schedule w with f :: _ => f (pg_db w) | [] => pg_db w end.

Abbreviation wrg := (rg pool_inv (evolves wview)).
Abbreviation wquiet := (quiet pool_inv wview).

Lemma rg_sql {A} P (m : Sql A) Q X :
  stable pview P → prg P m Q X →
  wrg (λ w, P (pg_db w)) (sql m) (λ a w, Q a (pg_db w)) (λ e w, X e (pg_db w)).
Proof.
  intros HP Hm [d sched c ids] [Hd Hs Hids] HPd. simpl in *. unfold sql, pg_database. simpl.
  assert (∃ d1 rest, (match sched with f :: rest => (f d, rest) | [] => (d, []) end) = (d1, rest) ∧
    pg_inv d1 ∧ PR d d1 ∧ Forall connection_ok rest) as (d1 & rest & -> & Hd1 & HR1 & Hrest).
  { destruct sched as [|f rest]; [exists d, []; split_and!; (done || reflexivity)|].
    apply Forall_cons in Hs as [Hf ?]. destruct (Hf d Hd). by exists (f d), rest. }
  destruct (Hm d1 Hd1 (HP _ _ HR1 HPd)) as (? & H0 & ?).
  destruct (m d1) as [r d2]. simpl in *. split_and!; [done | | done].
  exact (transitivity HR1 H0).
Qed.

Lemma quiet_sql {A} (m : Sql A) : (∀ d, spares d (m d).2) → wquiet (sql m).
Proof. intros Hm. exact (rg_sql (λ _, True) m _ _ (stable_True _) (rg_spares m _ Hm (stable_True _))). Qed.

Lemma quiet_own {A} (m : M exc PgWorld A) :
  (∀ w, pg_db (m w).2 = pg_db w ∧ pg_schedule (m w).2 = pg_schedule w ∧
        ∃ k, ∀ n, pg_ids (m w).2 n = pg_ids w (n + k)%nat) → wquiet m.
Proof.
  intros Hm w [Hd Hs Hi] _. destruct (Hm w) as (E1 & E2 & k & E3). split_and!.
  - split; rewrite ?E1, ?E2; [done..|]. intros n. rewrite E3. apply Hi.
  - intros i. unfold wview. rewrite E1. apply rtc_refl.
  - by destruct ((m w).1).
Qed.

#[export] Instance pg_quiet_runtime : QuietRuntime pool_inv wview.
Proof.
  split; intros; apply quiet_own; intros w; split_and!; try done; [exists 0%nat | exists 1%nat | exists 0%nat];
    intros m; simpl; f_equal; lia.
Qed.

#[export] Instance pg_new_ids : NewIds pool_inv wview pg_contract.
Proof.
  intros w Hw _. destruct (quiet_uuid7 pool_inv wview w Hw I) as (? & ? & _).
  split_and!; [done..|]. apply Hw.
Qed.

Section repository.
Context `{!Jsonb} (topic : string) (upload_ttl_seconds retention_days : Z).

#[local] Existing Instance pg_database.
#[local] Instance uploads : UploadRepository PgWorld := pg_uploads upload_ttl_seconds.
#[local] Instance events `{!EventLoop PgWorld} : JobEventRepository PgWorld := pg_events.
#[local] Instance jobs : JobRepository PgWorld := pg_jobs topic retention_days.

(** *** Reading a job *)

Lemma from_rows_core i row pages artifacts j :
  AsyncpgJobRepository.from_rows i row pages artifacts = inr j → core j = row_core i row.1.
Proof.
  unfold AsyncpgJobRepository.from_rows. destruct row as [r a].
  rewrite result_bind_inr. intros (o & _ & Hr). rewrite result_bind_inr in Hr.
  destruct Hr as (s & Hs & Hr). rewrite result_bind_inr in Hr. destruct Hr as (ps & _ & Hr).
  rewrite result_bind_inr in Hr. destruct Hr as (fs & _ & [= <-]).
  unfold core, row_core. simpl. by rewrite Hs.
Qed.

(** The row the first statement of [get] reads, for a job whose slot was [s]
    earlier. *)
Definition row_read (s : slot) (i : UUID) (row : option (JobRow * option AttemptRow)) (v : slot) : Prop :=
  match row with
  | Some row => rtc slot_step s (Live (row_core i row.1)) ∧ rtc slot_step (Live (row_core i row.1)) v
  | None => ∀ j, v ≠ Live j
  end.

Lemma rg_select_job s i :
  wrg (λ w, rtc slot_step s (wview w i)) (sql (AsyncpgJobRepository.select_job i))
    (λ r w, row_read s i r (wview w i)) (λ _ _, True).
Proof.
  apply (rg_sql (λ d, rtc slot_step s (pview d i)) _ (λ r d, row_read s i r (pview d i)) (λ _ _, True)).
  { intros d d' HR Hs. etransitivity; [exact Hs | apply HR]. }
  intros d Hd Hs. split; [done|]. split; [reflexivity|]. simpl.
  destruct (db_jobs d !! i) as [r|] eqn:Hr; simpl.
  - destruct (jr_retention_claim_token r) eqn:Hc; simpl.
    + intros j. unfold pview. case_decide; [done|]. by rewrite Hr, Hc.
    + rewrite (pview_live _ _ _ Hd Hr Hc) in *. by split; [|apply rtc_refl].
  - intros j. unfold pview. case_decide; [done|]. by rewrite Hr.
Qed.

Lemma stable_row i r : stable wview (λ w, rtc slot_step (Live (row_core i r)) (wview w i)).
Proof. intros w w' HR Hw. etransitivity; [exact Hw | apply HR]. Qed.

(** A reading statement, with a stable assertion. *)
Lemma rg_read {A} (m : Sql A) F :
  (∀ d, (m d).2 = d) → stable wview F → wrg F (sql m) (λ _, F) (λ _ _, True).
Proof.
  intros Hm HF. assert (wquiet (sql m)) by (apply quiet_sql; intros d; rewrite Hm; by split).
  by apply rg_quiet_any; [apply _|].
Qed.

Lemma rg_get_since s i :
  wrg (λ w, rtc slot_step s (wview w i)) (AsyncpgJobRepository.get i)
    (λ r w, (∀ j, r = Some j → Job.id j = i ∧ rtc slot_step s (Live (core j)) ∧
                               snapshot wview pg_contract j w) ∧
            (r = None → ∀ j, wview w i ≠ Live j)) (λ _ _, True).
Proof.
  unfold AsyncpgJobRepository.get. rule_bind; [apply rg_select_job|].
  intros [row|]; [|by rule rg_ret]. apply rg_fact. intros Hs.
  do 2 (rule_bind; [apply rg_read; [done | apply (stable_row i row.1)]|]; intros ?).
  rule rg_bind_lift. destruct (AsyncpgJobRepository.from_rows _ _ _ _) as [e|j] eqn:E; [done|].
  rule rg_ret. intros w Hw. split; [|done]. intros ? [= <-].
  pose proof (from_rows_core _ _ _ _ _ E) as Hc.
  assert (Job.id j = i) as Hid by exact (f_equal Job.id Hc).
  unfold snapshot. simpl. by rewrite Hc, Hid.
Qed.

Lemma rg_pg_get i :
  wrg (λ _, True) (AsyncpgJobRepository.get i)
    (λ r w, (∀ j, r = Some j → Job.id j = i ∧ snapshot wview pg_contract j w) ∧
            (r = None → ∀ j, wview w i ≠ Live j)) (λ _ _, True).
Proof.
  intros w Hw _. destruct (rg_get_since (wview w i) i w Hw (rtc_refl _ _)) as (? & ? & Hpost).
  split_and!; [done..|]. destruct ((AsyncpgJobRepository.get i w).1) as [r|e|]; [|done..].
  destruct Hpost as [Hp1 Hp2]. split; [|done]. intros j Hj. by destruct (Hp1 j Hj) as (? & _ & ?).
Qed.

(** *** Writing a job *)

(** A save, with whatever the transaction does after it. *)
Lemma rg_saving {A} j (rest : Job.t → Sql A) (G : A → Prop) :
  (∀ d, spares d (rest (committed j) d).2) →
  (∀ d a d', rest (committed j) d = (Ret a, d') → G a) →
  wrg (tracked wview pg_contract j) (AsyncpgJobRepository.saving retention_days j rest)
    (λ a w, G a ∧ snapshot wview pg_contract (committed j) w) (λ _ _, True).
Proof.
  intros Hspares HG. unfold AsyncpgJobRepository.saving.
  rule_bind mid (λ _, tracked wview pg_contract j).
  { assert (wquiet (AsyncpgJobRepository.cancel_time j))
      by (unfold AsyncpgJobRepository.cancel_time; case_decide; apply _).
    apply rg_quiet_any; [apply _ | apply stable_tracked]. }
  intros cancel. apply (rg_sql (ptracked j) _ (λ a d, G a ∧ psnapshot (committed j) d) (λ _ _, True));
    [apply stable_tracked|].
  apply rg_map_exn. apply rg_transaction with (X := λ _ _, True).
  rule_bind; [apply rg_save_job|]. intros j'. apply rg_fact. intros ->. apply rg_at_local.
  intros d Hd Hs. destruct (rg_rest (rest (committed j)) (committed j) Hspares d Hd Hs) as (? & ? & Hq).
  split_and!; [done..|]. specialize (HG d).
  destruct (rest (committed j) d) as [[a|e|] d']; simpl in *; [|done..]. by split; [apply (HG a d')|].
Qed.

Lemma rg_add_job j o e :
  birth j → owner_ok pg_contract (Job.owner_id j) → new_id pg_contract (Job.id j) →
  wrg (λ _, True) (AsyncpgJobRepository.add_with_outbox_and_event topic retention_days j o e)
    (λ _, snapshot wview pg_contract j) (λ _ _, True).
Proof.
  intros Hb Ho Hn. unfold AsyncpgJobRepository.add_with_outbox_and_event.
  rule rg_try_except; [apply (rg_sql (λ _, True) _ (λ _, psnapshot j) (λ _ _, True)); [apply stable_True|]|].
  - apply rg_transaction with (X := λ _ _, True).
    rule_bind; [by apply rg_insert_job|]. intros ?.
    rule_bind; [apply rg_rest, spares_insert_outbox|]. intros ?. apply rg_rest, spares_append.
  - intros x. destruct (isinstance x Exception_); [|done]. case_match; by rule rg_raise.
Qed.

(** *** Finding jobs by what their rows say *)

(** A slot whose job, if it is still there, has [P]. *)
Definition slot_of (P : Job.t → Prop) (s : slot) : Prop :=
  match s with Live j => P j | Retired => True | Fresh => False end.

(** Reading a job whose slot had [P], a property of the fields that never
    change. *)
Lemma rg_get_of (P : Job.t → Prop) i w :
  (∀ j j', rtc slot_step (Live j) (Live j') → P j → P j') → (∀ j, P (core j) → P j) →
  pool_inv w → slot_of P (wview w i) →
  let r := AsyncpgJobRepository.get i w in
  pool_inv r.2 ∧ evolves wview w r.2 ∧
  match r.1 with
  | Ret r' => ∀ j, r' = Some j → P j ∧ snapshot wview pg_contract j r.2
  | _ => True
  end.
Proof.
  intros HP Hcore Hw Hm. destruct (rg_get_since (wview w i) i w Hw (rtc_refl _ _)) as (Hw' & HR & Hpost).
  split_and!; [done..|]. destruct ((AsyncpgJobRepository.get i w).1) as [r|e|]; [|done..]. intros j Hj.
  destruct (proj1 Hpost j Hj) as (_ & Hs & Hsnap). split; [|done].
  destruct (wview w i) as [|j0|]; [done | | by apply retired_final in Hs].
  by eapply Hcore, HP.
Qed.

Lemma slot_of_evolves (P : Job.t → Prop) i :
  (∀ j j', rtc slot_step (Live j) (Live j') → P j → P j') → stable pview (λ d, slot_of P (pview d i)).
Proof.
  intros HP d d' HR Hs. specialize (HR i). destruct (pview d i) as [|j|]; [done| |].
  - destruct (pview d' i) as [|j'|]; simpl in *; [|by eapply HP | done].
    clear -HR. remember (Live j) as x eqn:Ex. remember Fresh as y eqn:Ey. revert j Ex.
    induction HR as [x|x y z Hs Hr IH]; intros j ->; [done|].
    inversion Hs; subst; [by eapply IH|]. by apply retired_final in Hr.
  - by apply retired_final in HR as ->.
Qed.

(** The rows of an owner show jobs of this owner. *)
Lemma row_slot (P : Job.t → Prop) d i r :
  db_jobs d !! i = Some r → P (row_core i r) → slot_of P (pview d i).
Proof.
  intros Hr HP. unfold pview. case_decide; [done|]. rewrite Hr. by case_match.
Qed.

Lemma owner_never_changes o j j' :
  rtc slot_step (Live j) (Live j') → Job.owner_id j = o → Job.owner_id j' = o.
Proof. intros Hs <-. by apply live_order in Hs as (_ & [_ ?] & _). Qed.

Lemma rg_pg_find o k :
  owner_ok pg_contract o →
  wrg (λ _, True) (AsyncpgJobRepository.find_by_idempotency_key o k)
    (λ r w, ∀ j, r = Some j → Job.owner_id j = o ∧ Job.idempotency_key j = Some k ∧
      snapshot wview pg_contract j w) (λ _ _, True).
Proof.
  intros (u & Hu & ->). unfold AsyncpgJobRepository.find_by_idempotency_key.
  rewrite parse_uuid_str by done. rule rg_bind_lift.
  set (P := λ j, Job.owner_id j = uuid_str u ∧ Job.idempotency_key j = Some k).
  rule_bind mid (λ r w, ∀ i, r = Some i → slot_of P (wview w i)).
  - apply (rg_sql (λ _, True) _ (λ r d, ∀ i, r = Some i → slot_of P (pview d i)) (λ _ _, True)); [apply stable_True|].
    intros d Hd _. split; [done|]. split; [reflexivity|]. simpl. intros i Hi.
    apply head_Some_elem_of, list_elem_of_omap in Hi as ([i' r] & Hin & Hr). case_decide as Hk; [|done].
    injection Hr as ->. apply elem_of_map_to_list in Hin. destruct Hk as [Hk1 Hk2].
    apply (row_slot _ _ _ _ Hin). split; simpl; by rewrite ?Hk1.
  - intros [i|]; [|by rule rg_ret]. intros w Hw Hm.
    destruct (rg_get_of P i w) as (? & ? & Hpost); [| |done|by apply Hm|].
    + intros j j' Hs [? Hk]. split; [by eapply owner_never_changes | by rewrite (live_key _ _ Hs)].
    + by intros j.
    + split_and!; [done..|]. destruct ((AsyncpgJobRepository.get i w).1); [|done..].
      intros j Hj. by destruct (Hpost j Hj) as [[??] ?].
Qed.

(** *** Listing the jobs of an owner *)

Lemma select_ids_owner u f l d ids d' i :
  AsyncpgJobRepository.select_ids u f l d = (Ret ids, d') → i ∈ ids →
  slot_of (λ j, Job.owner_id j = uuid_str u) (pview d i).
Proof.
  unfold AsyncpgJobRepository.select_ids. case_decide; [done|]. intros [= <- <-].
  intros Hi. apply (list_elem_of_fmap fst) in Hi as ([i' r] & -> & Hi).
  apply subseteq_take, subseteq_drop in Hi. rewrite py_sorted_perm in Hi.
  apply list_elem_of_filter in Hi as [Ho Hi]. apply elem_of_map_to_list in Hi.
  apply (row_slot _ _ _ _ Hi). simpl in *. by destruct Ho as [<- _].
Qed.

(** *** The ports *)

Lemma quiet_get i : wquiet (AsyncpgJobRepository.get i).
Proof. eapply rg_conseq; [apply rg_pg_get | done..]. Qed.

Lemma quiet_read {A} (m : Sql A) : (∀ d, (m d).2 = d) → wquiet (sql m).
Proof. intros Hm. apply quiet_sql. intros d. rewrite Hm. by split. Qed.

Lemma quiet_list o f l : wquiet (AsyncpgJobRepository.list o f l).
Proof.
  unfold AsyncpgJobRepository.list. apply quiet_bind; [apply _|]. intros u.
  apply quiet_bind; [|intros ids].
  { apply quiet_read. intros d. unfold AsyncpgJobRepository.select_ids. by case_decide. }
  apply quiet_bind; [by apply quiet_read|]. intros total.
  apply quiet_bind; [|intros; apply _]. apply quiet_collect. intros i. apply quiet_get.
Qed.

Lemma Forall_omap_id {A} (P : A → Prop) (l : list (option A)) :
  Forall (from_option P True) l → Forall P (omap id l).
Proof. induction 1 as [|[x|] l Hx _ IH]; csimpl; [done | by constructor | done]. Qed.

(** Reading several jobs, one query after the other: what is known of each
    stays true while the others are read. *)
Lemma rg_pg_collect {A B} (l : list A) (f : A → M exc PgWorld B) (J : PgWorld → Prop) (G : B → PgWorld → Prop) :
  stable wview J → (∀ b, stable wview (G b)) →
  (∀ x, x ∈ l → wrg J (f x) G (λ _ _, True)) →
  wrg J (collect f l) (λ bs w, Forall (λ b, G b w) bs) (λ _ _, True).
Proof.
  intros HJ HG. induction l as [|x l IH]; intros Hf; simpl; [by rule rg_ret|].
  rule_bind mid (λ b w, J w ∧ G b w).
  - eapply rg_conseq; [apply (rg_frame pool_inv wview J (λ w, J w)); [done | apply Hf; left] | | |];
      simpl; [by intros w | tauto | done].
  - intros b. rule_bind mid (λ bs w, Forall (λ b, G b w) bs ∧ G b w).
    + eapply rg_conseq; [apply (rg_frame pool_inv wview (G b) J (collect f l)
        (λ bs w, Forall (λ b, G b w) bs) (λ _ _, True)); [apply HG|] | done..].
      apply IH. intros y Hy. apply Hf. by right.
    + intros bs. rule rg_ret. intros w [??]. by constructor.
Qed.

(** The jobs read back for the ids of the first statement; a job deleted in
    between is left out. *)
Lemma rg_pg_list o f l :
  owner_ok pg_contract o →
  wrg (λ _, True) (AsyncpgJobRepository.list o f l)
    (λ r w, Forall (λ j, Job.owner_id j = o ∧ snapshot wview pg_contract j w) r.1) (λ _ _, True).
Proof.
  intros (u & Hu & ->). unfold AsyncpgJobRepository.list. rewrite parse_uuid_str by done.
  rule rg_bind_lift. set (P := λ j, Job.owner_id j = uuid_str u).
  set (J := λ (ids : list UUID) w, ∀ i, i ∈ ids → slot_of P (wview w i)).
  assert (∀ ids, stable wview (J ids)) as HJ.
  { intros ids w w' HR Hids i Hi. eapply (slot_of_evolves P); [|exact HR | by apply Hids].
    intros j j'. apply owner_never_changes. }
  rule_bind mid J.
  - apply (rg_sql (λ _, True) _ (λ ids d, ∀ i, i ∈ ids → slot_of P (pview d i)) (λ _ _, True)); [apply stable_True|].
    intros d Hd _. destruct (AsyncpgJobRepository.select_ids u f l d) as [r d'] eqn:E.
    assert (d' = d) as -> by (revert E; unfold AsyncpgJobRepository.select_ids; case_decide; by intros [= <- <-]).
    split; [done|]. split; [reflexivity|]. destruct r as [ids|e|]; [|done..].
    intros i. by eapply select_ids_owner.
  - intros ids. rule_bind; [by apply rg_read|]. intros total.
    rule_bind mid (λ js w, Forall (from_option (λ j, P j ∧ snapshot wview pg_contract j w) True) js).
    + apply rg_pg_collect; [done | |].
      { intros [j|] w w' HR; [|done]. intros [??]. split; [done | by eapply stable_snapshot]. }
      intros i Hi w Hw Hids.
      destruct (rg_get_of P i w) as (? & ? & Hpost); [intros j j'; apply owner_never_changes | by intros j | done | by apply Hids|].
      split_and!; [done..|]. destruct ((AsyncpgJobRepository.get i w).1) as [[j|]|e|]; [by apply Hpost | done..].
    + intros js. rule rg_ret. intros w Hw. simpl. by apply Forall_omap_id.
Qed.

Lemma pg_quiet_uploads : QuietUploads pool_inv wview.
Proof.
  split.
  - intros u. simpl. unfold AsyncpgUploadRepository.add. apply quiet_bind; [apply _|]. intros o.
    apply quiet_sql. unfold AsyncpgUploadRepository.insert_row. solve_spares.
  - intros i. simpl. unfold AsyncpgUploadRepository.get. apply quiet_bind; [by apply quiet_read|].
    intros [r|]; [|apply _]. apply quiet_bind; apply _.
  - intros u. simpl. unfold AsyncpgUploadRepository.save. apply quiet_bind; [apply _|]. intros ?.
    apply quiet_bind; [|intros ?; case_match; apply _].
    apply quiet_sql. unfold AsyncpgUploadRepository.update_row. solve_spares.
Qed.

Lemma pg_quiet_events `{!EventLoop PgWorld} : QuietEvents pool_inv wview.
Proof.
  split. intros e. simpl. unfold AsyncpgJobEventRepository.append. apply quiet_sql. intros d.
  pose proof (spares_append e d) as Hs. unfold transaction.
  by destruct (AsyncpgJobEventRepository.append_with_connection e d) as [[a|x|] d'].
Qed.

Lemma saved_result {A} (m : Sql A) (j : Job.t) d r d' :
  (a ← m; mret (j, a)) d = (Ret r, d') → r.1 = j.
Proof. unfold mbind, M_bind. destruct (m d) as [[a|e|] d1]; [|done..]. by intros [= <- <-]. Qed.

(** *** Writes are whole *)

(** A method that raises has changed nothing: the tables are as another
    connection left them. *)
Definition whole {A} (m : M exc PgWorld A) : Prop := ∀ w e w', m w = (Exn e, w') → pg_db w' = found w.

Lemma whole_sql {A} (m : Sql A) : (∀ d e d', m d = (Exn e, d') → d' = d) → whole (sql m).
Proof.
  intros Hm [d sched c ids] e w'. unfold sql, pg_database. simpl.
  destruct sched as [|f rest]; simpl; case_match eqn:E; intros [= -> <-]; by apply Hm in E.
Qed.

Lemma transaction_raised {E A} (m : M E Db A) d e d' : transaction m d = (Exn e, d') → d' = d.
Proof. unfold transaction. destruct (m d) as [[a|e1|] d1]; by intros [= _ <-]. Qed.

Lemma whole_saving {A} j (rest : Job.t → Sql A) : whole (AsyncpgJobRepository.saving retention_days j rest).
Proof.
  assert (∀ cancel, whole (sql (map_exn fst (transaction (
    j' ← AsyncpgJobRepository.save_job retention_days cancel j; at_local j' (rest j')))))) as Hsql.
  { intros cancel. apply whole_sql. intros d e d'. unfold map_exn.
    destruct (transaction _ d) as [[a|[e1 l]|] d1] eqn:E; [done| |done].
    intros [= _ <-]. by apply transaction_raised in E. }
  unfold AsyncpgJobRepository.saving, AsyncpgJobRepository.cancel_time.
  case_decide; [|intros w e w' Hr; exact (Hsql None w e w' Hr)]. intros [d sched c ids] e w' Hr.
  exact (Hsql (Some c) (MkPgWorld d sched (c + 1) ids) e w' Hr).
Qed.

Lemma whole_add_with j o e : whole (AsyncpgJobRepository.add_with_outbox_and_event topic retention_days j o e).
Proof.
  unfold AsyncpgJobRepository.add_with_outbox_and_event.
  set (m := transaction _). intros w x w'. unfold try_except, try_else.
  assert (whole (sql m)) as Hm by (apply whole_sql; intros ? ? ?; apply transaction_raised).
  specialize (Hm w). destruct (sql m w) as [[a|e1|] w1]; [done| |done].
  intros Hr. rewrite <- (Hm e1 w1 eq_refl). destruct (isinstance e1 Exception_); [case_match|]; by injection Hr as _ <-.
Qed.

(** What the writing methods do beyond [JobStore]: the two without an event,
    and that each is one transaction. *)
Record Writes : Prop := {
  add_writes j :
    birth j → owner_ok pg_contract (Job.owner_id j) → new_id pg_contract (Job.id j) →
    wrg (λ _, True) (jobs_add j) (λ _, snapshot wview pg_contract j) (λ _ _, True);
  save_writes j :
    wrg (tracked wview pg_contract j) (jobs_save j)
      (λ j' w, j' = committed j ∧ snapshot wview pg_contract (committed j) w) (λ _ _, True);
  add_whole j : whole (jobs_add j);
  save_whole j : whole (jobs_save j);
  save_with_event_whole j e : whole (jobs_save_with_event j e);
  save_with_outbox_and_event_whole j o e : whole (jobs_save_with_outbox_and_event j o e);
  add_with_outbox_and_event_whole j o e : whole (jobs_add_with_outbox_and_event j o e)
}.

Lemma pg_writes : Writes.
Proof.
  split; intros; try apply whole_saving; try apply whole_add_with.
  - apply (rg_sql (λ _, True) _ (λ _, psnapshot j) (λ _ _, True)); [apply stable_True|].
    apply rg_transaction with (X := λ _ _, True). by apply rg_insert_job.
  - apply (rg_saving j _ (λ j', j' = committed j)); [by intros | by intros d j' d' [= <- _]].
  - apply whole_sql. intros d e d'. apply transaction_raised.
Qed.

Lemma pg_job_store : JobStore pool_inv wview pg_contract.
Proof.
  split.
  - apply rg_pg_get.
  - apply rg_pg_find.
  - apply quiet_list.
  - apply rg_pg_list.
  - intros j e. apply (rg_saving j _ (λ r, r.1 = committed j)).
    + apply spares_bind; [apply spares_append | by intros].
    + intros d r d'. apply saved_result.
  - intros j o e. apply (rg_saving j _ (λ r, r.1 = committed j)).
    + apply spares_bind; [apply spares_insert_outbox | intros ?].
      apply spares_bind; [apply spares_append | by intros].
    + intros d r d'. unfold mbind at 1, M_bind at 1.
      destruct (AsyncpgOutboxRepository.insert_outbox topic o d) as [[u|x|] d1]; [|done..].
      apply saved_result.
  - apply rg_add_job.
Qed.

(** C22: the PostgreSQL repositories implement the store the worker and the
    service are verified against ([process_safe], [service_safe]).  Whatever
    other connections commit between two statements, as long as they keep the
    same promises: reads return committed revisions of the job asked for, or of
    the owner asked for, and claimed or deleted jobs are not found; each of the
    three saves commits exactly one revision, derived by domain calls from the
    one it replaces; each of the two insertions creates the job; a writing
    method that raises has changed nothing; everything else leaves the jobs
    alone.  (The numbering of the events is [event_logs_agree].) *)
Theorem pg_refines_store `{!EventLoop PgWorld} :
  JobStore pool_inv wview pg_contract ∧ Writes ∧ QuietUploads pool_inv wview ∧
  QuietEvents pool_inv wview ∧ QuietRuntime pool_inv wview ∧ NewIds pool_inv wview pg_contract.
Proof.
  split_and!; [apply pg_job_store | apply pg_writes | apply pg_quiet_uploads | apply pg_quiet_events | apply _..].
Qed.
End repository.
End refinement.

(** ** A concrete database *)

Module SamplePg.

#[global] Instance jsonb : Jsonb := {
  jsonb_in s := match loads s with
                | Some v => inr v
                | None => inl (postgres_error "InvalidTextRepresentationError" "json")
                end;
  jsonb_text := dumps false
}.

Definition owner : string := uuid_str 3.

Definition db : Db :=
  set_uploads {[ 2%N := MkUploadRow 3 "uploads/2/source" "a.pdf" "application/pdf"
                   (Some "application/pdf") "aa" None 6 None None "completed" 100 None None
                   (Some 1) 0 ]}
    (set_api_keys {[ 3%N := MkApiKeyRow "key" "mkocr_0000" "" "" "active" None None 0 ]} empty_db).

Definition job : Job.t := Job.new owner 2 "req" [("pages", JStr "all")] (Some "k1") 7 10 10.

Definition page (n : Z) : Page.t := Page.Mk n ("jobs/p" +:+ str_Z n) Page_SUCCEEDED 1 (Some "md") None
  (Some "r") (Some "h") None 0 None.

Definition running : Job.t :=
  Job.with_pages [page 1; page 2] (Job.with_started_at (Some 5) (Job.with_state RUNNING job)).

Definition world : PgWorld := MkPgWorld db [] 50 N.of_nat.
End SamplePg.

