(* ===== verification/PersistenceRows.v ===== *)
(** * What the PostgreSQL repositories store

    - [JsonbLaws]: what is assumed of the [jsonb] type;
    - [save_get_roundtrip]: a saved job is read back as it was saved, but for
      the text and structure of its pages, which are kept in object storage;
    - [event_logs_agree]: the event log of the database and the one of the
      in-memory adapter stay equal event by event. *)

From Stdlib Require Import Sorted.
From stdpp Require Import sorting.
From S2P Require Import Prelude PyData PyText PyValue Json JsonFacts Status Progress Domain Ports.
From S2P Require Import History Messaging MessagingFacts Schema Persistence PersistenceFacts.
From S2P Require Import Memory MemoryFacts.

#[local] Open Scope Z_scope.

(** ** Ordered rows *)

Lemma NoDup_omap {A B} (f : A → option B) l :
  (∀ x y z, f x = Some z → f y = Some z → x = y) → NoDup l → NoDup (omap f l).
Proof.
  intros Hf. induction 1 as [|x l Hx Hl IH]; csimpl; [constructor|].
  destruct (f x) as [z|] eqn:E; [|done]. constructor; [|done].
  intros (y & Hy & Ey)%list_elem_of_omap. by rewrite (Hf _ _ _ E Ey) in Hx.
Qed.

(** A list in the order of its distinct numbers is the result of the query. *)
Lemma numbered_rows_eq {K A} `{Countable K} (number : K → option Z) (m : gmap K A) l :
  (∀ k k' n, number k = Some n → number k' = Some n → k = k') →
  (∀ n r, (n, r) ∈ l ↔ ∃ k, number k = Some n ∧ m !! k = Some r) →
  StronglySorted Z.lt l.*1 → numbered_rows number m = l.
Proof.
  intros Hinj Hl Hs. unfold numbered_rows.
  assert (omap (λ '(k, r), (λ n, (n, r)) <$> number k) (map_to_list m) ≡ₚ l) as Hp.
  { apply NoDup_Permutation.
    - apply NoDup_omap; [|apply NoDup_map_to_list].
      intros [k r] [k' r'] [n x] (? & ? & ?)%fmap_Some (? & ? & ?)%fmap_Some. simplify_eq.
      f_equal. by eapply Hinj.
    - apply (NoDup_fmap_1 fst). clear -Hs. induction Hs as [|n ns Hs IH Hn]; constructor; [|done].
      intros Hin. rewrite Forall_forall in Hn. specialize (Hn _ Hin). lia.
    - intros [n r]. rewrite Hl, list_elem_of_omap. split.
      + intros ([k r'] & Hk & (? & ? & ?)%fmap_Some). simplify_eq. exists k.
        by apply elem_of_map_to_list in Hk.
      + intros (k & Hk & Hr). exists (k, r). rewrite elem_of_map_to_list, Hk. done. }
  assert (∀ x y, x ∈ l → y ∈ l → x.1 = y.1 → x = y) as Hfun.
  { intros [n r] [n' r'] (k & Hk & Hr)%Hl (k' & Hk' & Hr')%Hl. simpl. intros ->.
    assert (k = k') as -> by by eapply Hinj. congruence. }
  assert (Transitive (λ a b : Z * A, before fst false a b = true)) as Htr.
  { intros x y z H1%Z.leb_le H2%Z.leb_le. apply Z.leb_le. by etransitivity. }
  apply (Sorted_unique_strong (λ a b : Z * A, before fst false a b = true)).
  - intros x y Hx Hy H1%Z.leb_le H2%Z.leb_le. apply Hfun; [|done | by apply Z.le_antisymm].
    by rewrite py_sorted_perm, Hp in Hx.
  - apply py_sorted_sorted.
  - clear -Hs. apply StronglySorted_Sorted. induction l as [|x l IH]; [constructor|].
    rewrite fmap_cons in Hs. apply StronglySorted_inv in Hs as [Hs Hf]. constructor; [by apply IH|].
    rewrite Forall_fmap in Hf. eapply Forall_impl; [exact Hf|]. intros y Hy. apply Z.leb_le.
    simpl in *. lia.
  - by rewrite py_sorted_perm.
Qed.

Lemma StronglySorted_seqZ m n : StronglySorted Z.lt (seqZ m (Z.of_nat n)).
Proof.
  revert m. induction n as [|n IH]; intros m; [constructor|].
  rewrite seqZ_cons by lia. replace (Z.pred (Z.of_nat (S n))) with (Z.of_nat n) by lia.
  constructor; [apply IH|]. apply Forall_forall. intros x Hx%elem_of_seqZ. lia.
Qed.

Lemma foldr_max_seqZ n : foldr Z.max 0 (seqZ 1 (Z.of_nat n)) = Z.of_nat n.
Proof.
  assert (∀ m, 0 ≤ m → foldr Z.max 0 (seqZ (m + 1) (Z.of_nat n)) =
            if decide (n = 0%nat) then 0 else m + Z.of_nat n) as H.
  { induction n as [|n IH]; intros m Hm; [done|].
    rewrite seqZ_cons by lia. replace (Z.pred (Z.of_nat (S n))) with (Z.of_nat n) by lia. simpl.
    rewrite <- Z.add_1_r, IH by lia. case_decide; subst; lia. }
  change 1 with (0 + 1). rewrite (H 0) by lia. case_decide; subst; lia.
Qed.

(** ** [jsonb] *)

(** What the repositories rely on: a storable document is kept up to the order
    of its keys; scalars are kept, floats if they are progress values. *)
Definition kept_scalar (v : json) : Prop :=
  match v with
  | JNull | JBool _ | JInt _ | JStr _ => True
  | JFloat lit => ∃ k, 0 ≤ k ≤ 10000 ∧ lit = repr4 k
  | JList _ | JObj _ => False
  end.

Class JsonbLaws `{!Jsonb} (storable : json → bool) (norm : json → json) := {
  jsonb_stored v : storable v = true → to_jsonb v = inr (norm v) ∧ decode_json (norm v) = inr (norm v);
  norm_object l : ∃ l', norm (JObj l) = JObj l' ∧ ∀ k, dget l' k = norm <$> dget l k;
  norm_scalar v : kept_scalar v → norm v = v
}.

(** A progress value is read back as it was written. *)
Lemma float4_repr4 k : 0 ≤ k ≤ 10000 → AsyncpgJobEventRepository.float4 (JFloat (repr4 k)) = inr k.
Proof.
  intros Hk.
  assert (forallb (λ k, match AsyncpgJobEventRepository.float4 (JFloat (repr4 k)) with
                        | inr k' => Z.eqb k' k | inl _ => false end) (seqZ 0 10001) = true) as H
    by (vm_compute; reflexivity).
  rewrite forallb_forall in H. specialize (H k). destruct (AsyncpgJobEventRepository.float4 _).
  - discriminate H. apply list_elem_of_In, elem_of_seqZ. lia.
  - f_equal. apply Z.eqb_eq, H, list_elem_of_In, elem_of_seqZ. lia.
Qed.

(** ** The event log *)

Section event_log.
Context `{!Jsonb} (storable : json → bool) (norm : json → json) `{!JsonbLaws storable norm}.
Import AsyncpgJobEventRepository.

#[local] Arguments float4 : simpl never.
#[local] Arguments parse_job_state : simpl never.

(** The payload as the column keeps it. *)
Definition norm_dict (l : dict) : dict := match norm (JObj l) with JObj l' => l' | _ => [] end.

Lemma norm_dict_spec l : norm (JObj l) = JObj (norm_dict l).
Proof. unfold norm_dict. by destruct (norm_object l) as (l' & -> & _). Qed.

Lemma dget_norm_dict l k : dget (norm_dict l) k = norm <$> dget l k.
Proof. unfold norm_dict. by destruct (norm_object l) as (l' & -> & Hl). Qed.

(** The row of an event. *)
Definition event_row (e : JobEvent.t) : EventRow :=
  MkEventRow (JobEvent.event_type e)
    (match event_internal_code e with inr c => c | inl _ => 0 end)
    (norm (event_document e)) (JobEvent.occurred_at e).

(** An event that can be stored: its document, its columns, and the attempt in
    the payload of a terminal one. *)
Record recordable (n : Z) (e : JobEvent.t) : Prop := {
  rec_progress : 0 ≤ JobEvent.progress e ≤ 10000;
  rec_document : storable (event_document e) = true;
  rec_code : ∃ c, event_internal_code e = inr c;
  rec_columns : check_event n (event_row e) = inr ();
  rec_attempt : terminal_event (JobEvent.event_type e) = true →
    ∃ a, dget (JobEvent.payload e) "attempt" = Some (JInt a)
}.

(** The rows of a job hold its log. *)
Definition holds (d : Db) (i : UUID) (log : list JobEvent.t) : Prop :=
  rows_of d i = map (λ e, (JobEvent.sequence e, event_row e)) log ∧
  Forall (λ e, JobEvent.job_id e = i ∧ recordable (JobEvent.sequence e) e) log.

Lemma row_numbers log :
  (map (λ e, (JobEvent.sequence e, event_row e)) log).*1 = JobEvent.sequence <$> log.
Proof. induction log as [|e log IH]; [done|]. csimpl. by rewrite IH. Qed.

Lemma attempt_text_norm e a :
  dget (JobEvent.payload e) "attempt" = Some (JInt a) →
  attempt_text (norm (event_document e)) = Some (str_Z a).
Proof.
  intros Ha. unfold attempt_text, event_document. rewrite norm_dict_spec. simpl.
  rewrite dget_norm_dict. simpl. rewrite norm_dict_spec. simpl.
  rewrite dget_norm_dict, Ha. simpl. by rewrite (norm_scalar (JInt a)).
Qed.

(** An event with its payload as the column keeps it. *)
Definition norm_event (e : JobEvent.t) : JobEvent.t :=
  JobEvent.Mk (JobEvent.job_id e) (JobEvent.event_type e) (JobEvent.state e) (JobEvent.progress e)
    (JobEvent.request_id e) (norm_dict (JobEvent.payload e)) (JobEvent.sequence e)
    (JobEvent.occurred_at e).

Lemma from_row_norm e :
  recordable (JobEvent.sequence e) e →
  from_row (JobEvent.job_id e) (JobEvent.sequence e) (event_row e) = inr (norm_event e).
Proof.
  intros []. unfold from_row. simpl.
  rewrite (proj2 (jsonb_stored _ rec_document0)). unfold event_document. rewrite norm_dict_spec.
  cbn [mbind result_bind]. unfold item. rewrite !dget_norm_dict. simpl.
  rewrite (norm_scalar (JStr (job_state_str _))), (norm_scalar (JStr (JobEvent.request_id e))) by done.
  rewrite (norm_scalar (JFloat _)) by (by eexists). rewrite norm_dict_spec. simpl.
  rewrite parse_job_state_str. simpl. by rewrite float4_repr4.
Qed.
(** The query finds the event the in-memory repository finds. *)
Lemma select_existing_spec d i log event n :
  holds d i log → recordable n event →
  (if terminal_event (JobEvent.event_type event)
   then select_existing i (JobEvent.event_type event)
     (py_str (default (JStr "") (dget (JobEvent.payload event) "attempt")))
   else mret None) d = (Ret (JobEvent.sequence <$> InMemoryJobEventRepository.existing event log), d).
Proof.
  intros [Hrows Hlog] Hev. unfold InMemoryJobEventRepository.existing.
  change (InMemoryJobEventRepository.terminal_event ?t) with (terminal_event t).
  destruct (terminal_event (JobEvent.event_type event)) eqn:Ht; [|done].
  destruct (rec_attempt _ _ Hev Ht) as [b Hb]. rewrite Hb. unfold select_existing, gets.
  rewrite Hrows. change (py_str (default (JStr _) (Some (JInt b)))) with (str_Z b). do 2 f_equal. clear Hrows.
  induction Hlog as [|e log [_ He] Hlog IH]; [done|]. csimpl.
  rewrite filter_cons. destruct (decide (JobEvent.event_type e = JobEvent.event_type event)) as [Eq|Hne].
  2:{ rewrite (bool_decide_eq_false_2 _ Hne), decide_False by tauto. exact IH. }
  rewrite (bool_decide_eq_true_2 _ Eq). simpl.
  destruct (rec_attempt _ _ He) as [a Ha]; [by rewrite Eq|].
  rewrite (attempt_text_norm _ _ Ha), Ha. simpl.
  destruct (decide (a = b)) as [->|Hab].
  - rewrite bool_decide_eq_true_2, decide_True by first [done | split; [done | by apply bool_decide_eq_true]].
    done.
  - rewrite bool_decide_eq_false_2 by (intros [= Heq]; by apply Hab, str_Z_inj).
    rewrite decide_False; [exact IH|]. by intros [_ Hx%bool_decide_eq_true].
Qed.

Lemma rows_of_spec d i n r : (n, r) ∈ rows_of d i ↔ db_events d !! (i, n) = Some r.
Proof.
  unfold rows_of, numbered_rows. rewrite py_sorted_perm, list_elem_of_omap. split.
  - intros ([[i' n'] r'] & Hin%elem_of_map_to_list & (m & Hm & ?)%fmap_Some). case_decide; by simplify_eq.
  - intros Hr. exists ((i, n), r). rewrite elem_of_map_to_list. split; [done|].
    by rewrite decide_True.
Qed.

Definition append_log (log : list JobEvent.t) (event : JobEvent.t) : list JobEvent.t :=
  log ++ [JobEvent.with_sequence (Z.of_nat (length log) + 1) event].

(** The insertion of a new event extends the log the rows hold. *)
Lemma insert_row_holds d log event :
  let i := JobEvent.job_id event in
  let n := Z.of_nat (length log) + 1 in
  holds d i log → log_ok log → recordable n event → is_Some (db_jobs d !! i) →
  ∃ d', insert_row i n (event_row event) d = (Ret (), d') ∧ holds d' i (append_log log event).
Proof.
  intros i n [Hrows Hlog] [Hn _] Hev [r Hr]. unfold insert_row.
  rewrite (bind_run _ _ d d d) by done. rewrite (rec_columns _ _ Hev).
  rewrite (bind_run _ _ d () d) by done.
  assert (db_events d !! (i, n) = None) as Hnew.
  { destruct (db_events d !! (i, n)) as [x|] eqn:E; [|done]. exfalso.
    apply rows_of_spec in E. rewrite Hrows in E. apply list_elem_of_fmap in E as (e & [= E _] & He).
    assert (n ∈ JobEvent.sequence <$> log) as Hin by (apply list_elem_of_fmap; by exists e).
    rewrite Hn in Hin. apply elem_of_seqZ in Hin. subst n. lia. }
  unfold absent. rewrite Hnew, Hr. simpl. rewrite (bind_run _ _ d () d) by done.
  eexists. split; [reflexivity|]. split.
  - unfold rows_of. apply numbered_rows_eq.
    + intros [i1 n1] [i2 n2] m ?? . repeat case_decide; by simplify_eq.
    + intros m x. unfold append_log. rewrite map_app, elem_of_app. cbn [map]. rewrite list_elem_of_singleton.
      rewrite <- Hrows, rows_of_spec. split.
      * intros [Hx|[= -> ->]]; [exists (i, m) | exists (i, n)]; (split; [by rewrite decide_True|]); simpl;
          [rewrite lookup_insert_ne by congruence; done | by rewrite lookup_insert_eq].
      * intros ([i' m'] & Hm & Hx). case_decide; [|done]. simplify_eq. simpl in Hx.
        apply lookup_insert_Some in Hx as [[[= <-] <-]|[_ Hx]]; [by right | by left].
    + rewrite row_numbers. pose proof (numbered_snoc log event Hn) as Hseq. cbv zeta in Hseq.
      unfold append_log. rewrite Hseq. apply StronglySorted_seqZ.
  - unfold append_log. apply Forall_app. split; [done|]. apply Forall_singleton.
    split; [done|]. destruct Hev. by split.
Qed.
(** What the listing query returns. *)
Lemma select_after_holds d i log s :
  holds d i log →
  ∃ rows, select_after i s d = (Ret rows, d) ∧
    traverse (λ '(n, row), from_row i n row) rows =
    inr (map norm_event (take 100 (InMemoryJobEventRepository.after s log))).
Proof.
  intros [Hrows Hlog]. unfold select_after, gets. rewrite Hrows. eexists. split; [reflexivity|].
  clear Hrows. unfold InMemoryJobEventRepository.after. generalize 100%nat as m.
  induction Hlog as [|e log [Hi He] Hlog IH]; intros m; [by destruct m|]. csimpl. rewrite !filter_cons.
  simpl. destruct (decide (s < JobEvent.sequence e)); [|apply IH].
  destruct m as [|m]; [done|]. simpl. rewrite <- Hi at 1. rewrite from_row_norm by done. simpl.
  by rewrite IH.
Qed.

(** C24: equivalence of the two event logs.  Let the rows of a job hold its
    in-memory log, and let the event be one the program records (its columns fit,
    its document can be stored, a terminal one names its attempt).  Then
    [AsyncpgJobEventRepository.append] and [InMemoryJobEventRepository.append]
    both return, number the event alike (the same new number, or the number of
    the event already recorded for this end of the attempt), and leave rows that
    hold the new log; and [list_after] reads from the rows the events the
    in-memory repository lists, at most 100, with their payloads as [jsonb]
    keeps them. *)
Theorem event_logs_agree d w event :
  let i := JobEvent.job_id event in
  let log := InMemoryJobEventRepository.log w i in
  holds d i log → log_ok log → is_Some (db_jobs d !! i) →
  recordable (Z.of_nat (length log) + 1) event →
  ∃ d' e' w' log',
    append_with_connection event d = (Ret (JobEvent.with_sequence (JobEvent.sequence e') event), d') ∧
    InMemoryJobEventRepository.append event w = (Ret e', w') ∧
    InMemoryJobEventRepository.log w' i = log' ∧ log_ok log' ∧ holds d' i log' ∧
    ∀ s, ∃ rows, select_after i s d' = (Ret rows, d') ∧
      traverse (λ '(n, row), from_row i n row) rows =
      inr (map norm_event (take 100 (InMemoryJobEventRepository.after s log'))).
Proof.
  intros i log Hh Hok Hjob Hev. unfold append_with_connection, InMemoryJobEventRepository.append.
  fold i. pose proof (select_existing_spec d i log event _ Hh Hev) as Hex.
  erewrite (bind_run _ _ d) by exact Hex. rewrite (bind_run _ _ w log w) by done. cbv beta.
  destruct (InMemoryJobEventRepository.existing event log) as [item|] eqn:Ei; simpl.
  { exists d, item, w, log. split_and!; try done. intros s. by apply select_after_holds. }
  pose proof (proj1 Hh) as Hrows. pose proof (log_numbered _ Hok) as Hn.
  assert (next_sequence i d = (Ret (Z.of_nat (length log) + 1), d)) as Hnext.
  { unfold next_sequence, gets. by rewrite Hrows, row_numbers, Hn, foldr_max_seqZ. }
  rewrite (bind_run _ _ d _ d Hnext). destruct (rec_code _ _ Hev) as [c Hc]. rewrite Hc.
  rewrite (bind_run _ _ d c d) by done. rewrite (proj1 (jsonb_stored _ (rec_document _ _ Hev))).
  rewrite (bind_run _ _ d (norm (event_document event)) d) by done.
  destruct (insert_row_holds d log event Hh Hok Hev Hjob) as (d' & Hins & Hh').
  unfold event_row at 1 in Hins. rewrite Hc in Hins. erewrite bind_run by exact Hins. cbv beta.
  eexists d', _, _, (append_log log event). split_and!; try done.
  - reflexivity.
  - unfold InMemoryJobEventRepository.log. simpl. by rewrite lookup_insert_eq.
  - apply log_ok_snoc; [done|]. by apply existing_None.
  - intros s. by apply select_after_holds.
Qed.
End event_log.

(** ** Saving and reading a job *)

Section roundtrip.
Context `{!Jsonb} (storable : json → bool) (norm : json → json) `{!JsonbLaws storable norm}.
Context (retention_days : Z).
Import AsyncpgJobRepository.

#[local] Arguments parse_job_state : simpl never.

(** A page without the fields no column holds. *)
Definition kept_page (p : Page.t) : Page.t := Page.with_structured None (Page.with_markdown None p).

(** A job as [get] reads it back. *)
Definition kept_job (j : Job.t) : Job.t :=
  Job.Mk (Job.owner_id j) (Job.upload_id j) (Job.request_id j) (norm_dict norm (Job.options j))
    (Job.id j) (Job.state j) (Job.attempt j) (Job.revision j) (map kept_page (Job.pages j))
    (Job.artifacts j) (Job.idempotency_key j) (Job.engine_name j) (Job.engine_version j)
    (Job.model_name j) (Job.internal_code j) (Job.error_reason j) (Job.created_at j)
    (Job.updated_at j) (Job.started_at j) (Job.completed_at j).

(** The constraints on the artifacts hold one after the other. *)
Definition unique_artifacts (j : Job.t) (l : Datatypes.list Artifact.t) : Prop :=
  ∀ before a after, l = before ++ a :: after →
    existsb (same_artifact (artifact_row j a)) (map (artifact_row j) before) = false.

(** The order of the artifact query: those of the job first, then by page, and
    by kind. *)
Definition query_order (a b : Artifact.t) : Prop :=
  match Artifact.page_number a, Artifact.page_number b with
  | None, Some _ => True
  | Some _, None => False
  | None, None => String.leb (artifact_kind_str (Artifact.kind a)) (artifact_kind_str (Artifact.kind b)) = true
  | Some m, Some n => m < n ∨
      m = n ∧ String.leb (artifact_kind_str (Artifact.kind a)) (artifact_kind_str (Artifact.kind b)) = true
  end.

(** A job that fits the columns, with its pages in order, with the row it
    replaces. *)
Record savable (d : Db) (j : Job.t) (r : JobRow) : Prop := {
  sv_row : db_jobs d !! Job.id j = Some r;
  sv_claim : jr_retention_claim_token r = None;
  sv_revision : jr_revision r = Job.revision j;
  sv_fixed : uuid_str (jr_api_key_id r) = Job.owner_id j ∧ jr_upload_id r = Job.upload_id j ∧
    jr_idempotency_key r = Job.idempotency_key j ∧ jr_created_at r = Job.created_at j;
  sv_options : storable (JObj (Job.options j)) = true;
  sv_job : check_job (updated_row retention_days None (norm (JObj (Job.options j))) j r) = inr ();
  sv_attempt : check_attempt (Job.attempt j) (attempt_row j) = inr ();
  sv_merge : ∀ a, db_attempts d !! (Job.id j, Job.attempt j) = Some a →
    merge_attempt (attempt_row j) a = attempt_row j;
  sv_pages : Forall (λ p, check_page (Job.attempt j) (Page.page_number p) (page_row p) = inr ()) (Job.pages j);
  sv_numbers : StronglySorted Z.lt (Page.page_number <$> Job.pages j);
  sv_old_pages : ∀ n, is_Some (db_pages d !! (Job.id j, Job.attempt j, n)) →
    n ∈ Page.page_number <$> Job.pages j;
  sv_artifacts : Forall (λ a, check_artifact (artifact_row j a) = inr ()) (Job.artifacts j);
  sv_unique : unique_artifacts j (Job.artifacts j);
  sv_old_artifacts : Job.artifacts j = [] →
    filter (of_attempt (Job.id j) (Job.attempt j)) (db_artifacts d) = []
}.

Lemma update_job_run d cancel j r :
  savable d j r →
  update_job retention_days cancel j d =
    (Ret (Some (Job.revision j + 1)),
     set_jobs (<[Job.id j := updated_row retention_days cancel (norm (JObj (Job.options j))) j r]>
       (db_jobs d)) d).
Proof.
  intros []. unfold update_job. rewrite (proj1 (jsonb_stored _ sv_options0)).
  rewrite (bind_run _ _ d (norm (JObj (Job.options j))) d) by done.
  rewrite (bind_run _ _ d d d) by done. rewrite sv_row0, sv_claim0, decide_True by done.
  change (check_job (updated_row retention_days cancel (norm (JObj (Job.options j))) j r))
    with (check_job (updated_row retention_days None (norm (JObj (Job.options j))) j r)).
  rewrite sv_job0. rewrite (bind_run _ _ d () d) by done.
  erewrite bind_run by reflexivity. cbv beta. simpl. by rewrite sv_revision0.
Qed.

Lemma upsert_attempt_run d j :
  is_Some (db_jobs d !! Job.id j) → check_attempt (Job.attempt j) (attempt_row j) = inr () →
  (∀ a, db_attempts d !! (Job.id j, Job.attempt j) = Some a →
    merge_attempt (attempt_row j) a = attempt_row j) →
  upsert_attempt j d =
    (Ret (), set_attempts (<[(Job.id j, Job.attempt j) := attempt_row j]> (db_attempts d)) d).
Proof.
  intros [r Hr] Hc Hm. unfold upsert_attempt. rewrite (bind_run _ _ d d d) by done. rewrite Hc.
  rewrite (bind_run _ _ d () d) by done. unfold absent. rewrite Hr.
  rewrite (bind_run _ _ d () d) by done.
  destruct (db_attempts d !! (Job.id j, Job.attempt j)) as [a|]; [by rewrite Hm | done].
Qed.

Definition pages_after (j : Job.t) (ps : Datatypes.list Page.t) (m : gmap (UUID * Z * Z) PageRow) :=
  foldl (λ m p, <[(Job.id j, Job.attempt j, Page.page_number p) := page_row p]> m) m ps.

Lemma upsert_page_run d j p :
  is_Some (db_jobs d !! Job.id j) →
  check_page (Job.attempt j) (Page.page_number p) (page_row p) = inr () →
  upsert_page j p d = (Ret (), set_pages (pages_after j [p] (db_pages d)) d).
Proof.
  intros [r Hr] Hp. unfold upsert_page. rewrite (bind_run _ _ d d d) by done. rewrite Hp.
  rewrite (bind_run _ _ d () d) by done. unfold absent. by rewrite Hr.
Qed.

Lemma upsert_pages_run d j ps :
  is_Some (db_jobs d !! Job.id j) →
  Forall (λ p, check_page (Job.attempt j) (Page.page_number p) (page_row p) = inr ()) ps →
  foreach ps (upsert_page j) d = (Ret (), set_pages (pages_after j ps (db_pages d)) d).
Proof.
  intros Hr Hc. revert d Hr. induction Hc as [|p ps Hp Hc IH]; intros d Hr; [by destruct d|]. simpl.
  rewrite (bind_run _ _ _ _ _ (upsert_page_run d j p Hr Hp)). by rewrite IH.
Qed.

(** The artifact rows of other jobs and attempts do not count. *)
Lemma same_artifact_others j a others :
  filter (of_attempt (Job.id j) (Job.attempt j)) others = [] →
  existsb (same_artifact (artifact_row j a)) others = false.
Proof.
  induction others as [|x others IH]; [done|]. rewrite filter_cons. case_decide as Hx; [done|].
  intros Ho. simpl. rewrite (IH Ho), orb_false_r. unfold same_artifact.
  destruct (bool_decide (fr_job_id (artifact_row j a) = fr_job_id x)) eqn:E1; [|done].
  destruct (bool_decide (fr_attempt (artifact_row j a) = fr_attempt x)) eqn:E2; [|done].
  apply bool_decide_eq_true in E1, E2. destruct Hx. by split.
Qed.

Lemma insert_artifacts_run d j l before others :
  is_Some (db_jobs d !! Job.id j) →
  Forall (λ a, check_artifact (artifact_row j a) = inr ()) l →
  unique_artifacts j (before ++ l) →
  filter (of_attempt (Job.id j) (Job.attempt j)) others = [] →
  db_artifacts d = others ++ map (artifact_row j) before →
  foreach l (insert_artifact j) d =
    (Ret (), set_artifacts (others ++ map (artifact_row j) (before ++ l)) d).
Proof.
  intros [r Hr] Hc. revert d Hr before.
  induction Hc as [|a l Ha Hc IH]; intros d Hr before Hu Ho Hd.
  { rewrite app_nil_r, <- Hd. by destruct d. }
  simpl. rewrite (bind_run _ _ d () (set_artifacts (others ++ map (artifact_row j) (before ++ [a])) d)).
  - rewrite (IH (set_artifacts (others ++ map (artifact_row j) (before ++ [a])) d) Hr (before ++ [a]));
      rewrite <- ?app_assoc; done.
  - unfold insert_artifact. rewrite (bind_run _ _ d d d) by done. rewrite Ha.
    rewrite (bind_run _ _ d () d) by done. unfold absent. rewrite Hr, Hd, existsb_app.
    rewrite same_artifact_others, (Hu before a l) by done. simpl.
    rewrite (bind_run _ _ d () d) by done. unfold modify. by rewrite map_app, app_assoc.
Qed.

(** The database after a save. *)
Definition saved_db (cancel : option datetime) (j : Job.t) (r : JobRow) (d : Db) : Db :=
  let c := committed j in
  let d := set_jobs (<[Job.id j := updated_row retention_days cancel (norm (JObj (Job.options j))) j r]>
             (db_jobs d)) d in
  let d := set_attempts (<[(Job.id j, Job.attempt j) := attempt_row j]> (db_attempts d)) d in
  let d := set_pages (pages_after j (Job.pages j) (db_pages d)) d in
  match Job.artifacts j with
  | [] => d
  | _ => set_artifacts (filter (λ x, ¬ of_attempt (Job.id j) (Job.attempt j) x) (db_artifacts d) ++
           map (artifact_row j) (Job.artifacts j)) d
  end.

Lemma filter_none {A} (P : A → Prop) `{∀ x, Decision (P x)} l :
  filter P (filter (λ x, ¬ P x) l) = [].
Proof.
  induction l as [|x l IH]; [done|]. rewrite filter_cons. case_decide; [|done].
  rewrite filter_cons. by case_decide.
Qed.

Lemma save_job_run d cancel j r :
  savable d j r →
  save_job retention_days cancel j d = (Ret (committed j), saved_db cancel j r d).
Proof.
  intros Hs. unfold save_job.
  rewrite (bind_run _ _ _ _ _ (at_local_run _ _ _ _ _ (update_job_run d cancel j r Hs))).
  change (Job.with_revision (Job.revision j + 1) j) with (committed j).
  set (d1 := set_jobs _ d). assert (is_Some (db_jobs d1 !! Job.id j)) as Hj1
    by (simpl; rewrite lookup_insert_eq; by eexists).
  apply at_local_run. destruct Hs.
  rewrite (bind_run _ _ _ _ _ (upsert_attempt_run d1 (committed j) Hj1 sv_attempt0 sv_merge0)).
  set (d2 := set_attempts _ d1).
  rewrite (bind_run _ _ _ _ _ (upsert_pages_run d2 (committed j) _ Hj1 sv_pages0)).
  set (d3 := set_pages _ d2). unfold saved_db. fold d1.
  change (Job.artifacts (committed j)) with (Job.artifacts j).
  destruct (Job.artifacts j) as [|a l] eqn:El; [done|]. rewrite bool_decide_eq_false_2 by done.
  set (others := filter (λ x, ¬ of_attempt (Job.id j) (Job.attempt j) x) (db_artifacts d)).
  set (d4 := set_artifacts others d3).
  assert (foreach (a :: l) (insert_artifact (committed j)) d4 =
    (Ret (), set_artifacts (others ++ map (artifact_row (committed j)) ([] ++ a :: l)) d4)) as Hins.
  { apply insert_artifacts_run; try done; [apply filter_none | by rewrite app_nil_r]. }
  erewrite bind_run; [reflexivity|]. rewrite (bind_run _ _ d3 () d4) by done. exact Hins.
Qed.

Definition page_key (j : Job.t) (p : Page.t) : UUID * Z * Z :=
  (Job.id j, Job.attempt j, Page.page_number p).

Lemma pages_after_spec j ps m k r :
  NoDup (Page.page_number <$> ps) →
  pages_after j ps m !! k = Some r ↔
  (∃ p, p ∈ ps ∧ k = page_key j p ∧ r = page_row p) ∨
  (∀ p, p ∈ ps → k ≠ page_key j p) ∧ m !! k = Some r.
Proof.
  revert m. induction ps as [|p ps IH]; intros m Hn; [simpl; set_solver|].
  rewrite fmap_cons in Hn. apply NoDup_cons in Hn as [Hp Hn]. simpl.
  fold (page_key j p). change (foldl _ ?m' ps) with (pages_after j ps m').
  rewrite (IH _ Hn), lookup_insert_Some.
  assert (∀ p', p' ∈ ps → page_key j p ≠ page_key j p') as Hne.
  { intros p' Hp' [= Heq]. apply Hp. rewrite Heq. apply list_elem_of_fmap. by exists p'. }
  split.
  - intros [(p' & Hin & -> & ->)|[Hk [[<- <-]|[Hkp Hm]]]].
    + left. exists p'. split_and!; [by right | done..].
    + left. exists p. split_and!; [by left | done..].
    + right. split; [|done]. intros p' [->|Hin]%elem_of_cons; [by intros -> | by apply Hk].
  - intros [(p' & [->|Hin]%elem_of_cons & -> & ->)|[Hk Hm]].
    + right. split; [intros p' Hp'; by apply Hne | by left].
    + left. by exists p'.
    + right. split; [intros p' Hp'; apply Hk; by right|]. right. split; [|done].
      intros Heq. by apply (Hk p); [left|].
Qed.

Lemma select_pages_saved cancel j r d :
  savable d j r →
  select_pages (Job.id j) (Job.attempt j) (saved_db cancel j r d) =
    (Ret (map (λ p, (Page.page_number p, page_row p)) (Job.pages j)), saved_db cancel j r d).
Proof.
  intros Hs. unfold select_pages, gets. do 2 f_equal.
  assert (db_pages (saved_db cancel j r d) = pages_after j (Job.pages j) (db_pages d)) as ->
    by (unfold saved_db; by destruct (Job.artifacts j)).
  assert (∀ l, (map (λ p, (Page.page_number p, page_row p)) l).*1 = Page.page_number <$> l) as Hfst.
  { intros l. induction l as [|p l IH]; [done|]. csimpl. by rewrite IH. }
  pose proof (sv_numbers _ _ _ Hs) as Hsorted.
  assert (NoDup (Page.page_number <$> Job.pages j)) as Hn.
  { clear -Hsorted. induction Hsorted as [|n ns _ IH Hf]; constructor; [|done].
    intros Hin. rewrite Forall_forall in Hf. specialize (Hf _ Hin). lia. }
  apply numbered_rows_eq; [| |by rewrite Hfst].
  - intros [[i1 a1] n1] [[i2 a2] n2] m ??. repeat case_decide; naive_solver.
  - intros n x. rewrite list_elem_of_fmap. split.
    + intros (p & [= -> ->] & Hp). exists (page_key j p). simpl. split; [by rewrite decide_True|].
      apply pages_after_spec; [done|]. left. by exists p.
    + intros ([[i a] n'] & Hk & Hx). case_decide as Hia; [|done]. destruct Hia as [-> ->].
      injection Hk as ->. apply pages_after_spec in Hx as [(p & Hp & [= ->] & ->)|[Hno Hx]]; [by exists p| |done].
      exfalso. pose proof (sv_old_pages _ _ _ Hs n ltac:(by eexists)) as Hin.
      apply list_elem_of_fmap in Hin as (p & -> & Hp). by apply (Hno p Hp).
Qed.

Lemma order_insert_perm {A} (before : A → A → bool) x l : order_insert before x l ≡ₚ x :: l.
Proof.
  induction l as [|y l IH]; [done|]. simpl. case_match; [done|]. rewrite IH. apply perm_swap.
Qed.

Lemma order_by_perm {A} (before : A → A → bool) l : order_by before l ≡ₚ l.
Proof.
  induction l as [|x l IH]; [done|]. unfold order_by in *. simpl. by rewrite order_insert_perm, IH.
Qed.

Lemma order_by_sorted {A} (before : A → A → bool) l :
  (∀ x y, before x y = true ∨ before y x = true) → Sorted (λ a b, before a b = true) (order_by before l).
Proof.
  intros Ht. unfold order_by. induction l as [|x l IH]; [constructor|]. simpl.
  induction IH as [|y l' Hl' IH' Hhd]; simpl; [by repeat constructor|].
  destruct (before x y) eqn:E; [by repeat constructor|]. constructor; [done|].
  destruct (Ht x y) as [?|Hyx]; [congruence|].
  destruct Hhd as [|z l' Hyz]; simpl; [by constructor|]. case_match; by constructor.
Qed.

(** Ordering the rows is ordering what they are the rows of. *)
Lemma order_by_map {A B} (f : A → B) (before : B → B → bool) l :
  order_by before (map f l) = map f (order_by (λ x y, before (f x) (f y)) l).
Proof.
  unfold order_by. induction l as [|x l IH]; [done|]. simpl. rewrite IH.
  generalize (foldr (order_insert (λ x y, before (f x) (f y))) [] l) as k. clear IH.
  induction k as [|y k IH]; [done|]. simpl. case_match; [done|]. simpl. by rewrite IH.
Qed.

Definition ordered (j : Job.t) : Datatypes.list Artifact.t :=
  order_by (λ a b, artifact_before (artifact_row j a) (artifact_row j b)) (Job.artifacts j).

Lemma artifact_before_order j a b :
  artifact_before (artifact_row j a) (artifact_row j b) = true ↔ query_order a b.
Proof.
  unfold artifact_before, query_order. simpl.
  destruct (Artifact.page_number a) as [m|], (Artifact.page_number b) as [n|]; try done.
  by rewrite orb_true_iff, andb_true_iff, Z.ltb_lt, bool_decide_eq_true.
Qed.

Lemma query_order_total a b : query_order a b ∨ query_order b a.
Proof.
  unfold query_order. destruct (Artifact.page_number a) as [m|], (Artifact.page_number b) as [n|]; auto.
  - destruct (Z.lt_trichotomy m n) as [?|[->|?]]; [by left; left| |by right; left].
    destruct (String.leb_total (artifact_kind_str (Artifact.kind a)) (artifact_kind_str (Artifact.kind b))); auto.
  - apply String.leb_total.
Qed.

Lemma ordered_spec j : ordered j ≡ₚ Job.artifacts j ∧ Sorted query_order (ordered j).
Proof.
  split; [apply order_by_perm|].
  assert (Sorted (λ a b, artifact_before (artifact_row j a) (artifact_row j b) = true) (ordered j)) as H1.
  { apply order_by_sorted. intros a b. rewrite !artifact_before_order. apply query_order_total. }
  induction H1 as [|a l _ IH Hhd]; constructor; [done|].
  destruct Hhd as [|b l Hab]; constructor. by apply (artifact_before_order j).
Qed.

Lemma filter_all {A} (P : A → Prop) `{∀ x, Decision (P x)} l : Forall P l → filter P l = l.
Proof. induction 1; [done|]. rewrite filter_cons, decide_True by done. by f_equal. Qed.

Lemma select_artifacts_saved cancel j r d :
  savable d j r →
  select_artifacts (Job.id j) (Job.attempt j) (saved_db cancel j r d) =
    (Ret (map (artifact_row j) (ordered j)), saved_db cancel j r d).
Proof.
  intros Hs. unfold ordered. rewrite <- (order_by_map (artifact_row j)). unfold select_artifacts, gets. do 2 f_equal. unfold saved_db.
  pose proof (sv_old_artifacts _ _ _ Hs) as Hold.
  assert (Forall (of_attempt (Job.id j) (Job.attempt j)) (map (artifact_row j) (Job.artifacts j)))
    as Hall by (apply Forall_fmap, Forall_true; by split).
  destruct (Job.artifacts j) as [|a l]; [simpl; by rewrite Hold|].
  cbn [db_artifacts set_artifacts]. rewrite filter_app, filter_none, app_nil_l, filter_all by done.
  done.
Qed.

Lemma traverse_map {A B C} (f : A → exc + B) (g : C → A) (h : C → B) l :
  (∀ x, f (g x) = inr (h x)) → traverse f (map g l) = inr (map h l).
Proof. intros H1. induction l as [|x l IH]; [done|]. simpl. rewrite H1. simpl. by rewrite IH. Qed.

Lemma select_job_saved cancel j r d :
  savable d j r →
  select_job (Job.id j) (saved_db cancel j r d) =
    (Ret (Some (updated_row retention_days cancel (norm (JObj (Job.options j))) j r,
                Some (attempt_row j))), saved_db cancel j r d).
Proof.
  intros Hs. unfold select_job, gets. do 2 f_equal.
  assert (db_jobs (saved_db cancel j r d) = <[Job.id j := updated_row retention_days cancel
    (norm (JObj (Job.options j))) j r]> (db_jobs d)) as -> by (unfold saved_db; by destruct (Job.artifacts j)).
  assert (db_attempts (saved_db cancel j r d) = <[(Job.id j, Job.attempt j) := attempt_row j]>
    (db_attempts d)) as -> by (unfold saved_db; by destruct (Job.artifacts j)).
  rewrite lookup_insert_eq. simpl. rewrite (sv_claim _ _ _ Hs). by rewrite lookup_insert_eq.
Qed.

Lemma from_rows_saved cancel j r d l :
  savable d j r →
  from_rows (Job.id j) (updated_row retention_days cancel (norm (JObj (Job.options j))) j r,
                        Some (attempt_row j))
    (map (λ p, (Page.page_number p, page_row p)) (Job.pages j))
    (map (artifact_row j) l) = inr (Job.with_artifacts l (kept_job (committed j))).
Proof.
  intros []. unfold from_rows, options_of. simpl.
  rewrite (proj2 (jsonb_stored _ sv_options0)), (norm_dict_spec storable norm). simpl.
  rewrite parse_job_state_str. simpl.
  rewrite (traverse_map _ _ kept_page) by (intros [?? []]; done). simpl.
  rewrite (traverse_map _ _ (λ a, a)) by (intros [[]]; done). simpl. rewrite map_id.
  destruct sv_fixed0 as (-> & -> & -> & ->). rewrite sv_revision0. done.
Qed.

(** A statement when no other connection is active. *)
Lemma sql_alone {A} (m : Sql A) d a d' c ids :
  m d = (Ret a, d') → sql m (MkPgWorld d [] c ids) = (Ret a, MkPgWorld d' [] c ids).
Proof. intros Hm. unfold sql, pg_database. simpl. by rewrite Hm. Qed.

(** C23: the round trip of a job.  A working copy of a stored job that fits the
    columns, with its pages in order, is saved and read back, with no other
    connection in between, as the committed revision: every field, page and
    checkpoint, and the same artifacts in the order of the query (those of the
    job first, then by page; by kind), but for [markdown] and [structured] of
    the pages, which no column holds, and the order of the keys of [options],
    which [jsonb] does not keep. *)
Theorem save_get_roundtrip w j r :
  pg_schedule w = [] → savable (pg_db w) j r →
  ∃ w' artifacts,
    AsyncpgJobRepository.save retention_days j w = (Ret (committed j), w') ∧
    (AsyncpgJobRepository.get (Job.id j) w').1 =
      Ret (Some (Job.with_artifacts artifacts (kept_job (committed j)))) ∧
    artifacts ≡ₚ Job.artifacts j ∧ Sorted query_order artifacts.
Proof.
  intros Hsched Hs. destruct w as [d sched c ids]. simpl in *. subst sched. unfold save, saving.
  assert (∃ cancel c', cancel_time j (MkPgWorld d [] c ids) = (Ret cancel, MkPgWorld d [] c' ids))
    as (cancel & c' & Hc) by (unfold cancel_time; case_decide; by repeat eexists).
  rewrite (bind_run _ _ _ _ _ Hc). set (d' := saved_db cancel j r d).
  exists (MkPgWorld d' [] c' ids), (ordered j). split_and!; [| |apply ordered_spec..].
  - apply sql_alone, map_exn_run, transaction_ret.
    by rewrite (bind_run _ _ _ _ _ (save_job_run d cancel j r Hs)).
  - unfold get. rewrite (bind_run _ _ _ _ _ (sql_alone _ _ _ _ c' ids (select_job_saved cancel j r d Hs))).
    cbv beta iota. cbn [fst jr_current_attempt updated_row].
    rewrite (bind_run _ _ _ _ _ (sql_alone _ _ _ _ c' ids (select_pages_saved cancel j r d Hs))).
    rewrite (bind_run _ _ _ _ _ (sql_alone _ _ _ _ c' ids (select_artifacts_saved cancel j r d Hs))).
    by rewrite (from_rows_saved cancel j r d _ Hs).
Qed.
End roundtrip.

(** ** A concrete database *)

Module SampleRows.

#[global] Instance laws : JsonbLaws wf_json (λ v, v).
Proof.
  split; [|intros l; exists l; split; [done|]; intros k; by destruct (dget l k) | done].
  intros v Hv. unfold to_jsonb, decode_json, jsonb_in, jsonb_text, SamplePg.jsonb.
  by rewrite (loads_dumps_wf v Hv).
Qed.

Definition row : JobRow := AsyncpgJobRepository.inserted_row 30 3 (JObj [("pages", JStr "all")]) SamplePg.job.

(** The database with the queued job and its first event. *)
Definition queued : JobEvent.t := JobEvent.Mk 7 "job.queued" QUEUED 0 "req" [] 1 20.

Definition db : Db :=
  set_events {[ (7%N, 1) := event_row (λ v, v) queued ]} (set_jobs {[ 7%N := row ]} SamplePg.db).

Definition artifact (number : option Z) (kind : ArtifactKind) : Artifact.t :=
  Artifact.Mk kind "jobs/a" "h" 3 "text/markdown" number.

Definition done : Job.t :=
  Job.with_artifacts [artifact None MARKDOWN; artifact None JSON; artifact (Some 1) JSON]
    (Job.with_pages [SamplePg.page 1; SamplePg.page 2] (Job.with_state SUCCEEDED SamplePg.job)).

Definition world : PgWorld := MkPgWorld db [] 50 N.of_nat.

Definition memory : World := put_events {[ 7%N := [queued] ]} empty_world.

Definition finished : JobEvent.t :=
  JobEvent.Mk 7 "job.succeeded" SUCCEEDED 10000 "req" [("attempt", JInt 1)] 0 60.

End SampleRows.

Lemma save_get_roundtrip_witness :
  ∃ w' artifacts,
    AsyncpgJobRepository.save 30 SampleRows.done SampleRows.world = (Ret (committed SampleRows.done), w') ∧
    (AsyncpgJobRepository.get 7 w').1 =
      Ret (Some (Job.with_artifacts artifacts (kept_job (λ v, v) (committed SampleRows.done)))) ∧
    artifacts ≡ₚ Job.artifacts SampleRows.done ∧ Sorted query_order artifacts.
Proof.
  apply (save_get_roundtrip wf_json (λ v, v) 30 SampleRows.world SampleRows.done SampleRows.row);
    [reflexivity|].
  split.
  - vm_compute; reflexivity.
  - reflexivity.
  - reflexivity.
  - split_and!; vm_compute; reflexivity.
  - vm_compute; reflexivity.
  - vm_compute; reflexivity.
  - vm_compute; reflexivity.
  - intros a Ha. vm_compute in Ha. discriminate Ha.
  - repeat constructor; vm_compute; reflexivity.
  - repeat constructor; vm_compute; reflexivity.
  - intros n Hn. vm_compute in Hn. by destruct Hn.
  - repeat constructor; vm_compute; reflexivity.
  - intros before a after Ha.
    do 3 (destruct before as [|? before]; [injection Ha as <-; vm_compute; reflexivity|];
      injection Ha as <- Ha). by destruct before.
  - intros Ha. discriminate Ha.
Defined.

Lemma event_logs_agree_witness :
  ∃ d' e' w' log',
    AsyncpgJobEventRepository.append_with_connection SampleRows.finished SampleRows.db =
      (Ret (JobEvent.with_sequence (JobEvent.sequence e') SampleRows.finished), d') ∧
    InMemoryJobEventRepository.append SampleRows.finished SampleRows.memory = (Ret e', w') ∧
    InMemoryJobEventRepository.log w' 7 = log' ∧ log_ok log' ∧ holds wf_json (λ v, v) d' 7 log' ∧
    ∀ s, ∃ rows, AsyncpgJobEventRepository.select_after 7 s d' = (Ret rows, d') ∧
      traverse (λ '(n, row), AsyncpgJobEventRepository.from_row 7 n row) rows =
      inr (map (norm_event (λ v, v)) (take 100 (InMemoryJobEventRepository.after s log'))).
Proof.
  apply (event_logs_agree wf_json (λ v, v) SampleRows.db SampleRows.memory SampleRows.finished).
  - split; [vm_compute; reflexivity|]. apply Forall_singleton. split; [reflexivity|].
    split; [by split | vm_compute; reflexivity | by eexists | vm_compute; reflexivity |].
    intros Ht. vm_compute in Ht. discriminate Ht.
  - split; [vm_compute; reflexivity|]. intros i k e e' Hik Hi Hk.
    destruct k as [|k]; [lia | by destruct k].
  - vm_compute. by eexists.
  - split; [by split | vm_compute; reflexivity | by eexists | vm_compute; reflexivity |].
    intros _. by eexists.
Defined.
