(* ===== verification/PgRetention.v ===== *)
(** * The PostgreSQL retention repository

    Models [AsyncpgRetentionRepository] of [infrastructure/persistence.py]: the
    claims of expired jobs and uploads, the deletion of a claimed row with what
    depends on it, and the extension of a lease.  Statements and transactions are
    steps on the tables of [Schema], as in [Persistence].

    - [claims_exclusive]: who holds a claim, and for how long;
    - [cleanup_allowed]: the steps are those other tasks may see. *)

From S2P Require Import Prelude PyData PyText Json Status Domain DomainFacts Ports History.
From S2P Require Import Schema Persistence PersistenceFacts.

#[local] Open Scope Z_scope.

(** ** [AsyncpgRetentionRepository] *)

Module AsyncpgRetentionRepository.

(** The claim columns: unclaimed, or the lease has run out. *)
Definition claimable (now : datetime) (token : option UUID) (lease : option datetime) : bool :=
  match token, lease with
  | None, _ => true
  | Some _, Some lease => lease <=? now
  | Some _, None => false
  end.

(** The [WHERE] clauses of the two [candidates] queries. *)
Definition job_expired (now : datetime) (r : JobRow) : bool :=
  bool_decide (jr_status r ∈ ["succeeded"; "failed"; "cancelled"]) && (jr_expires_at r <=? now) &&
  claimable now (jr_retention_claim_token r) (jr_retention_lease_expires_at r).

Definition referenced (d : Db) (upload_id : UUID) : bool :=
  existsb (λ r, bool_decide (jr_upload_id r.2 = upload_id)) (map_to_list (db_jobs d)).

Definition upload_expired (d : Db) (now : datetime) (id : UUID) (r : UploadRow) : bool :=
  (ur_expires_at r <=? now) && negb (referenced d id) &&
  claimable now (ur_retention_claim_token r) (ur_retention_lease_expires_at r).

(** [ORDER BY expires_at, id LIMIT $2] *)
Definition by_expiry {A} (expires : A → datetime) (limit : Z) (rows : list (UUID * A)) :
    list (UUID * A) :=
  take (Z.to_nat limit) (py_sorted (λ r, expires r.2) false
    (py_sorted (λ r, Z.of_N r.1) false rows)).

Definition claim_job (token : UUID) (lease : datetime) (now : datetime) (r : JobRow) : JobRow :=
  MkJobRow (jr_api_key_id r) (jr_upload_id r) (jr_request_id r) (jr_idempotency_key r)
    (jr_status r) (jr_current_attempt r) (jr_revision r) (jr_total_pages r)
    (jr_completed_pages r) (jr_progress_percent r) (jr_options r) (jr_cancel_requested_at r)
    (jr_finished_at r) (jr_expires_at r) (Some token) (Some lease) (jr_last_internal_code r)
    (jr_last_error_reason r) (jr_created_at r) now.

Definition claim_upload (token : UUID) (lease : datetime) (r : UploadRow) : UploadRow :=
  MkUploadRow (ur_api_key_id r) (ur_object_key r) (ur_filename r) (ur_declared_content_type r)
    (ur_detected_content_type r) (ur_expected_sha256 r) (ur_verified_sha256 r)
    (ur_expected_size r) (ur_verified_size r) (ur_multipart_upload_id r) (ur_status r)
    (ur_expires_at r) (Some token) (Some lease) (ur_completed_at r) (ur_created_at r).

(** The two [WITH candidates AS ... UPDATE ... RETURNING] statements. *)
Definition claim_jobs (now : datetime) (limit : Z) (token : UUID) (lease : datetime) : Sql (list UUID) :=
  d ← gets (λ d, d);
  let rows := by_expiry jr_expires_at limit
    (filter (λ r, job_expired now r.2 = true) (map_to_list (db_jobs d))) in
  _ ← modify (set_jobs (foldr (λ r m, <[r.1 := claim_job token lease (db_now d) r.2]> m)
                         (db_jobs d) rows));
  mret (map fst rows).

Definition claim_uploads (now : datetime) (limit : Z) (token : UUID) (lease : datetime) :
    Sql (list (UUID * UploadRow)) :=
  d ← gets (λ d, d);
  let rows := by_expiry ur_expires_at limit
    (filter (λ r, upload_expired d now r.1 r.2 = true) (map_to_list (db_uploads d))) in
  _ ← modify (set_uploads (foldr (λ r m, <[r.1 := claim_upload token lease r.2]> m)
                            (db_uploads d) rows));
  mret rows.

(** The objects of a job: the [UNION] over its pages and artifacts, the keys
    under [jobs/<id>/] only, in order. *)
Definition references (d : Db) (job_id : UUID) : list string :=
  ((map_to_list (db_pages d)) ≫= (λ '((i, _, _), r),
     if decide (i = job_id)
     then pr_source_object_key r :: option_list (pr_result_object_key r) ++
          option_list (pr_visualization_object_key r)
     else [])) ++
  (db_artifacts d ≫= (λ r, if decide (fr_job_id r = job_id) then [fr_object_key r] else [])).

Definition job_object_keys (d : Db) (job_id : UUID) : list string :=
  order_by String.leb (remove_dups (filter (λ key,
    key ≠ "" ∧ startswith ("jobs/" +:+ uuid_str job_id +:+ "/") key = true) (references d job_id))).

(** [DELETE FROM ocr_jobs], with the cascades of its foreign keys *)
Definition delete_job (job_id : UUID) (d : Db) : Db :=
  MkDb (db_api_keys d) (db_uploads d) (delete job_id (db_jobs d))
    (filter (λ kv, kv.1.1 ≠ job_id) (db_attempts d))
    (filter (λ kv, kv.1.1.1 ≠ job_id) (db_pages d))
    (filter (λ r, fr_job_id r ≠ job_id) (db_artifacts d))
    (db_outbox d) (filter (λ kv, kv.1.1 ≠ job_id) (db_events d)) (db_now d)
    ({[job_id]} ∪ db_deleted d).

(** [DELETE FROM outbox_events WHERE aggregate_type='ocr_job' AND aggregate_id=$1] *)
Definition delete_outbox (job_id : UUID) (d : Db) : Db :=
  set_outbox (filter (λ kv, ¬ (or_aggregate_type kv.2 = "ocr_job" ∧ or_aggregate_id kv.2 = job_id))
    (db_outbox d)) d.

Definition job_claimed (c : RetentionCandidate) (d : Db) : bool :=
  match db_jobs d !! cand_aggregate_id c with
  | Some r => bool_decide (jr_retention_claim_token r = Some (cand_claim_token c))
  | None => false
  end.

(** The body of [complete]; its result is [status == "DELETE 1"]. *)
Definition complete_claim (c : RetentionCandidate) : Sql bool :=
  let id := cand_aggregate_id c in
  match cand_aggregate_kind c with
  | AggregateJob =>
      claimed ← gets (job_claimed c);
      if negb claimed then mret false else
      _ ← modify (delete_outbox id);
      status ← gets (job_claimed c);
      _ ← (if status : bool then modify (delete_job id) else mret ());
      mret status
  | AggregateUpload =>
      d ← gets (λ d, d);
      match db_uploads d !! id with
      | Some r =>
          if bool_decide (ur_retention_claim_token r = Some (cand_claim_token c)) &&
             negb (referenced d id)
          then _ ← modify (set_uploads (delete id (db_uploads d))); mret true
          else mret false
      | None => mret false
      end
  end.

(** [UPDATE {table} SET retention_lease_expires_at=$3 WHERE id=$1 AND
    retention_claim_token=$2] *)
Definition update_lease (c : RetentionCandidate) (retry_at : datetime) : Sql () :=
  let id := cand_aggregate_id c in
  let token := cand_claim_token c in
  d ← gets (λ d, d);
  match cand_aggregate_kind c with
  | AggregateJob =>
      match db_jobs d !! id with
      | Some r => if decide (jr_retention_claim_token r = Some token)
                  then modify (set_jobs (<[id := claim_job token retry_at (db_now d) r]> (db_jobs d)))
                  else mret ()
      | None => mret ()
      end
  | AggregateUpload =>
      match db_uploads d !! id with
      | Some r => if decide (ur_retention_claim_token r = Some token)
                  then modify (set_uploads (<[id := claim_upload token retry_at r]> (db_uploads d)))
                  else mret ()
      | None => mret ()
      end
  end.

(** The transaction of [claim_expired].  The token for uploads is drawn before
    it; the code draws it only when it is used. *)
Definition claim_transaction (now : datetime) (limit : Z) (lease_expires_at : datetime)
    (job_claim_token upload_claim_token : UUID) : Sql (list RetentionCandidate) :=
  job_ids ← claim_jobs now limit job_claim_token lease_expires_at;
  d ← gets (λ d, d);
  let jobs := map (λ id, MkRetentionCandidate AggregateJob id job_claim_token
                           (job_object_keys d id) None) job_ids in
  let remaining := limit - Z.of_nat (length job_ids) in
  if decide (0 < remaining) then
    uploads ← claim_uploads now remaining upload_claim_token lease_expires_at;
    mret (jobs ++ map (λ '(id, r), MkRetentionCandidate AggregateUpload id upload_claim_token
      [ur_object_key r]
      (if decide (ur_status r = "pending") then ur_multipart_upload_id r else None)) uploads)
  else mret jobs.

Section methods.
Context {W : Type} `{!Database W, !Runtime W}.

Definition claim_expired (now : datetime) (limit lease_seconds : Z) :
    M exc W (list RetentionCandidate) :=
  if decide (limit < 1) then mret [] else
  let lease_expires_at := now + timedelta_seconds lease_seconds in
  job_claim_token ← uuid7;
  upload_claim_token ← uuid7;
  sql (transaction (claim_transaction now limit lease_expires_at job_claim_token upload_claim_token)).

Definition complete (candidate : RetentionCandidate) : M exc W bool :=
  sql (transaction (complete_claim candidate)).

Definition defer (candidate : RetentionCandidate) (retry_at : datetime) : M exc W () :=
  sql (update_lease candidate retry_at).
End methods.

End AsyncpgRetentionRepository.

Definition pg_retention {W} `{!Database W, !Runtime W} : RetentionRepository W := {|
  retention_claim_expired := AsyncpgRetentionRepository.claim_expired;
  retention_complete := AsyncpgRetentionRepository.complete;
  retention_defer := AsyncpgRetentionRepository.defer
|}.

(** ** What a claim is *)

Section claims.
Import AsyncpgRetentionRepository.

(** The rows a claiming statement rewrites. *)
Lemma set_rows_lookup {A} (f : A → A) (rows : list (UUID * A)) (m : gmap UUID A) i :
  NoDup rows.*1 → (∀ k r, (k, r) ∈ rows → m !! k = Some r) →
  foldr (λ r m, <[r.1 := f r.2]> m) m rows !! i =
  if decide (i ∈ rows.*1) then f <$> m !! i else m !! i.
Proof.
  induction rows as [|[k r] rows IH]; intros Hn Hm; [done|].
  rewrite fmap_cons in *. apply NoDup_cons in Hn as [Hk Hn]. simpl in *.
  destruct (decide (i = k)) as [->|Hne].
  - rewrite lookup_insert_eq, decide_True by (by left). rewrite (Hm k r) by (by left). done.
  - rewrite lookup_insert_ne by done. rewrite IH; [|done | intros; apply Hm; by right].
    destruct (decide (i ∈ rows.*1)); [rewrite decide_True by (by right) | rewrite decide_False]; [done|done|].
    by intros [?|?]%elem_of_cons.
Qed.

Lemma by_expiry_sub {A} (expires : A → datetime) limit (rows : list (UUID * A)) x :
  x ∈ by_expiry expires limit rows → x ∈ rows.
Proof. unfold by_expiry. intros Hx%elem_of_take. destruct Hx as (i & Hx & _).
  apply list_elem_of_lookup_2 in Hx. by rewrite !py_sorted_perm in Hx. Qed.

Lemma by_expiry_NoDup {A} (expires : A → datetime) limit (rows : list (UUID * A)) :
  NoDup rows.*1 → NoDup (by_expiry expires limit rows).*1.
Proof.
  intros Hn. unfold by_expiry. rewrite fmap_take. apply (sublist_NoDup _ (py_sorted (λ r, expires r.2) false
    (py_sorted (λ r, Z.of_N r.1) false rows)).*1); [|apply sublist_take].
  by rewrite !py_sorted_perm.
Qed.

Lemma filter_keys_NoDup {A} (P : UUID * A → Prop) `{∀ x, Decision (P x)} (m : gmap UUID A) :
  NoDup (filter P (map_to_list m)).*1.
Proof.
  apply (sublist_NoDup _ (map_to_list m).*1); [apply (NoDup_fst_map_to_list m)|].
  apply fmap_sublist, sublist_filter.
Qed.

(** One claiming statement: which rows it picks, and what it leaves behind. *)
Lemma claim_rows {A} (P : UUID * A → bool) (expires : A → datetime) (f : A → A)
    (limit : Z) (m : gmap UUID A) (rows : list (UUID * A)) :
  rows = by_expiry expires limit (filter (λ r, P r = true) (map_to_list m)) →
  (length rows ≤ Z.to_nat limit)%nat ∧
  (∀ i r, (i, r) ∈ rows → m !! i = Some r ∧ P (i, r) = true) ∧
  (∀ i, foldr (λ r m, <[r.1 := f r.2]> m) m rows !! i =
        if decide (i ∈ rows.*1) then f <$> m !! i else m !! i) ∧
  (Z.of_nat (length rows) < limit → ∀ i r, m !! i = Some r → P (i, r) = true → i ∈ rows.*1).
Proof.
  intros Hrows.
  assert (∀ i r, (i, r) ∈ rows → m !! i = Some r ∧ P (i, r) = true) as Hin.
  { intros i r Hin. rewrite Hrows in Hin. apply by_expiry_sub, list_elem_of_filter in Hin as [HP Hin].
    by apply elem_of_map_to_list in Hin. }
  split_and!; [|done | |].
  - rewrite Hrows. unfold by_expiry. rewrite length_take. lia.
  - intros i. apply set_rows_lookup; [|by intros k r Hk; apply Hin].
    rewrite Hrows. apply by_expiry_NoDup, filter_keys_NoDup.
  - intros Hlen i r Hr HP. apply list_elem_of_fmap. exists (i, r). split; [done|].
    rewrite Hrows in Hlen |- *. unfold by_expiry in *. rewrite length_take in Hlen.
    rewrite take_ge by lia. rewrite !py_sorted_perm. apply list_elem_of_filter.
    split; [done|]. by apply elem_of_map_to_list.
Qed.

Lemma referenced_spec d u :
  referenced d u = true ↔ ∃ i r, db_jobs d !! i = Some r ∧ jr_upload_id r = u.
Proof.
  unfold referenced. rewrite existsb_exists. split.
  - intros ([i r] & Hin & Hu). apply list_elem_of_In, elem_of_map_to_list in Hin.
    exists i, r. by rewrite bool_decide_eq_true in Hu.
  - intros (i & r & Hr & Hu). exists (i, r). split; [|by apply bool_decide_eq_true].
    by apply list_elem_of_In, elem_of_map_to_list.
Qed.

(** The row a candidate names, whether it may be claimed, and who holds it. *)
Definition about (k : AggregateKind) (id : UUID) (c : RetentionCandidate) : Prop :=
  cand_aggregate_kind c = k ∧ cand_aggregate_id c = id.

Definition eligible (now : datetime) (d : Db) (k : AggregateKind) (id : UUID) : bool :=
  match k with
  | AggregateJob => match db_jobs d !! id with Some r => job_expired now r | None => false end
  | AggregateUpload =>
      match db_uploads d !! id with Some r => upload_expired d now id r | None => false end
  end.

Definition holder (d : Db) (k : AggregateKind) (id : UUID) : option (option UUID * option datetime) :=
  match k with
  | AggregateJob => (λ r, (jr_retention_claim_token r, jr_retention_lease_expires_at r)) <$> db_jobs d !! id
  | AggregateUpload =>
      (λ r, (ur_retention_claim_token r, ur_retention_lease_expires_at r)) <$> db_uploads d !! id
  end.

(** A row held under a lease that has not run out is not claimable. *)
Lemma held_not_eligible now d k id token lease :
  holder d k id = Some (Some token, Some lease) → now < lease → eligible now d k id = false.
Proof.
  intros Hh Hlt. destruct k; simpl in *; destruct (_ !! id) as [r|]; [|done| |done];
    injection Hh as Ht Hl; unfold job_expired, upload_expired, claimable; rewrite Ht, Hl;
    rewrite (proj2 (Z.leb_gt lease now)) by lia; apply andb_false_r.
Qed.

Lemma claim_jobs_spec now limit token lease d :
  ∃ ids d', claim_jobs now limit token lease d = (Ret ids, d') ∧
  (length ids ≤ Z.to_nat limit)%nat ∧
  (∀ id, id ∈ ids → eligible now d AggregateJob id = true) ∧
  (Z.of_nat (length ids) < limit → ∀ id, eligible now d AggregateJob id = true → id ∈ ids) ∧
  (∃ jobs, d' = set_jobs jobs d ∧ ∀ id, jobs !! id =
     if decide (id ∈ ids) then claim_job token lease (db_now d) <$> db_jobs d !! id else db_jobs d !! id).
Proof.
  destruct (claim_rows (λ r, job_expired now r.2) jr_expires_at (claim_job token lease (db_now d)) limit
    (db_jobs d) _ eq_refl) as (Hlen & Hin & Hmap & Hall).
  do 2 eexists. split; [by unfold claim_jobs, mbind, M_bind, gets, modify, mret, M_ret; cbv zeta|].
  rewrite length_map. split_and!; [done | | |].
  - intros id ([i r] & -> & Hr)%list_elem_of_fmap. destruct (Hin _ _ Hr) as [E1 E2].
    simpl. by rewrite E1.
  - intros Hl id He. simpl in He. destruct (db_jobs d !! id) as [r|] eqn:Hr; [|done].
    by apply (Hall Hl id r).
  - eexists. by split.
Qed.

Lemma claim_uploads_spec now limit token lease d :
  ∃ rows d', claim_uploads now limit token lease d = (Ret rows, d') ∧
  (length rows ≤ Z.to_nat limit)%nat ∧
  (∀ id r, (id, r) ∈ rows → eligible now d AggregateUpload id = true) ∧
  (Z.of_nat (length rows) < limit → ∀ id, eligible now d AggregateUpload id = true → id ∈ rows.*1) ∧
  (∃ uploads, d' = set_uploads uploads d ∧ ∀ id, uploads !! id =
     if decide (id ∈ rows.*1) then claim_upload token lease <$> db_uploads d !! id
     else db_uploads d !! id).
Proof.
  destruct (claim_rows (λ r, upload_expired d now r.1 r.2) ur_expires_at (claim_upload token lease) limit
    (db_uploads d) _ eq_refl) as (Hlen & Hin & Hmap & Hall).
  do 2 eexists. split; [by unfold claim_uploads, mbind, M_bind, gets, modify, mret, M_ret; cbv zeta|].
  split_and!; [done | | |].
  - intros id r Hr. destruct (Hin _ _ Hr) as [E1 E2]. simpl. by rewrite E1.
  - intros Hl id He. simpl in He. destruct (db_uploads d !! id) as [r|] eqn:Hr; [|done].
    by apply (Hall Hl id r).
  - eexists. by split.
Qed.

(** Claiming jobs changes neither what refers to an upload nor an upload. *)
Lemma referenced_claimed d jobs (f : JobRow → JobRow) (ids : list UUID) u :
  (∀ r, jr_upload_id (f r) = jr_upload_id r) →
  (∀ id, jobs !! id = if decide (id ∈ ids) then f <$> db_jobs d !! id else db_jobs d !! id) →
  referenced (set_jobs jobs d) u = referenced d u.
Proof.
  intros Hf Hj. apply eq_true_iff_eq. rewrite !referenced_spec. simpl. split.
  - intros (i & r & Hr & Hu). rewrite Hj in Hr. case_decide; [|by eauto].
    apply fmap_Some in Hr as (r0 & Hr & ->). exists i, r0. by rewrite <- Hf.
  - intros (i & r & Hr & Hu). exists i. rewrite Hj, Hr. case_decide; simpl; eexists; split; [done | by rewrite Hf | done..].
Qed.

(** The statements that claim a job, or extend its lease. *)
Definition reclaims (d d' : Db) : Prop :=
  db_deleted d' = db_deleted d ∧
  ∀ i, db_jobs d' !! i = db_jobs d !! i ∨
       ∃ token lease now, db_jobs d' !! i = claim_job token lease now <$> db_jobs d !! i.

Lemma reclaims_trans d d1 d2 : reclaims d d1 → reclaims d1 d2 → reclaims d d2.
Proof.
  intros [E1 R1] [E2 R2]. split; [congruence|]. intros i.
  destruct (R2 i) as [-> | (t & l & n & ->)]; [apply R1|]. right. exists t, l, n.
  destruct (R1 i) as [-> | (t' & l' & n' & ->)]; [done|]. by destruct (db_jobs d !! i).
Qed.

Lemma reclaims_ok (retired_ids : gset UUID) d d' :
  reclaims d d' → pg_inv retired_ids d → pg_inv retired_ids d' ∧ evolves pview d d'.
Proof.
  intros [Hd Hj] [H1 H2]. split.
  - split; rewrite Hd; [done|]. intros i Hi.
    destruct (Hj i) as [-> | (t & l & n & ->)]; by rewrite H2.
  - intros i. unfold pview. rewrite Hd. case_decide; [apply rtc_refl|].
    destruct (Hj i) as [-> | (t & l & n & ->)]; [apply rtc_refl|].
    destruct (db_jobs d !! i) as [r|]; [|apply rtc_refl]. simpl.
    destruct (jr_retention_claim_token r); [apply rtc_refl | apply rtc_once; constructor].
Qed.

(** One kind of row: the candidates [cs] of a claiming statement. *)
Record phase (k : AggregateKind) (now : datetime) (limit : Z) (lease : datetime) (d : Db)
    (cs : list RetentionCandidate) (d' : Db) : Prop := {
  phase_length : (length cs ≤ Z.to_nat limit)%nat;
  phase_eligible c : c ∈ cs → cand_aggregate_kind c = k ∧ eligible now d k (cand_aggregate_id c) = true;
  phase_held c : c ∈ cs → holder d' k (cand_aggregate_id c) = Some (Some (cand_claim_token c), Some lease);
  phase_others k' id : Forall (λ c, ¬ about k' id c) cs → holder d' k' id = holder d k' id;
  phase_all : Z.of_nat (length cs) < limit → ∀ id, eligible now d k id = true → Exists (about k id) cs;
  phase_rows : reclaims d d'
}.

Definition job_candidate (token : UUID) (d : Db) (id : UUID) : RetentionCandidate :=
  MkRetentionCandidate AggregateJob id token (job_object_keys d id) None.

Definition upload_candidate (token : UUID) (x : UUID * UploadRow) : RetentionCandidate :=
  MkRetentionCandidate AggregateUpload x.1 token [ur_object_key x.2]
    (if decide (ur_status x.2 = "pending") then ur_multipart_upload_id x.2 else None).

Lemma Exists_map_about {A} (g : A → RetentionCandidate) (l : list A) k id :
  (∃ x, x ∈ l ∧ about k id (g x)) → Exists (about k id) (map g l).
Proof.
  intros (x & Hx & Ha). apply Exists_exists. exists (g x). split; [|done].
  apply list_elem_of_fmap. by exists x.
Qed.

Lemma not_about_map {A} (g : A → RetentionCandidate) (l : list A) k id x :
  Forall (λ c, ¬ about k id c) (map g l) → x ∈ l → ¬ about k id (g x).
Proof. rewrite Forall_forall. intros Hall Hx. apply Hall, list_elem_of_fmap. by exists x. Qed.

Lemma jobs_phase now limit token lease d :
  ∃ ids jobs, claim_jobs now limit token lease d = (Ret ids, set_jobs jobs d) ∧
  phase AggregateJob now limit lease d (map (job_candidate token d) ids) (set_jobs jobs d) ∧
  (∀ id, eligible now (set_jobs jobs d) AggregateUpload id = eligible now d AggregateUpload id).
Proof.
  destruct (claim_jobs_spec now limit token lease d) as (ids & d1 & E1 & Hl & He & Hc & jobs & -> & Hj).
  exists ids, jobs. split; [done|]. split; [split|].
  - by rewrite length_map.
  - intros c (id & -> & Hid)%list_elem_of_fmap. by auto.
  - intros c (id & -> & Hid)%list_elem_of_fmap. specialize (He _ Hid). simpl in *.
    rewrite Hj, decide_True by done. by destruct (db_jobs d !! id).
  - intros [] id Hno; [|done]. simpl. rewrite Hj. case_decide as Hid; [|done].
    exfalso. by apply (not_about_map _ _ _ _ _ Hno Hid).
  - rewrite length_map. intros Hlt id Hel. apply Exists_map_about. exists id. split; [by apply Hc | done].
  - split; [done|]. intros i. simpl. rewrite Hj. case_decide; [right; by eauto | by left].
  - intros id. simpl. unfold upload_expired.
    by rewrite (referenced_claimed d jobs (claim_job token lease (db_now d)) ids).
Qed.

Lemma uploads_phase now limit token lease d :
  ∃ rows d', claim_uploads now limit token lease d = (Ret rows, d') ∧
  phase AggregateUpload now limit lease d (map (upload_candidate token) rows) d'.
Proof.
  destruct (claim_uploads_spec now limit token lease d) as (rows & d1 & E1 & Hl & He & Hc & us & -> & Hu).
  assert (∀ x, x ∈ rows → x.1 ∈ rows.*1) as Hfst by (intros x Hx; apply list_elem_of_fmap; by exists x).
  exists rows, (set_uploads us d). split; [done|]. split.
  - by rewrite length_map.
  - intros c (x & -> & Hx)%list_elem_of_fmap. destruct x as [id r]. split; [done|]. by apply (He id r).
  - intros c (x & -> & Hx)%list_elem_of_fmap. destruct x as [id r]. specialize (He _ _ Hx).
    simpl in *. rewrite Hu, decide_True by (by apply (Hfst _ Hx)). by destruct (db_uploads d !! id).
  - intros [] id Hno; [done|]. simpl. rewrite Hu. case_decide as Hid; [|done].
    exfalso. apply list_elem_of_fmap in Hid as (x & -> & Hx). by apply (not_about_map _ _ _ _ _ Hno Hx).
  - rewrite length_map. intros Hlt id Hel. apply Exists_map_about.
    specialize (Hc Hlt id Hel). apply list_elem_of_fmap in Hc as (x & -> & Hx). by exists x.
  - split; [done|]. intros i. by left.
Qed.

(** The whole transaction: the claimed jobs, then the claimed uploads. *)
Lemma claim_transaction_spec now limit lease token utoken d :
  ∃ cs d', claim_transaction now limit lease token utoken d = (Ret cs, d') ∧
  (length cs ≤ Z.to_nat limit)%nat ∧
  (∀ c, c ∈ cs → eligible now d (cand_aggregate_kind c) (cand_aggregate_id c) = true ∧
     holder d' (cand_aggregate_kind c) (cand_aggregate_id c) = Some (Some (cand_claim_token c), Some lease)) ∧
  (∀ k id, Forall (λ c, ¬ about k id c) cs → holder d' k id = holder d k id) ∧
  (Z.of_nat (length cs) < limit → ∀ k id, eligible now d k id = true → Exists (about k id) cs) ∧
  reclaims d d'.
Proof.
  destruct (jobs_phase now limit token lease d) as (ids & jobs & E1 & P1 & Hup).
  unfold claim_transaction. rewrite (bind_run _ _ _ _ _ E1). erewrite bind_run by done. cbv beta zeta.
  change (map (λ id, MkRetentionCandidate AggregateJob id token (job_object_keys (set_jobs jobs d) id) None) ids)
    with (map (job_candidate token d) ids).
  rewrite <- (length_map (job_candidate token d) ids). set (js := map (job_candidate token d) ids) in *.
  destruct P1 as [L1 I1 H1 O1 A1 R1]. case_decide as Hrem.
  2:{ exists js, (set_jobs jobs d). split; [done|]. split_and!; [done | | done | | done].
      - intros c Hc. destruct (I1 c Hc) as [-> ?]. by auto.
      - intros Hlt. lia. }
  destruct (uploads_phase now (limit - Z.of_nat (length js)) utoken lease (set_jobs jobs d))
    as (rows & d2 & E2 & [L2 I2 H2 O2 A2 R2]).
  rewrite (bind_run _ _ _ _ _ E2).
  assert (map (λ '(id, r), MkRetentionCandidate AggregateUpload id utoken [ur_object_key r]
      (if decide (ur_status r = "pending") then ur_multipart_upload_id r else None)) rows =
    map (upload_candidate utoken) rows) as -> by (apply map_ext; by intros []).
  set (us := map (upload_candidate utoken) rows) in *.
  assert (Forall (λ c, cand_aggregate_kind c = AggregateUpload) us) as Hus
    by (apply Forall_forall; intros c Hc; apply (I2 c Hc)).
  assert (∀ id, holder d2 AggregateJob id = holder (set_jobs jobs d) AggregateJob id) as Hkeep.
  { intros id. apply O2. eapply Forall_impl; [exact Hus|]. intros c Hc [? _]. congruence. }
  exists (js ++ us), d2. split; [done|]. rewrite length_app. split_and!; [lia | | | |].
  - intros c [Hc|Hc]%elem_of_app.
    + destruct (I1 c Hc) as [-> ?]. rewrite Hkeep. by auto.
    + destruct (I2 c Hc) as [-> ?]. rewrite <- Hup. by auto.
  - intros k id [Hn1 Hn2]%Forall_app. by rewrite O2, O1.
  - intros Hlt [] id Hel; apply Exists_app; [left; apply A1 | right; apply A2]; [lia | done | lia | by rewrite Hup].
  - by apply (reclaims_trans _ (set_jobs jobs d)).
Qed.

(** What may be deleted at [now]: a job that has ended and whose time is over,
    an upload whose time is over and no job refers to; not held, or held under a
    lease that has run out. *)
Definition free (now : datetime) (token : option UUID) (lease : option datetime) : Prop :=
  token = None ∨ ∃ l, lease = Some l ∧ l ≤ now.

Definition deletable (now : datetime) (d : Db) (k : AggregateKind) (id : UUID) : Prop :=
  match k with
  | AggregateJob => ∃ r s, db_jobs d !! id = Some r ∧ jr_status r = job_state_str s ∧
      (s = SUCCEEDED ∨ s = FAILED ∨ s = CANCELLED) ∧ jr_expires_at r ≤ now ∧
      free now (jr_retention_claim_token r) (jr_retention_lease_expires_at r)
  | AggregateUpload => ∃ r, db_uploads d !! id = Some r ∧ ur_expires_at r ≤ now ∧
      (∀ i j, db_jobs d !! i = Some j → jr_upload_id j ≠ id) ∧
      free now (ur_retention_claim_token r) (ur_retention_lease_expires_at r)
  end.

Lemma claimable_free now token lease : claimable now token lease = true ↔ free now token lease.
Proof.
  unfold claimable, free. destruct token as [t|]; [|naive_solver].
  destruct lease as [l|]; [rewrite Z.leb_le|]; naive_solver.
Qed.

Lemma ended_status s :
  s ∈ ["succeeded"; "failed"; "cancelled"] ↔
  ∃ st, s = job_state_str st ∧ (st = SUCCEEDED ∨ st = FAILED ∨ st = CANCELLED).
Proof.
  split.
  - intros [->|[->|[->|[]%not_elem_of_nil]%elem_of_cons]%elem_of_cons]%elem_of_cons;
      [exists SUCCEEDED | exists FAILED | exists CANCELLED]; auto.
  - intros (st & -> & [->|[->| ->]]); simpl; set_solver.
Qed.

Lemma eligible_deletable now d k id : eligible now d k id = true ↔ deletable now d k id.
Proof.
  assert (∀ u, referenced d u = false ↔ ∀ i j, db_jobs d !! i = Some j → jr_upload_id j ≠ u) as Href.
  { intros u. rewrite <- not_true_iff_false, referenced_spec. split.
    - intros Hn i j Hj Hu. apply Hn. by exists i, j.
    - intros Hn (i & j & Hj & Hu). by apply (Hn i j). }
  destruct k; simpl.
  - destruct (db_jobs d !! id) as [r|]; [|split; [done | by intros (? & ? & ? & _)]]. unfold job_expired.
    rewrite !andb_true_iff, bool_decide_eq_true, Z.leb_le, claimable_free, ended_status. split.
    + intros [[(st & ? & ?) ?] ?]. exists r, st. by split_and!.
    + intros (? & st & [= <-] & ? & ? & ? & ?). split_and!; [by exists st | done | done].
  - destruct (db_uploads d !! id) as [r|]; [|split; [done | by intros (? & ? & _)]]. unfold upload_expired.
    rewrite !andb_true_iff, negb_true_iff, Z.leb_le, claimable_free, Href. split.
    + intros [[? ?] ?]. exists r. by split_and!.
    + intros (? & [= <-] & ? & ? & ?). by split_and!.
Qed.

(** [claim_expired] is its transaction, on the tables it finds. *)
Lemma claim_expired_run now limit lease_seconds (w : PgWorld) :
  1 ≤ limit →
  claim_expired now limit lease_seconds w =
  let r := claim_transaction now limit (now + timedelta_seconds lease_seconds)
             (pg_ids w 0%nat) (pg_ids w 1%nat) (found w) in
  (match r.1 with Ret cs => Ret cs | Exn e => Exn e | NoFuel => NoFuel end,
   MkPgWorld (match r.1 with Exn _ => found w | _ => r.2 end) (tail (pg_schedule w)) (pg_clock w)
     (λ n, pg_ids w (S (S n)))).
Proof.
  intros Hl. unfold claim_expired. rewrite decide_False by lia.
  destruct w as [d sched c ids]. unfold mbind, M_bind, uuid7, pg_runtime, sql, pg_database, found. simpl.
  destruct sched as [|f rest]; simpl; unfold transaction;
    by destruct (claim_transaction _ _ _ _ _ _) as [[cs|e|] d'].
Qed.

(** C25: a cleanup claim ([claim_expired]) picks at most [limit] rows, only ended
    and expired jobs and expired uploads no job refers to, none of them held
    under a running lease; afterwards exactly these rows are held with the
    claim's tokens until [now] and the lease's seconds, and the others keep their
    holder.  If it picks fewer than [limit], no row that may be deleted is left
    out.  As long as a picked row keeps its holder, no claim before the end of
    the lease picks it again. *)
Theorem claims_exclusive now limit lease_seconds (w : PgWorld) :
  1 ≤ limit →
  let lease := now + 1000000 * lease_seconds in
  ∃ cs w', claim_expired now limit lease_seconds w = (Ret cs, w') ∧
  (length cs ≤ Z.to_nat limit)%nat ∧
  (∀ c, c ∈ cs → deletable now (found w) (cand_aggregate_kind c) (cand_aggregate_id c) ∧
     holder (pg_db w') (cand_aggregate_kind c) (cand_aggregate_id c) =
       Some (Some (cand_claim_token c), Some lease)) ∧
  (∀ k id, Forall (λ c, ¬ about k id c) cs → holder (pg_db w') k id = holder (found w) k id) ∧
  (Z.of_nat (length cs) < limit → ∀ k id, deletable now (found w) k id → Exists (about k id) cs) ∧
  (∀ c now' limit' lease' w2 cs' w2', c ∈ cs → now' < lease → 1 ≤ limit' →
     holder (found w2) (cand_aggregate_kind c) (cand_aggregate_id c) =
       holder (pg_db w') (cand_aggregate_kind c) (cand_aggregate_id c) →
     claim_expired now' limit' lease' w2 = (Ret cs', w2') →
     Forall (λ c', ¬ about (cand_aggregate_kind c) (cand_aggregate_id c) c') cs').
Proof.
  intros Hl lease. rewrite claim_expired_run by done.
  assert (now + timedelta_seconds lease_seconds = lease) as -> by (unfold timedelta_seconds, lease; lia).
  destruct (claim_transaction_spec now limit lease (pg_ids w 0%nat) (pg_ids w 1%nat) (found w))
    as (cs & d' & -> & Hlen & Hin & Hout & Hall & _).
  do 2 eexists. split; [reflexivity|]. cbn [fst snd pg_db].
  split_and!; [done | | done | |].
  - intros c Hc. rewrite <- eligible_deletable. by apply Hin.
  - intros Hlt k id. rewrite <- eligible_deletable. by apply Hall.
  - intros c now' limit' lease' w2 cs' w2' Hc Hlt Hl' Hsame. rewrite claim_expired_run by done.
    destruct (claim_transaction_spec now' limit' (now' + timedelta_seconds lease') (pg_ids w2 0%nat)
      (pg_ids w2 1%nat) (found w2)) as (cs2 & d2 & -> & _ & Hin2 & _). intros [= <- _].
    apply Forall_forall. intros c' Hc' [Hk Hi]. destruct (Hin2 c' Hc') as [He _]. rewrite Hk, Hi in He.
    rewrite (proj2 (Hin c Hc)) in Hsame. by rewrite (held_not_eligible _ _ _ _ _ _ Hsame Hlt) in He.
Qed.

(** *** Completing and deferring *)

Lemma update_lease_reclaims c retry_at d : reclaims d (update_lease c retry_at d).2.
Proof.
  unfold update_lease. unfold mbind, M_bind, gets. destruct (cand_aggregate_kind c).
  - destruct (db_jobs d !! cand_aggregate_id c) as [r|] eqn:Hr; [case_decide as Ht|];
      (split; [done|]); intros i; [|by left..]. simpl.
    destruct (decide (cand_aggregate_id c = i)) as [<-|Hne];
      [right; exists (cand_claim_token c), retry_at, (db_now d); by rewrite lookup_insert_eq, Hr
      | left; by rewrite lookup_insert_ne].
  - destruct (db_uploads d !! _); [case_decide|]; (split; [done|]); intros i; by left.
Qed.

(** The database without a job or upload. *)
Definition removed (k : AggregateKind) (id : UUID) (d : Db) : Db :=
  match k with
  | AggregateJob => delete_job id (delete_outbox id d)
  | AggregateUpload => set_uploads (delete id (db_uploads d)) d
  end.

(** [complete] deletes when the row is held with the candidate's token (an
    upload: and no job refers to it), and otherwise changes nothing. *)
Definition completes (c : RetentionCandidate) (d : Db) : bool :=
  match holder d (cand_aggregate_kind c) (cand_aggregate_id c) with
  | Some (Some token, _) => bool_decide (token = cand_claim_token c) &&
      match cand_aggregate_kind c with
      | AggregateJob => true
      | AggregateUpload => negb (referenced d (cand_aggregate_id c))
      end
  | _ => false
  end.

Lemma complete_claim_spec c d :
  complete_claim c d =
  (Ret (completes c d), if completes c d then removed (cand_aggregate_kind c) (cand_aggregate_id c) d else d).
Proof.
  unfold complete_claim, completes, removed. destruct (cand_aggregate_kind c).
  - unfold mbind, M_bind, gets, job_claimed. simpl.
    destruct (db_jobs d !! cand_aggregate_id c) as [r|] eqn:Hr; [|done]. simpl.
    destruct (jr_retention_claim_token r) as [t|] eqn:Ht; simpl; [|done].
    rewrite andb_true_r. rewrite (bool_decide_ext (Some t = Some _) (t = cand_claim_token c)) by naive_solver.
    case_bool_decide; simpl; [|done]. rewrite Hr, Ht. subst t. by rewrite bool_decide_true.
  - unfold mbind, M_bind, gets. simpl.
    destruct (db_uploads d !! cand_aggregate_id c) as [r|]; [|done]. simpl.
    destruct (ur_retention_claim_token r) as [t|]; simpl; [|done].
    rewrite (bool_decide_ext (Some t = Some _) (t = cand_claim_token c)) by naive_solver.
    by destruct (_ && _).
Qed.

(** A completed job is gone with everything that refers to it; what belongs to
    other jobs stays. *)
Lemma removed_job id d :
  let d' := removed AggregateJob id d in
  (∀ i, db_jobs d' !! i = if decide (i = id) then None else db_jobs d !! i) ∧
  (∀ k, db_pages d' !! k = if decide (k.1.1 = id) then None else db_pages d !! k) ∧
  (∀ k, db_attempts d' !! k = if decide (k.1 = id) then None else db_attempts d !! k) ∧
  (∀ k, db_events d' !! k = if decide (k.1 = id) then None else db_events d !! k) ∧
  (∀ r, r ∈ db_artifacts d' ↔ r ∈ db_artifacts d ∧ fr_job_id r ≠ id) ∧
  (∀ k r, db_outbox d' !! k = Some r ↔ db_outbox d !! k = Some r ∧
     ¬ (or_aggregate_type r = "ocr_job" ∧ or_aggregate_id r = id)).
Proof.
  simpl. split_and!.
  - intros i. case_decide as Hi; [subst; apply lookup_delete_eq | by apply lookup_delete_ne].
  - intros k. rewrite map_lookup_filter. destruct (db_pages d !! k); simpl; [|by case_decide].
    case_guard; simpl; case_decide; naive_solver.
  - intros k. rewrite map_lookup_filter. destruct (db_attempts d !! k); simpl; [|by case_decide].
    case_guard; simpl; case_decide; naive_solver.
  - intros k. rewrite map_lookup_filter. destruct (db_events d !! k); simpl; [|by case_decide].
    case_guard; simpl; case_decide; naive_solver.
  - intros r. rewrite list_elem_of_filter. naive_solver.
  - intros k r. by rewrite map_lookup_filter_Some.
Qed.

Lemma removed_ok (retired_ids : gset UUID) c d :
  (cand_aggregate_kind c = AggregateJob → cand_aggregate_id c ∈ retired_ids) →
  completes c d = true → pg_inv retired_ids d →
  pg_inv retired_ids (removed (cand_aggregate_kind c) (cand_aggregate_id c) d) ∧
  evolves pview d (removed (cand_aggregate_kind c) (cand_aggregate_id c) d).
Proof.
  intros Hret Hc Hd. unfold completes in Hc. destruct (cand_aggregate_kind c).
  2:{ apply spares_ok; [by split | done]. }
  simpl in Hc. destruct (db_jobs d !! cand_aggregate_id c) as [r|] eqn:Hr; [|done]. simpl in Hc.
  destruct (jr_retention_claim_token r) as [t|] eqn:Ht; [|done]. destruct Hd as [H1 H2]. split.
  - split; simpl; [set_solver|]. intros i [Hi%elem_of_singleton|Hi]%elem_of_union.
    + subst i. apply lookup_delete_eq.
    + destruct (decide (i = cand_aggregate_id c)) as [->|Hne]; [apply lookup_delete_eq|].
      rewrite lookup_delete_ne by done. by apply H2.
  - intros i. unfold pview. simpl. destruct (decide (i = cand_aggregate_id c)) as [->|Hne].
    + rewrite (decide_True (P := cand_aggregate_id c ∈ {[cand_aggregate_id c]} ∪ db_deleted d)) by set_solver.
      rewrite Hr, Ht. destruct (decide (cand_aggregate_id c ∈ db_deleted d)); apply rtc_refl.
    + rewrite lookup_delete_ne by done.
      rewrite (decide_ext (i ∈ {[cand_aggregate_id c]} ∪ db_deleted d) (i ∈ db_deleted d)) by set_solver.
      apply rtc_refl.
Qed.

(** C26: the cleanup is one of the other connections [pg_refines_store] allows:
    claims and extensions of a lease retire the claimed jobs and leave the rest
    alone, and [complete] deletes only rows the candidate's token holds (an
    upload only when no job refers to it), after which the job's slot stays
    retired for good; otherwise it reports failure and changes nothing. *)
Theorem cleanup_allowed (retired_ids : gset UUID) :
  (∀ now limit lease token utoken,
     connection_ok retired_ids (λ d, (claim_transaction now limit lease token utoken d).2)) ∧
  (∀ c retry_at, connection_ok retired_ids (λ d, (update_lease c retry_at d).2)) ∧
  (∀ c, (cand_aggregate_kind c = AggregateJob → cand_aggregate_id c ∈ retired_ids) →
     connection_ok retired_ids (λ d, (complete_claim c d).2)) ∧
  (∀ c d, complete_claim c d = (Ret (completes c d),
     if completes c d then removed (cand_aggregate_kind c) (cand_aggregate_id c) d else d)).
Proof.
  split_and!; [ | | |apply complete_claim_spec].
  - intros now limit lease token utoken d Hd.
    destruct (claim_transaction_spec now limit lease token utoken d) as (cs & d' & -> & _ & _ & _ & _ & Hr).
    by apply reclaims_ok.
  - intros c retry_at d Hd. apply reclaims_ok; [apply update_lease_reclaims | done].
  - intros c Hret d Hd. rewrite complete_claim_spec. cbn [snd].
    destruct (completes c d) eqn:Hc; [by apply removed_ok | by apply spares_ok; [split|]].
Qed.
End claims.

(** ** A concrete cleanup *)

Module SampleRetention.
Import AsyncpgRetentionRepository.

Definition row (status : string) (expires : datetime) : JobRow :=
  MkJobRow 3 2 "req" None status 1 4 (Some 1) 1 10000 (JObj []) None (Some 8) expires None None 0 None 7 8.

Definition db : Db := set_pages {[ (5%N, 1, 1) := MkPageRow "succeeded" 0
    ("jobs/" +:+ uuid_str 5 +:+ "/p1") (Some ("jobs/" +:+ uuid_str 5 +:+ "/p1.json")) (Some "elsewhere/x")
    None 0 None ]}
  (set_jobs {[ 5%N := row "succeeded" 20; 6%N := row "running" 20; 7%N := row "failed" 40 ]} SamplePg.db).

Definition first : Datatypes.list RetentionCandidate * Db :=
  match claim_transaction 30 10 60 70 71 db with (Ret cs, d) => (cs, d) | (_, d) => ([], d) end.

(** The expired job is claimed with the keys under its own prefix; the running
    one, the one that has time left and their upload are not.  While the lease
    runs nothing is left to claim; then the job is claimed again. *)
Example claim_sample :
  map cand_aggregate_id first.1 = [5%N] ∧
  map cand_object_keys first.1 =
    [[("jobs/" +:+ uuid_str 5 +:+ "/p1"); ("jobs/" +:+ uuid_str 5 +:+ "/p1.json")]] ∧
  (claim_transaction 35 10 90 72 73 first.2).1 = Ret [] ∧
  (map cand_aggregate_id <$> match (claim_transaction 60 10 90 72 73 first.2).1 with
                             | Ret cs => Some cs | _ => None end) = Some [5%N; 7%N].
Proof. split_and!; vm_compute; reflexivity. Qed.

(** The claim's token deletes the job; another token does not. *)
Example complete_sample :
  completes (MkRetentionCandidate AggregateJob 5 70 [] None) first.2 = true ∧
  completes (MkRetentionCandidate AggregateJob 5 72 [] None) first.2 = false ∧
  bool_decide (db_jobs (removed AggregateJob 5 first.2) !! 5%N = None) = true.
Proof. split_and!; vm_compute; reflexivity. Qed.
End SampleRetention.

Lemma claims_exclusive_witness :
  ∃ cs w', AsyncpgRetentionRepository.claim_expired 30 10 30 (MkPgWorld SampleRetention.db [] 50 N.of_nat) =
    (Ret cs, w') ∧ (length cs ≤ 10)%nat.
Proof.
  destruct (claims_exclusive 30 10 30 (MkPgWorld SampleRetention.db [] 50 N.of_nat))
    as (cs & w' & E & Hlen & _); [lia|].
  exists cs, w'. split; [exact E | exact Hlen].
Defined.
