(* ===== verification/ApiKeys.v ===== *)
(** * API keys

    Models [infrastructure/api_keys.py] (hashing, verification, the two
    authenticators) and [interfaces/cli/api_keys.py] (issue, list and revoke),
    over the [api_keys] table of [Schema].  [os.urandom] and the server's default
    for the primary key are parameters; [argparse] is the standard library's, and
    [run] starts from its namespace.

    - [key_lifecycle]: what is accepted, and by whom an issued key is accepted
      until it is revoked. *)

From Stdlib Require Import Ascii.
From S2P Require Import Prelude PyData PyText Json PyValue Status Domain Ports Sha256 Engine.
From S2P Require Import Config Schema.

#[local] Open Scope Z_scope.

(** ** Hashing *)

Definition PBKDF2_ITERATIONS : N := 600000.

Definition hash_api_key (plaintext salt pepper : string) : exc + string :=
  if negb (truthy pepper) then inl (mk_exc ValueError "API key pepper must not be empty")
  else inr (pbkdf2_hmac (plaintext +:+ pepper) salt PBKDF2_ITERATIONS).

Definition verify_api_key (plaintext salt pepper digest : string) : exc + bool :=
  h ← hash_api_key plaintext salt pepper;
  mret (bool_decide (h = digest)).

Definition key_prefix (plaintext : string) : option string :=
  match split_n "_"%char 2 plaintext with
  | [a; b; c] =>
      if negb (bool_decide (a = "mocr")) || negb (truthy b) || negb (truthy c) then None
      else Some ("mocr_" +:+ b)
  | _ => None
  end.

(** ** Authentication *)

Class APIKeyAuthenticator (W : Type) := authenticate : string → M exc W string.

Definition unauthorized : exc :=
  business_error USER_UNAUTHORIZED "API Key 无效或缺失" "user_unauthorized" None.
Definition api_key_revoked : exc :=
  business_error API_KEY_REVOKED "API Key 已被吊销" "api_key_revoked" None.

(** [SELECT id,status,key_hash,salt FROM api_keys WHERE key_prefix=$1] *)
Definition select_key (prefix : string) : Sql (option (UUID * ApiKeyRow)) :=
  gets (λ d, head (filter (λ x, ak_key_prefix x.2 = prefix) (map_to_list (db_api_keys d)))).

Definition touched (now : datetime) (r : ApiKeyRow) : ApiKeyRow :=
  MkApiKeyRow (ak_name r) (ak_key_prefix r) (ak_key_hash r) (ak_salt r) (ak_status r) (Some now)
    (ak_revoked_at r) (ak_created_at r).

(** [UPDATE api_keys SET last_used_at=now(), updated_at=now() WHERE id=$1] *)
Definition touch_key (id : UUID) : Sql () :=
  modify (λ d, set_api_keys (alter (touched (db_now d)) id (db_api_keys d)) d).

Section postgres.
Context {W : Type} `{!Database W} (pepper : string).

Definition postgres_authenticate (plaintext : string) : M exc W string :=
  match key_prefix plaintext with
  | None => raise unauthorized
  | Some prefix =>
      try_except (
        row ← sql (select_key prefix);
        match row with
        | None => raise unauthorized
        | Some (id, row) =>
            if bool_decide (ak_status row = "revoked") then raise api_key_revoked else
            verified ← lift (verify_api_key plaintext (ak_salt row) pepper (ak_key_hash row));
            if negb verified then raise unauthorized else
            _ ← sql (touch_key id);
            mret (uuid_str id)
        end)
      (λ e, if isinstance_any e [BusinessError; DependencyError] then None
            else if isinstance e Exception_
            then Some (raise (mk_exc DatabaseUnavailableError "API key database operation failed"))
            else None)
  end.
End postgres.

Definition PostgresAPIKeyAuthenticator {W} `{!Database W} (pepper : string) : APIKeyAuthenticator W :=
  postgres_authenticate pepper.

Definition DevelopmentAPIKeyAuthenticator {W} (owner_id : string) : APIKeyAuthenticator W :=
  λ _, mret owner_id.

(** ** The command line *)

(** [os.urandom(n)] *)
Class Entropy (W : Type) := urandom : nat → M exc W string.

(** [secrets.token_urlsafe(n)]: unpadded base64 in the URL-safe alphabet *)
Definition urlsafe (c : ascii) : ascii :=
  if decide (c = "+"%char) then "-"%char else if decide (c = "/"%char) then "_"%char else c.

Definition token_of (bytes : string) : string :=
  of_chars (filter (λ c, c ≠ "="%char) (map urlsafe (b64_encode_chars (chars bytes)))).

Record GeneratedAPIKey := MkGeneratedAPIKey {
  gen_plaintext : string;
  gen_prefix : string;
  gen_salt : string;
  gen_digest : string
}.

(** [.replace("-", "A").replace("_", "B")] *)
Definition plain_char (c : ascii) : ascii :=
  if decide (c = "-"%char) then "A"%char else if decide (c = "_"%char) then "B"%char else c.

Definition prefix_of (token : string) : string :=
  of_chars (take 12 (map plain_char (chars token))).

(** The columns of [list_keys] and the server's default for [id], [uuidv7()]. *)
Class ServerDefaults := uuidv7 : Db → UUID.

(** The primary key and [uq_api_keys_prefix] *)
Definition unique_key (id : UUID) (prefix : string) (d : Db) : exc + () := satisfy
  [(bool_decide (db_api_keys d !! id = None), unique_violation "api_keys_pkey");
   (forallb (λ x, negb (bool_decide (ak_key_prefix x.2 = prefix))) (map_to_list (db_api_keys d)),
    unique_violation "uq_api_keys_prefix")].

(** [INSERT INTO api_keys ... RETURNING id] *)
Definition insert_key `{!ServerDefaults} (name : string) (g : GeneratedAPIKey) : Sql UUID :=
  d ← gets (λ d, d);
  let id := uuidv7 d in
  let row := MkApiKeyRow name (gen_prefix g) (gen_digest g) (gen_salt g) "active" None None (db_now d) in
  _ ← lift (check_api_key row);
  _ ← lift (unique_key id (gen_prefix g) d);
  _ ← modify (set_api_keys (<[id := row]> (db_api_keys d)));
  mret id.

Definition revoked_row (now : datetime) (r : ApiKeyRow) : ApiKeyRow :=
  MkApiKeyRow (ak_name r) (ak_key_prefix r) (ak_key_hash r) (ak_salt r) "revoked" (ak_last_used_at r)
    (Some now) (ak_created_at r).

(** [WHERE id::text = $1 OR key_prefix = $1] *)
Definition names_key (identifier : string) (id : UUID) (r : ApiKeyRow) : bool :=
  bool_decide (uuid_str id = identifier) || bool_decide (ak_key_prefix r = identifier).

(** The [UPDATE] of [revoke_key]; its result is the command tag. *)
Definition update_revoked (identifier : string) : Sql string :=
  d ← gets (λ d, d);
  _ ← modify (set_api_keys (map_imap (λ id r,
        Some (if names_key identifier id r then revoked_row (db_now d) r else r)) (db_api_keys d)));
  mret ("UPDATE " +:+ str_Z (Z.of_nat (length
    (filter (λ x, names_key identifier x.1 x.2 = true) (map_to_list (db_api_keys d)))))).

(** [str(value or "-")] of a text and of an optional time *)
Definition cell (value : string) : string := if truthy value then value else "-".
Definition str_datetime (t : datetime) : string :=
  of_chars (map (λ c, if decide (c = "T"%char) then " "%char else c) (chars (isoformat t))).
Definition time_cell (value : option datetime) : string :=
  match value with Some t => str_datetime t | None => "-" end.

Definition tab : string := of_chars [ascii_of_N 9].
Definition newline : string := of_chars [ascii_of_N 10].

Definition key_line (x : UUID * ApiKeyRow) : string :=
  join tab [cell (uuid_str x.1); cell (ak_status x.2); cell (ak_key_prefix x.2); cell (ak_name x.2);
            time_cell (Some (ak_created_at x.2)); time_cell (ak_last_used_at x.2)].

Section cli.
Context {W : Type} `{!Database W, !Entropy W, !ServerDefaults}.

Definition generate_api_key (pepper : string) : M exc W GeneratedAPIKey :=
  first ← urandom 9;
  let prefix := prefix_of (token_of first) in
  secret ← urandom 32;
  let plaintext := "mocr_" +:+ prefix +:+ "_" +:+ token_of secret in
  salt ← urandom 16;
  digest ← lift (hash_api_key plaintext salt pepper);
  mret (MkGeneratedAPIKey plaintext ("mocr_" +:+ prefix) salt digest).

Definition create_key (name pepper : string) : M exc W string :=
  generated ← generate_api_key pepper;
  key_id ← sql (insert_key name generated);
  mret ("API key created: " +:+ uuid_str key_id +:+ newline +:+
        "Copy this value now; it cannot be recovered later:" +:+ newline +:+
        gen_plaintext generated).

Definition list_keys : M exc W string :=
  rows ← sql (gets (λ d, py_sorted (λ x, ak_created_at x.2) true (map_to_list (db_api_keys d))));
  if bool_decide (length rows = 0%nat) then mret "No API keys found." else
  mret (join newline (join tab ["id"; "status"; "prefix"; "name"; "created_at"; "last_used_at"] ::
                      map key_line rows)).

Definition revoke_key (identifier : string) : M exc W string :=
  result ← sql (update_revoked identifier);
  if endswith " 0" result then raise (mk_exc ValueError "API key was not found")
  else mret ("API key revoked: " +:+ identifier).

(** [asyncpg.connect(url)] and [connection.close()] *)
Context (connect : string → M exc W ()) (close : M exc W ()).

(** [argparse.Namespace]: the command, and the arguments of [create] and [revoke] *)
Record Namespace := MkNamespace { args_command : string; args_name : string; args_identifier : string }.

Definition run (environ : string → option string) (args : Namespace) : M exc W string :=
  let database_url := or_str (environ "MONKEYOCR_DATABASE_URL") (default "" (environ "DATABASE_URL")) in
  if negb (truthy database_url) then raise (mk_exc ValueError "MONKEYOCR_DATABASE_URL is required") else
  let database_url := replace "postgresql+asyncpg://" "postgresql://"
                        (replace "postgresql+psycopg://" "postgresql://" database_url) in
  _ ← connect database_url;
  try_finally (
    if bool_decide (args_command args = "create") then
      let pepper := default "" (environ "MONKEYOCR_API_KEY_PEPPER") in
      if negb (truthy pepper)
      then raise (mk_exc ValueError "MONKEYOCR_API_KEY_PEPPER is required for key creation")
      else create_key (args_name args) pepper
    else if bool_decide (args_command args = "list") then list_keys
    else if bool_decide (args_command args = "revoke") then revoke_key (args_identifier args)
    else raise (mk_exc ValueError ("unknown command: " +:+ args_command args)))
  close.

(** [main]: the exit status, what is printed, and whether to [stderr] *)
Definition main (environ : string → option string) (args : Namespace) : M exc W (Z * string * bool) :=
  try_else (run environ args)
    (λ e, if isinstance e Exception_ then Some (mret (1, "error: " +:+ exc_msg e, true)) else None)
    (λ output, mret (0, output, false)).
End cli.

(** ** Facts *)

(** *** The form of a key *)

Lemma split_chars_sep sep n cur l r :
  sep ∉ l → split_chars sep (S n) cur (l ++ sep :: r) = of_chars (reverse cur ++ l) :: split_chars sep n [] r.
Proof.
  revert cur. induction l as [|c l IH]; intros cur Hl; simpl.
  - rewrite decide_True by done. by rewrite app_nil_r.
  - apply not_elem_of_cons in Hl as [Hc Hl]. rewrite decide_False by done. rewrite IH by done.
    by rewrite reverse_cons, <- app_assoc.
Qed.

Lemma split_chars_rest sep r : split_chars sep 0 [] r = [of_chars r].
Proof. by destruct r. Qed.

Lemma key_prefix_form p s :
  "_"%char ∉ chars p → truthy p = true → truthy s = true →
  key_prefix ("mocr_" +:+ p +:+ "_" +:+ s) = Some ("mocr_" +:+ p).
Proof.
  intros Hp Tp Ts. unfold key_prefix, split_n. rewrite !chars_app.
  change (chars "mocr_" ++ chars p ++ chars "_" ++ chars s)
    with (["m"; "o"; "c"; "r"]%char ++ "_"%char :: (chars p ++ "_"%char :: chars s)).
  rewrite split_chars_sep by (by rewrite bool_decide_eq_true_2 || set_solver).
  rewrite split_chars_sep, split_chars_rest by done. rewrite !reverse_nil, !app_nil_l, !of_chars_chars.
  by rewrite Tp, Ts.
Qed.

(** No character of base64 is the padding, and no plain one the separator. *)
Lemma b64_char_code n : (43 ≤ code (b64_char n))%N ∧ b64_char n ≠ "="%char.
Proof.
  assert (∀ c, code c ≠ 61%N → c ≠ "="%char) as Heq by by intros c Hc ->.
  unfold b64_char. repeat case_match; try by vm_compute.
  all: repeat match goal with
    | Hlt : (_ <? _)%N = true |- _ => apply N.ltb_lt in Hlt
    | Hge : (_ <? _)%N = false |- _ => apply N.ltb_ge in Hge end.
  all: split; [|apply Heq]; unfold code; rewrite N_ascii_embedding; lia.
Qed.

Lemma b64_encode_code l : Forall (λ c, 43 ≤ code c)%N (b64_encode_chars l).
Proof.
  assert (43 ≤ code "=")%N by by vm_compute.
  revert l. fix IH 1. intros [|a [|b [|c l]]]; simpl; repeat (constructor; [by try apply b64_char_code|]);
    [constructor.. | apply IH].
Qed.

Lemma token_of_truthy bytes : bytes ≠ "" → truthy (token_of bytes) = true.
Proof.
  intros Hb. unfold token_of, truthy. apply negb_true_iff, bool_decide_eq_false. intros E.
  apply (f_equal chars) in E. rewrite chars_of_chars in E. simpl in E.
  assert (∃ n l, b64_encode_chars (chars bytes) = b64_char n :: l) as (n & l & Hn).
  { destruct bytes as [|a b]; [done|]. destruct b as [|b c]; [by eexists _, _|].
    destruct c as [|c e]; by eexists _, _. }
  rewrite Hn in E. simpl map in E. rewrite filter_cons_True in E; [done|].
  pose proof (proj2 (b64_char_code n)). unfold urlsafe. by repeat case_decide.
Qed.

Lemma prefix_of_plain token :
  ("_"%char ∉ chars (prefix_of token)) ∧ (truthy token = true → truthy (prefix_of token) = true).
Proof.
  unfold prefix_of. rewrite chars_of_chars. split.
  - intros Hin. apply elem_of_take in Hin as (i & Hin & _). apply list_elem_of_lookup_2 in Hin.
    apply list_elem_of_fmap in Hin as (c & Hc & _). revert Hc. unfold plain_char. by repeat case_decide.
  - destruct token as [|a t]; [done|]. intros _. done.
Qed.

Lemma count_points_le l : (count_points l ≤ length l)%nat.
Proof. induction l as [|c l IH]; simpl; [lia|]. case_match; lia. Qed.

(** The prefix of a new key fits its column. *)
Lemma new_prefix_fits bytes : varchar 24 ("mocr_" +:+ prefix_of (token_of bytes)) = true.
Proof.
  unfold varchar, text, py_len. rewrite chars_app. unfold prefix_of, token_of. rewrite !chars_of_chars.
  set (l := map plain_char _). apply andb_true_iff. split.
  - apply negb_true_iff, bool_decide_eq_false. intros [Hin|Hin]%elem_of_app; [by vm_compute in Hin; set_solver|].
    apply elem_of_take in Hin as (i & Hin & _). apply list_elem_of_lookup_2 in Hin. subst l.
    apply list_elem_of_fmap in Hin as (c & Hc & Hin). apply list_elem_of_filter in Hin as [_ Hin].
    apply list_elem_of_fmap in Hin as (c0 & -> & Hin).
    pose proof (b64_encode_code (chars bytes)) as Hall. rewrite Forall_forall in Hall. specialize (Hall _ Hin).
    revert Hc. unfold plain_char, urlsafe. repeat case_decide; try done. intros <-. by vm_compute in Hall.
  - apply Z.leb_le. pose proof (count_points_le (chars "mocr_" ++ take 12 l)).
    rewrite length_app, length_take in *. change (length (chars "mocr_")) with 5%nat in *. lia.
Qed.

Lemma digit_char_pos d : (0 < d < 10)%N → digit_char d ≠ "0"%char.
Proof.
  intros Hd E. apply (f_equal code) in E. rewrite code_digit in E by lia.
  change (code "0") with 48%N in E. lia.
Qed.

(** The command tag counts no rows exactly when there are none. *)
Lemma tag_zero n : endswith " 0" ("UPDATE " +:+ str_Z (Z.of_nat n)) = bool_decide (n = 0%nat).
Proof.
  destruct (decide (n = 0%nat)) as [->|Hn]; [by vm_compute|].
  rewrite bool_decide_eq_false_2 by done.
  change ("UPDATE " +:+ str_Z (Z.of_nat n)) with ("UPDATE" +:+ (" " +:+ str_Z (Z.of_nat n))).
  assert (str_Z (Z.of_nat n) = of_chars (dec_N (N.of_nat n))) as ->.
  { unfold str_Z. rewrite (proj2 (Z.ltb_ge _ 0)) by lia. simpl. do 2 f_equal. lia. }
  pose proof (dec_digits (S (N.size_nat (N.of_nat n))) (N.of_nat n)) as Hd.
  fold (dec_N (N.of_nat n)) in Hd.
  destruct (dec_N_head (N.of_nat n)) as [[? _]|(d & l & E & Hr)]; [lia|].
  rewrite E in *. rewrite endswith_app by (simpl; lia). unfold endswith. apply bool_decide_eq_false.
  rewrite length_append, <- (chars_length (of_chars _)), chars_app, chars_of_chars.
  change (chars " " ++ digit_char d :: l) with (" "%char :: digit_char d :: l).
  change (String.length " ") with 1%nat. change (String.length " 0") with 2%nat.
  simpl length. replace (1 + S (length l) - 2)%nat with (length l) by lia.
  intros Hdrop. destruct l as [|c l].
  - injection Hdrop as Hdrop. by apply (digit_char_pos d).
  - simpl in Hdrop. assert (" "%char ∈ digit_char d :: c :: l) as Hin.
    { apply (subseteq_drop (length l)). rewrite Hdrop. left. }
    rewrite Forall_forall in Hd. by specialize (Hd _ Hin).
Qed.

(** *** The table *)

(** The key with a prefix is the one of this id. *)
Definition only_key (p : string) (id : UUID) (d : Db) : Prop :=
  ∀ i r, db_api_keys d !! i = Some r → ak_key_prefix r = p → i = id.

Lemma head_unique {A} (l : list A) a : a ∈ l → (∀ x, x ∈ l → x = a) → head l = Some a.
Proof. destruct l as [|b l]; intros Ha Hl; [by apply not_elem_of_nil in Ha|]. simpl. by rewrite (Hl b) by left. Qed.

Lemma select_only p id r d :
  db_api_keys d !! id = Some r → ak_key_prefix r = p → only_key p id d →
  select_key p d = (Ret (Some (id, r)), d).
Proof.
  intros Hr Hp Ho. unfold select_key, gets. f_equal. f_equal. apply head_unique.
  - apply list_elem_of_filter. split; [done|]. by apply elem_of_map_to_list.
  - intros [i r'] [Hp' Hin]%list_elem_of_filter. apply elem_of_map_to_list in Hin.
    assert (i = id) as -> by by eapply Ho. by rewrite Hr in Hin; injection Hin as ->.
Qed.

(** [update_revoked] row by row. *)
Lemma update_revoked_run identifier id r d :
  db_api_keys d !! id = Some r → names_key identifier id r = true →
  ∃ tag d', update_revoked identifier d = (Ret tag, d') ∧ endswith " 0" tag = false ∧
    db_api_keys d' !! id = Some (revoked_row (db_now d) r) ∧
    (∀ p, only_key p id d → only_key p id d').
Proof.
  intros Hr Hn. unfold update_revoked, mbind, M_bind, gets, modify, mret, M_ret.
  do 2 eexists. split; [reflexivity|]. split_and!.
  - rewrite tag_zero. apply bool_decide_eq_false. intros Hl%nil_length_inv.
    apply (filter_nil_not_elem_of _ _ (id, r) Hl Hn). by apply elem_of_map_to_list.
  - simpl. rewrite map_lookup_imap, Hr. simpl. by rewrite Hn.
  - intros p Ho i r'. simpl. rewrite map_lookup_imap.
    destruct (db_api_keys d !! i) as [r0|] eqn:Hi; [|done]. simpl. intros [= <-] Hp.
    apply (Ho i r0 Hi). by destruct (names_key identifier i r0).
Qed.

(** *** A database nobody else uses, and a supply of random bytes *)

Record KeyWorld := MkKeyWorld { kw_db : Db; kw_entropy : list string }.

#[export] Instance key_database : Database KeyWorld := λ A m w,
  let '(r, d) := m (kw_db w) in (r, MkKeyWorld d (kw_entropy w)).

#[export] Instance key_entropy : Entropy KeyWorld := λ _ w,
  match kw_entropy w with
  | bytes :: rest => (Ret bytes, MkKeyWorld (kw_db w) rest)
  | [] => (Ret "", w)
  end.

Lemma sql_run {A} (m : Sql A) w a d :
  m (kw_db w) = (Ret a, d) → sql m w = (Ret a, MkKeyWorld d (kw_entropy w)).
Proof. intros E. unfold sql, key_database. by rewrite E. Qed.

Lemma urandom_run n bytes d rest :
  urandom n (MkKeyWorld d (bytes :: rest)) = (Ret bytes, MkKeyWorld d rest).
Proof. done. Qed.

#[local] Opaque pbkdf2_hmac.

(** What [authenticate] decides on a key whose prefix is in the table. *)
Lemma authenticate_run pepper plaintext p id r w :
  key_prefix plaintext = Some p → db_api_keys (kw_db w) !! id = Some r → ak_key_prefix r = p →
  only_key p id (kw_db w) → truthy pepper = true →
  postgres_authenticate pepper plaintext w =
  if decide (ak_status r = "revoked") then (Exn api_key_revoked, w)
  else if decide (pbkdf2_hmac (plaintext +:+ pepper) (ak_salt r) PBKDF2_ITERATIONS = ak_key_hash r)
  then (Ret (uuid_str id),
        MkKeyWorld (set_api_keys (alter (touched (db_now (kw_db w))) id (db_api_keys (kw_db w))) (kw_db w))
          (kw_entropy w))
  else (Exn unauthorized, w).
Proof.
  intros Hk Hr Hp Ho Ht. unfold postgres_authenticate. rewrite Hk. unfold try_except, try_else.
  rewrite (bind_run _ _ _ _ _ (sql_run _ w _ _ (select_only p id r (kw_db w) Hr Hp Ho))).
  assert (MkKeyWorld (kw_db w) (kw_entropy w) = w) as -> by by destruct w.
  case_decide as Hst; [by rewrite bool_decide_eq_true_2|]. rewrite bool_decide_eq_false_2 by done.
  unfold verify_api_key, hash_api_key. rewrite Ht. cbn [negb].
  generalize (pbkdf2_hmac (plaintext +:+ pepper) (ak_salt r) PBKDF2_ITERATIONS). intros h.
  change (inr h ≫= λ h0, mret (bool_decide (h0 = ak_key_hash r)))
    with (inr (bool_decide (h = ak_key_hash r)) : exc + bool).
  case_decide as Hh; [by rewrite bool_decide_eq_true_2 | by rewrite bool_decide_eq_false_2].
Qed.

(** *** Issuing *)

Lemma unique_key_ok id prefix d :
  db_api_keys d !! id = None → (∀ i r, db_api_keys d !! i = Some r → ak_key_prefix r ≠ prefix) →
  unique_key id prefix d = inr ().
Proof.
  intros Hid Hfree. apply satisfy_spec. repeat constructor; simpl; [by rewrite bool_decide_eq_true_2|].
  apply forallb_forall. intros [i r] Hin%list_elem_of_In%elem_of_map_to_list.
  apply negb_true_iff, bool_decide_eq_false. by apply (Hfree i).
Qed.

Section lifecycle.
Context `{!ServerDefaults} (pepper : string) (first secret salt : string).

(** The key drawn from three strings of random bytes. *)
Definition issued_prefix : string := "mocr_" +:+ prefix_of (token_of first).
Definition issued : string := "mocr_" +:+ prefix_of (token_of first) +:+ "_" +:+ token_of secret.

Definition issued_row (name : string) (now : datetime) : ApiKeyRow :=
  MkApiKeyRow name issued_prefix (pbkdf2_hmac (issued +:+ pepper) salt PBKDF2_ITERATIONS) salt "active"
    None None now.

Lemma issued_key_prefix : first ≠ "" → secret ≠ "" → key_prefix issued = Some issued_prefix.
Proof.
  intros Hf Hs. destruct (prefix_of_plain (token_of first)) as [Hp Ht].
  apply key_prefix_form; [done | by apply Ht, token_of_truthy | by apply token_of_truthy].
Qed.

Lemma create_key_run name d rest :
  truthy pepper = true → varchar 120 name = true → db_api_keys d !! uuidv7 d = None →
  (∀ i r, db_api_keys d !! i = Some r → ak_key_prefix r ≠ issued_prefix) →
  create_key name pepper (MkKeyWorld d (first :: secret :: salt :: rest)) =
  (Ret ("API key created: " +:+ uuid_str (uuidv7 d) +:+ newline +:+
        "Copy this value now; it cannot be recovered later:" +:+ newline +:+ issued),
   MkKeyWorld (set_api_keys (<[uuidv7 d := issued_row name (db_now d)]> (db_api_keys d)) d) rest).
Proof.
  intros Hp Hn Hid Hfree. unfold create_key.
  assert (generate_api_key pepper (MkKeyWorld d (first :: secret :: salt :: rest)) =
    (Ret (MkGeneratedAPIKey issued issued_prefix salt
       (pbkdf2_hmac (issued +:+ pepper) salt PBKDF2_ITERATIONS)), MkKeyWorld d rest)) as Hg.
  { unfold generate_api_key. do 3 rewrite (bind_run _ _ _ _ _ (urandom_run _ _ _ _)).
    unfold hash_api_key. rewrite Hp. reflexivity. }
  assert (insert_key name (MkGeneratedAPIKey issued issued_prefix salt
       (pbkdf2_hmac (issued +:+ pepper) salt PBKDF2_ITERATIONS)) d =
    (Ret (uuidv7 d), set_api_keys (<[uuidv7 d := issued_row name (db_now d)]> (db_api_keys d)) d)) as E.
  { unfold insert_key. erewrite bind_run by done. cbv beta zeta.
    assert (check_api_key (issued_row name (db_now d)) = inr ()) as Hc.
    { apply satisfy_spec. simpl. rewrite Hn. unfold issued_prefix. rewrite new_prefix_fits.
      repeat constructor. }
    unfold issued_row in Hc. simpl gen_prefix. simpl gen_digest. simpl gen_salt. rewrite Hc.
    erewrite bind_run by done.
    rewrite (unique_key_ok (uuidv7 d) issued_prefix d Hid Hfree). unfold issued_row. reflexivity. }
  rewrite (bind_run _ _ _ _ _ Hg).
  by rewrite (bind_run _ _ _ _ _ (sql_run _ (MkKeyWorld d rest) _ _ E)).
Qed.

(** The key of a row, wherever it is used: the hash decides while the row is
    active, and nothing is accepted once it is revoked. *)
Lemma authenticate_row plaintext id r w :
  key_prefix plaintext = Some (ak_key_prefix r) → db_api_keys (kw_db w) !! id = Some r →
  only_key (ak_key_prefix r) id (kw_db w) → truthy pepper = true →
  (ak_status r = "revoked" → postgres_authenticate pepper plaintext w = (Exn api_key_revoked, w)) ∧
  (ak_status r ≠ "revoked" →
   pbkdf2_hmac (plaintext +:+ pepper) (ak_salt r) PBKDF2_ITERATIONS ≠ ak_key_hash r →
   postgres_authenticate pepper plaintext w = (Exn unauthorized, w)) ∧
  (ak_status r ≠ "revoked" →
   pbkdf2_hmac (plaintext +:+ pepper) (ak_salt r) PBKDF2_ITERATIONS = ak_key_hash r →
   ∃ d, postgres_authenticate pepper plaintext w = (Ret (uuid_str id), MkKeyWorld d (kw_entropy w)) ∧
        db_api_keys d !! id = Some (touched (db_now (kw_db w)) r) ∧ only_key (ak_key_prefix r) id d).
Proof.
  intros Hk Hr Ho Ht. rewrite (authenticate_run pepper plaintext _ id r w Hk Hr eq_refl Ho Ht).
  split_and!; intros Hst; [by rewrite decide_True | intros Hh; by rewrite !decide_False |].
  intros Hh. rewrite decide_False, decide_True by done. eexists. split; [done|]. simpl.
  rewrite lookup_alter_eq, Hr. split; [done|]. intros i r'. simpl.
  rewrite lookup_alter. case_decide as Hi; [by subst|]. apply Ho.
Qed.

Lemma revoke_run identifier id r w :
  db_api_keys (kw_db w) !! id = Some r → names_key identifier id r = true →
  ∃ d, revoke_key identifier w = (Ret ("API key revoked: " +:+ identifier), MkKeyWorld d (kw_entropy w)) ∧
    db_api_keys d !! id = Some (revoked_row (db_now (kw_db w)) r) ∧
    (∀ p, only_key p id (kw_db w) → only_key p id d).
Proof.
  intros Hr Hn. destruct (update_revoked_run identifier id r (kw_db w) Hr Hn) as (tag & d & E & Htag & Hd & Ho).
  exists d. split; [|done]. unfold revoke_key. rewrite (bind_run _ _ _ _ _ (sql_run _ w _ _ E)). by rewrite Htag.
Qed.

(** C27: the life of an API key.  [create_key] prints a key that the
    authenticator accepts as the new row's id; a text with the same prefix and
    another hash is refused; and once [revoke_key], given the id or the prefix,
    has answered, no text with this prefix is accepted. *)
Theorem key_lifecycle name d rest :
  truthy pepper = true → first ≠ "" → secret ≠ "" → varchar 120 name = true →
  db_api_keys d !! uuidv7 d = None →
  (∀ i r, db_api_keys d !! i = Some r → ak_key_prefix r ≠ issued_prefix) →
  ∃ w1 w2,
    create_key name pepper (MkKeyWorld d (first :: secret :: salt :: rest)) =
    (Ret ("API key created: " +:+ uuid_str (uuidv7 d) +:+ newline +:+
          "Copy this value now; it cannot be recovered later:" +:+ newline +:+ issued), w1) ∧
    postgres_authenticate pepper issued w1 = (Ret (uuid_str (uuidv7 d)), w2) ∧
    (∀ other, key_prefix other = Some issued_prefix →
       pbkdf2_hmac (other +:+ pepper) salt PBKDF2_ITERATIONS ≠
       pbkdf2_hmac (issued +:+ pepper) salt PBKDF2_ITERATIONS →
       postgres_authenticate pepper other w1 = (Exn unauthorized, w1)) ∧
    (∀ identifier, identifier ∈ [uuid_str (uuidv7 d); issued_prefix] →
       ∃ w3, revoke_key identifier w2 = (Ret ("API key revoked: " +:+ identifier), w3) ∧
       ∀ other, key_prefix other = Some issued_prefix →
         postgres_authenticate pepper other w3 = (Exn api_key_revoked, w3)).
Proof.
  intros Hp Hf Hs Hn Hid Hfree. set (id := uuidv7 d) in *.
  set (w1 := MkKeyWorld (set_api_keys (<[id := issued_row name (db_now d)]> (db_api_keys d)) d) rest).
  assert (db_api_keys (kw_db w1) !! id = Some (issued_row name (db_now d))) as Hr1 by apply lookup_insert_eq.
  assert (only_key issued_prefix id (kw_db w1)) as Ho1.
  { intros i r. simpl. destruct (decide (i = id)) as [|Hi]; [done|]. rewrite lookup_insert_ne by done.
    intros Hr Hpre. by destruct (Hfree i r Hr). }
  pose proof (λ other (Ho : key_prefix other = Some issued_prefix),
    authenticate_row other id (issued_row name (db_now d)) w1 Ho Hr1 Ho1 Hp) as Hauth.
  destruct (Hauth issued (issued_key_prefix Hf Hs)) as (_ & _ & Hok).
  destruct (Hok ltac:(done) eq_refl) as (d2 & E2 & Hr2 & Ho2).
  exists w1, (MkKeyWorld d2 rest). split_and!; [by apply create_key_run | exact E2 | |].
  - intros other Ho Hne. destruct (Hauth other Ho) as (_ & Hno & _).
    apply Hno; [discriminate | exact Hne].
  - intros identifier Hident.
    destruct (revoke_run identifier id _ (MkKeyWorld d2 rest) Hr2) as (d3 & E3 & Hr3 & Ho3).
    { unfold names_key. apply orb_true_iff. rewrite !bool_decide_eq_true.
      apply elem_of_cons in Hident as [->|Hi%list_elem_of_singleton]; [by left | by right]. }
    eexists. split; [exact E3|]. intros other Ho.
    apply (authenticate_row other id (revoked_row (db_now d2) (touched (db_now d) (issued_row name (db_now d)))) (MkKeyWorld d3 rest) Ho Hr3 (Ho3 _ Ho2) Hp).
    reflexivity.
Qed.
End lifecycle.

(** ** A concrete key *)

Module SampleKey.
#[global] Instance defaults : ServerDefaults := λ _, 5%N.

Definition db : Db := set_api_keys
  {[ 3%N := MkApiKeyRow "key" "mocr_0000" "" "" "active" None None 0 ]} empty_db.

Definition first : string := "abcdefghi".
Definition secret : string := "0123456789abcdef0123456789abcdef".
End SampleKey.

Lemma key_lifecycle_witness :
  ∃ w1 w2,
    create_key "ci" "pepper" (MkKeyWorld SampleKey.db [SampleKey.first; SampleKey.secret; "salt"]) =
    (Ret ("API key created: " +:+ uuid_str 5 +:+ newline +:+
          "Copy this value now; it cannot be recovered later:" +:+ newline +:+
          issued SampleKey.first SampleKey.secret), w1) ∧
    postgres_authenticate "pepper" (issued SampleKey.first SampleKey.secret) w1 = (Ret (uuid_str 5), w2).
Proof.
  destruct (key_lifecycle "pepper" SampleKey.first SampleKey.secret "salt" "ci" SampleKey.db [])
    as (w1 & w2 & E1 & E2 & _).
  - vm_compute. reflexivity.
  - discriminate.
  - discriminate.
  - vm_compute. reflexivity.
  - vm_compute. reflexivity.
  - intros i r. unfold SampleKey.db. simpl. rewrite lookup_singleton_Some. intros [_ <-]. discriminate.
  - exists w1, w2. split; [exact E1 | exact E2].
Defined.
