(* ===== verification/Http.v ===== *)
(** * The HTTP interface

    Models [interfaces/http/v1/router.py] and [dependencies.py], and of [main.py]
    the request-id middleware, the exception handlers and the constraint on the
    OpenAPI document ([lifespan] is in [Container]).  FastAPI's part is
    written as documented: it resolves the authenticated owner before it
    validates what the handler receives; a handler's exception is answered by the
    handler registered for its class, one registered for [Exception] answers from
    outside the user's middleware (so without its [X-Request-ID] header), and a
    [BaseException] is not answered.  Routing, the parsing of bodies and of path
    parameters, and the rendering of an event's envelope ([model_dump_json]) are
    FastAPI's and pydantic's; a [Call] is what routing hands over.

    - [answers_valid]: whatever happens, an answer is a valid envelope;
    - [controlled_answers]: and its HTTP status is 200 as long as the ports raise
      what they promise;
    - the event stream is the subject of [HttpStream]. *)

From Stdlib Require Import Ascii.
From S2P Require Import Prelude PyData PyText Json Status Domain Ports Dto Services Messaging.
From S2P Require Import Readiness ApiKeys.

#[local] Open Scope Z_scope.

(** ** Requests and answers *)

(** The matched route with the values FastAPI parsed for it. *)
Inductive Call :=
  | CallCreateUpload (payload : CreateUploadRequest)
  | CallCompleteUpload (upload_id : UUID) (payload : option CompleteUploadRequest)
  | CallCreateJob (payload : CreateJobRequest) (idempotency_key : option string)
  | CallListJobs (page page_size : Z)
  | CallGetJob (job_id : UUID)
  | CallCancelJob (job_id : UUID)
  | CallRetryJob (job_id : UUID)
  | CallListArtifacts (job_id : UUID)
  | CallStreamEvents (job_id : UUID) (last_event_id : option string)
  | CallLive
  | CallReady
  | CallUnknown.

Record Request := MkRequest {
  header_request_id : string;           (* [X-Request-ID], "" when absent *)
  header_authorization : option string;
  call : Call
}.

Inductive Data :=
  | DUpload (d : UploadDTO)
  | DCompleteUpload (d : CompleteUploadDTO)
  | DJob (d : JobDTO)
  | DJobList (d : JobListDTO)
  | DArtifacts (items : list ArtifactDTO)
  | DHealth (status : string) (checks : list (string * string))
  | DJson (v : json).

(** The stream starts after [sequence], with the job as it was read. *)
Inductive Content :=
  | JSONResponse (envelope : ApiEnvelope Data)
  | EventStream (job_id : UUID) (sequence : Z) (job : Job.t) (owner_id : string).

Record Response := MkResponse {
  status_code : Z;
  header_out : option string;           (* [X-Request-ID] *)
  content : Content
}.

(** ** Exceptions of FastAPI *)

Definition RequestValidationError : cls := Foreign "RequestValidationError".
Definition StarletteHTTPException : cls := Foreign "HTTPException".

Definition request_validation_error : exc := mk_exc RequestValidationError "".

(** ** [dependencies.py] *)

Section http.
Context {W : Type}.
Context `{!UploadRepository W, !JobRepository W, !OutboxRepository W, !ObjectStorage W,
  !FileValidator W, !Runtime W, !APIKeyAuthenticator W}.
Context (max_upload_bytes : Z) (require_gateway_identity : bool) (dev_api_key_id : string).
(** [container.readiness.check()] *)
Context (readiness : M exc W ReadinessReport).
(** [exc.errors()], as [validation_error_handler] lists it *)
Context (validation_details : exc → json).

Definition get_authenticated_owner_id (authorization : option string) : M exc W string :=
  if truthy_opt authorization then
    match split_n " "%char 1 (default "" authorization) with
    | [scheme; token] =>
        if negb (bool_decide (lower scheme = "bearer")) || negb (truthy token) then
          raise (business_error USER_UNAUTHORIZED "Authorization 必须使用 Bearer API Key"
            "invalid_authorization_scheme" None)
        else authenticate token
    | _ => raise (business_error USER_UNAUTHORIZED "Authorization 必须使用 Bearer API Key"
             "invalid_authorization_scheme" None)
    end
  else if require_gateway_identity then
    raise (business_error USER_UNAUTHORIZED "缺少网关认证身份" "gateway_identity_missing" None)
  else mret dev_api_key_id.

(** ** [router.py] *)

Definition ok_message : string := "操作成功".

(** [ApiEnvelope.success(data, request_id=...)] in a handler *)
Definition succeed (request_id : string) (data : Data) : M exc W (ApiEnvelope Data) :=
  now ← utc_now;
  lift (envelope_success now data request_id ok_message).

(** Pydantic's checks of the body and the query, before the handler runs. *)
Definition validated {A} (r : exc + A) : M exc W A :=
  lift (match r with inl _ => inl request_validation_error | inr a => inr a end).

Definition create_upload_route (payload : CreateUploadRequest) (owner_id request_id : string) :
    M exc W (ApiEnvelope Data) :=
  d ← Services.create_upload max_upload_bytes payload owner_id;
  succeed request_id (DUpload d).

Definition complete_upload_route (upload_id : UUID) (payload : option CompleteUploadRequest)
    (owner_id request_id : string) : M exc W (ApiEnvelope Data) :=
  d ← Services.complete_upload upload_id owner_id
        (payload ≫= compl_sha256) (payload ≫= compl_multipart_upload_id)
        (Some (match payload with
               | Some p => map (λ part, (cup_part_number part, cup_etag part)) (compl_parts p)
               | None => []
               end));
  succeed request_id (DCompleteUpload d).

Definition create_job_route (payload : CreateJobRequest) (idempotency_key : option string)
    (owner_id request_id : string) : M exc W (ApiEnvelope Data) :=
  if match idempotency_key with
     | Some key => negb ((1 <=? py_len key) && (py_len key <=? 160))
     | None => false
     end
  then raise (business_error COMMON_INVALID_ARGUMENT "幂等键长度必须为 1 到 160 个字符"
         "invalid_idempotency_key" None)
  else
    d ← Services.create_job payload owner_id request_id idempotency_key;
    succeed request_id (DJob d).

Definition list_jobs_route (page page_size : Z) (owner_id request_id : string) :
    M exc W (ApiEnvelope Data) :=
  d ← Services.list_jobs owner_id page page_size;
  succeed request_id (DJobList d).

Definition get_job_route (job_id : UUID) (owner_id request_id : string) : M exc W (ApiEnvelope Data) :=
  d ← Services.get_job job_id owner_id;
  succeed request_id (DJob d).

Definition cancel_job_route (job_id : UUID) (owner_id request_id : string) : M exc W (ApiEnvelope Data) :=
  d ← Services.cancel_job job_id owner_id request_id;
  succeed request_id (DJob d).

Definition retry_job_route (job_id : UUID) (owner_id request_id : string) : M exc W (ApiEnvelope Data) :=
  d ← Services.retry_job job_id owner_id request_id;
  succeed request_id (DJob d).

Definition list_artifacts_route (job_id : UUID) (owner_id request_id : string) :
    M exc W (ApiEnvelope Data) :=
  items ← Services.list_artifacts job_id owner_id;
  succeed request_id (DArtifacts items).

(** [stream_job_events] up to the response; the generator is in [HttpStream]. *)
Definition stream_job_events (job_id : UUID) (last_event_id : option string) (owner_id : string) :
    M exc W Content :=
  job ← Services.get_job_domain job_id owner_id;
  let invalid := business_error COMMON_INVALID_ARGUMENT "Last-Event-ID 必须为非负整数"
                   "invalid_last_event_id" None in
  sequence ← try_except
    (sequence ← lift (if truthy_opt last_event_id then int_base10 (default "" last_event_id) else inr 0);
     if decide (sequence < 0) then raise (mk_exc ValueError "") else mret sequence)
    (λ e, if isinstance e ValueError then Some (raise invalid) else None);
  mret (EventStream job_id sequence job owner_id).

Definition live (request_id : string) : M exc W (ApiEnvelope Data) :=
  succeed request_id (DHealth "ok" []).

Definition ready_route (request_id : string) : M exc W (ApiEnvelope Data) :=
  report ← readiness;
  let data := DHealth (if ready report then "ready" else "not_ready") (report_checks report) in
  if ready report then succeed request_id data
  else
    now ← utc_now;
    lift (envelope_failure now (default INTERNAL_CONTROLLED_ERROR (report_internal_code report))
      "服务依赖尚未就绪" request_id (or_str (report_error_reason report) "readiness_dependency_unavailable")
      (Some data)).

(** What FastAPI runs for a call: dependencies, validation, handler. *)
Definition with_owner (request : Request) (k : string → M exc W Content) : M exc W Content :=
  owner_id ← get_authenticated_owner_id (header_authorization request);
  k owner_id.

Definition in_envelope (m : M exc W (ApiEnvelope Data)) : M exc W Content :=
  envelope ← m; mret (JSONResponse envelope).

Definition query_in (page page_size : Z) : exc + () :=
  if (1 <=? page) && (1 <=? page_size) && (page_size <=? 100) then inr ()
  else inl request_validation_error.

Definition endpoint (request : Request) (request_id : string) : M exc W Content :=
  match call request with
  | CallCreateUpload payload => with_owner request (λ owner_id,
      payload ← validated (validate_create_upload payload);
      in_envelope (create_upload_route payload owner_id request_id))
  | CallCompleteUpload upload_id None => with_owner request (λ owner_id,
      in_envelope (complete_upload_route upload_id None owner_id request_id))
  | CallCompleteUpload upload_id (Some payload) => with_owner request (λ owner_id,
      payload ← validated (validate_complete_upload payload);
      in_envelope (complete_upload_route upload_id (Some payload) owner_id request_id))
  | CallCreateJob payload key => with_owner request (λ owner_id,
      in_envelope (create_job_route payload key owner_id request_id))
  | CallListJobs page page_size => with_owner request (λ owner_id,
      _ ← validated (query_in page page_size);
      in_envelope (list_jobs_route page page_size owner_id request_id))
  | CallGetJob job_id => with_owner request (λ owner_id,
      in_envelope (get_job_route job_id owner_id request_id))
  | CallCancelJob job_id => with_owner request (λ owner_id,
      in_envelope (cancel_job_route job_id owner_id request_id))
  | CallRetryJob job_id => with_owner request (λ owner_id,
      in_envelope (retry_job_route job_id owner_id request_id))
  | CallListArtifacts job_id => with_owner request (λ owner_id,
      in_envelope (list_artifacts_route job_id owner_id request_id))
  | CallStreamEvents job_id last_event_id => with_owner request (λ owner_id,
      stream_job_events job_id last_event_id owner_id)
  | CallLive => in_envelope (live request_id)
  | CallReady => in_envelope (ready_route request_id)
  | CallUnknown => raise (mk_exc StarletteHTTPException "Not Found")
  end.

(** ** The exception handlers of [main.py] *)

Definition business_error_handler (request_id : string) (now : datetime) (e : exc) :
    exc + ApiEnvelope Data :=
  match exc_business e with
  | Some (code, reason, data) =>
      envelope_failure now code (exc_msg e) request_id reason (DJson <$> data)
  | None => inl (mk_exc AttributeError "internal_code")
  end.

Definition dependency_error_handler (request_id : string) (now : datetime) (e : exc) :
    exc + ApiEnvelope Data :=
  match internal_code e, public_message e, error_reason e with
  | Some code, Some message, Some reason => envelope_failure now code message request_id reason None
  | _, _, _ => inl (mk_exc AttributeError "internal_code")
  end.

Definition validation_error_handler (request_id : string) (now : datetime) (e : exc) :
    exc + ApiEnvelope Data :=
  envelope_failure now COMMON_INVALID_ARGUMENT "请求参数无效" request_id "request_validation_failed"
    (Some (DJson (JObj [("errors", validation_details e)]))).

Definition http_error_handler (request_id : string) (now : datetime) : exc + ApiEnvelope Data :=
  envelope_failure now COMMON_RESOURCE_NOT_FOUND "请求的接口或资源不存在" request_id
    "http_resource_not_found" None.

Definition unexpected_error_handler (request_id : string) (now : datetime) : exc + ApiEnvelope Data :=
  envelope_failure now TRANSPORT_INTERNAL_ERROR "服务未能形成正常响应" request_id
    "transport_internal_error" None.

(** The handler of the first registered class the exception is an instance of. *)
Definition handler_for (request_id : string) (now : datetime) (e : exc) :
    option (exc + ApiEnvelope Data) :=
  if isinstance e BusinessError then Some (business_error_handler request_id now e)
  else if isinstance e DependencyError then Some (dependency_error_handler request_id now e)
  else if isinstance e RequestValidationError then Some (validation_error_handler request_id now e)
  else if isinstance e StarletteHTTPException then Some (http_error_handler request_id now)
  else None.

(** The exception handlers inside the middleware. *)
Definition guarded (request_id : string) (m : M exc W Content) : M exc W Content :=
  try_except m (λ e,
    if isinstance_any e [BusinessError; DependencyError; RequestValidationError; StarletteHTTPException]
    then Some (now ← utc_now;
               envelope ← lift (default (inl e) (handler_for request_id now e));
               mret (JSONResponse envelope))
    else None).

(** [request_id_middleware] *)
Definition request_id_of (request : Request) : M exc W string :=
  if truthy (header_request_id request) then mret (take_str 128 (header_request_id request))
  else id ← uuid7; mret (uuid_str id).

(** The application on one request: the middleware around the routes, and the
    handler for [Exception] around it. *)
Definition app (request : Request) : M exc W Response :=
  request_id ← request_id_of request;
  try_except
    (c ← guarded request_id (endpoint request request_id);
     mret (MkResponse 200 (Some request_id) c))
    (λ e, if isinstance e Exception_
          then Some (now ← utc_now;
                     envelope ← lift (unexpected_error_handler request_id now);
                     mret (MkResponse 500 None (JSONResponse envelope)))
          else None).
End http.

(** ** The OpenAPI document *)

(** [docs_url] of [create_app] *)
Definition docs_url (environment : string) : option string :=
  if bool_decide (environment = "production") then None else Some "/docs".

(** [operation["responses"].pop("422", None)] for an operation that has responses *)
Definition without_422 (operation : json) : exc + json :=
  match operation with
  | JObj d =>
      match dget d "responses" with
      | None => inr operation
      | Some (JObj responses) => inr (JObj (dset d "responses" (JObj (dpop responses "422"))))
      | Some (JList _) => inl (mk_exc TypeError "pop expected at most 1 argument, got 2")
      | Some _ => inl (mk_exc AttributeError "object has no attribute 'pop'")
      end
  | _ => inr operation
  end.

Definition on_values (f : json → exc + json) (v : json) : exc + json :=
  match v with
  | JObj d => d ← traverse (λ kv, v ← f kv.2; inr (kv.1, v)) d; inr (JObj d)
  | _ => inl (mk_exc AttributeError "object has no attribute 'values'")
  end.

(** [constrained_openapi] on the schema that FastAPI has generated *)
Definition constrained_openapi (schema : dict) : exc + dict :=
  match dget schema "paths" with
  | None => inr schema
  | Some paths => paths ← on_values (on_values without_422) paths; inr (dset schema "paths" paths)
  end.

Example constrained_openapi_ex :
  let operation l := JObj [("summary", JStr "s"); ("responses", JObj (map (λ code, (code, JNull)) l))] in
  let schema l := [("openapi", JStr "3.1.0");
    ("paths", JObj [("/v1/jobs", JObj [("get", operation l); ("parameters", JList [])])])] in
  constrained_openapi (schema ["200"; "422"]) = inr (schema ["200"]).
Proof. vm_compute. reflexivity. Qed.
