(* ===== verification/HttpFacts.v ===== *)
(** * What the HTTP interface answers

    [answers_valid] needs nothing of the ports: every answer is a valid envelope
    with the request's id, a success only for an authenticated caller, or the
    stream of a job of the caller; the HTTP status is 200 or, with the transport
    error's code, 500.  [PortErrors] is what the ports promise about the
    exceptions they raise; under it [controlled_answers] shows that no request
    ends in the transport error. *)

From Stdlib Require Import Ascii.
From S2P Require Import Prelude PyData PyText Json Status Domain DomainFacts Ports Dto Services Messaging.
From S2P Require Import Sha256 Readiness ApiKeys FileValidation Memory Http.

#[local] Open Scope Z_scope.

(** ** Envelopes *)

Lemma validate_envelope_id {T} (e e' : ApiEnvelope T) : validate_envelope e = inr e' → e' = e.
Proof. unfold validate_envelope. repeat case_match; congruence. Qed.

Definition good_envelope (request_id : string) (env : ApiEnvelope Data) : Prop :=
  validate_envelope env = inr env ∧ env_request_id env = request_id.

Lemma good_success now data request_id message env :
  envelope_success now data request_id message = inr env → good_envelope request_id env.
Proof.
  unfold envelope_success. intros E. pose proof (validate_envelope_id _ _ E) as ->. by split.
Qed.

Lemma good_failure now code message request_id reason data env :
  envelope_failure now code message request_id reason data = inr env →
  good_envelope request_id env ∧ env_internal_code env = code ∧ code ≠ SUCCESS.
Proof.
  unfold envelope_failure. intros E. pose proof (validate_envelope_id _ _ E) as ->. split_and!; [done..|].
  revert E. unfold validate_envelope. case_match; [done|]. by case_decide.
Qed.

(** A failure envelope with its fields filled in is accepted. *)
Lemma envelope_failure_ok {T} now code message request_id reason (data : option T) :
  code ≠ SUCCESS → truthy message = true → truthy request_id = true → truthy reason = true →
  ∃ env, envelope_failure now code message request_id reason data = inr env.
Proof.
  intros Hc Hm Hr He. unfold envelope_failure, validate_envelope. simpl. rewrite Hm, Hr. simpl.
  rewrite decide_False by done. rewrite He. by eexists.
Qed.

Lemma envelope_success_ok {T} now (data : T) request_id message :
  truthy message = true → truthy request_id = true →
  ∃ env, envelope_success now data request_id message = inr env.
Proof.
  intros Hm Hr. unfold envelope_success, validate_envelope. simpl. rewrite Hm, Hr. simpl. by eexists.
Qed.

Lemma take_str_truthy n s : truthy s = true → truthy (take_str (S n) s) = true.
Proof.
  destruct s as [|c s]; [done|]. intros _. unfold take_str. simpl. by destruct (is_cont c).
Qed.

Lemma uuid_str_truthy u : truthy (uuid_str u) = true.
Proof. pose proof (uuid_str_length u) as Hl. by destruct (uuid_str u). Qed.

(** A text split once at a character. *)
Lemma split_chars_one sep cur l x y :
  split_chars sep 1 cur l = [x; y] → of_chars (reverse cur ++ l) = x +:+ String sep y.
Proof.
  revert cur. induction l as [|c l IH]; intros cur; simpl; [done|]. case_decide as Hc.
  - subst c. rewrite of_chars_app. by destruct l as [|d l]; simpl; intros [= <- <-].
  - intros Hl. apply IH in Hl. by rewrite reverse_cons, <- app_assoc in Hl.
Qed.

Lemma split_one sep s x y : split_n sep 1 s = [x; y] → s = x +:+ String sep y.
Proof. intros Hs. rewrite <- (of_chars_chars s). exact (split_chars_one _ [] _ _ _ Hs). Qed.

Section answers.
Context {W : Type}.
Context `{!UploadRepository W, !JobRepository W, !OutboxRepository W, !ObjectStorage W,
  !FileValidator W, !Runtime W, !APIKeyAuthenticator W}.
Context (max_upload_bytes : Z) (require_gateway_identity : bool) (dev_api_key_id : string).
Context (readiness : M exc W ReadinessReport) (validation_details : exc → json).

Abbreviation endpoint := (endpoint max_upload_bytes require_gateway_identity dev_api_key_id readiness).
Abbreviation app := (app max_upload_bytes require_gateway_identity dev_api_key_id readiness validation_details).

(** Nothing is assumed of the world: a rule system for results alone. *)
Abbreviation returns m Q := (rg (λ _ : W, True) (λ _ _, True) (λ _, True) m (λ a _, Q a) (λ _ _, True)).

#[local] Instance everything : PreOrder (λ _ _ : W, True).
Proof. by split. Qed.

Lemma returns_any {A} (m : M exc W A) : returns m (λ _, True).
Proof. intros w _ _. split_and!; [done..|]. by destruct ((m w).1). Qed.

Lemma returns_bind {A B} (m : M exc W A) (k : A → M exc W B) G Q :
  returns m G → (∀ a, G a → returns (k a) Q) → returns (m ≫= k) Q.
Proof. intros Hm Hk. rule_bind; [exact Hm|]. intros a w Hw Ha. by apply Hk. Qed.

Lemma returns_after {A B} (m : M exc W A) (k : A → M exc W B) Q :
  (∀ a, returns (k a) Q) → returns (m ≫= k) Q.
Proof. intros Hk. eapply returns_bind; [apply returns_any|]. intros a _. apply Hk. Qed.

Lemma returns_lift {A} (r : exc + A) (Q : A → Prop) : (∀ a, r = inr a → Q a) → returns (lift r) Q.
Proof. intros HQ. rule rg_lift. destruct r; [done|]. intros _ _. by apply HQ. Qed.

Lemma returns_raise {A} (e : exc) (Q : A → Prop) : returns (raise e) Q.
Proof. by rule rg_raise. Qed.

(** A result has been returned in some world. *)
Lemma returns_ran {A} (m : M exc W A) : returns m (λ a, ∃ w, (m w).1 = Ret a).
Proof. intros w _ _. split_and!; [done..|]. destruct ((m w).1) eqn:E; [by exists w | done..]. Qed.

Lemma returns_database {A} (m : M exc W A) : returns (database m) (λ a, ∃ w, (m w).1 = Ret a).
Proof.
  unfold database. rule rg_try_except; [exact (returns_ran m)|]. intros e.
  destruct (isinstance_any e _); [done|]. destruct (isinstance e Exception_); [apply returns_raise | done].
Qed.

(** *** Who asks, and under which id *)

(** The caller: the development owner without a key where no gateway is
    required, and otherwise whom the authenticator names for the bearer token. *)
Definition authorized (request : Request) (owner_id : string) : Prop :=
  match header_authorization request with
  | None | Some "" => require_gateway_identity = false ∧ owner_id = dev_api_key_id
  | Some a => ∃ scheme token w, a = scheme +:+ " " +:+ token ∧ lower scheme = "bearer" ∧
      token ≠ "" ∧ (authenticate token w).1 = Ret owner_id
  end.

(** A route without an owner, or a caller who has been authenticated. *)
Definition admitted (request : Request) : Prop :=
  call request = CallLive ∨ call request = CallReady ∨ ∃ owner_id, authorized request owner_id.

(** The id of a request: the first 128 characters of its header, or a new one. *)
Definition named (request : Request) (request_id : string) : Prop :=
  if decide (header_request_id request = "") then ∃ w u, (uuid7 w).1 = Ret u ∧ request_id = uuid_str u
  else request_id = take_str 128 (header_request_id request).

(** Where a stream begins: after the event the client has seen last. *)
Definition begins (last_event_id : option string) (sequence : Z) : Prop :=
  0 ≤ sequence ∧
  match last_event_id with
  | None | Some "" => sequence = 0
  | Some s => int_base10 s = inr sequence
  end.

(** A stream of the job asked for, which was read as one of the caller. *)
Definition streams (request : Request) (i : UUID) (sequence : Z) (job : Job.t) (owner_id : string) : Prop :=
  authorized request owner_id ∧
  ∃ last_event_id w, call request = CallStreamEvents i last_event_id ∧ begins last_event_id sequence ∧
    (jobs_get i w).1 = Ret (Some job) ∧ Job.owner_id job = owner_id.

Lemma truthy_false s : truthy s = false → s = "".
Proof. unfold truthy. rewrite negb_false_iff. apply bool_decide_eq_true. Qed.

Lemma returns_authenticated request :
  returns (get_authenticated_owner_id require_gateway_identity dev_api_key_id (header_authorization request))
    (authorized request).
Proof.
  unfold get_authenticated_owner_id, authorized.
  destruct (header_authorization request) as [[|c a]|]; simpl;
    [destruct require_gateway_identity; [apply returns_raise | by rule rg_ret] |
    | destruct require_gateway_identity; [apply returns_raise | by rule rg_ret]].
  destruct (split_n " "%char 1 (String c a)) as [|scheme [|token [|]]] eqn:Es; try apply returns_raise.
  case_match eqn:E; [apply returns_raise|].
  apply orb_false_iff in E as [Hb%negb_false_iff Ht%negb_false_iff]. apply bool_decide_eq_true in Hb.
  eapply rg_conseq; [exact (returns_ran (authenticate token)) | done | | done].
  intros o w (w' & Hw). exists scheme, token, w'. split_and!; [by apply split_one | done | by intros -> | done].
Qed.

(** What an endpoint hands back. *)
Definition good_content (request : Request) (request_id : string) (c : Content) : Prop :=
  match c with
  | JSONResponse env => good_envelope request_id env ∧ (env_internal_code env = SUCCESS → admitted request)
  | EventStream i sequence job owner_id => streams request i sequence job owner_id
  end.

Lemma returns_succeed request_id data : returns (succeed (W := W) request_id data) (good_envelope request_id).
Proof.
  unfold succeed. apply returns_after. intros now. apply returns_lift. intros env. apply good_success.
Qed.

Lemma returns_in_envelope request request_id m :
  admitted request → returns m (good_envelope request_id) →
  returns (in_envelope m) (good_content request request_id).
Proof. intros Ha Hm. eapply returns_bind; [exact Hm|]. intros env Henv. by rule rg_ret. Qed.

Lemma returns_stream request request_id job_id last_event_id owner_id :
  call request = CallStreamEvents job_id last_event_id → authorized request owner_id →
  returns (stream_job_events job_id last_event_id owner_id) (good_content request request_id).
Proof.
  intros Hcall Ho. unfold stream_job_events, get_job_domain, owned_job.
  apply returns_bind with (λ job, Job.owner_id job = owner_id ∧ ∃ w, (jobs_get job_id w).1 = Ret (Some job)).
  { eapply returns_bind; [apply returns_database|]. intros [job|] Hj; [|apply returns_raise].
    case_match eqn:E; [apply returns_raise|]. apply negb_false_iff, bool_decide_eq_true in E. by rule rg_ret. }
  intros job [Hown [w Hw]].
  apply returns_bind with (begins last_event_id); [|intros sequence Hs; rule rg_ret; intros _ _; split; [done|];
    by exists last_event_id, w].
  rule rg_try_except.
  - eapply returns_bind; [apply returns_lift; intros n Hn; exact Hn|]. cbv beta. intros n Hn.
    case_decide; [apply returns_raise|]. rule rg_ret. intros _ _. split; [lia|].
    destruct last_event_id as [[|]|]; simpl in Hn; congruence.
  - intros e. destruct (isinstance e ValueError); [apply returns_raise | done].
Qed.

Lemma returns_endpoint request request_id :
  returns (endpoint request request_id) (good_content request request_id).
Proof.
  unfold Http.endpoint, with_owner.
  destruct (call request) as [| ? [payload|] | | | | | | | | | |] eqn:Hcall;
    repeat first
      [ match goal with |- rg _ _ _ (get_authenticated_owner_id _ _ _ ≫= _) _ _ =>
          eapply returns_bind; [apply returns_authenticated|]; intros o Ho end
      | apply returns_in_envelope; [solve [right; right; by exists o | by left | right; by left]|]
      | apply returns_succeed
      | by apply returns_stream
      | apply returns_raise
      | match goal with |- rg _ _ _ (?m ≫= _) _ _ => apply returns_after; intros ? end
      | progress unfold create_upload_route, complete_upload_route, create_job_route, list_jobs_route,
          get_job_route, cancel_job_route, retry_job_route, list_artifacts_route, live, ready_route
      | case_match ].
  apply returns_lift. intros env Henv. by apply good_failure in Henv as [? _].
Qed.

Lemma returns_handler request_id now e env :
  handler_for validation_details request_id now e = Some (inr env) →
  good_envelope request_id env ∧ env_internal_code env ≠ SUCCESS.
Proof.
  unfold handler_for, business_error_handler, dependency_error_handler, validation_error_handler,
    http_error_handler.
  intros E. repeat case_match; simplify_eq;
    match goal with H : envelope_failure _ _ _ _ _ _ = _ |- _ => by apply good_failure in H as (? & <- & ?) end.
Qed.

Lemma returns_guarded request request_id m :
  returns m (good_content request request_id) →
  returns (guarded validation_details request_id m) (good_content request request_id).
Proof.
  intros Hm. unfold guarded. rule rg_try_except; [exact Hm|]. intros e. destruct (isinstance_any e _); [|done].
  apply returns_after. intros now.
  eapply returns_bind; [apply returns_lift; intros env Henv; exact Henv|]. cbv beta. intros env Henv.
  rule rg_ret. intros _ _. destruct (handler_for _ request_id now e) as [r|] eqn:E; [|done].
  simpl in Henv. subst r. by apply returns_handler in E as [? ?].
Qed.

Lemma returns_request_id request : returns (request_id_of request) (named request).
Proof.
  unfold request_id_of, named. case_match eqn:E.
  - rule rg_ret. intros _ _. by rewrite decide_False by (by intros Hh; rewrite Hh in E).
  - eapply returns_bind; [apply returns_ran|]. intros id [w Hw]. rule rg_ret. intros _ _. cbv beta.
    rewrite decide_True by by apply truthy_false. by exists w, id.
Qed.

(** The answer to a request: an envelope that passes its own validation, under
    the request's id, a success only for an authenticated caller or a route
    without one; or the start of an event stream of a job of the caller. *)
Definition valid_response (request : Request) (r : Response) : Prop :=
  match content r with
  | JSONResponse env =>
      validate_envelope env = inr env ∧ named request (env_request_id env) ∧
      (env_internal_code env = SUCCESS → admitted request) ∧
      (status_code r = 200 ∧ header_out r = Some (env_request_id env) ∨
       status_code r = 500 ∧ header_out r = None ∧ env_internal_code env = TRANSPORT_INTERNAL_ERROR)
  | EventStream i sequence job owner_id =>
      status_code r = 200 ∧ streams request i sequence job owner_id ∧
      ∃ request_id, header_out r = Some request_id ∧ named request request_id
  end.

(** C28: whatever the ports, the authenticator and the service do, and whichever
    exception leaves them, an answer of the application is
    - an envelope that satisfies the constraints of [ApiEnvelope] (so an error
      reason exactly when the code is not [SUCCESS]), under the id of the request
      (the first 128 characters of its header, or a new UUID), in the body and,
      with HTTP status 200, in the header; the status is 500 exactly for
      [TRANSPORT_INTERNAL_ERROR] from outside the middleware; a success is for a
      caller the authenticator has named (or the development owner where no
      gateway is required), or of the health routes;
    - or the event stream of the job asked for, which the repository returned as
      a job of that caller, from the event the client has seen last. *)
Theorem answers_valid request w :
  match (app request w).1 with Ret resp => valid_response request resp | _ => True end.
Proof.
  assert (returns (app request) (valid_response request)) as Happ.
  - unfold Http.app. eapply returns_bind; [apply returns_request_id|]. intros request_id Hid.
    rule rg_try_except.
    + eapply returns_bind; [apply returns_guarded, returns_endpoint|]. intros c Hc. rule rg_ret. intros _ _.
      unfold valid_response. destruct c as [env|]; simpl.
      * destruct Hc as [[Hv <-] Ha]. by auto 6.
      * split_and!; [done | done | by exists request_id].
    + intros e. destruct (isinstance e Exception_); [|done]. apply returns_after. intros now.
      eapply returns_bind; [apply returns_lift; intros env Henv; exact Henv|]. cbv beta. intros env Henv.
      rule rg_ret. intros _ _. apply good_failure in Henv as ([Hv <-] & Hc & _).
      unfold valid_response. simpl. split_and!; [done | done | by rewrite Hc | by auto].
  - destruct (Happ w I I) as (_ & _ & Hr). by destruct ((app request w).1).
Qed.
End answers.

(** ** Exceptions *)

(** An ordinary failure of a port: an [Exception] that none of the service's
    clauses treats specially. *)
Definition plain (e : exc) : Prop :=
  isinstance e Exception_ = true ∧
  isinstance_any e [BusinessError; ConcurrentJobUpdateError; DuplicateIdempotencyKeyError;
                    FileNotFoundError] = false.

(** A business error with its fields filled in. *)
Definition fine_business (e : exc) : Prop :=
  isinstance e BusinessError = true ∧
  ∃ code reason data, exc_business e = Some (code, reason, data) ∧ code ≠ SUCCESS ∧
    truthy reason = true ∧ truthy (exc_msg e) = true.

(** What the application answers with HTTP 200. *)
Definition controlled (e : exc) : Prop :=
  fine_business e ∨
  isinstance_any e [DependencyError; RequestValidationError; StarletteHTTPException] = true.

Lemma controlled_business code message reason data :
  code ≠ SUCCESS → truthy reason = true → truthy message = true →
  controlled (business_error code message reason data).
Proof. intros Hc Hr Hm. left. split; [done|]. by do 3 eexists. Qed.

Lemma controlled_dependency e : isinstance e DependencyError = true → controlled e.
Proof. intros He. right. unfold isinstance_any. simpl. by rewrite He. Qed.

Lemma controlled_database : ∀ m, controlled (mk_exc DatabaseUnavailableError m).
Proof. intros m. by apply controlled_dependency. Qed.

Section outcomes.
Context {W : Type}.

Definition raises_only {A} (X : exc → Prop) (m : M exc W A) : Prop :=
  total (λ _, True) m (λ _ _, True) (λ e _, X e).

Lemma raises_bind {A B} X (m : M exc W A) (k : A → M exc W B) :
  raises_only X m → (∀ a, raises_only X (k a)) → raises_only X (m ≫= k).
Proof. intros Hm Hk. by eapply total_bind. Qed.

Lemma raises_ret {A} X (a : A) : raises_only X (mret a).
Proof. by apply total_ret. Qed.

Lemma raises_raise {A} (X : exc → Prop) e : X e → raises_only (A := A) X (raise e).
Proof. intros He. by apply total_raise. Qed.

Lemma raises_lift {A} (X : exc → Prop) (r : exc + A) : (∀ e, r = inl e → X e) → raises_only X (lift r).
Proof. intros Hr. apply total_lift. destruct r as [e|a]; [intros w _; by apply Hr | done]. Qed.

Lemma raises_weaken {A} (X X' : exc → Prop) (m : M exc W A) :
  (∀ e, X e → X' e) → raises_only X m → raises_only X' m.
Proof. intros HX Hm. eapply total_conseq; [exact Hm | done | done | intros e w; apply HX]. Qed.

Lemma raises_never {A} X (m : M exc W A) : raises_only (λ _, False) m → raises_only X m.
Proof. by apply raises_weaken. Qed.

Lemma raises_try {A} (X X' : exc → Prop) (m : M exc W A) h :
  raises_only X m →
  (∀ e, X e → match h e with Some r => raises_only X' r | None => X' e end) →
  raises_only X' (try_except m h).
Proof.
  intros Hm Hh. eapply total_try_except; [exact Hm|]. intros e. specialize (Hh e).
  destruct (h e) as [r|]; [|intros w He; by apply Hh]. intros w He. by apply (Hh He w).
Qed.

(** [attempt] hands the exception over as a value. *)
Lemma raises_attempt {A B} (X X' : exc → Prop) (m : M exc W A) (k : exc + A → M exc W B) :
  raises_only X m → (∀ e, X e → raises_only X' (k (inl e))) → (∀ a, raises_only X' (k (inr a))) →
  raises_only X' (attempt m ≫= k).
Proof.
  intros Hm He Ha w _. specialize (Hm w Logic.I). unfold mbind, M_bind, attempt.
  destruct (m w) as [[a|e|] w']; [by apply Ha | by apply He | done].
Qed.

Lemma raises_collect {A B} X (f : A → M exc W B) l :
  (∀ x, raises_only X (f x)) → raises_only X (collect f l).
Proof.
  intros Hf. induction l as [|x l IH]; simpl; [apply raises_ret|].
  apply raises_bind; [apply Hf | intros b]. apply raises_bind; [exact IH | intros bs; apply raises_ret].
Qed.
End outcomes.

(** ** What the ports promise *)

(** Ordinary failures, except: a save may find the job changed; the insertion of
    a job with an idempotency key may find the key taken; reading an object may
    find it missing.  The validator and the authenticator refuse with business
    errors. *)
Class PortErrors (W : Type) `{!UploadRepository W, !JobRepository W, !ObjectStorage W,
    !FileValidator W, !Runtime W, !APIKeyAuthenticator W} : Prop := {
  pe_uploads_add u : raises_only (W := W) plain (uploads_add u);
  pe_uploads_get i : raises_only (W := W) plain (uploads_get i);
  pe_uploads_save u : raises_only (W := W) plain (uploads_save u);
  pe_jobs_get i : raises_only (W := W) plain (jobs_get i);
  pe_jobs_find o k : raises_only (W := W) plain (jobs_find_by_idempotency_key o k);
  pe_jobs_list o f l : raises_only (W := W) plain (jobs_list o f l);
  pe_jobs_save j e : raises_only (W := W)
    (λ x, plain x ∨ isinstance x ConcurrentJobUpdateError = true) (jobs_save_with_event j e);
  pe_jobs_save_outbox j o e : raises_only (W := W)
    (λ x, plain x ∨ isinstance x ConcurrentJobUpdateError = true) (jobs_save_with_outbox_and_event j o e);
  pe_jobs_add j o e : raises_only (W := W)
    (λ x, plain x ∨ isinstance x DuplicateIdempotencyKeyError = true ∧
                    truthy_opt (Job.idempotency_key j) = true) (jobs_add_with_outbox_and_event j o e);
  pe_target k c n h : raises_only (W := W) plain (storage_create_upload_target k c n h);
  pe_complete k u p : raises_only (W := W) plain (storage_complete_upload k u p);
  pe_stat k : raises_only (W := W) plain (storage_stat k);
  pe_get_bytes k : raises_only (W := W)
    (λ x, plain x ∨ isinstance x FileNotFoundError = true) (storage_get_bytes k);
  pe_download k : raises_only (W := W)
    (λ x, plain x ∨ isinstance x FileNotFoundError = true) (storage_create_download_url k);
  pe_validate u d : raises_only (W := W) controlled (validator_validate u d);
  pe_authenticate t : raises_only (W := W) controlled (authenticate t);
  pe_now : raises_only (W := W) (λ _, False) utc_now;
  pe_uuid7 : raises_only (W := W) (λ _, False) uuid7
}.

(** *** The domain's own errors *)

Lemma bind_ret_inl {A B} (r : exc + A) (f : A → B) e : (a ← r; mret (f a)) = inl e → r = inl e.
Proof. destruct r; [|discriminate]. intros [= <-]. done. Qed.

Lemma value_error_class e : exc_cls e = ValueError → isinstance e ValueError = true.
Proof. unfold isinstance. intros ->. apply issubclass_refl. Qed.

Lemma request_cancel_error n j e : Job.request_cancel n j = inl e → isinstance e ValueError = true.
Proof. unfold Job.request_cancel. intros [_ E]%transition_inl. by apply value_error_class. Qed.

Lemma cancel_error n1 n2 j e : Job.cancel n1 n2 j = inl e → isinstance e ValueError = true.
Proof. unfold Job.cancel. intros [_ E]%bind_ret_inl%transition_inl. by apply value_error_class. Qed.

Lemma retry_error rid n j e : Job.retry rid n j = inl e → isinstance e ValueError = true.
Proof.
  unfold Job.retry. cbv zeta. intros [_ E]%bind_ret_inl%transition_inl. by apply value_error_class.
Qed.

(** *** The two wrappers *)

Section service.
Context {W : Type}.
Context `{!UploadRepository W, !JobRepository W, !OutboxRepository W, !ObjectStorage W,
  !FileValidator W, !Runtime W, !APIKeyAuthenticator W, !PortErrors W}.

Abbreviation settles := (raises_only (W := W) controlled).

(** [special] are the classes [_database] lets through besides dependency errors. *)
Lemma raises_database {A} (special : exc → Prop) (m : M exc W A) :
  raises_only (λ e, plain e ∨ special e ∧ isinstance e Exception_ = true) m →
  raises_only (λ e, controlled e ∨ special e) (database m).
Proof.
  intros Hm. apply (raises_try _ _ _ _ Hm). intros e He.
  destruct (isinstance_any e [BusinessError; ConcurrentJobUpdateError; DependencyError;
                              DuplicateIdempotencyKeyError]) eqn:Hany.
  - destruct He as [[_ Hp]|[Hs _]]; [left|by right]. apply controlled_dependency.
    revert Hp Hany. unfold isinstance_any. simpl.
    destruct (isinstance e BusinessError), (isinstance e ConcurrentJobUpdateError),
      (isinstance e DuplicateIdempotencyKeyError), (isinstance e DependencyError); done.
  - destruct (isinstance e Exception_) eqn:Hexc.
    + apply raises_raise. left. apply controlled_database.
    + destruct He as [[He _]|[_ He]]; congruence.
Qed.

Lemma settles_database {A} (m : M exc W A) : raises_only plain m → settles (database m).
Proof.
  intros Hm. eapply (raises_weaken (λ e, controlled e ∨ False)); [naive_solver|].
  apply (raises_database (λ _, False)). eapply raises_weaken; [|exact Hm]. naive_solver.
Qed.

Lemma raises_storage {A} (special : exc → Prop) (m : M exc W A) :
  raises_only (λ e, plain e ∨ special e ∧ isinstance e Exception_ = true) m →
  raises_only (λ e, controlled e ∨ special e) (storage m).
Proof.
  intros Hm. apply (raises_try _ _ _ _ Hm). intros e He.
  destruct (isinstance_any e [BusinessError; DependencyError; FileNotFoundError]) eqn:Hany.
  - destruct He as [[_ Hp]|[Hs _]]; [left|by right]. apply controlled_dependency.
    revert Hp Hany. unfold isinstance_any. simpl.
    destruct (isinstance e BusinessError), (isinstance e FileNotFoundError),
      (isinstance e ConcurrentJobUpdateError),
      (isinstance e DuplicateIdempotencyKeyError), (isinstance e DependencyError); done.
  - destruct (isinstance e Exception_) eqn:Hexc.
    + apply raises_raise. left. by apply controlled_dependency.
    + destruct He as [[He _]|[_ He]]; congruence.
Qed.

Lemma settles_storage {A} (m : M exc W A) : raises_only plain m → settles (storage m).
Proof.
  intros Hm. eapply (raises_weaken (λ e, controlled e ∨ False)); [naive_solver|].
  apply (raises_storage (λ _, False)). eapply raises_weaken; [|exact Hm]. naive_solver.
Qed.

(** Every exception of a subclass of [Exception] is one. *)
Lemma is_exception e c : isinstance e c = true → issubclass c Exception_ = true → isinstance e Exception_ = true.
Proof. unfold isinstance. apply issubclass_trans. Qed.

(** *** The service *)

Lemma raises_now X : raises_only X (utc_now (W := W)).
Proof. apply raises_never, pe_now. Qed.

Lemma raises_uuid7 X : raises_only X (uuid7 (W := W)).
Proof. apply raises_never, pe_uuid7. Qed.

(** The steps most methods are made of. *)
Ltac settle :=
  repeat first
    [ apply raises_ret
    | apply raises_now
    | apply raises_uuid7
    | apply raises_raise; apply controlled_business; done
    | apply raises_raise; apply controlled_database
    | apply settles_database; first [apply pe_uploads_get | apply pe_uploads_add | apply pe_uploads_save
        | apply pe_jobs_get | apply pe_jobs_find | apply pe_jobs_list]
    | apply settles_storage; first [apply pe_target | apply pe_complete | apply pe_stat]
    | apply pe_validate
    | match goal with |- raises_only _ (_ ≫= _) => apply raises_bind; [|intros ?] end
    | match goal with |- raises_only _ (match ?x with _ => _ end) => destruct x eqn:? end ].

Lemma settles_owned_upload i o : settles (owned_upload i o).
Proof. unfold owned_upload. settle. Qed.

Lemma settles_owned_job i o : settles (owned_job i o).
Proof. unfold owned_job. settle. Qed.

Lemma settles_to_job_dto j : settles (to_job_dto j).
Proof. unfold to_job_dto. settle. Qed.

Lemma settles_create_upload n r o : settles (Services.create_upload n r o).
Proof. unfold Services.create_upload. cbv zeta. settle. Qed.

(** Reading an object: a missing one is answered as [missing]. *)
Lemma settles_reading {A} (m : M exc W A) missing :
  raises_only (λ x, plain x ∨ isinstance x FileNotFoundError = true) m → controlled missing →
  settles (try_except (storage m)
    (λ e, if isinstance e FileNotFoundError then Some (raise missing) else None)).
Proof.
  intros Hm Hmiss. apply (raises_try (λ e, controlled e ∨ isinstance e FileNotFoundError = true)).
  - apply (raises_storage (λ e, isinstance e FileNotFoundError = true)).
    eapply raises_weaken; [|exact Hm]. intros e [He|He]; [by left|right].
    split; [done|]. by apply (is_exception e FileNotFoundError).
  - intros e He. destruct (isinstance e FileNotFoundError) eqn:E; [by apply raises_raise|].
    destruct He as [He|He]; [done | congruence].
Qed.

Lemma settles_finish_upload u parts :
  Upload.state u = UploadState_UPLOADING → settles (finish_upload u parts).
Proof.
  intros Hu. unfold finish_upload. settle.
  - apply settles_reading; [apply pe_get_bytes | by apply controlled_business].
  - apply raises_lift. intros e He. unfold Upload.complete in He.
    by rewrite decide_True in He.
Qed.

Lemma settles_complete_upload i o s m p : settles (Services.complete_upload i o s m p).
Proof.
  unfold Services.complete_upload. apply raises_bind; [apply settles_owned_upload|]. intros u.
  settle. by apply settles_finish_upload.
Qed.

Lemma settles_replay j u r : settles (replay j u r).
Proof. unfold replay. case_match; [settle | apply settles_to_job_dto]. Qed.

(** The part of [create_job] that follows the insertion. *)
Lemma settles_create_new u r o rid key :
  match key with Some k => truthy k = true | None => True end →
  settles (create_new_job u r o rid key).
Proof.
  intros Hkey. unfold create_new_job. do 5 (apply raises_bind; [settle|]; intros ?). cbv zeta.
  set (job := Job.new _ _ _ _ _ _ _ _).
  apply (raises_attempt (λ e, controlled e ∨
    isinstance e DuplicateIdempotencyKeyError = true ∧ truthy_opt key = true)).
  - apply raises_bind; [settle|]. intros now.
    apply (raises_database (λ e, isinstance e DuplicateIdempotencyKeyError = true ∧ truthy_opt key = true)).
    eapply raises_weaken; [|exact (pe_jobs_add job _ _)]. intros e [He|[He Hk]]; [by left|right].
    split; [done|]. by apply (is_exception e DuplicateIdempotencyKeyError).
  - intros e He. destruct (isinstance e DuplicateIdempotencyKeyError) eqn:E.
    + destruct He as [He|[_ Hk]]; [|destruct key as [k|]; [|done]].
      * destruct key as [k|]; [rewrite Hkey; simpl|by apply raises_raise].
        apply raises_bind; [settle|]. intros [j|]; [apply settles_replay | settle].
      * simpl in Hk. rewrite Hk. simpl. apply raises_bind; [settle|].
        intros [j|]; [apply settles_replay | settle].
    + destruct He as [He|[He _]]; [by apply raises_raise | congruence].
  - intros _. apply settles_to_job_dto.
Qed.

Lemma settles_create_job r o rid key :
  match key with Some k => truthy k = true | None => True end →
  settles (Services.create_job r o rid key).
Proof.
  intros Hkey. unfold Services.create_job. apply raises_bind; [apply settles_owned_upload|]. intros u.
  destruct (negb _); [settle|]. apply raises_bind; [settle|].
  intros [j|]; [apply settles_replay | by apply settles_create_new].
Qed.

Lemma settles_get_job i o : settles (Services.get_job i o).
Proof.
  unfold Services.get_job. apply raises_bind; [apply settles_owned_job | apply settles_to_job_dto].
Qed.

Lemma settles_list_jobs o n m : settles (Services.list_jobs o n m).
Proof.
  unfold Services.list_jobs. apply raises_bind; [settle|]. intros [jobs total].
  apply raises_bind; [apply raises_collect, settles_to_job_dto | intros; settle].
Qed.

(** A save may report a concurrent update. *)
Definition cancel_raises (e : exc) : Prop :=
  controlled e ∨ isinstance e ConcurrentJobUpdateError = true ∨ isinstance e ValueError = true.

Lemma raises_saving {A} (m : M exc W A) :
  raises_only (λ x, plain x ∨ isinstance x ConcurrentJobUpdateError = true) m →
  raises_only (λ e, controlled e ∨ isinstance e ConcurrentJobUpdateError = true) (database m).
Proof.
  intros Hm. apply raises_database. eapply raises_weaken; [|exact Hm]. intros e [He|He]; [by left|right].
  split; [done|]. by apply (is_exception e ConcurrentJobUpdateError).
Qed.

Lemma raises_cancel_body j rid : raises_only (W := W) cancel_raises (cancel_body j rid).
Proof.
  assert (∀ r : exc + Job.t, (∀ e, r = inl e → isinstance e ValueError = true) →
    raises_only (W := W) cancel_raises (lift r)) as Hlift.
  { intros r Hr. apply raises_lift. intros e He. right. right. by apply Hr. }
  unfold cancel_body. apply raises_bind; [apply raises_now|]. intros now.
  apply raises_bind; [apply Hlift; intros e; apply request_cancel_error|]. intros j1.
  apply raises_bind.
  { case_decide; [|apply raises_ret]. do 2 (apply raises_bind; [apply raises_now | intros ?]).
    apply Hlift. intros e. apply cancel_error. }
  intros j2. apply raises_bind; [|intros []; apply raises_ret].
  unfold save_and_emit. apply raises_bind; [apply raises_now|]. intros t.
  eapply raises_weaken; [|apply raises_saving, pe_jobs_save]. unfold cancel_raises. naive_solver.
Qed.

Lemma settles_cancel_attempts l i o rid :
  l ≠ [] → (∀ n, last l = Some n → 2 ≤ n) → settles (cancel_attempts l i o rid).
Proof.
  induction l as [|n l IH]; intros Hne Hlast; [done|]. cbn [cancel_attempts].
  apply raises_bind; [apply settles_owned_job|]. intros j.
  case_decide; [settle|]. case_decide; [apply settles_to_job_dto|].
  apply (raises_attempt cancel_raises); [apply raises_cancel_body | | intros; apply settles_to_job_dto].
  intros e He. destruct (isinstance e ConcurrentJobUpdateError) eqn:Ec; simpl.
  - case_decide as Hn; [|settle]. destruct l as [|n' l].
    + specialize (Hlast n eq_refl). lia.
    + by apply IH.
  - destruct (isinstance e ValueError) eqn:Ev; [settle|]. apply raises_raise.
    destruct He as [He|[He|He]]; [done | congruence..].
Qed.

Lemma settles_retry_attempts l i o rid :
  l ≠ [] → (∀ n, last l = Some n → 2 ≤ n) → settles (retry_attempts l i o rid).
Proof.
  induction l as [|n l IH]; intros Hne Hlast; [done|]. cbn [retry_attempts].
  apply raises_bind; [apply settles_owned_job|]. intros j. apply raises_bind; [apply raises_now|]. intros now.
  destruct (Job.retry rid now j) as [e|j1] eqn:Hr.
  { rewrite (retry_error _ _ _ _ Hr). case_match; [apply settles_to_job_dto | settle]. }
  apply raises_bind; [settle|]. intros id. apply raises_bind; [settle|]. intros t. cbv zeta.
  apply (raises_attempt (λ e, controlled e ∨ isinstance e ConcurrentJobUpdateError = true)).
  - apply raises_bind; [apply raises_now|]. intros t'. apply raises_saving, pe_jobs_save_outbox.
  - intros e He. destruct (isinstance e ConcurrentJobUpdateError) eqn:Ec.
    + case_decide as Hn; [|settle]. destruct l as [|n' l].
      * specialize (Hlast n eq_refl). lia.
      * by apply IH.
    + destruct He as [He|He]; [by apply raises_raise | congruence].
  - intros [j2 ev]. apply settles_to_job_dto.
Qed.

Lemma settles_cancel_job i o rid : settles (Services.cancel_job i o rid).
Proof. apply settles_cancel_attempts; [done | by intros n [= <-]]. Qed.

Lemma settles_retry_job i o rid : settles (Services.retry_job i o rid).
Proof. apply settles_retry_attempts; [done | by intros n [= <-]]. Qed.

Lemma settles_list_artifacts i o : settles (Services.list_artifacts i o).
Proof.
  unfold Services.list_artifacts. apply raises_bind; [apply settles_owned_job|]. intros j.
  case_match; [settle|]. apply raises_collect. intros a. unfold artifact_item.
  apply raises_bind; [|intros; settle].
  apply settles_reading; [apply pe_download | by apply controlled_business].
Qed.
End service.

(** ** The application *)

(** The attributes of a dependency error are those of its class. *)
Lemma handler_for_ok details request_id now e :
  controlled e → truthy request_id = true → ∃ env, handler_for details request_id now e = Some (inr env).
Proof.
  intros He Hr.
  assert (∀ code message reason (data : option Data), code ≠ SUCCESS → truthy message = true →
    truthy reason = true → ∃ env, Some (envelope_failure now code message request_id reason data) = Some (inr env)) as Hfail.
  { intros code message reason data Hc Hm Hre.
    destruct (envelope_failure_ok now code message request_id reason data Hc Hm Hr Hre) as [env ->]. by eexists. }
  unfold handler_for. destruct (isinstance e BusinessError) eqn:Eb.
  - destruct He as [(_ & code & reason & data & Hb & Hc & Hre & Hm)|He].
    + unfold business_error_handler. rewrite Hb. by apply Hfail.
    + exfalso. revert Eb He. unfold isinstance_any, isinstance. simpl.
      destruct (exc_cls e); vm_compute; discriminate.
  - destruct He as [[He _]|He]; [congruence|].
    destruct (isinstance e DependencyError) eqn:Ed.
    + destruct (dependency_attrs e Ed) as (code & reason & msg & E1 & E2 & E3 & Hc & Hre & Hm).
      unfold dependency_error_handler. rewrite E1, E2, E3. by apply Hfail.
    + unfold isinstance_any in He. simpl in He. rewrite Ed in He. simpl in He.
      unfold validation_error_handler, http_error_handler.
      destruct (isinstance e RequestValidationError); [by apply Hfail|].
      destruct (isinstance e StarletteHTTPException); [by apply Hfail | done].
Qed.

Section application.
Context {W : Type}.
Context `{!UploadRepository W, !JobRepository W, !OutboxRepository W, !ObjectStorage W,
  !FileValidator W, !Runtime W, !APIKeyAuthenticator W, !PortErrors W}.
Context (max_upload_bytes : Z) (require_gateway_identity : bool) (dev_api_key_id : string).
Context (readiness : M exc W ReadinessReport) (validation_details : exc → json).

Abbreviation settles := (raises_only (W := W) controlled).

Lemma settles_succeed rid data : truthy rid = true → settles (succeed rid data).
Proof.
  intros Hr. unfold succeed. apply raises_bind; [apply raises_now|]. intros now. apply raises_lift.
  intros e He. destruct (envelope_success_ok now data rid ok_message eq_refl Hr) as [env Henv]. congruence.
Qed.

Lemma settles_authenticated a : settles (get_authenticated_owner_id require_gateway_identity dev_api_key_id a).
Proof.
  unfold get_authenticated_owner_id.
  repeat (case_match; try (apply raises_raise; by apply controlled_business));
    first [apply pe_authenticate | apply raises_ret].
Qed.

Lemma settles_validated {A} (r : exc + A) : settles (validated r).
Proof.
  unfold validated. apply raises_lift. intros e He. destruct r; [|done]. injection He as <-. by right.
Qed.

Lemma settles_stream i l o : settles (stream_job_events i l o).
Proof.
  unfold stream_job_events, get_job_domain. apply raises_bind; [apply settles_owned_job|]. intros j.
  apply raises_bind; [|intros; apply raises_ret].
  apply (raises_try (λ e, isinstance e ValueError = true)).
  - apply raises_bind; [|intros s; case_decide; [by apply raises_raise | apply raises_ret]].
    apply raises_lift. intros e. case_match; [|done]. unfold int_base10.
    repeat case_match; intros [= <-]; done.
  - intros e ->. apply raises_raise. by apply controlled_business.
Qed.

Lemma key_length_truthy key : negb ((1 <=? py_len key) && (py_len key <=? 160)) = false → truthy key = true.
Proof. by destruct key. Qed.

Context (Hready : total (λ _, True) readiness (λ r _, report_internal_code r ≠ Some SUCCESS) never).

Lemma settles_ready rid : truthy rid = true → settles (ready_route readiness rid).
Proof.
  intros Hr. unfold ready_route. eapply total_bind; [apply total_never, Hready|]. intros report.
  apply (total_fact (report_internal_code report ≠ Some SUCCESS)); [done|]. intros Hcode.
  apply total_pre with (λ _, True); [|done].
  change (settles (if ready report then succeed rid (DHealth (if ready report then "ready" else "not_ready")
      (report_checks report))
    else now ← utc_now; lift (envelope_failure now (default INTERNAL_CONTROLLED_ERROR (report_internal_code report))
      "服务依赖尚未就绪" rid (or_str (report_error_reason report) "readiness_dependency_unavailable")
      (Some (DHealth (if ready report then "ready" else "not_ready") (report_checks report)))))).
  destruct (ready report); [by apply settles_succeed|].
  apply raises_bind; [apply raises_now|]. intros now. apply raises_lift. intros e He. exfalso.
  destruct (envelope_failure_ok now (default INTERNAL_CONTROLLED_ERROR (report_internal_code report))
    "服务依赖尚未就绪" rid (or_str (report_error_reason report) "readiness_dependency_unavailable")
    (Some (DHealth "not_ready" (report_checks report)))) as [env Henv]; [ | done | done | | congruence].
  - destruct (report_internal_code report) as [c|]; [|done]. intros E. simpl in E. by rewrite E in Hcode.
  - unfold or_str. destruct (report_error_reason report) as [s|]; [|done]. by destruct (truthy s) eqn:Es.
Qed.

Lemma settles_endpoint request rid :
  truthy rid = true →
  settles (endpoint max_upload_bytes require_gateway_identity dev_api_key_id readiness request rid).
Proof.
  intros Hr.
  assert (∀ k : string → M exc W Content, (∀ o, settles (k o)) →
    settles (with_owner require_gateway_identity dev_api_key_id request k)) as Howner
    by (intros k Hk; apply raises_bind; [apply settles_authenticated | exact Hk]).
  assert (∀ {A} (m : M exc W A) f, settles m →
    settles (in_envelope (a ← m; succeed rid (f a)))) as Henv.
  { intros A m f Hm. apply raises_bind; [|intros; apply raises_ret].
    apply raises_bind; [exact Hm | intros a; by apply settles_succeed]. }
  assert (∀ {A} (r : exc + A) (k : A → M exc W Content), (∀ a, settles (k a)) →
    settles (a ← validated r; k a)) as Hval
    by (intros A r k Hk; apply raises_bind; [apply settles_validated | exact Hk]).
  unfold endpoint. destruct (call request) as [| ? [payload|] | | | | | | | | | |]; try apply Howner; intros;
    try apply Hval; intros; try apply Henv.
  - apply settles_create_upload.
  - apply settles_complete_upload.
  - apply settles_complete_upload.
  - unfold create_job_route. case_match eqn:E;
      [apply raises_bind; [apply raises_raise; by apply controlled_business | intros; apply raises_ret]|].
    apply Henv, settles_create_job. case_match; [by apply key_length_truthy | done].
  - apply settles_list_jobs.
  - apply settles_get_job.
  - apply settles_cancel_job.
  - apply settles_retry_job.
  - apply settles_list_artifacts.
  - apply settles_stream.
  - apply raises_bind; [by apply settles_succeed | intros; apply raises_ret].
  - apply raises_bind; [by apply settles_ready | intros; apply raises_ret].
  - apply raises_raise. by right.
Qed.

(** C29: every request is answered, and with HTTP status 200, as long as the
    ports raise what [PortErrors] allows and the readiness report names a failure
    by an error code: business errors, failing dependencies, invalid requests,
    lost races of saves and a taken idempotency key are all controlled answers,
    and the transport error is left to faults outside these promises. *)
Theorem controlled_answers request w :
  ∃ resp w', app max_upload_bytes require_gateway_identity dev_api_key_id readiness validation_details
    request w = (Ret resp, w') ∧
  status_code resp = 200 ∧ is_Some (header_out resp).
Proof.
  assert (total (λ _, True) (app max_upload_bytes require_gateway_identity dev_api_key_id readiness
    validation_details request) (λ resp _, status_code resp = 200 ∧ is_Some (header_out resp)) never) as Happ.
  - unfold app. apply total_bind with (Q := λ rid _, truthy rid = true).
    + unfold request_id_of. case_match eqn:E.
      * apply total_ret. intros _ _. by apply take_str_truthy.
      * eapply total_bind; [exact (raises_uuid7 _)|]. intros id. apply total_ret. intros _ _. apply uuid_str_truthy.
    + intros rid. apply (total_fact (truthy rid = true)); [done|]. intros Hr.
      apply total_pre with (λ _, True); [|done].
      apply total_try_except with (X := never); [|intros e; destruct (isinstance e Exception_); intros u []].
      eapply total_bind with (Q := λ _ _, True); [|intros c; apply total_ret; intros; by split].
      unfold guarded. eapply total_try_except; [by apply settles_endpoint|].
      intros e. destruct (isinstance_any e _) eqn:Hany.
      * intros u He. assert (raises_only (λ _, False) (now ← utc_now;
          envelope ← lift (default (inl e) (handler_for validation_details rid now e));
          mret (JSONResponse envelope))) as Hh; [|exact (Hh u Logic.I)].
        apply raises_bind; [apply raises_now|]. intros now.
        destruct (handler_for_ok validation_details rid now e He Hr) as [env ->].
        apply raises_bind; [by apply raises_lift | intros; apply raises_ret].
      * intros u [[Hb _]|Hc]; unfold isinstance_any in *; simpl in *; [by rewrite Hb in Hany|].
        destruct (isinstance e BusinessError), (isinstance e DependencyError),
          (isinstance e RequestValidationError), (isinstance e StarletteHTTPException); done.
  - specialize (Happ w Logic.I). destruct (app _ _ _ _ _ _ w) as [[resp|e|] w']; [|done..]. by eexists _, _.
Qed.
End application.

(** ** The in-memory ports keep the promises *)

Section memory.

Lemma raises_gets {W A} X (f : W → A) : raises_only X (gets f).
Proof. intros w _. exact Logic.I. Qed.

Lemma raises_modify {W} X (f : W → W) : raises_only X (modify f).
Proof. intros w _. exact Logic.I. Qed.

(** The steps of the in-memory methods. *)
Ltac memory_raises :=
  repeat first
    [ apply raises_ret | apply raises_gets | apply raises_modify
    | apply raises_raise; first [by split; vm_compute | by left; split; vm_compute | by right; vm_compute]
    | match goal with |- raises_only _ (_ ≫= _) => apply raises_bind; [|intros ?] end
    | match goal with |- raises_only _ (match ?x with _ => _ end) => destruct x eqn:? end ].

Lemma raises_memory_append X e : raises_only X (InMemoryJobEventRepository.append e).
Proof. unfold InMemoryJobEventRepository.append. cbv zeta. memory_raises. Qed.

Lemma raises_memory_save j e : raises_only (λ x, plain x ∨ isinstance x ConcurrentJobUpdateError = true)
  (InMemoryJobRepository.save_with_event j e).
Proof.
  unfold InMemoryJobRepository.save_with_event, InMemoryJobRepository.check_revision. cbv zeta.
  memory_raises; [].
  intros w _. unfold try_else. pose proof (raises_memory_append (λ _, False) e w Logic.I) as Ha.
  by destruct (InMemoryJobEventRepository.append e w) as [[]].
Qed.

Lemma fine_validation u d : raises_only (W := World) controlled (validator_validate u d).
Proof.
  apply raises_lift. unfold validate. intros e.
  repeat case_match; intros [= <-]; by apply controlled_business.
Qed.

#[export] Instance memory_port_errors owner :
  PortErrors World (APIKeyAuthenticator0 := DevelopmentAPIKeyAuthenticator owner).
Proof.
  split; intros; simpl; unfold atomic, atomic_alone; simpl.
  all: try apply fine_validation; try apply raises_memory_save; try (intros ? _; exact Logic.I).
  - unfold InMemoryUploadRepository.add. memory_raises.
  - unfold InMemoryUploadRepository.save. memory_raises.
  - unfold save_with_outbox_and_event. apply raises_bind; [apply raises_memory_save|]. intros a.
    simpl. unfold InMemoryOutboxRepository.add. memory_raises.
  - unfold add_with_outbox_and_event. apply raises_bind; [|intros ?].
    + unfold atomic, atomic_alone, InMemoryJobRepository.add. memory_raises.
      apply raises_raise. right. split; [by vm_compute|].
      destruct (Job.idempotency_key j) as [k|]; [|done]. simpl in *. by destruct (truthy k).
    + simpl. unfold InMemoryOutboxRepository.add, atomic, atomic_alone. memory_raises.
      apply raises_memory_append.
  - unfold InMemoryObjectStorage.get_bytes. memory_raises.
  - unfold InMemoryObjectStorage.create_download_url. memory_raises.
Qed.
End memory.

(** ** A concrete request: an unknown job, on the development container *)

Module SampleHttp.
#[global] Instance authenticator : APIKeyAuthenticator World := DevelopmentAPIKeyAuthenticator "dev".

(** [ReadinessService()] has no checks. *)
Definition readiness : M exc World ReadinessReport := check (λ _ m, m) (λ l, l) 1000000 [].

Definition serve : Request → M exc World Response := app 1000 false "dev" readiness (λ _, JNull).

Definition request : Request := MkRequest "req-1" (Some "Bearer token") (CallCancelJob 5).

Lemma readiness_total : total (λ _, True) readiness (λ r _, report_internal_code r ≠ Some SUCCESS) never.
Proof. intros w _. discriminate. Qed.
End SampleHttp.

Lemma controlled_answers_witness :
  (∃ resp w', SampleHttp.serve SampleHttp.request empty_world = (Ret resp, w') ∧
     status_code resp = 200 ∧ is_Some (header_out resp)) ∧
  match (SampleHttp.serve SampleHttp.request empty_world).1 with
  | Ret (MkResponse _ _ (JSONResponse env)) =>
      (env_internal_code env, env_error_reason env, env_request_id env) =
      (JOB_NOT_FOUND, Some "job_not_found", "req-1")
  | _ => False
  end.
Proof.
  split.
  - exact (controlled_answers 1000 false "dev" SampleHttp.readiness (λ _, JNull) SampleHttp.readiness_total
      SampleHttp.request empty_world).
  - vm_compute. reflexivity.
Defined.
