(* ===== verification/HttpStream.v ===== *)
(** * The event stream

    Models the generator of [stream_job_events] in
    [interfaces/http/v1/router.py]: [generate] with its loop variable [sequence].
    What it yields goes to the client ([yield_]); [model_dump_json] is pydantic's
    rendering of an envelope.  The loop runs until the client leaves or the job is
    over, so it takes fuel, one unit per round.

    - [stream_exactly_once]: what a client has received is, heartbeats apart, the
      log of the job after the sequence it asked for, in order, each event once,
      at every moment and however the log grows meanwhile, and why it ends;
    - [stream_misses_the_end]: it may end without the last event, when the job
      ends between a poll and the reading of the job. *)

From S2P Require Import Prelude PyData PyText Json Status Domain Ports Dto Services Memory MemoryFacts Http.

#[local] Open Scope Z_scope.

(** The client's end of the response. *)
Class EventClient (W : Type) := {
  yield_ : string → M exc W ();
  is_disconnected : M exc W bool
}.

Section generate.
Context {W : Type}.
Context `{!UploadRepository W, !JobRepository W, !JobEventRepository W, !Runtime W, !EventClient W}.
Context (model_dump_json : ApiEnvelope JobEventDTO → string).
Context (sse_heartbeat_seconds : Z).

Definition newline : string := of_chars [Ascii.ascii_of_N 10].
Definition heartbeat : string := ": heartbeat" +:+ newline +:+ newline.

Definition chunk (event : JobEvent.t) (envelope : ApiEnvelope JobEventDTO) : string :=
  "id: " +:+ str_Z (JobEvent.sequence event) +:+ newline +:+
  "event: " +:+ JobEvent.event_type event +:+ newline +:+
  "data: " +:+ model_dump_json envelope +:+ newline +:+ newline.

(** [for event in pending] *)
Fixpoint send_pending (pending : list JobEvent.t) (sequence : Z) : M exc W Z :=
  match pending with
  | [] => mret sequence
  | event :: pending =>
      let sequence := JobEvent.sequence event in
      now ← utc_now;
      envelope ← lift (envelope_success now (event_dto event) (JobEvent.request_id event) ok_message);
      _ ← yield_ (chunk event envelope);
      send_pending pending sequence
  end.

(** [last.payload.get("attempt") == latest.attempt] *)
Definition attempt_is (event : JobEvent.t) (attempt : Z) : bool :=
  py_eq (default JNull (dget (JobEvent.payload event) "attempt")) (JInt attempt).

Fixpoint generate (fuel : nat) (job_id : UUID) (owner_id : string) (sequence : Z) : M exc W () :=
  match fuel with
  | O => out_of_fuel
  | S fuel =>
      pending ← events_list_after job_id sequence;
      pending ← match pending with
                | [] => events_wait_after job_id sequence sse_heartbeat_seconds
                | _ => mret pending
                end;
      match pending with
      | [] =>
          disconnected ← is_disconnected;
          if disconnected : bool then mret () else
          latest ← get_job_domain job_id owner_id;
          if Job.terminal latest then mret () else
          _ ← yield_ heartbeat;
          generate fuel job_id owner_id sequence
      | first :: rest =>
          sequence ← send_pending pending sequence;
          latest ← get_job_domain job_id owner_id;
          let last := List.last rest first in
          if Job.terminal latest && bool_decide (JobEvent.state last = Job.state latest) &&
             attempt_is last (Job.attempt latest)
          then mret ()
          else generate fuel job_id owner_id sequence
      end
  end.
End generate.

(** ** Logs *)

(** The events of a log with a sequence above [s], and those up to [t]. *)
Definition after (s : Z) (events : list JobEvent.t) : list JobEvent.t :=
  filter (λ e, s < JobEvent.sequence e) events.
Definition between (s t : Z) (events : list JobEvent.t) : list JobEvent.t :=
  filter (λ e, s < JobEvent.sequence e ∧ JobEvent.sequence e ≤ t) events.

Definition numbered (events : list JobEvent.t) : Prop :=
  JobEvent.sequence <$> events = seqZ 1 (Z.of_nat (length events)).

Lemma numbered_lookup events k e :
  numbered events → events !! k = Some e → JobEvent.sequence e = Z.of_nat k + 1.
Proof.
  intros Hn Hk. assert ((JobEvent.sequence <$> events) !! k = Some (JobEvent.sequence e)) as Hs
    by (by rewrite list_lookup_fmap, Hk).
  rewrite Hn in Hs. apply lookup_seqZ in Hs. lia.
Qed.

Lemma numbered_bound events e : numbered events → e ∈ events → 1 ≤ JobEvent.sequence e ≤ Z.of_nat (length events).
Proof.
  intros Hn [k Hk]%list_elem_of_lookup. rewrite (numbered_lookup _ _ _ Hn Hk).
  apply lookup_lt_Some in Hk. lia.
Qed.

Lemma numbered_split events e :
  numbered (events ++ [e]) → numbered events ∧ JobEvent.sequence e = Z.of_nat (length events) + 1.
Proof.
  intros Hn. split.
  - unfold numbered in *. rewrite fmap_app, length_app in Hn.
    replace (Z.of_nat (length events + length [e])) with (Z.of_nat (length events) + 1) in Hn by (simpl; lia).
    rewrite seqZ_app in Hn by lia. apply app_inj_1 in Hn as [Hn _]; [done|].
    rewrite length_fmap, length_seqZ. lia.
  - apply (numbered_lookup _ (length events) e Hn). apply list_lookup_middle. done.
Qed.

Lemma filter_ext_in {A} (P Q : A → Prop) `{!∀ x, Decision (P x), !∀ x, Decision (Q x)} (l : list A) :
  (∀ x, x ∈ l → P x ↔ Q x) → filter P l = filter Q l.
Proof.
  induction l as [|x l IH]; intros Heq; [done|]. rewrite !filter_cons.
  rewrite (decide_ext (P x) (Q x)) by (apply Heq; left). rewrite IH by (intros y Hy; apply Heq; by right). done.
Qed.

Lemma between_none s events : between s s events = [].
Proof. unfold between. induction events as [|e l IH]; [done|]. by rewrite filter_cons_False by lia. Qed.

(** In a numbered log both are sublists by position. *)
Lemma between_drop s t l :
  numbered l → 0 ≤ s → between s t l = drop (Z.to_nat s) (take (Z.to_nat t) l).
Proof.
  intros Hn Hs. induction l as [|e l IH] using rev_ind; [by rewrite take_nil, drop_nil|].
  apply numbered_split in Hn as [Hn He]. unfold between. rewrite filter_app. fold (between s t l).
  rewrite IH by done. rewrite filter_cons, filter_nil, He.
  destruct (decide (t ≤ Z.of_nat (length l))).
  - rewrite decide_False by lia. rewrite app_nil_r. by rewrite take_app_le by lia.
  - rewrite !(take_ge _ (Z.to_nat t)) by (rewrite ?length_app; simpl; lia).
    destruct (decide (s ≤ Z.of_nat (length l))).
    + rewrite decide_True by lia. by rewrite drop_app_le by lia.
    + rewrite decide_False by lia. rewrite app_nil_r.
      by rewrite !drop_ge by (rewrite ?length_app; simpl; lia).
Qed.

Lemma after_drop s l : numbered l → 0 ≤ s → after s l = drop (Z.to_nat s) l.
Proof.
  intros Hn Hs. rewrite <- (take_ge l (Z.to_nat (Z.of_nat (length l)))) at 2 by lia.
  rewrite <- between_drop by done. apply filter_ext_in. intros e He.
  pose proof (numbered_bound _ _ Hn He). lia.
Qed.

(** Nothing is added below a sequence the log has reached. *)
Lemma between_extend s t l k :
  numbered (l ++ k) → numbered l → 0 ≤ s → t ≤ Z.of_nat (length l) → between s t (l ++ k) = between s t l.
Proof.
  intros Hn1 Hn2 Hs Ht. rewrite !between_drop by done. by rewrite take_app_le by lia.
Qed.

Lemma between_step s t l e :
  numbered l → 0 ≤ s ≤ t → l !! Z.to_nat t = Some e → between s (t + 1) l = between s t l ++ [e].
Proof.
  intros Hn Hs He. rewrite !between_drop by (done || lia).
  replace (Z.to_nat (t + 1)) with (S (Z.to_nat t)) by lia. rewrite (take_S_r _ _ _ He).
  pose proof (lookup_lt_Some _ _ _ He). rewrite drop_app_le; [done|]. rewrite length_take. lia.
Qed.

(** ** What the stream relies on *)

Section stream.
Context {W : Type} (inv : W → Prop) (log : W → UUID → list JobEvent.t) (sent : W → list string).

(** Logs only grow.  Only the stream itself sends to its client. *)
Definition grown (w w' : W) : Prop := ∀ i, log w i `prefix_of` log w' i.
Definition unsent (w w' : W) : Prop := grown w w' ∧ sent w' = sent w.

#[export] Instance grown_preorder : PreOrder grown.
Proof.
  split; [intros w i; reflexivity|]. intros w1 w2 w3 H1 H2 i. etransitivity; [apply H1|apply H2].
Qed.

#[export] Instance unsent_preorder : PreOrder unsent.
Proof.
  split; [intros w; by split|]. intros w1 w2 w3 [G1 E1] [G2 E2]. split; [by transitivity w2 | congruence].
Qed.

Definition untouched {A} (m : M exc W A) : Prop :=
  rg inv unsent (λ _, True) m (λ _ _, True) (λ _ _, True).

(** The event repository reads the log, possibly a part at a time; [list_after]
    reads nothing only when nothing is there ([wait_after] may give up); the other
    ports leave client and logs alone, logs apart from growing; sending appends
    what is sent. *)
Class EventLog `{!UploadRepository W, !JobRepository W, !JobEventRepository W, !Runtime W, !EventClient W} := {
  log_is_numbered w i : inv w → numbered (log w i);
  list_after_log i s : rg inv unsent (λ _, True) (events_list_after i s)
    (λ r w, r `prefix_of` after s (log w i) ∧ (r = [] → after s (log w i) = [])) (λ _ _, True);
  wait_after_log i s t : rg inv unsent (λ _, True) (events_wait_after i s t)
    (λ r w, r `prefix_of` after s (log w i)) (λ _ _, True);
  get_untouched i : untouched (jobs_get i);
  now_untouched : untouched utc_now;
  disconnected_untouched : untouched is_disconnected;
  yield_sends c w : inv w →
    inv (yield_ c w).2 ∧ grown w (yield_ c w).2 ∧
    match (yield_ c w).1 with
    | Ret _ => sent (yield_ c w).2 = sent w ++ [c]
    | _ => sent (yield_ c w).2 = sent w
    end
}.

Context `{!UploadRepository W, !JobRepository W, !JobEventRepository W, !Runtime W, !EventClient W, !EventLog}.
Context (model_dump_json : ApiEnvelope JobEventDTO → string) (sse_heartbeat_seconds : Z).
Context (job_id : UUID) (start : Z) (before : list string).

(** What is sent: heartbeats, and events in valid envelopes. *)
Inductive frame := Heartbeat | Event (e : JobEvent.t) (env : ApiEnvelope JobEventDTO).

Definition render (f : frame) : string :=
  match f with Heartbeat => heartbeat | Event e env => chunk model_dump_json e env end.
Definition event_of (f : frame) : option JobEvent.t :=
  match f with Heartbeat => None | Event e _ => Some e end.
Definition enveloped (f : frame) : Prop :=
  match f with
  | Heartbeat => True
  | Event e env => ∃ now, envelope_success now (event_dto e) (JobEvent.request_id e) ok_message = inr env
  end.

(** The client has received the log from [start] up to [s], in order. *)
Definition received (s : Z) (w : W) : Prop :=
  0 ≤ start ≤ s ∧ (s = start ∨ s ≤ Z.of_nat (length (log w job_id))) ∧
  ∃ frames, sent w = before ++ map render frames ∧ Forall enveloped frames ∧
    omap event_of frames = between start s (log w job_id).

Lemma received_stable s w w' :
  inv w → inv w' → unsent w w' → received s w → received s w'.
Proof.
  intros Hi Hi' [Hg Hs] (Hle & Hlen & fs & Hf & He & Hev). destruct (Hg job_id) as [k Hk].
  split_and!; [lia | lia | |].
  - destruct Hlen as [?|?]; [by left|right]. rewrite Hk, length_app. lia.
  - exists fs. split_and!; [by rewrite Hs | done |]. rewrite Hev, Hk.
    destruct Hlen as [->|Hlen]; [by rewrite !between_none|].
    rewrite between_extend; [done | | | lia | done].
    + rewrite <- Hk. by apply log_is_numbered.
    + by apply log_is_numbered.
Qed.

(** The stream's own steps may send; what holds at all times, and so also when
    the fuel of [generate] is used up, is that the client has received the log up
    to some sequence. *)
Definition streaming (w : W) : Prop := inv w ∧ ∃ s, received s w.
Abbreviation srg P m Q := (rg streaming grown P m Q (λ _ _, True)).

(** An assertion the other ports keep. *)
Definition kept (F : W → Prop) : Prop :=
  (∀ w w', inv w → inv w' → unsent w w' → F w → F w') ∧ (∀ w, F w → ∃ s, received s w).

Lemma kept_received s : kept (received s).
Proof. split; [intros w w'; apply received_stable | intros w Hw; by exists s]. Qed.

Lemma srg_port {A} (m : M exc W A) Q F :
  kept F → rg inv unsent (λ _, True) m Q (λ _ _, True) → srg F m (λ a w, Q a w ∧ F w).
Proof.
  intros [HF Hex] Hm w [Hi _] Hr. destruct (Hm w Hi Logic.I) as (Hi' & Hu & Hpost).
  pose proof (HF w _ Hi Hi' Hu Hr) as Hr'. split_and!; [split; [done | by apply Hex] | apply Hu |].
  by destruct ((m w).1).
Qed.

(** A port whose result does not matter. *)
Lemma srg_skip {A} (m : M exc W A) F : kept F → untouched m → srg F m (λ _, F).
Proof.
  intros HF Hm. eapply rg_conseq; [by apply (srg_port m (λ _ _, True) F HF) | done | | done].
  by intros a w [_ ?].
Qed.

(** A port whose result is kept with the world it was asked in. *)
Lemma srg_at {A} (m : M exc W A) (F : W → Prop) s :
  (∀ w, F w → received s w) → untouched m →
  srg F m (λ a w, received s w ∧ ∃ w0, F w0 ∧ m w0 = (Ret a, w)).
Proof.
  intros HF Hm w [Hi _] Hw. destruct (Hm w Hi Logic.I) as (Hi' & Hu & _).
  pose proof (received_stable s w _ Hi Hi' Hu (HF w Hw)) as Hr'. destruct (m w) as [r w'] eqn:E. simpl in *.
  split_and!; [split; [done | by exists s] | apply Hu |]. destruct r; [|done..]. split; [done | by exists w].
Qed.

Lemma srg_yield c (F Q : W → Prop) :
  kept F → (∀ w, Q w → ∃ s, received s w) →
  (∀ w w', inv w → inv w' → grown w w' → F w → sent w' = sent w ++ [c] → Q w') →
  srg F (yield_ c) (λ _, Q).
Proof.
  intros [HF Hex] HQex HQ w [Hi _] Hr. destruct (yield_sends c w Hi) as (Hi' & Hg & Hpost).
  assert (unsent w (yield_ c w).2 → streaming (yield_ c w).2) as Hno.
  { intros Hu. split; [done|]. by apply Hex, (HF w _ Hi Hi' Hu). }
  split_and!; [|done|].
  - destruct ((yield_ c w).1); [|by apply Hno..]. split; [done|]. by apply HQex, (HQ w).
  - destruct ((yield_ c w).1); [by apply (HQ w) | done..].
Qed.

Lemma received_frame s s' f w w' :
  inv w → inv w' → grown w w' → received s w → sent w' = sent w ++ [render f] → enveloped f →
  s ≤ s' → s' = start ∨ s' ≤ Z.of_nat (length (log w job_id)) →
  between start s' (log w job_id) = between start s (log w job_id) ++ option_list (event_of f) →
  received s' w'.
Proof.
  intros Hi Hi' Hg (Hle & _ & fs & Hf & He & Hev) Hs Hf' Hle' Hlen Hb.
  destruct (Hg job_id) as [k Hk]. split_and!; [lia | lia | |].
  - destruct Hlen as [?|?]; [by left|right]. rewrite Hk, length_app. lia.
  - exists (fs ++ [f]). split_and!.
    + by rewrite Hs, Hf, map_app, app_assoc.
    + apply Forall_app. by split; [|constructor].
    + rewrite omap_app, Hev. simpl.
      assert (between start s' (log w' job_id) = between start s' (log w job_id)) as ->.
      { rewrite Hk. destruct Hlen as [->|Hlen]; [by rewrite !between_none|].
        apply between_extend; [rewrite <- Hk; by apply log_is_numbered | by apply log_is_numbered | lia | done]. }
      rewrite Hb. by destruct (event_of f).
Qed.

(** *** Sending the pending events *)

Definition ahead (s : Z) (pending : list JobEvent.t) (w : W) : Prop :=
  ∃ k, after s (log w job_id) = pending ++ k.

Lemma ahead_stable s pending w w' : inv w → inv w' → grown w w' → ahead s pending w → ahead s pending w'.
Proof.
  intros Hi Hi' Hg [k Hk]. destruct (Hg job_id) as [l Hl]. exists (k ++ after s l).
  rewrite Hl. unfold after in *. by rewrite filter_app, Hk, app_assoc.
Qed.

(** The first pending event is the next one of the log. *)
Lemma ahead_next s e pending w :
  inv w → 0 ≤ s → ahead s (e :: pending) w →
  JobEvent.sequence e = s + 1 ∧ log w job_id !! Z.to_nat s = Some e ∧ ahead (s + 1) pending w.
Proof.
  intros Hi Hs [k Hk]. pose proof (log_is_numbered w job_id Hi) as Hn.
  rewrite after_drop in Hk by done.
  assert (log w job_id !! Z.to_nat s = Some e) as Hl.
  { rewrite <- (Nat.add_0_r (Z.to_nat s)), <- lookup_drop, Hk. done. }
  split_and!; [rewrite (numbered_lookup _ _ _ Hn Hl); lia | done |].
  exists k. rewrite after_drop by (done || lia). replace (Z.to_nat (s + 1)) with (Z.to_nat s + 1)%nat by lia.
  by rewrite <- drop_drop, Hk.
Qed.

Lemma kept_ahead s pending : kept (λ w, received s w ∧ ahead s pending w).
Proof.
  split; [|intros w [Hw _]; by exists s]. intros w w' Hi Hi' Hu [Hr Ha].
  split; [by apply (received_stable s w) | by apply (ahead_stable s pending w w' Hi Hi' (proj1 Hu))].
Qed.

(** [e] is the event of the log at [s]. *)
Definition at_log (s : Z) (e : JobEvent.t) (w : W) : Prop :=
  start < s ∧ log w job_id !! Z.to_nat (s - 1) = Some e.

Lemma at_log_grown s e w w' : grown w w' → at_log s e w → at_log s e w'.
Proof. intros Hg [Hs He]. split; [done|]. by eapply prefix_lookup_Some. Qed.

(** Sending the next event of the log moves the stream to it. *)
Lemma sent_next s e pending env now w w' :
  inv w → inv w' → grown w w' → received s w → ahead s (e :: pending) w →
  envelope_success now (event_dto e) (JobEvent.request_id e) ok_message = inr env →
  sent w' = sent w ++ [chunk model_dump_json e env] →
  received (JobEvent.sequence e) w' ∧ at_log (JobEvent.sequence e) e w' ∧ ahead (JobEvent.sequence e) pending w'.
Proof.
  intros Hi Hi' Hg Hr Ha Henv Hs.
  destruct (ahead_next s e pending w Hi ltac:(destruct Hr; lia) Ha) as (He & Hl & Ha').
  pose proof (lookup_lt_Some _ _ _ Hl) as Hlt. rewrite <- He in Ha'. split_and!.
  - apply (received_frame s _ (Event e env) w w' Hi Hi' Hg Hr Hs); [by exists now | lia | right; lia |].
    rewrite He. apply between_step; [by apply log_is_numbered | destruct Hr; lia | done].
  - apply (at_log_grown _ _ w); [done|]. split; [destruct Hr; lia|]. rewrite He. by replace (s + 1 - 1) with s by lia.
  - by apply (ahead_stable _ _ w).
Qed.

Lemma last_cons_default {A} (l : list A) x d : List.last (x :: l) d = List.last l x.
Proof. revert x d. induction l as [|y l IH]; intros x d; [done|]. by rewrite (IH y x), <- (IH y d). Qed.

Lemma srg_send_next e pending s Q :
  srg (λ w, received (JobEvent.sequence e) w ∧ at_log (JobEvent.sequence e) e w ∧
            ahead (JobEvent.sequence e) pending w)
    (send_pending model_dump_json pending (JobEvent.sequence e)) Q →
  srg (λ w, received s w ∧ ahead s (e :: pending) w) (send_pending model_dump_json (e :: pending) s) Q.
Proof.
  intros Hrest. cbn [send_pending].
  rule_bind; [apply srg_skip; [apply kept_ahead | apply now_untouched]|]. intros now.
  rule rg_bind_lift. destruct (envelope_success _ _ _ _) as [x|env] eqn:Henv; [done|].
  rule_bind mid (λ _ w, received (JobEvent.sequence e) w ∧ at_log (JobEvent.sequence e) e w ∧
    ahead (JobEvent.sequence e) pending w); [|intros _; exact Hrest].
  apply srg_yield; [apply kept_ahead | intros w [Hw _]; by eexists|]. intros w w' Hi Hi' Hg [Hr Ha] Hs.
  by apply (sent_next s e pending env now w).
Qed.

(** Every pending event is sent; the last of them is where the stream is then. *)
Lemma srg_send e pending s :
  srg (λ w, received s w ∧ ahead s (e :: pending) w) (send_pending model_dump_json (e :: pending) s)
    (λ s' w, received s' w ∧ at_log s' (List.last pending e) w).
Proof.
  revert e s. induction pending as [|e' pending IH]; intros e s; apply srg_send_next.
  - rule rg_ret. intros w (Hr & Ha & _). by split.
  - eapply rg_conseq; [apply IH | | | done].
    + intros w (Hr & _ & Ha). by split.
    + intros s' w. by rewrite last_cons_default.
Qed.

(** *** The loop *)

Lemma untouched_job o : untouched (get_job_domain job_id o).
Proof.
  unfold get_job_domain, owned_job, database. rule_bind.
  - rule rg_try_except; [apply get_untouched|]. intros e. destruct (isinstance_any e _); [done|].
    destruct (isinstance e Exception_); [by rule rg_raise | done].
  - intros [j|]; [|by rule rg_raise]. case_match; [by rule rg_raise | by rule rg_ret].
Qed.

Lemma untouched_wait s : untouched (events_wait_after job_id s sse_heartbeat_seconds).
Proof. eapply rg_conseq; [apply wait_after_log | done..]. Qed.

(** The poll before [w] found nothing after [s], neither at once nor by waiting. *)
Definition polled (s : Z) (w : W) : Prop :=
  ∃ w0, after s (log w0 job_id) = [] ∧ events_wait_after job_id s sse_heartbeat_seconds w0 = (Ret [], w).

(** Why a stream that has sent the log up to [s] ends in [w]: a poll found nothing
    after [s] and then the client had left, or was there and the job had ended; or
    the event at [s], the last one sent, tells the end of the present attempt of
    the job that was then read. *)
Definition finished (o : string) (s : Z) (w : W) : Prop :=
  (∃ w0, polled s w0 ∧ is_disconnected w0 = (Ret true, w)) ∨
  (∃ w0 w1 latest, polled s w0 ∧ is_disconnected w0 = (Ret false, w1) ∧
     get_job_domain job_id o w1 = (Ret latest, w) ∧ Job.terminal latest = true) ∨
  (∃ w0 e latest, at_log s e w0 ∧ get_job_domain job_id o w0 = (Ret latest, w) ∧
     Job.terminal latest = true ∧ JobEvent.state e = Job.state latest ∧
     attempt_is e (Job.attempt latest) = true).

Lemma srg_poll s r1 :
  srg (λ w, (r1 `prefix_of` after s (log w job_id) ∧ (r1 = [] → after s (log w job_id) = [])) ∧ received s w)
    (match r1 with [] => events_wait_after job_id s sse_heartbeat_seconds | _ => mret r1 end)
    (λ r w, received s w ∧ ahead s r w ∧ (r = [] → polled s w)).
Proof.
  destruct r1 as [|e r].
  - intros w [Hi He] [[_ Hn] Hr]. specialize (Hn eq_refl).
    destruct (srg_port _ _ _ (kept_received s) (wait_after_log job_id s sse_heartbeat_seconds) w (conj Hi He) Hr)
      as (? & ? & Hpost). split_and!; [done..|].
    destruct (events_wait_after job_id s sse_heartbeat_seconds w) as [[r|e|] w'] eqn:E; [|done..].
    destruct Hpost as [[k Hk] Hr']. split_and!; [done | by exists k |]. intros ->. by exists w.
  - rule rg_ret. intros w [[[k Hk] _] Hw]. split_and!; [done | by exists k | done].
Qed.

Lemma srg_generate fuel o s :
  srg (received s) (generate model_dump_json sse_heartbeat_seconds fuel job_id o s)
    (λ _ w, ∃ s', received s' w ∧ finished o s' w).
Proof.
  revert s. induction fuel as [|fuel IH]; intros s; cbn [generate]; [by rule rg_out_of_fuel|].
  rule_bind; [apply srg_port; [apply kept_received | apply list_after_log]|]. intros r1.
  rule_bind; [apply srg_poll|].
  intros [|e r].
  - eapply rg_pre with (λ w, received s w ∧ polled s w); [|intros w (? & _ & Hp); split; [done | by apply Hp]].
    rule_bind; [apply (srg_at _ _ s); [by intros w [? _] | apply disconnected_untouched]|].
    intros [].
    { rule rg_ret. intros w [Hr (w0 & [_ Hp] & Hd)]. exists s. split; [done|]. left. by exists w0. }
    rule_bind; [apply (srg_at _ _ s); [by intros w [? _] | apply untouched_job]|].
    intros latest. destruct (Job.terminal latest) eqn:Ht.
    { rule rg_ret. intros w [Hr (w1 & [_ (w0 & [_ Hp] & Hd)] & Hj)]. exists s. split; [done|]. right. left.
      by exists w0, w1, latest. }
    eapply rg_pre with (received s); [|by intros w [? _]].
    rule_bind mid (λ _, received s); [|intros _; apply IH].
    apply srg_yield; [apply kept_received | by eexists|]. intros w w' Hi Hi' Hg Hr Hs.
    destruct (proj1 (proj2 Hr)) as [Hst|Hst];
      (apply (received_frame s s Heartbeat w w' Hi Hi' Hg Hr Hs); [done | done | | by rewrite app_nil_r]);
      [by left | by right].
  - eapply rg_pre with (λ w, received s w ∧ ahead s (e :: r) w); [|by intros w (? & ? & _)].
    rule_bind; [apply srg_send|]. intros s'.
    rule_bind; [apply (srg_at _ _ s'); [by intros w [? _] | apply untouched_job]|]. intros latest.
    case_match eqn:E; [|eapply rg_pre; [apply IH | by intros w [? _]]].
    rule rg_ret. intros w [Hr (w0 & [_ Ha] & Hj)]. exists s'. split; [done|]. right. right.
    apply andb_true_iff in E as [[Ht Hs]%andb_true_iff Hat]. apply bool_decide_eq_true in Hs.
    by exists w0, (List.last r e), latest.
Qed.

(** C30: an event stream resumed after [start] delivers the log of the job from
    there on: however many rounds it has run and however it ended, what it has
    sent are heartbeats and the events numbered [start + 1], [start + 2], ...,
    [s], each exactly once and in order, in valid success envelopes; whatever is
    appended to the logs meanwhile and however often the waits time out.  And it
    returns only when a poll found nothing after [s] and then the client had left
    or the job, read after the poll, had ended; or when the event at [s] tells the
    end of the present attempt of the job, read after that event was sent.
    ([start] beyond the end of the log: nothing is sent until the log gets
    there.) *)
Theorem stream_exactly_once fuel owner_id w :
  inv w → 0 ≤ start → sent w = before →
  let r := generate model_dump_json sse_heartbeat_seconds fuel job_id owner_id start w in
  ∃ s frames, start ≤ s ∧ sent r.2 = before ++ map render frames ∧ Forall enveloped frames ∧
    omap event_of frames =
      filter (λ e, start < JobEvent.sequence e ∧ JobEvent.sequence e ≤ s) (log r.2 job_id) ∧
    (r.1 = Ret () → finished owner_id s r.2).
Proof.
  intros Hi Hs Hb r.
  assert (received start w) as Hr.
  { split_and!; [lia | lia | by left |]. exists []. rewrite between_none. by rewrite app_nil_r. }
  destruct (srg_generate fuel owner_id start w) as ([_ Hrec] & _ & Hpost); [by split; [|exists start] | done |].
  fold r in Hrec, Hpost. destruct (r.1) eqn:E.
  - destruct Hpost as (s & (Hle & _ & frames & Hf & He & Hev) & Hfin). exists s, frames. by split_and!; [lia|..].
  - destruct Hrec as (s & Hle & _ & frames & Hf & He & Hev). exists s, frames. by split_and!; [lia|..].
  - destruct Hrec as (s & Hle & _ & frames & Hf & He & Hev). exists s, frames. by split_and!; [lia|..].
Qed.
End stream.

(** ** The in-memory event log, with one client and other tasks *)

Record StreamWorld := MkStreamWorld {
  st_world : World;
  st_schedule : list (World → World);  (* what other tasks do before the next steps *)
  st_sent : list string
}.

#[export] Instance stream_atomic : Atomic StreamWorld := {
  atomic A m s :=
    let '(w, rest) := match st_schedule s with
                      | f :: rest => (f (st_world s), rest)
                      | [] => (st_world s, [])
                      end in
    let '(r, w') := m w in (r, MkStreamWorld w' rest (st_sent s));
  waiting _ w := w
}.

#[export] Instance stream_client : EventClient StreamWorld := {
  yield_ c s := (Ret (), MkStreamWorld (st_world s) (st_schedule s) (st_sent s ++ [c]));
  is_disconnected := mret false
}.

Definition stream_log (s : StreamWorld) : UUID → list JobEvent.t :=
  InMemoryJobEventRepository.log (st_world s).

(** Other tasks append to logs. *)
Definition appends (f : World → World) : Prop := ∀ w, wf_world w →
  wf_world (f w) ∧
  ∀ i, InMemoryJobEventRepository.log w i `prefix_of` InMemoryJobEventRepository.log (f w) i.

Definition stream_inv (s : StreamWorld) : Prop := wf_world (st_world s) ∧ Forall appends (st_schedule s).

Lemma stream_step {A} (m : Mem A) (Q : A → World → Prop) :
  (∀ w, wf_world w → wf_world (m w).2 ∧
     (∀ i, InMemoryJobEventRepository.log w i `prefix_of` InMemoryJobEventRepository.log (m w).2 i) ∧
     match (m w).1 with Ret a => Q a (m w).2 | _ => True end) →
  rg stream_inv (unsent stream_log st_sent) (λ _, True) (atomic m) (λ a s, Q a (st_world s)) (λ _ _, True).
Proof.
  intros Hm [w sched sent] [Hw Hs] _. simpl in *.
  assert (∃ w1 rest, (match sched with f :: rest => (f w, rest) | [] => (w, []) end) = (w1, rest) ∧
    wf_world w1 ∧ Forall appends rest ∧
    ∀ i, InMemoryJobEventRepository.log w i `prefix_of` InMemoryJobEventRepository.log w1 i)
    as (w1 & rest & -> & Hw1 & Hrest & Hp).
  { destruct sched as [|f rest]; [by exists w, []|]. apply Forall_cons in Hs as [Hf ?].
    destruct (Hf w Hw) as [? ?]. by exists (f w), rest. }
  destruct (Hm w1 Hw1) as (Hw2 & Hp2 & Hpost). destruct (m w1) as [r w2]. simpl in *.
  split_and!; [by split | split; [|done] | by destruct r].
  intros i. etransitivity; [apply Hp | apply Hp2].
Qed.

(** Reading changes nothing. *)
Lemma stream_read {A} (f : World → A) :
  rg stream_inv (unsent stream_log st_sent) (λ _, True) (atomic (gets f)) (λ a s, a = f (st_world s)) (λ _ _, True).
Proof. by apply (stream_step (gets f) (λ a w, a = f w)). Qed.

#[export] Instance stream_event_log : EventLog stream_inv stream_log st_sent.
Proof.
  split.
  - intros s i [Hw _]. exact (MemoryFacts.log_numbered _ (wf_logs _ Hw i)).
  - intros i n. eapply rg_conseq; [apply stream_read | done | by intros a w ->; split | done].
  - intros i n t. eapply rg_conseq; [apply (stream_step _ (λ r w, r = after n (InMemoryJobEventRepository.log w i))) | done | | done].
    + intros w Hw. unfold InMemoryJobEventRepository.wait_after, InMemoryJobEventRepository.list_after.
      unfold mbind, M_bind, gets, modify. simpl. by case_match.
    + by intros r s ->.
  - intros i. eapply rg_conseq; [apply (stream_read (λ w, dget (w_jobs w) i)) | done..].
  - apply (stream_step Platform.now (λ _ _, True)). intros w [Hk Hi Hl]. by split.
  - intros s Hs _. split; [exact Hs | by split; [reflexivity|]].
  - intros c s Hs. split; [exact Hs | by split; [intros i; reflexivity|]].
Qed.

Module SampleStream.
Definition job : Job.t := Job.with_state SUCCEEDED (Job.new "dev" 2 "req" [] None 7 0 0).

Definition event (n : Z) (t : string) (st : JobState) : JobEvent.t :=
  JobEvent.Mk 7 t st 0 "req" [("attempt", JInt 1)] n 0.

Definition base : World := put_events
  {[ 7%N := [event 1 "job.queued" QUEUED; event 2 "job.running" RUNNING] ]}
  (put_jobs [(7%N, job)] empty_world).

(** Another task records the end of the job. *)
Definition finish (w : World) : World :=
  (InMemoryJobEventRepository.append (event 0 "job.succeeded" SUCCEEDED) w).2.

Definition world : StreamWorld := MkStreamWorld base [id; id; id; id; finish] [].

(** A running job that ends, with its event, after a poll of the stream and before
    the stream reads the job. *)
Definition finish_job (w : World) : World := finish (put_jobs [(7%N, job)] w).
Definition late : StreamWorld := MkStreamWorld
  (put_jobs [(7%N, Job.with_state RUNNING job)] base) [id; id; finish_job] [].
End SampleStream.

(** The stream then ends without the event that tells the end. *)
Example stream_misses_the_end :
  let r := generate (λ _, "{}") 15 9 7 "dev" 2 SampleStream.late in
  r.1 = Ret () ∧ st_sent r.2 = [] ∧
  map (λ e, (JobEvent.sequence e, JobEvent.event_type e)) (after 2 (stream_log r.2 7%N)) = [(3, "job.succeeded")].
Proof. split_and!; vm_compute; reflexivity. Qed.

Lemma appends_append event : appends (λ w, (InMemoryJobEventRepository.append event w).2).
Proof.
  intros w Hw. split; [by destruct (quiet_append event w Hw Logic.I)|]. intros i.
  unfold InMemoryJobEventRepository.append, mbind, M_bind, gets, modify. simpl.
  destruct (InMemoryJobEventRepository.existing _ _); [done|]. simpl.
  unfold InMemoryJobEventRepository.log. simpl. destruct (decide (JobEvent.job_id event = i)) as [<-|Hne].
  - rewrite lookup_insert_eq. by eexists.
  - by rewrite lookup_insert_ne.
Qed.

Lemma sample_inv : stream_inv SampleStream.world.
Proof.
  split.
  - split; simpl; [repeat constructor; set_solver | intros i j; simpl; case_decide; [by intros [= <-] | done] |].
    intros i. unfold InMemoryJobEventRepository.log. simpl.
    destruct (decide (7%N = i)) as [<-|Hne]; [rewrite lookup_singleton_eq | rewrite lookup_singleton_ne by done];
      (split; [done|]); [|intros ? ? ? ? _ He; discriminate He].
    intros i k e e' Hik He He'. pose proof (lookup_lt_Some _ _ _ He') as Hk. simpl in Hk.
    assert (i = 0%nat) as -> by lia. assert (k = 1%nat) as -> by lia.
    by injection He as <-; injection He' as <-.
  - do 4 (constructor; [intros w Hw; by split|]). constructor; [apply appends_append | constructor].
Qed.

(** A client that has seen event 1 receives 2, waits for 3 and is told the end. *)
Lemma stream_exactly_once_witness :
  (∃ s frames, 1 ≤ s ∧
     st_sent (generate (λ _, "{}") 15 3 7 "dev" 1 SampleStream.world).2 = map (render (λ _, "{}")) frames ∧
     Forall enveloped frames ∧
     omap event_of frames = filter (λ e, 1 < JobEvent.sequence e ∧ JobEvent.sequence e ≤ s)
       (stream_log (generate (λ _, "{}") 15 3 7 "dev" 1 SampleStream.world).2 7%N) ∧
     ((generate (λ _, "{}") 15 3 7 "dev" 1 SampleStream.world).1 = Ret () →
      finished stream_log 15 7 1 "dev" s (generate (λ _, "{}") 15 3 7 "dev" 1 SampleStream.world).2)) ∧
  (generate (λ _, "{}") 15 3 7 "dev" 1 SampleStream.world).1 = Ret () ∧
  map (take 5 ∘ chars) (st_sent (generate (λ _, "{}") 15 3 7 "dev" 1 SampleStream.world).2) =
  map (take 5 ∘ chars) ["id: 2"; "id: 3"].
Proof.
  split; [|split].
  - destruct (stream_exactly_once stream_inv stream_log st_sent (λ _, "{}") 15 7 1 [] 3 "dev" SampleStream.world
      sample_inv) as (s & frames & Hs & Hf & He & Hev & Hend); [lia | reflexivity |].
    exists s, frames. split; [exact Hs | split; [exact Hf | split; [exact He | split; [exact Hev | exact Hend]]]].
  - vm_compute. reflexivity.
  - vm_compute. reflexivity.
Defined.
