(* ===== verification/Consumer.v ===== *)
(** * The worker process

    Models [worker_main.py]: the helper that keeps polling the Kafka consumer
    while a message is being worked on, the wait for the dependencies at the
    start, and the loop that consumes the jobs topic.

    The Kafka client is a parameter ([KafkaConsumer], [DeadLetterProducer]); so
    is the event loop's choice of where a running task is when a timeout of
    [asyncio.wait_for] fires ([Task]).

    - [safe_polls]: the helper is transparent for the operation and drains
      nothing;
    - [commit_after_handling]: an offset is committed only after its record was
      processed or put in the dead-letter topic;
    - [timeout_diverges]: an operation that itself raises [TimeoutError]. *)

From S2P Require Import Prelude PyData PyText Json Status Domain Ports Messaging Readiness Worker.

#[local] Open Scope Z_scope.

(** ** The Kafka client *)

(** A [TopicPartition]. *)
Abbreviation TopicPartition := (string * Z)%type.

Record ConsumerRecord := MkConsumerRecord {
  record_topic : string;
  record_partition : Z;
  record_offset : Z;
  record_key : option string;
  record_value : option string
}.

Class KafkaConsumer (W : Type) := {
  consumer_start : M exc W ();
  consumer_stop : M exc W ();
  consumer_assignment : M exc W (gset TopicPartition);
  consumer_paused : M exc W (gset TopicPartition);
  consumer_pause : gset TopicPartition → M exc W ();
  consumer_resume : gset TopicPartition → M exc W ();
  consumer_getmany : Z → Z → M exc W (list (TopicPartition * list ConsumerRecord));
  consumer_commit : TopicPartition → Z → M exc W ()
}.

Class DeadLetterProducer (W : Type) := {
  dlq_start : M exc W ();
  dlq_stop : M exc W ();
  dlq_send_and_wait : string → option string → option string → list (string * string) → M exc W ()
}.

(** [asyncio.Event]; [stop_wait t] is [wait_for(stop.wait(), timeout=t)]. *)
Class StopEvent (W : Type) := {
  stop_is_set : M exc W bool;
  stop_wait : Z → M exc W ()
}.

(** ** Tasks

    A task as its owner sees it: each [Pending] slice is what it does while one
    wait runs into its timeout, [Running] is the rest, and [Finished] is a done
    task.  [cleanup] is what it does when it is cancelled there. *)
Inductive Task (W A : Type) :=
  | Pending (cleanup slice : W → W) (rest : Task W A)
  | Running (cleanup : W → W) (m : M exc W A)
  | Finished (result : exc + A).
Arguments Pending {W A}.
Arguments Running {W A}.
Arguments Finished {W A}.

(** The number of waits that run into their timeout. *)
Fixpoint timeouts {W A} (t : Task W A) : nat :=
  match t with Pending _ _ rest => S (timeouts rest) | _ => 0 end.

(** [asyncio.wait_for(asyncio.shield(task), timeout=...)]: the value or the
    exception, with the task as it is afterwards *)
Definition wait_for {E W A} (t : Task W A) : M E W ((exc + A) * Task W A) :=
  match t with
  | Pending _ slice rest => _ ← modify slice; mret (inl (mk_exc TimeoutError ""), rest)
  | Running _ m => result ← attempt m; mret (result, Finished result)
  | Finished result => mret (result, Finished result)
  end.

(** [if not task.done(): task.cancel(); await asyncio.gather(task, return_exceptions=True)] *)
Definition cancel_task {E W A} (t : Task W A) : M E W () :=
  match t with
  | Pending cleanup _ _ | Running cleanup _ => modify cleanup
  | Finished _ => mret ()
  end.

(** ** [await_with_safe_consumer_polls] *)

Definition SAFE_CONSUMER_POLL_INTERVAL_SECONDS : Z := 30.

Section safe_polls.
Context {W : Type} `{!KafkaConsumer W}.

(** [pause_current_assignment()]; [paused_by_helper] is the caller's variable. *)
Definition pause_current_assignment (paused_by_helper : gset TopicPartition) :
    M exc W (gset TopicPartition) :=
  assigned ← consumer_assignment;
  already_paused ← consumer_paused;
  let to_pause := assigned ∖ already_paused in
  if decide (to_pause = ∅) then mret paused_by_helper
  else _ ← consumer_pause to_pause; mret (paused_by_helper ∪ to_pause).

Definition any_records (records : list (TopicPartition * list ConsumerRecord)) : bool :=
  existsb (λ r, negb (bool_decide (r.2 = []))) records.

(** The [except TimeoutError] clause: the keepalive poll, with no partition left
    to drain. *)
Definition keep_alive {A} (operation_task : Task W A) (paused_by_helper : gset TopicPartition) :
    M (exc * (Task W A * gset TopicPartition)) W (gset TopicPartition) :=
  paused_by_helper ← at_local (operation_task, paused_by_helper)
    (pause_current_assignment paused_by_helper);
  records ← at_local (operation_task, paused_by_helper) (consumer_getmany 0 1);
  if any_records records
  then raise (mk_exc RuntimeError
         "safe Kafka poll returned records while work was in progress",
       (operation_task, paused_by_helper))
  else mret paused_by_helper.

(** The [while True] loop.  What leaves it comes with the task and
    [paused_by_helper] as they are then. *)
Fixpoint poll_loop {A} (fuel : nat) (operation_task : Task W A)
    (paused_by_helper : gset TopicPartition) :
    M (exc * (Task W A * gset TopicPartition)) W (A * (Task W A * gset TopicPartition)) :=
  match fuel with
  | O => out_of_fuel
  | S fuel =>
      '(result, operation_task) ← wait_for operation_task;
      match result with
      | inr a => mret (a, (operation_task, paused_by_helper))
      | inl e =>
          if isinstance e TimeoutError then
            paused_by_helper ← keep_alive operation_task paused_by_helper;
            poll_loop fuel operation_task paused_by_helper
          else raise (e, (operation_task, paused_by_helper))
      end
  end.

(** The [finally] clause *)
Definition resume_paused (paused_by_helper : gset TopicPartition) : M exc W () :=
  assigned ← consumer_assignment;
  paused ← consumer_paused;
  let resumable := paused_by_helper ∩ assigned ∩ paused in
  if decide (resumable = ∅) then mret () else consumer_resume resumable.

Definition finish_polls {A} (operation_task : Task W A) (paused_by_helper : gset TopicPartition) :
    M exc W () :=
  _ ← cancel_task operation_task;
  resume_paused paused_by_helper.

Definition await_with_safe_consumer_polls {A} (fuel : nat) (operation_task : Task W A)
    (poll_interval_seconds : Z) : M exc W A :=
  if decide (poll_interval_seconds ≤ 0)
  then raise (mk_exc ValueError "poll_interval_seconds must be positive") else
  r ← attempt (
    paused_by_helper ← at_local (operation_task, ∅) (pause_current_assignment ∅);
    poll_loop fuel operation_task paused_by_helper);
  match r with
  | inr (a, (operation_task, paused_by_helper)) =>
      _ ← finish_polls operation_task paused_by_helper; mret a
  | inl (e, (operation_task, paused_by_helper)) =>
      _ ← finish_polls operation_task paused_by_helper; raise e
  end.
End safe_polls.

(** ** [run_worker] *)

Section run_worker.
Context {W : Type} `{!KafkaConsumer W, !DeadLetterProducer W, !StopEvent W, !EventLoop W,
  !StructuredLogger W}.
(** [container.readiness.check()] and [worker.process] *)
Context (readiness : M exc W ReadinessReport).
Context (process : JobWorkMessage → M exc W (option Job.t)).
(** [asyncio.ensure_future] *)
Context (ensure_future : M exc W () → Task W ()).
Context (kafka_jobs_dlq_topic : string) (poll_fuel : nat).

Fixpoint wait_until_ready (fuel : nat) (deadline poll_seconds : Z) : M exc W bool :=
  match fuel with
  | O => out_of_fuel
  | S fuel =>
      stopped ← stop_is_set;
      if stopped : bool then mret false else
      report ← readiness;
      if ready report then mret true else
      now ← loop_time;
      if decide (deadline ≤ now) then
        _ ← logger_error "worker_readiness_timeout"
          [("internal_code", JInt (default 0 (code_value <$> report_internal_code report)));
           ("error_reason", JStr (or_str (report_error_reason report) "runtime_not_ready"))];
        raise (mk_exc RuntimeError "worker dependencies did not become ready")
      else
        _ ← try_except (stop_wait poll_seconds)
          (λ e, if isinstance e TimeoutError then Some (mret ()) else None);
        wait_until_ready fuel deadline poll_seconds
  end.

Definition wait_for_runtime_readiness (fuel : nat) (timeout_seconds poll_seconds : Z) : M exc W bool :=
  now ← loop_time;
  wait_until_ready fuel (now + timeout_seconds) poll_seconds.

(** [decode_job_message(record.value)]; [json.loads(None)] raises [TypeError]. *)
Definition decode_record (record : ConsumerRecord) : exc + JobWorkMessage :=
  match record_value record with
  | Some value => decode_job_message value
  | None => inl (mk_exc TypeError "the JSON object must be str, bytes or bytearray, not NoneType")
  end.

Definition process_record (record : ConsumerRecord) : M exc W () :=
  try_else (lift (decode_record record))
    (λ e, if isinstance e Exception_ then Some (
        _ ← logger_error "ocr_job_message_invalid"
          [("error_type", JStr (cls_name (exc_cls e)));
           ("topic", JStr (record_topic record));
           ("partition", JInt (record_partition record));
           ("offset", JInt (record_offset record))];
        dlq_send_and_wait kafka_jobs_dlq_topic (record_key record) (record_value record)
          [("error_reason", "invalid_job_message")])
      else None)
    (λ message, _ ← process message; mret ()).

(** The body of the two [for] loops *)
Definition consume_record (topic_partition : TopicPartition) (record : ConsumerRecord) : M exc W () :=
  _ ← await_with_safe_consumer_polls poll_fuel (ensure_future (process_record record))
    SAFE_CONSUMER_POLL_INTERVAL_SECONDS;
  consumer_commit topic_partition (record_offset record + 1).

Fixpoint consume (fuel : nat) : M exc W () :=
  match fuel with
  | O => out_of_fuel
  | S fuel =>
      stopped ← stop_is_set;
      if stopped : bool then mret () else
      records ← consumer_getmany 1000 1;
      _ ← foreach records (λ '(topic_partition, messages),
        foreach messages (consume_record topic_partition));
      consume fuel
  end.

(** The body of [async with create_runtime_container(...)], the settings as
    arguments *)
Definition run_worker (fuel : nat) (readiness_timeout readiness_poll max_page_retries : Z) : M exc W () :=
  is_ready ← wait_for_runtime_readiness fuel readiness_timeout readiness_poll;
  if negb is_ready then mret () else
  _ ← consumer_start;
  _ ← dlq_start;
  _ ← lift (Worker.worker_init max_page_retries);
  try_finally (consume fuel) (_ ← consumer_stop; dlq_stop).
End run_worker.
