(* ===== verification/ConsumerFacts.v ===== *)
(** * The worker process: keeping the consumer alive

    What it means that a running task meets a specification ([meets]), the
    contract of the consumer's polls, and

    - [safe_polls]: [await_with_safe_consumer_polls] is transparent for the
      operation, drains nothing and leaves no partition paused;
    - [timeout_diverges]: it never ends for an operation that raises
      [TimeoutError] itself. *)

From S2P Require Import Prelude PyData PyText Json Status Domain Ports Messaging Readiness.
From S2P Require Import History Memory MemoryFacts Worker WorkerSafety WorkerFacts Consumer.

#[local] Open Scope Z_scope.

(** ** Tasks that meet a specification

    [meets P t]: from [P], each slice of [t] and its rest meet the
    specification with the postconditions [Q] and [X].  Between two slices the
    owner of the task acts, so the assertions there are [stable]. *)

Section meets.
Context {W A : Type} (stable : (W → Prop) → Prop).
Context (triple : ∀ B, (W → Prop) → M exc W B → (B → W → Prop) → (exc → W → Prop) → Prop).
Context (Q : A → W → Prop) (X : exc → W → Prop).

Definition cancellable (P : W → Prop) (cleanup : W → W) : Prop :=
  triple () P (modify cleanup) (λ _ _, True) (λ _ _, True).

Inductive meets : (W → Prop) → Task W A → Prop :=
  | meets_pending P P' cleanup slice rest :
      cancellable P cleanup → triple () P (modify slice) (λ _, P') (λ _ _, True) →
      stable P' → meets P' rest → meets P (Pending cleanup slice rest)
  | meets_running P cleanup m :
      cancellable P cleanup → triple A P m Q X → meets P (Running cleanup m)
  | meets_finished P result : triple A P (lift result) Q X → meets P (Finished result).
End meets.

(** A task that is done. *)
Definition is_done {W A} (t : Task W A) : bool :=
  match t with Finished _ => true | _ => false end.

(** ** Polls that are safe *)

Section polls.
Context {W : Type} `{!KafkaConsumer W}.
(** The consumer's state, the records it has handed out, what may change while
    the owner of the consumer waits (a rebalance), and what a call of the consumer
    may change. *)
Context (assigned paused : W → gset TopicPartition) (taken : W → list ConsumerRecord).
Context (env frame : relation W).

(** The documented behaviour of the consumer: a poll returns records of
    partitions that are assigned and not paused; a rebalance may drop pauses. *)
Class PollLaws := {
  env_preorder :: PreOrder env;
  env_paused w w' : env w w' → paused w' ⊆ paused w;
  law_assignment w : consumer_assignment w = (Ret (assigned w), w);
  law_paused w : consumer_paused w = (Ret (paused w), w);
  law_pause s w : s ⊆ assigned w → ∃ w', consumer_pause s w = (Ret (), w') ∧ frame w w' ∧
    assigned w' = assigned w ∧ paused w' = paused w ∪ s ∧ taken w' = taken w;
  law_resume s w : s ⊆ assigned w → ∃ w', consumer_resume s w = (Ret (), w') ∧ frame w w' ∧
    assigned w' = assigned w ∧ paused w' = paused w ∖ s ∧ taken w' = taken w;
  law_getmany timeout_ms max_records w : ∃ rs w',
    consumer_getmany timeout_ms max_records w = (Ret rs, w') ∧ frame w w' ∧ env w w' ∧
    taken w' = taken w ++ concat (map snd rs) ∧
    ∀ tp ms, (tp, ms) ∈ rs → ms ≠ [] → tp ∈ assigned w ∖ paused w
}.

Context `{!PollLaws}.

(** The records handed out before. *)
Context (t0 : list ConsumerRecord).

(** What the calls of the consumer do not affect. *)
Definition apart (P : W → Prop) : Prop := ∀ w w', frame w w' → P w → P w'.

(** No rebalance happens. *)
Definition steady : Prop := ∀ w w', env w w' → assigned w' = assigned w ∧ paused w' = paused w.

(** The pauses are the caller's [p0] and those of the helper, [h]; no record has
    been handed out since. *)
Definition kept (p0 h : gset TopicPartition) (w : W) : Prop :=
  taken w = t0 ∧ paused w ⊆ p0 ∪ h ∧ (steady → paused w = p0 ∪ h ∧ h ## p0 ∧ h ⊆ assigned w).

Definition restored (p0 : gset TopicPartition) (w : W) : Prop :=
  taken w = t0 ∧ paused w ∩ assigned w ⊆ p0 ∧ (steady → paused w = p0).

(** The operation leaves the consumer to its owner. *)
Definition runs (B : Type) (P : W → Prop) (m : M exc W B) (Q : B → W → Prop)
    (X : exc → W → Prop) : Prop :=
  total P m Q X ∧ ∀ w, P w → env w (m w).2 ∧ taken (m w).2 = taken w.

Lemma kept_env p0 h w w' : env w w' → taken w' = taken w → kept p0 h w → kept p0 h w'.
Proof.
  intros Henv Htk (Ht & Hp & Hs). split; [congruence|]. split; [pose proof (env_paused _ _ Henv); set_solver|].
  intros Hst. destruct (Hst _ _ Henv) as [Ha Hq]. rewrite Ha, Hq. by apply Hs.
Qed.

(** Every assigned partition is paused, and those that were not are noted. *)
Lemma pause_run h w : ∃ w', pause_current_assignment h w =
    (Ret (h ∪ (assigned w ∖ paused w)), w') ∧ (w' = w ∨ frame w w') ∧
  assigned w' = assigned w ∧ paused w' = paused w ∪ assigned w ∧ taken w' = taken w.
Proof.
  unfold pause_current_assignment.
  rewrite (bind_run _ _ _ _ _ (law_assignment w)), (bind_run _ _ _ _ _ (law_paused w)).
  cbv zeta. case_decide as Hd.
  { exists w. rewrite Hd, union_empty_r_L. split_and!; [done | by left | done| |done].
    clear -Hd. apply set_eq. intros x. destruct (decide (x ∈ paused w)); set_solver. }
  destruct (law_pause (assigned w ∖ paused w) w) as (w' & Hrun & Hf & Ha & Hp & Ht); [set_solver|].
  exists w'. rewrite (bind_run _ _ _ _ _ Hrun), Hp. split_and!; [done | by right | done| |done].
  clear. apply set_eq. intros x. destruct (decide (x ∈ paused w)); set_solver.
Qed.

Lemma no_records rs : any_records rs = false → concat (map snd rs) = [].
Proof.
  induction rs as [|[tp ms] rs IH]; [done|]. unfold any_records. simpl.
  intros [Hm%negb_false_iff%bool_decide_eq_true Hr]%orb_false_iff. simpl in Hm. subst ms. by apply IH.
Qed.

(** ... and then a poll drains nothing. *)
Lemma poll_run w : assigned w ⊆ paused w → ∃ rs w',
  consumer_getmany 0 1 w = (Ret rs, w') ∧ frame w w' ∧ env w w' ∧ taken w' = taken w ∧ any_records rs = false.
Proof.
  intros Ha. destruct (law_getmany 0 1 w) as (rs & w' & Hrun & Hf & He & Ht & Hrs).
  assert (any_records rs = false) as Hno; [|exists rs, w'; split_and!; try done;
    by rewrite Ht, no_records, app_nil_r].
  apply not_true_is_false. intros Hany.
  apply existsb_exists in Hany as ([tp ms] & Hin & Hne). apply list_elem_of_In in Hin.
  simpl in Hne. apply negb_true_iff, bool_decide_eq_false in Hne.
  specialize (Hrs _ _ Hin Hne). set_solver.
Qed.

Lemma total_pause P p0 h :
  apart P →
  total (λ w, P w ∧ kept p0 h w) (pause_current_assignment h)
    (λ h' w, P w ∧ kept p0 h' w ∧ assigned w ⊆ paused w) never.
Proof.
  intros HP w [Hw (Ht0 & Hk & Hs)]. destruct (pause_run h w) as (w' & Hrun & Hf & Ha & Hp & Ht).
  rewrite Hrun. unfold kept. rewrite Ha, Hp, Ht.
  split_and!; [destruct Hf as [-> | Hf]; [done | by eapply HP] | done | | | set_solver].
  { clear -Hk. intros x. destruct (decide (x ∈ paused w)); set_solver. }
  intros Hst. destruct (Hs Hst) as (-> & Hdis & Hsub). split_and!; [|set_solver..].
  apply set_eq. intros x. destruct (decide (x ∈ p0 ∪ h)); set_solver.
Qed.

Lemma total_poll P p0 h :
  apart P →
  total (λ w, P w ∧ kept p0 h w ∧ assigned w ⊆ paused w) (consumer_getmany 0 1)
    (λ rs w, (P w ∧ kept p0 h w) ∧ any_records rs = false) never.
Proof.
  intros HP w (Hw & Hk & Ha). destruct (poll_run w Ha) as (rs & w' & Hrun & Hf & He & Ht & Hrs).
  rewrite Hrun. split; [split; [by eapply HP | by eapply kept_env] | done].
Qed.

Lemma keep_alive_run {A} (t : Task W A) h w : ∃ h' w', keep_alive t h w = (Ret h', w').
Proof.
  unfold keep_alive. destruct (pause_run h w) as (w1 & Hpause & _ & Ha & Hp & _).
  rewrite (bind_run _ _ _ _ _ (at_local_run _ _ _ _ _ Hpause)).
  destruct (poll_run w1) as (rs & w2 & Hpoll & _ & _ & _ & Hrs); [set_solver|].
  rewrite (bind_run _ _ _ _ _ (at_local_run _ _ _ _ _ Hpoll)), Hrs. by do 2 eexists.
Qed.

Lemma total_keep_alive {A} P p0 (t : Task W A) h :
  apart P →
  total (λ w, P w ∧ kept p0 h w) (keep_alive t h) (λ h' w, P w ∧ kept p0 h' w) never.
Proof.
  intros HP. unfold keep_alive. eapply total_bind.
  { apply total_at_local. by apply total_pause. }
  intros h'. eapply total_bind_pure; [apply total_at_local; by apply total_poll|].
  intros rs ->. by apply total_ret.
Qed.

Context {A : Type} (Q : A → W → Prop) (X : exc → W → Prop).

(** What leaves the loop, with the task that is done then. *)
Definition polled (p0 : gset TopicPartition) {B} (Q : B → W → Prop)
    (r : B * (Task W A * gset TopicPartition)) (w : W) : Prop :=
  Q r.1 w ∧ kept p0 r.2.2 w ∧ is_done r.2.1 = true.

(** The last round: the rest of the task runs. *)
Lemma total_last_round P p0 h fuel t m :
  runs _ P m Q X → (∀ e w, X e w → isinstance e TimeoutError = false) →
  (∀ w, wait_for (E := exc * (Task W A * gset TopicPartition)) t w =
    (r ← attempt m; mret (r, Finished r)) w) →
  total (λ w, P w ∧ kept p0 h w) (poll_loop (S fuel) t h) (polled p0 Q) (polled p0 X).
Proof.
  intros [Ht He] HX Hwait w [Hw Hk]. specialize (Ht w Hw). destruct (He w Hw) as [He' Htk].
  simpl. unfold mbind at 1, M_bind at 1. rewrite Hwait. unfold attempt, mbind, M_bind.
  destruct (m w) as [[a|e|] w']; simpl in *; [| |done].
  - split_and!; [done | by eapply kept_env | done].
  - rewrite (HX e w' Ht). simpl. split_and!; [done | by eapply kept_env | done].
Qed.

Lemma total_poll_loop P t p0 h fuel :
  meets apart runs Q X P t → apart P → (timeouts t < fuel)%nat →
  (∀ e w, X e w → isinstance e TimeoutError = false) →
  total (λ w, P w ∧ kept p0 h w) (poll_loop fuel t h) (polled p0 Q) (polled p0 X).
Proof.
  intros Hm HP Hf HX. revert fuel h HP Hf.
  induction Hm as [P P' c s rest _ [Hs Hse] HP' Hm IH|P c m _ Hm|P r Hm]; intros fuel h HP Hf;
    (destruct fuel as [|fuel]; [simpl in Hf; lia|]); simpl in Hf.
  - simpl. eapply total_bind.
    { instantiate (1 := λ r w, (P' w ∧ kept p0 h w) ∧ r = (inl (mk_exc TimeoutError ""), rest)).
      intros w [Hw Hk]. simpl. specialize (Hs w Hw). destruct (Hse w Hw).
      simpl in *. split; [split; [done | by eapply kept_env] | done]. }
    intros r w [Hw ->]. cbn iota zeta.
    refine (total_bind (λ w, P' w ∧ kept p0 h w) _ _ _ _ _ _ _ w Hw).
    { apply total_never. by apply total_keep_alive. }
    intros h'. apply IH; [done | lia].
  - by eapply (total_last_round P p0 h fuel _ m).
  - eapply (total_last_round P p0 h fuel _ (lift r)); [done..|]. intros w. by destruct r.
Qed.

Lemma total_finish_polls p0 h (t : Task W A) R :
  apart R → is_done t = true →
  total (λ w, R w ∧ kept p0 h w) (finish_polls t h) (λ _ w, R w ∧ restored p0 w) never.
Proof.
  intros HR Ht w [Hw (Ht0 & Hk & Hs)]. unfold finish_polls. destruct t as [| |r]; [done..|].
  rewrite (bind_run (cancel_task (Finished r)) _ w () w eq_refl). unfold resume_paused.
  rewrite (bind_run _ _ _ _ _ (law_assignment w)), (bind_run _ _ _ _ _ (law_paused w)). cbv zeta.
  case_decide as Hd.
  - split; [done|]. split; [done|]. split; [set_solver|]. intros Hst. destruct (Hs Hst) as (? & ? & ?). set_solver.
  - destruct (law_resume (h ∩ assigned w ∩ paused w) w) as (w' & Hrun & Hf & Ha & Hp & Ht'); [set_solver|].
    rewrite Hrun. split; [by eapply HR|]. unfold restored. rewrite Ha, Hp, Ht'. split; [done|].
    split; [intros x Hx; destruct (decide (x ∈ h)); set_solver|].
    intros Hst. destruct (Hs Hst) as (-> & ? & ?). set_solver.
Qed.

(** C31: working on a record.  Whatever specification the operation meets when
    it runs in slices between which the owner acts, the helper meets as soon as
    the fuel exceeds the number of timeouts, unless the operation itself raises
    [TimeoutError]: it ends, with the result or the exception of the operation
    and not with one of its own, although it has polled the consumer in between.
    No record has been taken from the consumer.  Afterwards no assigned partition
    is paused that the caller had not paused, and unless a rebalance happened
    exactly the caller's pauses are left.  (An operation that raises
    [TimeoutError] itself: [timeout_diverges].) *)
Theorem safe_polls P t p0 fuel interval :
  meets apart runs Q X P t → apart P → (∀ a, apart (Q a)) → (∀ e, apart (X e)) →
  (∀ e w, X e w → isinstance e TimeoutError = false) →
  (timeouts t < fuel)%nat → 0 < interval →
  total (λ w, P w ∧ paused w = p0 ∧ taken w = t0) (await_with_safe_consumer_polls fuel t interval)
    (λ a w, Q a w ∧ restored p0 w) (λ e w, X e w ∧ restored p0 w).
Proof.
  intros Hm HP HQ HX Hne Hf Hi. unfold await_with_safe_consumer_polls.
  rewrite decide_False by lia. eapply total_bind.
  - eapply total_attempt, total_bind.
    + apply total_at_local, total_never. eapply total_pre; [apply (total_pause P p0 ∅ HP)|].
      intros w (Hw & <- & Ht). split; [done|]. split; [done|]. split; [set_solver|]. intros _. set_solver.
    + intros h. eapply total_pre; [by apply total_poll_loop with (P := P)|]. by intros w (? & ? & _).
  - intros [[e [t' h]]|[a [t' h]]]; cbn iota; simpl;
      (apply total_fact with (is_done t' = true); [by intros w (? & ? & ?)|]; intros Ht).
    + eapply total_bind; [apply total_never; eapply total_pre; [apply (total_finish_polls p0 h t' (X e)); done|]|].
      { intros w (? & ? & _). by split. }
      intros ?. by apply total_raise.
    + eapply total_bind; [apply total_never; eapply total_pre; [apply (total_finish_polls p0 h t' (Q a)); done|]|].
      { intros w (? & ? & _). by split. }
      intros ?. by apply total_ret.
Qed.

(** *** An operation that raises [TimeoutError] *)

Lemma poll_loop_diverges e fuel : isinstance e TimeoutError = true →
  ∀ h w, (poll_loop fuel (Finished (W := W) (A := A) (inl e)) h w).1 = NoFuel.
Proof.
  intros He. induction fuel as [|fuel IH]; intros h w; [done|]. simpl.
  unfold mbind at 1, M_bind at 1. simpl. rewrite He.
  destruct (keep_alive_run (Finished (A := A) (inl e)) h w) as (h' & w' & Hrun).
  rewrite (bind_run _ _ _ _ _ Hrun). apply IH.
Qed.

(** The helper takes a [TimeoutError] of the operation for one of its own waits,
    and polls for ever: no amount of fuel is enough. *)
Theorem timeout_diverges cleanup (m : M exc W A) fuel interval w : 0 < interval →
  (∀ w, ∃ e w', m w = (Exn e, w') ∧ isinstance e TimeoutError = true) →
  (await_with_safe_consumer_polls fuel (Running cleanup m) interval w).1 = NoFuel.
Proof.
  intros Hi Hm. unfold await_with_safe_consumer_polls. rewrite decide_False by lia.
  destruct (pause_run ∅ w) as (w1 & Hpause & _ & Ha & Hp & _).
  assert ((poll_loop fuel (Running cleanup m) (∅ ∪ (assigned w ∖ paused w)) w1).1 = NoFuel) as Hn.
  { destruct fuel as [|fuel]; [done|]. destruct (Hm w1) as (e & w2 & Hrun & He). simpl.
    rewrite (bind_run _ _ w1 (inl e, Finished (inl e)) w2)
      by (unfold mbind, M_bind, attempt; by rewrite Hrun).
    rewrite He. destruct (keep_alive_run (Finished (A := A) (inl e)) (∅ ∪ (assigned w ∖ paused w)) w2)
      as (h' & w3 & Halive). rewrite (bind_run _ _ _ _ _ Halive).
    by apply poll_loop_diverges. }
  unfold mbind at 1, M_bind at 1, attempt.
  rewrite (bind_run _ _ _ _ _ (at_local_run _ _ _ _ _ Hpause)).
  by destruct (poll_loop _ _ _ w1) as [[]].
Qed.
End polls.

(** ** A consumer with two partitions *)

Record KafkaWorld := MkKafkaWorld {
  kw_world : World;
  kw_queue : list ConsumerRecord;
  kw_assigned : gset TopicPartition;
  kw_paused : gset TopicPartition;
  kw_fetched : list ConsumerRecord;
  kw_committed : list (TopicPartition * Z);
  kw_processed : list JobWorkMessage;
  kw_dead : list (option string * option string);
  kw_rounds : nat
}.

Module SampleConsumer.

Definition tp_of (r : ConsumerRecord) : TopicPartition := (record_topic r, record_partition r).

Abbreviation fetchable k r := (tp_of r ∈ kw_assigned k ∖ kw_paused k).

Definition set_pauses (s : gset TopicPartition) (k : KafkaWorld) : KafkaWorld :=
  MkKafkaWorld (kw_world k) (kw_queue k) (kw_assigned k) s (kw_fetched k) (kw_committed k)
    (kw_processed k) (kw_dead k) (kw_rounds k).

Definition assign (s : gset TopicPartition) (k : KafkaWorld) : KafkaWorld :=
  MkKafkaWorld (kw_world k) (kw_queue k) (s ∪ kw_assigned k) (kw_paused k) (kw_fetched k)
    (kw_committed k) (kw_processed k) (kw_dead k) (kw_rounds k).

(** A poll hands out the oldest record, if its partition may be fetched. *)
Definition poll (k : KafkaWorld) :
    outcome exc (list (TopicPartition * list ConsumerRecord)) * KafkaWorld :=
  match kw_queue k with
  | r :: queue =>
      if decide (fetchable k r) then
        (Ret [(tp_of r, [r])], MkKafkaWorld (kw_world k) queue (kw_assigned k) (kw_paused k)
          (kw_fetched k ++ [r]) (kw_committed k) (kw_processed k) (kw_dead k) (kw_rounds k))
      else (Ret [], k)
  | [] => (Ret [], k)
  end.

#[global] Instance consumer : KafkaConsumer KafkaWorld := {
  consumer_start := mret ();
  consumer_stop := mret ();
  consumer_assignment := gets kw_assigned;
  consumer_paused := gets kw_paused;
  consumer_pause s := modify (λ k, set_pauses (kw_paused k ∪ s) k);
  consumer_resume s := modify (λ k, set_pauses (kw_paused k ∖ s) k);
  consumer_getmany _ _ := poll;
  consumer_commit tp n := modify (λ k, MkKafkaWorld (kw_world k) (kw_queue k) (kw_assigned k)
    (kw_paused k) (kw_fetched k) (kw_committed k ++ [(tp, n)]) (kw_processed k) (kw_dead k)
    (kw_rounds k))
}.

(** What the consumer does not affect. *)
Definition beside (k k' : KafkaWorld) : Prop :=
  kw_world k' = kw_world k ∧ kw_processed k' = kw_processed k ∧ kw_dead k' = kw_dead k.

Definition fewer_pauses (k k' : KafkaWorld) : Prop := kw_paused k' ⊆ kw_paused k.

#[global] Instance poll_laws : PollLaws kw_assigned kw_paused kw_fetched fewer_pauses beside.
Proof.
  split; try done.
  - unfold fewer_pauses. split; [by intros ? ?|]. intros ???. set_solver.
  - intros s w Hs. eexists. split; [reflexivity|]. by repeat split.
  - intros s w Hs. eexists. split; [reflexivity|]. by repeat split.
  - intros timeout n w. simpl. unfold poll. destruct (kw_queue w) as [|r q].
    { do 2 eexists. split; [reflexivity|]. split_and!; [by repeat split | by unfold fewer_pauses | |].
      - by rewrite app_nil_r.
      - intros tp ms []%not_elem_of_nil. }
    case_decide as Hr; do 2 eexists; (split; [reflexivity|]);
      (split_and!; [by repeat split | by unfold fewer_pauses | |]); [done | | by rewrite app_nil_r |].
    + intros tp ms [= -> ->]%list_elem_of_singleton _. exact Hr.
    + intros tp ms []%not_elem_of_nil.
Qed.

Definition world : KafkaWorld :=
  MkKafkaWorld Sample.world [] {[("jobs", 0)]} ∅ [] [] [] [] 0.

(** A task during which a second partition is assigned. *)
Definition task : Task KafkaWorld Z :=
  Pending id (assign {[("jobs", 1)]}) (Running id (mret 7)).
End SampleConsumer.

Lemma safe_polls_witness :
  total (λ k, True ∧ kw_paused k = ∅ ∧ kw_fetched k = [])
    (await_with_safe_consumer_polls 2 SampleConsumer.task 30)
    (λ a k, a = 7 ∧ restored kw_assigned kw_paused kw_fetched SampleConsumer.fewer_pauses [] ∅ k)
    (λ _ k, False ∧ restored kw_assigned kw_paused kw_fetched SampleConsumer.fewer_pauses [] ∅ k).
Proof.
  apply (safe_polls kw_assigned kw_paused kw_fetched SampleConsumer.fewer_pauses SampleConsumer.beside []
    (λ a _, a = 7) (λ _ _, False) (λ _, True)); [|by intros ? ? ? ?|by intros ? ? ? ? ?|by intros ? ? ? ? ?|by intros ? ? []|simpl; lia|lia].
  assert (∀ A (m : M exc KafkaWorld A) Q, total (λ _, True) m Q (λ _ _, True) →
    (∀ k, kw_paused (m k).2 = kw_paused k ∧ kw_fetched (m k).2 = kw_fetched k) →
    runs kw_fetched SampleConsumer.fewer_pauses A (λ _, True) m Q (λ _ _, True)) as Hruns.
  { intros A m Q Hm Hp. split; [done|]. intros k _. unfold SampleConsumer.fewer_pauses.
    by destruct (Hp k) as [-> ->]. }
  apply meets_pending with (λ _, True); [by apply Hruns | by apply Hruns | done |].
  apply meets_running; [by apply Hruns|]. split; [done|].
  intros k _. by apply (Hruns _ (mret 7) (λ _ _, True)).
Defined.

Example safe_polls_ex :
  let r := await_with_safe_consumer_polls 2 SampleConsumer.task 30 SampleConsumer.world in
  match r.1 with Ret 7 => true | _ => false end &&
  bool_decide (kw_paused r.2 = ∅) && bool_decide (size (kw_assigned r.2) = 2%nat) = true.
Proof. vm_compute. reflexivity. Qed.
