(* ===== verification/ConsumerDelivery.v ===== *)
(** * The worker process: at-least-once delivery

    The contract of the Kafka client and of the tasks the worker process runs,
    and

    - [commit_after_handling]: an offset is committed only after its record, and
      every record handed out before it, was processed or is a dead letter. *)

From Stdlib Require Import QArith.
From S2P Require Import Prelude PyData PyText Json Status Domain Ports Messaging Readiness.
From S2P Require Import History Memory MemoryFacts Worker WorkerSafety WorkerFacts Consumer ConsumerFacts.

#[local] Open Scope Z_scope.

Section delivery.
Context {W : Type} `{!KafkaConsumer W, !DeadLetterProducer W, !StopEvent W, !EventLoop W,
  !StructuredLogger W}.
Context (readiness : M exc W ReadinessReport).
Context (process : JobWorkMessage → M exc W (option Job.t)).
Context (ensure_future : M exc W () → Task W ()).
Context (kafka_jobs_dlq_topic : string) (poll_fuel : nat).

(** What the consumer has handed out, in order, and the offsets this process
    has committed; what a processed message and a dead letter are; and what a
    call of the consumer may change. *)
Context (inv : W → Prop) (fetched : W → list ConsumerRecord)
  (committed : W → list (TopicPartition * Z)).
Context (processed : JobWorkMessage → W → Prop) (dead_lettered : ConsumerRecord → W → Prop).
Context (frame : relation W).

(** A record was processed, or is in the dead-letter topic if it is no message. *)
Definition handled (r : ConsumerRecord) (w : W) : Prop :=
  match decode_record r with
  | inr message => processed message w
  | inl _ => dead_lettered r w
  end.

(** What was processed stays processed. *)
Definition later (w w' : W) : Prop :=
  (∀ m, processed m w → processed m w') ∧ (∀ r, dead_lettered r w → dead_lettered r w').

(** ... and nothing is fetched or committed. *)
Definition aside (w w' : W) : Prop :=
  fetched w' = fetched w ∧ committed w' = committed w ∧ later w w'.

#[export] Instance later_preorder : PreOrder later.
Proof. split; [by split|]. intros w1 w2 w3 [] []. split; auto. Qed.

#[export] Instance aside_preorder : PreOrder aside.
Proof. split; [by split|]. intros w1 w2 w3 (?&?&?) (?&?&?). split_and!; [congruence.. | by etrans]. Qed.

Definition calm {A} (m : M exc W A) : Prop :=
  rg inv aside (λ _, True) m (λ _ _, True) (λ _ _, True).

Definition unframed (P : W → Prop) : Prop := ∀ w w', frame w w' → P w → P w'.

Definition client_call {A} (m : M exc W A) : Prop :=
  ∀ w, inv w → inv (m w).2 ∧ aside w (m w).2 ∧ frame w (m w).2.

Class DeliveryLaws := {
  frame_later w w' : frame w w' → later w w';
  calm_start : calm consumer_start; calm_stop : calm consumer_stop;
  calm_dlq_start : calm dlq_start; calm_dlq_stop : calm dlq_stop;
  calm_is_set : calm stop_is_set; calm_wait t : calm (stop_wait t);
  calm_time : calm loop_time; calm_readiness : calm readiness;
  calm_error name fields : calm (logger_error name fields);
  call_assignment : client_call consumer_assignment;
  call_paused : client_call consumer_paused;
  call_pause s : client_call (consumer_pause s);
  call_resume s : client_call (consumer_resume s);
  law_process message :
    rg inv aside (λ _, True) (process message) (λ _, processed message) (λ _ _, True);
  law_dead_letter topic r headers :
    rg inv aside (λ _, True)
      (dlq_send_and_wait topic (record_key r) (record_value r) headers)
      (λ _, dead_lettered r) (λ _ _, True);
  (** A fetch appends to what was handed out; a failed one hands out nothing. *)
  law_fetch timeout_ms max_records w : inv w →
    let r := consumer_getmany timeout_ms max_records w in
    inv r.2 ∧ frame w r.2 ∧ committed r.2 = committed w ∧
    match r.1 with
    | Ret records => fetched r.2 = fetched w ++ concat (map snd records) ∧
        ∀ tp ms m, (tp, ms) ∈ records → m ∈ ms → (record_topic m, record_partition m) = tp
    | _ => fetched r.2 = fetched w
    end;
  (** A commit that fails may have reached the broker. *)
  law_commit tp n w : inv w →
    let r := consumer_commit tp n w in
    inv r.2 ∧ later w r.2 ∧ fetched r.2 = fetched w ∧
    (committed r.2 = committed w ++ [(tp, n)] ∨ committed r.2 = committed w);
  (** A task does what its coroutine does. *)
  law_task m Q : unframed (Q ()) →
    rg inv aside (λ _, True) m Q (λ _ _, True) →
    meets unframed (@rg exc W inv aside) Q (λ _ _, True) (λ _, True) (ensure_future m)
}.

Context `{!DeliveryLaws}.

(** The records [rest] are handed out and not handled, all before them are, and
    a committed offset is that of a handled record. *)
Definition outstanding (rest : list ConsumerRecord) (w : W) : Prop :=
  ∃ done, fetched w = done ++ rest ∧ Forall (λ r, handled r w) done ∧
    ∀ tp n, (tp, n) ∈ committed w → ∃ r, r ∈ done ∧
      (record_topic r, record_partition r) = tp ∧ n = record_offset r + 1.

Definition delivering (w : W) : Prop := inv w ∧ ∃ rest, outstanding rest w.

Lemma handled_later r w w' : later w w' → handled r w → handled r w'.
Proof. intros [Hp Hd]. unfold handled. destruct (decode_record r); auto. Qed.

Lemma handled_unframed r : unframed (handled r).
Proof. intros w w' Hf. by apply handled_later, frame_later. Qed.

Lemma outstanding_grow rest more w w' :
  later w w' → fetched w' = fetched w ++ more → committed w' = committed w →
  outstanding rest w → outstanding (rest ++ more) w'.
Proof.
  intros Hl Hf Hc (done & Hd & Hall & Hcom). exists done. rewrite Hf, Hc, Hd, <- app_assoc.
  split_and!; [done| |done]. eapply Forall_impl; [exact Hall|]. intros r. by apply handled_later.
Qed.

Lemma outstanding_aside rest w w' : aside w w' → outstanding rest w → outstanding rest w'.
Proof.
  intros (Hf & Hc & Hl) Ho. rewrite <- (app_nil_r rest).
  eapply outstanding_grow; [done | by rewrite app_nil_r | done..].
Qed.

Lemma rg_aside {A} rest P (m : M exc W A) Q X :
  rg inv aside P m Q X →
  rg delivering later (λ w, outstanding rest w ∧ P w) m
    (λ a w, outstanding rest w ∧ Q a w) (λ e w, outstanding rest w ∧ X e w).
Proof.
  intros Hm w [Hi _] [Ho Hw]. destruct (Hm w Hi Hw) as (Hi' & Ha & Hpost).
  assert (outstanding rest (m w).2) as Ho' by by eapply outstanding_aside.
  split_and!; [split; [done | by eexists] | apply Ha | by destruct (m w) as [[]]].
Qed.

Lemma rg_calm {A} rest (m : M exc W A) :
  calm m → rg delivering later (outstanding rest) m (λ _, outstanding rest) (λ _ _, True).
Proof. intros Hm. eapply rg_conseq; [apply (rg_aside rest), Hm|naive_solver..]. Qed.

(** Calls of the consumer, next to a task that is at [P]. *)
Lemma rg_call {A} rest P (m : M exc W A) :
  client_call m → unframed P →
  rg delivering later (λ w, outstanding rest w ∧ P w) m
    (λ _ w, outstanding rest w ∧ P w) (λ _, P).
Proof.
  intros Hm HP w [Hi _] [Ho Hw]. destruct (Hm w Hi) as (Hi' & Ha & Hf).
  assert (outstanding rest (m w).2) as Ho' by by eapply outstanding_aside.
  assert (P (m w).2) by by eapply HP.
  split_and!; [split; [done | by eexists] | apply Ha | by destruct (m w) as [[]]].
Qed.

Lemma rg_fetch rest P timeout_ms max_records :
  unframed P →
  rg delivering later (λ w, outstanding rest w ∧ P w) (consumer_getmany timeout_ms max_records)
    (λ records w, (outstanding (rest ++ concat (map snd records)) w ∧ P w) ∧
       ∀ tp ms m, (tp, ms) ∈ records → m ∈ ms → (record_topic m, record_partition m) = tp)
    (λ _, P).
Proof.
  intros HP w [Hi _] [Ho Hw]. destruct (law_fetch timeout_ms max_records w Hi) as (Hi' & Hf & Hc & Hr).
  pose proof (frame_later _ _ Hf) as Hl. assert (P (consumer_getmany timeout_ms max_records w).2)
    by by eapply HP.
  destruct (consumer_getmany timeout_ms max_records w) as [[records|e|] w']; simpl in *.
  - destruct Hr as [Hr Hat]. assert (outstanding (rest ++ concat (map snd records)) w')
      by by eapply outstanding_grow.
    split_and!; [split; [done | by eexists] | done | done | done | done].
  - assert (outstanding rest w') by (by eapply outstanding_aside; [split_and!|]).
    split_and!; [split; [done | by eexists] | done | done].
  - assert (outstanding rest w') by (by eapply outstanding_aside; [split_and!|]).
    split_and!; [split; [done | by eexists] | done | done].
Qed.

(** *** A record *)

Lemma rg_process_record r :
  rg inv aside (λ _, True) (process_record process kafka_jobs_dlq_topic r)
    (λ _, handled r) (λ _ _, True).
Proof.
  unfold process_record, handled. destruct (decode_record r) as [e|message] eqn:E.
  - eapply rg_try_else with (Q := λ _ _, False) (X := λ _ _, True); [typeclasses eauto|..].
    + rule rg_lift. by intros.
    + by intros ? ? ? [].
    + intros e'. destruct (isinstance e' Exception_); [|done].
      rule_bind; [apply calm_error|]. intros ?. apply law_dead_letter.
  - eapply rg_try_else with (Q := λ m _, m = message ∧ True) (X := λ _ _, False);
      [typeclasses eauto|..].
    + rule rg_lift. by intros.
    + intros m. apply rg_fact. intros ->.
      rule_bind; [apply law_process|]. intros ?. by rule rg_ret.
    + intros e. destruct (isinstance e Exception_); [by intros ? ? []|by intros ? []].
Qed.

(** What cancelling [t] does is harmless now. *)
Definition stoppable {A} (t : Task W A) (w : W) : Prop :=
  match t with
  | Pending cleanup _ _ | Running cleanup _ => ∃ P, cancellable (@rg exc W inv aside) P cleanup ∧ P w
  | Finished _ => True
  end.

Abbreviation meets_rg := (meets unframed (@rg exc W inv aside)).

Lemma meets_stoppable {A} (Q : A → W → Prop) X P t w : meets_rg Q X P t → P w → stoppable t w.
Proof. intros [] ?; simpl; eauto. Qed.

Lemma rg_pause rest P h :
  unframed P →
  rg delivering later (λ w, outstanding rest w ∧ P w) (pause_current_assignment h)
    (λ _ w, outstanding rest w ∧ P w) (λ _, P).
Proof.
  intros HP. unfold pause_current_assignment.
  rule_bind; [apply rg_call; [apply call_assignment | done]|]. intros assigned.
  rule_bind; [apply rg_call; [apply call_paused | done]|]. intros paused. cbv zeta.
  case_decide; [by rule rg_ret|].
  rule_bind; [apply rg_call; [apply call_pause | done]|]. intros ?. by rule rg_ret.
Qed.

Lemma any_records_concat records : any_records records = false → concat (map snd records) = [].
Proof.
  unfold any_records. induction records as [|[tp ms] l IH]; [done|]. simpl.
  intros [Hm Hl]%orb_false_iff. apply negb_false_iff, bool_decide_eq_true in Hm. subst. auto.
Qed.

Lemma rg_keep_alive {A} rest P (t : Task W A) h :
  unframed P →
  rg delivering later (λ w, outstanding rest w ∧ P w) (keep_alive t h)
    (λ _ w, outstanding rest w ∧ P w) (λ e w, e.2.1 = t ∧ P w).
Proof.
  intros HP. unfold keep_alive. rule_bind.
  { apply rg_at_local. eapply rg_conseq; [by apply (rg_pause rest)|done..]. }
  intros h'. rule_bind.
  { apply rg_at_local. eapply rg_conseq; [by apply (rg_fetch rest)|done..]. }
  intros records. destruct (any_records records) eqn:E.
  - rule rg_raise. by intros w [[_ ?] _].
  - rule rg_ret. rewrite (any_records_concat _ E), app_nil_r. by intros w [? _].
Qed.

(** A slice of the task, or what it does when it is cancelled. *)
Lemma rg_slice {E} rest P P' f (X : E → W → Prop) :
  @rg exc W inv aside () P (modify f) (λ _, P') (λ _ _, True) →
  rg delivering later (λ w, outstanding rest w ∧ P w) (modify f) (λ _ w, outstanding rest w ∧ P' w) X.
Proof. intros Hf w Hi Hw. exact (rg_aside rest P (modify f) _ _ Hf w Hi Hw). Qed.

(** The task beside the polls.  If the loop returns, the task has, and nothing
    was handed out in the meantime. *)
Lemma rg_poll_loop {A} rest (Q : A → W → Prop) P t h fuel :
  meets_rg Q (λ _ _, True) P t → unframed P →
  rg delivering later (λ w, outstanding rest w ∧ P w) (poll_loop fuel t h)
    (λ r w, outstanding rest w ∧ Q r.1 w ∧ is_done r.2.1 = true) (λ e w, stoppable e.2.1 w).
Proof.
  revert P t h. induction fuel as [|fuel IH]; intros P t h Hm HP; simpl; [rule rg_out_of_fuel|].
  assert (∀ P t e, meets_rg Q (λ _ _, True) P t → unframed P →
    rg delivering later (λ w, outstanding rest w ∧ P w)
      (if isinstance e TimeoutError
       then h ← keep_alive t h; poll_loop fuel t h else raise (e, (t, h)))
      (λ r w, outstanding rest w ∧ Q r.1 w ∧ is_done r.2.1 = true)
      (λ e w, stoppable e.2.1 w)) as Hexn.
  { clear P t Hm HP. intros P t e Hm HP. destruct (isinstance e TimeoutError).
    - rule_bind; [|intros h'; by apply (IH P)].
      eapply rg_conseq; [by apply (rg_keep_alive rest P)|done..|].
      intros ? w [-> Hw]. by eapply meets_stoppable.
    - rule rg_raise. intros w [_ Hw]. by eapply meets_stoppable. }
  assert (∀ e, meets_rg Q (λ _ _, True) (λ _, True) (Finished (inl e))) as Hraised
    by (intros e; apply meets_finished; by rule rg_lift).
  destruct Hm as [P P' c slice t _ Hs HP' Hm|P c m _ Hm|P result Hm]; simpl.
  - rule_bind mid (λ r w, r = (inl (mk_exc TimeoutError ""), t) ∧ outstanding rest w ∧ P' w).
    + rule_bind; [by apply rg_slice|]. intros ?. by rule rg_ret.
    + intros r. apply rg_fact. intros ->. by apply (Hexn P' t).
  - rule_bind mid (λ r w, r.2 = Finished r.1 ∧ outstanding rest w ∧
      match r.1 with inl _ => True | inr a => Q a w end).
    + rule_bind; [eapply rg_attempt, (rg_aside rest), Hm|]. intros [e|a]; rule rg_ret; naive_solver.
    + intros [[e|a] t]; apply rg_fact; simpl; intros ->; [by apply (Hexn (λ _, True))|].
      rule rg_ret. naive_solver.
  - rule_bind mid (λ r w, r = (result, Finished result) ∧ outstanding rest w ∧
      match result with inl _ => True | inr a => Q a w end).
    + intros w Hi [Ho Hw]. destruct (Hm w (proj1 Hi) Hw) as (_ & _ & Hq).
      split_and!; [done | reflexivity | by destruct result].
    + intros r. apply rg_fact. intros ->. destruct result as [e|a]; [by apply (Hexn (λ _, True))|].
      rule rg_ret. naive_solver.
Qed.

Lemma rg_resume_paused rest P h :
  unframed P →
  rg delivering later (λ w, outstanding rest w ∧ P w) (resume_paused h)
    (λ _ w, outstanding rest w ∧ P w) (λ _ _, True).
Proof.
  intros HP. unfold resume_paused.
  rule_bind; [eapply rg_conseq; [apply (rg_call rest); [apply call_assignment | exact HP]|done..]|].
  intros assigned.
  rule_bind; [eapply rg_conseq; [apply (rg_call rest); [apply call_paused | exact HP]|done..]|].
  intros paused. cbv zeta. case_decide; [by rule rg_ret|].
  eapply rg_conseq; [apply (rg_call rest); [apply call_resume | exact HP]|done..].
Qed.

(** Something is outstanding at any time. *)
Lemma rg_some {A E} P (m : M E W A) Q X :
  (∀ rest, rg delivering later (λ w, outstanding rest w ∧ P w) m Q X) → rg delivering later P m Q X.
Proof. intros Hm w Hi Hw. pose proof Hi as [_ [rest Ho]]. by apply (Hm rest). Qed.

Lemma rg_finish_polls {A} P (t : Task W A) h :
  rg delivering later (λ w, P w ∧ stoppable t w) (finish_polls t h) (λ _ _, True) (λ _ _, True).
Proof.
  unfold finish_polls. rule_bind mid (λ _ _, True).
  - apply rg_some. intros rest. destruct t as [c ? ?|c ?|r]; [| |by rule rg_ret].
    1-2: intros w Hi (Ho & _ & Pc & Hc & Hp);
      by destruct (rg_slice (E := exc) rest Pc (λ _, True) c (λ _ _, True) Hc w Hi (conj Ho Hp))
        as (? & ? & _).
  - intros ?. apply rg_some. intros rest.
    eapply rg_conseq; [by apply (rg_resume_paused rest (λ _, True))|done..].
Qed.

(** The helper, for an operation that establishes [Q]. *)
Lemma rg_await rest m (Q : () → W → Prop) interval :
  unframed (Q ()) → rg inv aside (λ _, True) m Q (λ _ _, True) →
  rg delivering later (outstanding rest)
    (await_with_safe_consumer_polls poll_fuel (ensure_future m) interval)
    (λ _ w, outstanding rest w ∧ Q () w) (λ _ _, True).
Proof.
  intros HQ Hm. unfold await_with_safe_consumer_polls. case_decide; [by rule rg_raise|].
  pose proof (law_task m Q HQ Hm) as Ht. rule_bind.
  - eapply rg_attempt with (X := λ e w, stoppable e.2.1 w). rule_bind.
    + apply rg_at_local. eapply rg_conseq; [by apply (rg_pause rest (λ _, True))|done..|].
      intros e w _. simpl. by eapply meets_stoppable.
    + intros h. by apply (rg_poll_loop rest Q (λ _, True)).
  - intros [[e [t h]]|[[] [t h]]]; simpl.
    + rule_bind; [|intros ?; by rule rg_raise].
      eapply rg_pre; [by apply (rg_finish_polls (λ _, True))|by split].
    + rule_bind mid (λ _ w, outstanding rest w ∧ Q () w); [|intros ?; by rule rg_ret].
      unfold finish_polls. rule_bind; [|intros ?; by apply rg_resume_paused].
      destruct t; [by intros w _ (? & ? & ?)..|]. simpl. rule rg_ret. naive_solver.
Qed.

(** *** The loop *)

Lemma rg_commit tp r rest :
  (record_topic r, record_partition r) = tp →
  rg delivering later (λ w, outstanding (r :: rest) w ∧ handled r w)
    (consumer_commit tp (record_offset r + 1)) (λ _, outstanding rest) (λ _ _, True).
Proof.
  intros Htp w [Hi _] [(done & Hf & Hall & Hc) Hr].
  destruct (law_commit tp (record_offset r + 1) w Hi) as (Hi' & Hl & Hf' & Hc').
  assert (outstanding rest (consumer_commit tp (record_offset r + 1) w).2) as Ho.
  { exists (done ++ [r]). rewrite Hf', Hf, <- app_assoc. split; [done|]. split.
    - apply Forall_app. split; [|apply Forall_singleton; by eapply handled_later].
      eapply Forall_impl; [exact Hall|]. intros r'. by apply handled_later.
    - intros tp' n Hin. assert ((tp', n) ∈ committed w ∨ (tp', n) = (tp, record_offset r + 1))
        as [Hin'|[= -> ->]].
      { destruct Hc' as [E|E]; rewrite E in Hin; [|by left].
        apply elem_of_app in Hin as [|?%list_elem_of_singleton]; auto. }
      + destruct (Hc _ _ Hin') as (r' & ? & ?). exists r'. split; [apply elem_of_app; by left|done].
      + exists r. split; [apply elem_of_app; right; by apply list_elem_of_singleton|done]. }
  split_and!; [split; [done | by eexists] | done|].
  by destruct (consumer_commit _ _ w) as [[]].
Qed.

Lemma rg_consume_record tp r rest :
  (record_topic r, record_partition r) = tp →
  rg delivering later (outstanding (r :: rest))
    (consume_record process ensure_future kafka_jobs_dlq_topic poll_fuel tp r)
    (λ _, outstanding rest) (λ _ _, True).
Proof.
  intros Htp. unfold consume_record. rule_bind.
  - apply (rg_await (r :: rest) _ (λ _, handled r)); [apply handled_unframed | apply rg_process_record].
  - intros ?. by apply rg_commit.
Qed.

(** What one fetch handed out, partition by partition. *)
Lemma rg_deliveries records :
  (∀ tp ms m, (tp, ms) ∈ records → m ∈ ms → (record_topic m, record_partition m) = tp) →
  rg delivering later (outstanding (concat (map snd records)))
    (foreach records (λ '(tp, messages),
       foreach messages (consume_record process ensure_future kafka_jobs_dlq_topic poll_fuel tp)))
    (λ _, outstanding []) (λ _ _, True).
Proof.
  intros Hat.
  eapply (rg_foreach_rest _ _ records _ (λ l, outstanding (concat (map snd l)))).
  intros [tp ms] l' Hin. simpl.
  eapply (rg_foreach_rest _ _ ms _ (λ l, outstanding (l ++ concat (map snd l')))).
  intros r l Hr. apply rg_consume_record. by eapply Hat.
Qed.

Lemma rg_consume fuel :
  rg delivering later (outstanding [])
    (consume process ensure_future kafka_jobs_dlq_topic poll_fuel fuel)
    (λ _, outstanding []) (λ _ _, True).
Proof.
  induction fuel as [|fuel IH]; simpl; [apply rg_out_of_fuel; apply _|].
  rule_bind; [apply rg_calm, calm_is_set|]. intros [|]; [by rule rg_ret|].
  rule_bind.
  { eapply rg_conseq; [by apply (rg_fetch [] (λ _, True))|by split|done|done]. }
  intros records. simpl.
  eapply rg_pre with (λ w, (∀ tp ms m, (tp, ms) ∈ records → m ∈ ms →
    (record_topic m, record_partition m) = tp) ∧ outstanding (concat (map snd records)) w);
    [|naive_solver].
  apply rg_fact. intros Hat. rule_bind; [by apply rg_deliveries|]. intros ?. apply IH.
Qed.

Lemma rg_wait_until_ready fuel deadline poll :
  rg delivering later (outstanding []) (wait_until_ready readiness fuel deadline poll)
    (λ _, outstanding []) (λ _ _, True).
Proof.
  induction fuel as [|fuel IH]; simpl; [apply rg_out_of_fuel; apply _|].
  rule_bind; [apply rg_calm, calm_is_set|]. intros [|]; [by rule rg_ret|].
  rule_bind; [apply rg_calm, calm_readiness|]. intros report.
  destruct (ready report); [by rule rg_ret|].
  rule_bind; [apply rg_calm, calm_time|]. intros now. case_decide.
  - rule_bind; [apply rg_calm, calm_error|]. intros ?. by rule rg_raise.
  - rule_bind; [|intros ?; apply IH]. eapply rg_try_except with (X := λ _, outstanding []);
      [typeclasses eauto|..].
    + eapply rg_conseq; [apply (rg_aside []), (calm_wait poll)|naive_solver..].
    + intros e. destruct (isinstance e TimeoutError); [by rule rg_ret|done].
Qed.

(** C32: at-least-once delivery.  However the worker process ends (the stop
    signal, an exception of any of its calls, or not yet), the records it was
    handed out are a handled prefix, each of its records processed or put in
    the dead-letter topic, and the rest; every offset it has committed is that
    of a record of the prefix, so that no commit skips a record that was not
    handled.  A process that was stopped has handled everything. *)
Theorem commit_after_handling fuel timeout poll retries w :
  inv w → fetched w = [] → committed w = [] →
  let r := run_worker readiness process ensure_future kafka_jobs_dlq_topic poll_fuel
             fuel timeout poll retries w in
  ∃ done rest, fetched r.2 = done ++ rest ∧ Forall (λ r', handled r' r.2) done ∧
    (∀ tp n, (tp, n) ∈ committed r.2 → ∃ r', r' ∈ done ∧
       (record_topic r', record_partition r') = tp ∧ n = record_offset r' + 1) ∧
    (r.1 = Ret () → rest = []).
Proof.
  intros Hi Hf Hc. cbv zeta.
  assert (rg delivering later (outstanding [])
    (run_worker readiness process ensure_future kafka_jobs_dlq_topic poll_fuel fuel timeout poll retries)
    (λ _, outstanding []) (λ _ _, True)) as H1.
  { unfold run_worker, wait_for_runtime_readiness. rule_bind.
    { rule_bind; [apply rg_calm, calm_time|]. intros now. apply rg_wait_until_ready. }
    intros [|]; simpl; [|by rule rg_ret].
    rule_bind; [apply rg_calm, calm_start|]. intros ?.
    rule_bind; [apply rg_calm, calm_dlq_start|]. intros ?.
    rule_bind mid (λ _, outstanding []);
      [rule rg_lift; by destruct (Worker.worker_init retries) as [|[]]|]. intros ?.
    eapply rg_try_finally; [typeclasses eauto|apply rg_consume|..].
    - intros ?. rule_bind; [apply rg_calm, calm_stop|]. intros ?. apply rg_calm, calm_dlq_stop.
    - intros e. apply rg_some. intros rest. rule_bind mid (λ _, outstanding rest).
      + eapply rg_pre; [apply rg_calm, calm_stop|]. by intros ? [? _].
      + intros ?. eapply rg_conseq; [apply (rg_calm rest), calm_dlq_stop|done..]. }
  assert (outstanding [] w) as Ho.
  { exists []. rewrite Hf, Hc. split_and!; [done | constructor|]. intros tp n Hin. by apply elem_of_nil in Hin. }
  destruct (H1 w) as ([_ [rest Hr]] & _ & Hpost); [split; [done | by eexists] | done|].
  destruct (run_worker _ _ _ _ _ _ _ _ _ w) as [[[]|e|] w'] eqn:E; simpl in *.
  - destruct Hpost as (done & ? & ? & ?). exists done, []. by split_and!.
  - destruct Hr as (done & ? & ? & ?). exists done, rest. by split_and!.
  - destruct Hr as (done & ? & ? & ?). exists done, rest. by split_and!.
Qed.
End delivery.

(** ** A worker process with two records *)

Module SampleDelivery.

#[global] Instance dead_letters : DeadLetterProducer KafkaWorld := {
  dlq_start := mret ();
  dlq_stop := mret ();
  dlq_send_and_wait _ key value _ := modify (λ k, MkKafkaWorld (kw_world k) (kw_queue k)
    (kw_assigned k) (kw_paused k) (kw_fetched k) (kw_committed k) (kw_processed k)
    (kw_dead k ++ [(key, value)]) (kw_rounds k))
}.

(** The process is stopped after [kw_rounds] rounds. *)
#[global] Instance stop_event : StopEvent KafkaWorld := {
  stop_is_set := λ k, (Ret (bool_decide (kw_rounds k = 0%nat)),
    MkKafkaWorld (kw_world k) (kw_queue k) (kw_assigned k) (kw_paused k) (kw_fetched k)
      (kw_committed k) (kw_processed k) (kw_dead k) (pred (kw_rounds k)));
  stop_wait _ := raise (mk_exc TimeoutError "")
}.

#[global] Instance event_loop : EventLoop KafkaWorld := {
  loop_time := mret 0;
  loop_sleep _ := mret ()
}.

#[global] Instance logger : StructuredLogger KafkaWorld := {
  logger_info _ _ := mret ();
  logger_error _ _ := mret ()
}.

Definition readiness : M exc KafkaWorld ReadinessReport :=
  mret (MkReadinessReport [("application", "ok")] None None).

(** The OCR worker on the in-memory adapters, with a note of what it returned
    for. *)
Definition process (message : JobWorkMessage) : M exc KafkaWorld (option Job.t) := λ k,
  let r := @Worker.process World _ _ _ _ Sample.preprocessor Sample.engine _ _ 3 1 message (kw_world k) in
  (r.1, MkKafkaWorld r.2 (kw_queue k) (kw_assigned k) (kw_paused k) (kw_fetched k) (kw_committed k)
    (match r.1 with Ret _ => kw_processed k ++ [message] | _ => kw_processed k end) (kw_dead k)
    (kw_rounds k)).

Definition ensure_future (m : M exc KafkaWorld ()) : Task KafkaWorld () :=
  Pending id id (Running id m).

Definition inv (k : KafkaWorld) : Prop := wf_world (kw_world k).
Definition processed (m : JobWorkMessage) (k : KafkaWorld) : Prop := m ∈ kw_processed k.
Definition dead_lettered (r : ConsumerRecord) (k : KafkaWorld) : Prop :=
  (record_key r, record_value r) ∈ kw_dead k.

Abbreviation sample_aside := (aside kw_fetched kw_committed processed dead_lettered).
Abbreviation sample_laws := (DeliveryLaws readiness process ensure_future inv kw_fetched kw_committed
  processed dead_lettered SampleConsumer.beside).

Lemma calm_effect {A} (m : M exc KafkaWorld A) Q :
  (∀ k, inv k → inv (m k).2 ∧ sample_aside k (m k).2 ∧ match (m k).1 with Ret a => Q a (m k).2 | _ => True end) →
  rg inv sample_aside (λ _, True) m Q (λ _ _, True).
Proof.
  intros H k Hk _. destruct (H k Hk) as (? & ? & Hp). split_and!; [done..|].
  by destruct (m k) as [[]].
Qed.

Lemma aside_same k k' :
  kw_fetched k' = kw_fetched k → kw_committed k' = kw_committed k →
  (∃ l, kw_processed k' = kw_processed k ++ l) → (∃ l, kw_dead k' = kw_dead k ++ l) →
  sample_aside k k'.
Proof.
  intros Hf Hc [l Hp] [l' Hd]. split_and!; [done..|]. unfold processed, dead_lettered.
  split; intros ? ?; rewrite ?Hp, ?Hd; apply elem_of_app; by left.
Qed.

Ltac unchanged := first [done | by exists []; rewrite app_nil_r].
Ltac idle_call := apply calm_effect; intros k Hk; split_and!; [exact Hk | apply aside_same; unchanged | done].
Ltac client := intros k Hk; split_and?; [exact Hk | apply aside_same; unchanged | by repeat split].

Lemma process_law message :
  rg inv sample_aside (λ _, True) (process message) (λ _, processed message) (λ _ _, True).
Proof.
  apply calm_effect. intros k Hk.
  destruct (@rg_process World wf_world mview exact _ _ _ _ Sample.preprocessor Sample.engine _ _
    _ _ _ _ _ _ _ _ 3 1 message (kw_world k) Hk I) as (Hw & _ & _).
  unfold process. cbv zeta. simpl. split_and!; [exact Hw| |].
  - apply aside_same; [done..| |unchanged]. simpl.
    destruct ((Worker.process _ _ _ _).1); [by eexists|unchanged..].
  - unfold processed. simpl. destruct ((Worker.process _ _ _ _).1); [|done..].
    apply elem_of_app. right. by apply list_elem_of_singleton.
Qed.

Lemma fetch_law timeout n k : inv k →
  let r := consumer_getmany timeout n k in
  inv r.2 ∧ SampleConsumer.beside k r.2 ∧ kw_committed r.2 = kw_committed k ∧
  match r.1 with
  | Ret records => kw_fetched r.2 = kw_fetched k ++ concat (map snd records) ∧
      ∀ tp ms m, (tp, ms) ∈ records → m ∈ ms → (record_topic m, record_partition m) = tp
  | _ => kw_fetched r.2 = kw_fetched k
  end.
Proof.
  intros Hk. simpl. unfold SampleConsumer.poll.
  assert (∀ tp ms m, (tp, ms) ∈ ([] : list (TopicPartition * list ConsumerRecord)) → m ∈ ms →
    (record_topic m, record_partition m) = tp) as Hnil by (by intros ? ? ? ?%elem_of_nil).
  destruct (kw_queue k) as [|r q]; [|case_decide]; simpl;
    (split_and!; [exact Hk|by repeat split|done|by rewrite ?app_nil_r|]); try exact Hnil.
  intros tp ms m [= -> ->]%list_elem_of_singleton ->%list_elem_of_singleton. done.
Qed.

#[global] Instance laws : sample_laws.
Proof.
  split; try (by intros; idle_call); try (by client); try (by intros ?; client).
  - intros k k' (_ & Hp & Hd). split; intros ?; unfold processed, dead_lettered; congruence.
  - apply process_law.
  - intros topic r headers. apply calm_effect. intros k Hk. split_and!; [exact Hk| |].
    + apply aside_same; [done..|unchanged|by eexists].
    + unfold dead_lettered. apply elem_of_app. right. by apply list_elem_of_singleton.
  - apply fetch_law.
  - intros tp n k Hk. simpl. split_and!; [exact Hk|by split|done|by left].
  - intros m Q HQ Hm. apply meets_pending with (λ _, True); [by idle_call|by idle_call|done|].
    apply meets_running; [by idle_call|done].
Qed.

(** A work order and a record that is none. *)
Definition good : ConsumerRecord :=
  MkConsumerRecord "jobs" 0 41 (Some "7") (Some (encode_job_message Sample.message)).
Definition bad : ConsumerRecord := MkConsumerRecord "jobs" 0 42 None (Some "hello").

Definition world : KafkaWorld :=
  MkKafkaWorld Sample.world [good; bad] {[("jobs", 0)]} ∅ [] [] [] [] 4.

Definition run : outcome exc () * KafkaWorld :=
  run_worker readiness process ensure_future "dlq" 2 6 10 1 3 world.
End SampleDelivery.

Lemma commit_after_handling_witness :
  ∃ done rest, kw_fetched SampleDelivery.run.2 = done ++ rest ∧
    Forall (λ r', handled SampleDelivery.processed SampleDelivery.dead_lettered r' SampleDelivery.run.2) done ∧
    (∀ tp n, (tp, n) ∈ kw_committed SampleDelivery.run.2 → ∃ r', r' ∈ done ∧
       (record_topic r', record_partition r') = tp ∧ n = record_offset r' + 1) ∧
    (SampleDelivery.run.1 = Ret () → rest = []).
Proof.
  refine (commit_after_handling SampleDelivery.readiness SampleDelivery.process
    SampleDelivery.ensure_future "dlq" 2 SampleDelivery.inv kw_fetched kw_committed
    SampleDelivery.processed SampleDelivery.dead_lettered SampleConsumer.beside
    6 10 1 3 SampleDelivery.world _ eq_refl eq_refl).
  apply sample_wf; [by left | done].
Defined.

Example deliveries_ex :
  match SampleDelivery.run.1 with Ret _ => true | _ => false end &&
  bool_decide (kw_committed SampleDelivery.run.2 = [(("jobs", 0), 42); (("jobs", 0), 43)]) &&
  bool_decide (length (kw_processed SampleDelivery.run.2) = 1%nat) &&
  bool_decide (kw_dead SampleDelivery.run.2 = [(None, Some "hello")]) &&
  bool_decide (Sample.summary <$> dget (w_jobs (kw_world SampleDelivery.run.2)) 7%N =
    Some (SUCCEEDED, [Page_SUCCEEDED], 10000, 5%nat)) = true.
Proof. vm_compute. reflexivity. Qed.
