(* ===== verification/Storage.v ===== *)
(** * The durable object stores

    Models [infrastructure/storage.py]: [S3ObjectStorage], the adapter of an
    S3 client, and [StorageServiceObjectStorage], the adapter of the HTTP
    storage service.  The S3 client and the HTTP client are parameters; the
    sizes are those of [Settings].

    The facts are in [StorageFacts]. *)

From Stdlib Require Import Ascii.
From Stdlib Require String.
From S2P Require Import Prelude PyData PyText PyValue Json Status Domain Ports Sha256 Messaging.

#[local] Open Scope Z_scope.

(** [(size_bytes + part_size - 1) // part_size] *)
Definition part_count (size_bytes part_size : Z) : exc + Z :=
  if decide (part_size = 0)
  then inl (mk_exc (Foreign "ZeroDivisionError") "integer division or modulo by zero")
  else inr ((size_bytes + part_size - 1) / part_size).

(** The order of [sorted(parts)] on pairs; strings compare by code point, which
    is the order of their UTF-8 bytes. *)
Definition part_before (a b : Z * string) : bool :=
  (a.1 <? b.1) || (bool_decide (a.1 = b.1) && String.leb a.2 b.2).
Definition sorted_parts (parts : list (Z * string)) : list (Z * string) := order_by part_before parts.

(** ** [S3ObjectStorage] *)

(** The answer of [head_object]. *)
Record S3Head := MkS3Head {
  head_content_length : Z;
  head_content_type : option string;
  head_metadata : option (list (string * string))
}.

(** [s3_error_response e] is [getattr(e, "response", None)]; [s3_get_object]
    answers with the reader of the body. *)
Class S3Client (W : Type) := {
  s3_generate_presigned_url : string → dict → Z → M exc W string;
  s3_head_object : string → string → M exc W S3Head;
  s3_get_object : string → string → M exc W (M exc W string);
  s3_put_object : string → string → string → string → list (string * string) → M exc W ();
  s3_create_multipart_upload : dict → M exc W dict;
  s3_complete_multipart_upload : string → string → string → list (Z * string) → M exc W ();
  s3_delete_object : string → string → M exc W ();
  s3_abort_multipart_upload : string → string → string → M exc W ();
  s3_error_response : exc → option json
}.

Module S3ObjectStorage.

(** [response.get("Error") or {}], then [error.get("Code")] *)
Definition error_code (e_response : option json) : exc + option json :=
  match e_response with
  | Some (JObj response) =>
      match or_json (jget response "Error") (JObj []) with
      | JObj error => inr (Some (jget error "Code"))
      | _ => inl (mk_exc AttributeError "get")
      end
  | _ => inr None
  end.

(** [error.get("Code") in {...}]: a member of a set must be hashable. *)
Definition in_set (code : json) (l : list string) : exc + bool :=
  match code with
  | JList _ | JObj _ => inl (mk_exc TypeError "unhashable type")
  | JStr s => inr (bool_decide (s ∈ l))
  | _ => inr false
  end.

Section methods.
Context {W : Type} `{!S3Client W}.
Context (bucket : string) (presign_ttl_seconds multipart_threshold_bytes multipart_part_size_bytes : Z).

Definition is_not_found (e : exc) : exc + bool :=
  code ← error_code (s3_error_response e);
  match code with
  | Some code => in_set code ["404"; "NoSuchKey"; "NotFound"]
  | None => inr false
  end.

Definition is_no_such_upload (e : exc) : exc + bool :=
  code ← error_code (s3_error_response e);
  inr (match code with Some (JStr code) => bool_decide (code = "NoSuchUpload") | _ => false end).

Definition upload_params (object_key content_type : string) (size_bytes : Z) (sha256 : string) : dict :=
  [("Bucket", JStr bucket); ("Key", JStr object_key); ("ContentType", JStr content_type);
   ("Metadata", JObj [("sha256", JStr sha256); ("expected-size", JStr (str_Z size_bytes))])].

(** The URL of one part *)
Definition part_url (object_key upload_id : string) (part_number : Z) : M exc W (Z * string) :=
  part_url ← s3_generate_presigned_url "upload_part"
    [("Bucket", JStr bucket); ("Key", JStr object_key); ("UploadId", JStr upload_id);
     ("PartNumber", JInt part_number)] presign_ttl_seconds;
  mret (part_number, part_url).

Definition create_upload_target (object_key content_type : string) (size_bytes : Z)
    (sha256 : string) : M exc W UploadTarget :=
  let params := upload_params object_key content_type size_bytes sha256 in
  if decide (multipart_threshold_bytes ≤ size_bytes) then
    created ← s3_create_multipart_upload params;
    upload_id ← lift (item created "UploadId");
    let upload_id := py_str upload_id in
    count ← lift (part_count size_bytes multipart_part_size_bytes);
    parts ← collect (part_url object_key upload_id) (seqZ 1 count);
    mret (MkUploadTarget "" "PUT" [] (Some upload_id) (Some multipart_part_size_bytes) parts)
  else
    url ← s3_generate_presigned_url "put_object" params presign_ttl_seconds;
    mret (MkUploadTarget url "PUT"
      [("Content-Type", content_type); ("x-amz-meta-sha256", sha256);
       ("x-amz-meta-expected-size", str_Z size_bytes)] None None []).

Definition complete_upload (object_key : string) (upload_id : option string)
    (parts : list (Z * string)) : M exc W () :=
  match upload_id with
  | None => mret ()
  | Some upload_id =>
      if bool_decide (parts = []) then raise (mk_exc ValueError "multipart completion requires parts")
      else s3_complete_multipart_upload bucket object_key upload_id (sorted_parts parts)
  end.

Definition stat (object_key : string) : M exc W (option ObjectInfo) :=
  try_else (s3_head_object bucket object_key)
    (λ e, if isinstance e Exception_
          then Some (not_found ← lift (is_not_found e);
                     if not_found : bool then mret None else raise e)
          else None)
    (λ response,
      let metadata := default [] (head_metadata response) in
      mret (Some (MkObjectInfo object_key (head_content_length response) (dget metadata "sha256")
        (default "application/octet-stream" (head_content_type response))))).

Definition get_bytes (object_key : string) : M exc W string :=
  read ← s3_get_object bucket object_key;
  read.

Definition put_bytes (object_key data content_type : string) : M exc W StoredObject :=
  let digest := sha256 data in
  _ ← s3_put_object bucket object_key data content_type [("sha256", digest)];
  mret (MkStoredObject object_key (bytes_len data) digest content_type).

Definition delete_object (object_key : string) : M exc W () := s3_delete_object bucket object_key.

Definition abort_multipart_upload (object_key upload_id : string) : M exc W () :=
  try_except (s3_abort_multipart_upload bucket object_key upload_id)
    (λ e, if isinstance e Exception_
          then Some (gone ← lift (is_no_such_upload e);
                     if gone : bool then mret () else raise e)
          else None).

Definition create_download_url (object_key : string) : M exc W string :=
  s3_generate_presigned_url "get_object" [("Bucket", JStr bucket); ("Key", JStr object_key)]
    presign_ttl_seconds.
End methods.

End S3ObjectStorage.

Definition s3_storage {W} `{!S3Client W} (bucket : string) (ttl threshold part_size : Z) :
    ObjectStorage W := {|
  storage_create_upload_target :=
    S3ObjectStorage.create_upload_target bucket ttl threshold part_size;
  storage_stat := S3ObjectStorage.stat bucket;
  storage_complete_upload := S3ObjectStorage.complete_upload bucket;
  storage_get_bytes := S3ObjectStorage.get_bytes bucket;
  storage_put_bytes := S3ObjectStorage.put_bytes bucket;
  storage_delete_object := S3ObjectStorage.delete_object bucket;
  storage_abort_multipart_upload := S3ObjectStorage.abort_multipart_upload bucket;
  storage_create_download_url := S3ObjectStorage.create_download_url bucket ttl
|}.

(** ** [StorageServiceObjectStorage] *)

(** [quote(s, safe=...)]: the bytes of the UTF-8 encoding that are neither
    unreserved nor in [safe] are written as [%XX]. *)
Definition is_unreserved (c : ascii) : bool :=
  let n := code c in
  ((48 <=? n) && (n <=? 57) || (65 <=? n) && (n <=? 90) || (97 <=? n) && (n <=? 122) ||
   (n =? 45) || (n =? 46) || (n =? 95) || (n =? 126))%N.

Definition hex_upper (n : N) : ascii :=
  if (n <? 10)%N then ascii_of_N (48 + n) else ascii_of_N (55 + n).

Definition quote_char (safe : list ascii) (c : ascii) : list ascii :=
  if is_unreserved c || bool_decide (c ∈ safe) then [c]
  else ["%"%char; hex_upper (code c / 16); hex_upper (code c mod 16)].

Definition quote (safe : list ascii) (s : string) : string :=
  of_chars (chars s ≫= quote_char safe).

Example quote_ex :
  (quote [] "a b/c", quote ["/"%char] "jobs/1 é/p~1.png") = ("a%20b%2Fc", "jobs/1%20%C3%A9/p~1.png").
Proof. vm_compute. reflexivity. Qed.

(** A response of the HTTP client; [response_json] is the outcome of [json()]. *)
Record StorageHTTPResponse := MkStorageHTTPResponse {
  response_status_code : Z;
  response_content : string;
  response_headers : list (string * string);
  response_json : exc + json
}.

Class StorageHTTPClient (W : Type) := {
  storage_http_post : string → list (string * string) → json → M exc W StorageHTTPResponse;
  storage_http_get : string → list (string * string) → M exc W StorageHTTPResponse;
  storage_http_put : string → list (string * string) → string → M exc W StorageHTTPResponse
}.

Module StorageServiceObjectStorage.

Definition internal_code_header : string := "x-monkeyocr-internal-code".

Definition is_enveloped_response (response : StorageHTTPResponse) : bool :=
  existsb (λ h, bool_decide (lower h.1 = internal_code_header)) (response_headers response).

Definition not_found_reasons : list string :=
  ["object_not_found"; "resource_not_found"; "storage_object_not_found"].

(** The [ApiEnvelope] of the answer *)
Definition unwrap_payload (payload : json) : exc + dict :=
  match payload with
  | JObj payload =>
      match dget payload "internal_code" with
      | None => inl (mk_exc RuntimeError "storage-service returned an invalid ApiEnvelope")
      | Some code =>
          internal_code ← py_int code;
          if negb (bool_decide (internal_code = 0)) then
            let reason := py_str (or_json (jget payload "error_reason") (JStr "storage_service_error")) in
            if bool_decide (internal_code = 10002) || bool_decide (reason ∈ not_found_reasons)
            then inl (mk_exc FileNotFoundError reason)
            else inl (mk_exc RuntimeError ("storage-service failed: " +:+ reason +:+ " (" +:+
                   str_Z internal_code +:+ ")"))
          else
          match jget payload "data" with
          | JObj data => inr data
          | _ => inl (mk_exc RuntimeError "storage-service response data is invalid")
          end
      end
  | _ => inl (mk_exc RuntimeError "storage-service returned an invalid ApiEnvelope")
  end.

Definition unwrap (response : StorageHTTPResponse) : exc + dict :=
  if negb (bool_decide (response_status_code response = 200)) then
    if bool_decide (response_status_code response = 404)
    then inl (mk_exc FileNotFoundError "storage object not found")
    else inl (mk_exc RuntimeError ("storage-service returned HTTP " +:+
           str_Z (response_status_code response)))
  else
  payload ← response_json response;
  unwrap_payload payload.

(** [for part in value]; of a string only matters whether it has a character. *)
Definition iterate (value : json) : exc + list json :=
  match value with
  | JList l => inr l
  | JObj d => inr (map (λ kv, JStr kv.1) d)
  | JStr s => inr (if truthy s then [JStr s] else [])
  | _ => inl (mk_exc TypeError "object is not iterable")
  end.

(** [(int(part["part_number"]), str(part["url"]))] *)
Definition part_of (part : json) : exc + Z * string :=
  match part with
  | JObj part =>
      number ← item part "part_number";
      number ← py_int number;
      url ← item part "url";
      inr (number, py_str url)
  | _ => inl (mk_exc TypeError "indices must be integers")
  end.

(** [metadata.get("sha256")]; a value that is no string is kept as its text. *)
Definition digest_of (value : json) : option string :=
  match value with
  | JStr s => Some s
  | v => if json_truthy v then Some (py_str v) else None
  end.

Section methods.
Context {W : Type} `{!StorageHTTPClient W}.
Context (base_url service_token bucket : string).
Context (presign_ttl_seconds multipart_threshold_bytes multipart_part_size_bytes : Z).

Definition headers : list (string * string) := [("X-Storage-Service-Token", service_token)].

(** [self.base_url + path] *)
Definition endpoint (path : string) : string := rstrip_slash base_url +:+ path.

Definition object_url (object_key : string) : string :=
  rstrip_slash base_url +:+ "/objects/" +:+ quote [] bucket +:+ "/" +:+ quote ["/"%char] object_key.

(** A request with a JSON body, and the [data] of its answer *)
Definition post (path : string) (body : dict) : M exc W dict :=
  response ← storage_http_post (endpoint path) headers (JObj body);
  lift (unwrap response).

Definition create_multipart_target (object_key content_type : string) (size_bytes : Z)
    (sha256 : string) : M exc W UploadTarget :=
  count ← lift (part_count size_bytes multipart_part_size_bytes);
  data ← post "/multipart/create"
    [("bucket", JStr bucket); ("object_key", JStr object_key); ("content_type", JStr content_type);
     ("metadata", JObj [("sha256", JStr sha256); ("expected-size", JStr (str_Z size_bytes))]);
     ("part_count", JInt count); ("expires_in", JInt presign_ttl_seconds)];
  upload_id ← lift (item data "upload_id");
  parts ← lift (parts ← item data "parts"; parts ← iterate parts; traverse part_of parts);
  mret (MkUploadTarget "" "PUT" [] (Some (py_str upload_id)) (Some multipart_part_size_bytes) parts).

Definition create_upload_target (object_key content_type : string) (size_bytes : Z)
    (sha256 : string) : M exc W UploadTarget :=
  if decide (multipart_threshold_bytes ≤ size_bytes)
  then create_multipart_target object_key content_type size_bytes sha256 else
  data ← post "/presign/put"
    [("bucket", JStr bucket); ("object_key", JStr object_key); ("content_type", JStr content_type);
     ("expires_in", JInt presign_ttl_seconds)];
  url ← lift (item data "url");
  mret (MkUploadTarget (py_str url) "PUT" [("Content-Type", content_type)] None None []).

Definition complete_upload (object_key : string) (upload_id : option string)
    (parts : list (Z * string)) : M exc W () :=
  match upload_id with
  | None => mret ()
  | Some upload_id =>
      _ ← post "/multipart/complete"
        [("bucket", JStr bucket); ("object_key", JStr object_key); ("upload_id", JStr upload_id);
         ("parts", JList (map (λ '(number, etag),
            JObj [("part_number", JInt number); ("etag", JStr etag)]) (sorted_parts parts)))];
      mret ()
  end.

Definition object_info (object_key : string) (data : dict) : exc + ObjectInfo :=
  match or_json (jget data "metadata") (JObj []) with
  | JObj metadata =>
      size ← item data "size";
      size ← py_int size;
      inr (MkObjectInfo object_key size (digest_of (jget metadata "sha256"))
        (py_str (or_json (jget data "content_type") (JStr "application/octet-stream"))))
  | _ => size ← item data "size"; _ ← py_int size; inl (mk_exc AttributeError "get")
  end.

Definition stat (object_key : string) : M exc W (option ObjectInfo) :=
  response ← storage_http_post (endpoint "/objects/stat") headers
    (JObj [("bucket", JStr bucket); ("object_key", JStr object_key); ("expires_in", JInt 0)]);
  try_else (lift (unwrap response))
    (λ e, if isinstance e FileNotFoundError then Some (mret None) else None)
    (λ data, info ← lift (object_info object_key data); mret (Some info)).

Definition get_bytes (object_key : string) : M exc W string :=
  response ← storage_http_get (object_url object_key) headers;
  if is_enveloped_response response then
    _ ← lift (unwrap response);
    raise (mk_exc RuntimeError
      "storage-service returned an unexpected success envelope for object data")
  else if negb (bool_decide (response_status_code response = 200)) then
    if bool_decide (response_status_code response = 404)
    then raise (mk_exc FileNotFoundError object_key)
    else raise (mk_exc RuntimeError ("storage-service returned HTTP " +:+
           str_Z (response_status_code response) +:+ " for object data"))
  else mret (response_content response).

Definition put_bytes (object_key data content_type : string) : M exc W StoredObject :=
  response ← storage_http_put (object_url object_key)
    (dset headers "Content-Type" content_type) data;
  _ ← lift (unwrap response);
  mret (MkStoredObject object_key (bytes_len data) (sha256 data) content_type).

Definition delete_object (object_key : string) : M exc W () :=
  _ ← post "/objects/delete" [("bucket", JStr bucket); ("object_key", JStr object_key)];
  mret ().

Definition abort_multipart_upload (object_key upload_id : string) : M exc W () :=
  _ ← post "/multipart/abort"
    [("bucket", JStr bucket); ("object_key", JStr object_key); ("upload_id", JStr upload_id);
     ("parts", JList [])];
  mret ().

Definition create_download_url (object_key : string) : M exc W string :=
  data ← post "/presign/get"
    [("bucket", JStr bucket); ("object_key", JStr object_key);
     ("expires_in", JInt presign_ttl_seconds)];
  url ← lift (item data "url");
  mret (py_str url).
End methods.

End StorageServiceObjectStorage.

Definition storage_service {W} `{!StorageHTTPClient W} (base_url service_token bucket : string)
    (ttl threshold part_size : Z) : ObjectStorage W := {|
  storage_create_upload_target :=
    StorageServiceObjectStorage.create_upload_target base_url service_token bucket ttl threshold part_size;
  storage_stat := StorageServiceObjectStorage.stat base_url service_token bucket;
  storage_complete_upload := StorageServiceObjectStorage.complete_upload base_url service_token bucket;
  storage_get_bytes := StorageServiceObjectStorage.get_bytes base_url service_token bucket;
  storage_put_bytes := StorageServiceObjectStorage.put_bytes base_url service_token bucket;
  storage_delete_object := StorageServiceObjectStorage.delete_object base_url service_token bucket;
  storage_abort_multipart_upload :=
    StorageServiceObjectStorage.abort_multipart_upload base_url service_token bucket;
  storage_create_download_url :=
    StorageServiceObjectStorage.create_download_url base_url service_token bucket ttl
|}.
