(* ===== verification/StorageFacts.v ===== *)
(** * The durable object stores: facts

    - [upload_plan]: the parts of a multipart upload cover exactly the object;
    - [s3_refines_memory]: over a bucket, the S3 adapter is the in-memory store;
    - [service_absent]: how the answers of the storage service are classified;
    - [object_url_inj]: different objects have different URLs. *)

From Stdlib Require Import Ascii.
From Stdlib Require String.
From S2P Require Import Prelude PyData PyText PyValue Json Status Domain Ports Sha256 Messaging.
From S2P Require Import Memory Storage.

#[local] Open Scope Z_scope.

(** ** Multipart uploads *)

(** [n] parts of [part_size] bytes, the last one perhaps shorter, hold exactly
    [size] bytes. *)
Definition covers (n part_size size : Z) : Prop :=
  0 < n ∧ (n - 1) * part_size < size ≤ n * part_size.

Lemma part_count_covers size part_size :
  0 < size → 0 < part_size → ∃ n, part_count size part_size = inr n ∧ covers n part_size size.
Proof.
  intros Hs Hp. unfold part_count. rewrite decide_False by lia. eexists; split; [done|].
  pose proof (Z.div_mod (size + part_size - 1) part_size ltac:(lia)) as Hd.
  pose proof (Z.mod_pos_bound (size + part_size - 1) part_size Hp) as Hm.
  unfold covers. nia.
Qed.

(** A client that presigns every request and starts every multipart upload. *)
Class S3Answers (W : Type) `{!S3Client W} := {
  presigned : string → dict → Z → W → string;
  presign_answers op params ttl w : ∃ w',
    s3_generate_presigned_url op params ttl w = (Ret (presigned op params ttl w), w');
  multipart_answers params w : ∃ upload_id w',
    s3_create_multipart_upload params w = (Ret [("UploadId", JStr upload_id)], w')
}.

Section plan.
Context {W : Type} `{!S3Client W} `{!S3Answers W}.
Context (bucket : string) (ttl threshold part_size : Z).

(** [url] is what the client presigned for [op] with [params]. *)
Definition url_for (op : string) (params : dict) (url : string) : Prop :=
  ∃ w : W, url = presigned op params ttl w.

Definition part_params (key upload_id : string) (n : Z) : dict :=
  [("Bucket", JStr bucket); ("Key", JStr key); ("UploadId", JStr upload_id); ("PartNumber", JInt n)].

Lemma part_url_run key upload_id n w : ∃ w',
  S3ObjectStorage.part_url bucket ttl key upload_id n w =
  (Ret (n, presigned "upload_part" (part_params key upload_id n) ttl w), w').
Proof.
  destruct (presign_answers "upload_part" (part_params key upload_id n) ttl w) as [w1 H1].
  exists w1. unfold S3ObjectStorage.part_url. by rewrite (bind_run _ _ _ _ _ H1).
Qed.

Lemma collect_parts key upload_id l w : ∃ parts w',
  collect (S3ObjectStorage.part_url bucket ttl key upload_id) l w = (Ret parts, w') ∧
  parts.*1 = l ∧
  Forall (λ p, url_for "upload_part" (part_params key upload_id p.1) p.2) parts.
Proof.
  revert w. induction l as [|n l IH]; intros w.
  { by exists [], w. }
  destruct (part_url_run key upload_id n w) as [w1 H1].
  destruct (IH w1) as (parts & w' & H2 & Hl & Hf).
  eexists (_ :: parts), w'. split_and!.
  - simpl. by rewrite (bind_run _ _ _ _ _ H1), (bind_run _ _ _ _ _ H2).
  - simpl. by f_equal.
  - constructor; [by exists w | done].
Qed.

(** What a client of the upload is told to do. *)
Definition planned (key content_type : string) (size : Z) (sha : string) (t : UploadTarget) : Prop :=
  if decide (threshold ≤ size) then
    ∃ upload_id n, covers n part_size size ∧
      target_upload_id t = Some upload_id ∧ target_part_size_bytes t = Some part_size ∧
      (target_part_urls t).*1 = seqZ 1 n ∧
      Forall (λ p, url_for "upload_part" (part_params key upload_id p.1) p.2) (target_part_urls t)
  else
    target_upload_id t = None ∧ target_part_urls t = [] ∧
    url_for "put_object" (S3ObjectStorage.upload_params bucket key content_type size sha) (target_url t).

(** C34: an upload of [size] bytes gets a plan that stores exactly these bytes:
    below the threshold one presigned PUT of the object, and from the threshold
    on a multipart upload whose parts are numbered from 1 without gaps, each
    with the URL presigned for its own number, and just enough to hold the
    object: all but the last are full and the last one is not empty. *)
Theorem upload_plan key content_type size sha w :
  0 < part_size → 0 < size → ∃ t w',
  S3ObjectStorage.create_upload_target bucket ttl threshold part_size key content_type size sha w =
    (Ret t, w') ∧ planned key content_type size sha t.
Proof.
  intros Hp Hs. unfold S3ObjectStorage.create_upload_target, planned.
  destruct (decide (threshold ≤ size)).
  - destruct (multipart_answers (S3ObjectStorage.upload_params bucket key content_type size sha) w)
      as (upload_id & w1 & H1).
    destruct (part_count_covers size part_size Hs Hp) as (n & Hn & Hc).
    destruct (collect_parts key upload_id (seqZ 1 n) w1) as (parts & w2 & H2 & Hl & Hf).
    eexists _, w2. split.
    + rewrite (bind_run _ _ _ _ _ H1), Hn.
      etrans; [exact (bind_lift_run (JStr upload_id) _ w1)|].
      etrans; [exact (bind_lift_run n _ w1)|]. by rewrite (bind_run _ _ _ _ _ H2).
    + by exists upload_id, n.
  - destruct (presign_answers "put_object"
      (S3ObjectStorage.upload_params bucket key content_type size sha) ttl w) as [w1 H1].
    eexists _, w1. rewrite (bind_run _ _ _ _ _ H1). split_and!; [done..|]. by exists w.
Qed.
End plan.

(** ** The S3 adapter and the in-memory store *)

(** The objects of a bucket: data, content type and metadata per key, and how
    the client's calls act on them, S3's documented behaviour: a missing object
    is a client error whose code is [404] or [NoSuchKey], a [put] replaces the
    object, a [delete] of a missing object succeeds. *)
Definition s3_missing (e : option json) : Prop :=
  ∃ code, code ∈ ["404"; "NoSuchKey"] ∧ e = Some (JObj [("Error", JObj [("Code", JStr code)])]).

Class Bucket (W : Type) `{!S3Client W} (bucket : string) := {
  s3_objects : W → string → option (string * string * list (string * string));
  bucket_head key w : ∃ w', s3_objects w' = s3_objects w ∧
    match s3_objects w key with
    | Some (data, content_type, metadata) => s3_head_object bucket key w =
        (Ret (MkS3Head (bytes_len data) (Some content_type) (Some metadata)), w')
    | None => ∃ e, s3_head_object bucket key w = (Exn e, w') ∧
        isinstance e Exception_ = true ∧ s3_missing (s3_error_response e)
    end;
  bucket_get key w : ∃ w', s3_objects w' = s3_objects w ∧
    match s3_objects w key with
    | Some (data, _, _) => ∃ read w1,
        s3_get_object bucket key w = (Ret read, w1) ∧ read w1 = (Ret data, w')
    | None => ∃ e, s3_get_object bucket key w = (Exn e, w') ∧
        isinstance e FileNotFoundError = false ∧ s3_missing (s3_error_response e)
    end;
  bucket_put key data content_type metadata w : ∃ w',
    s3_put_object bucket key data content_type metadata w = (Ret (), w') ∧
    ∀ k, s3_objects w' k =
      if decide (key = k) then Some (data, content_type, metadata) else s3_objects w k;
  bucket_delete key w : ∃ w', s3_delete_object bucket key w = (Ret (), w') ∧
    ∀ k, s3_objects w' k = if decide (key = k) then None else s3_objects w k
}.

(** The operations on whole objects, and their replies. *)
Inductive request :=
  | StatObject (key : string)
  | GetBytes (key : string)
  | PutBytes (key data content_type : string)
  | DeleteObject (key : string).

Inductive reply :=
  | Info (info : option ObjectInfo)
  | Data (data : string)
  | Stored (stored : StoredObject)
  | Done.

Definition perform {W} (st : ObjectStorage W) (r : request) : M exc W reply :=
  match r with
  | StatObject key => info ← storage_stat key; mret (Info info)
  | GetBytes key => data ← storage_get_bytes key; mret (Data data)
  | PutBytes key data content_type =>
      stored ← storage_put_bytes key data content_type; mret (Stored stored)
  | DeleteObject key => _ ← storage_delete_object key; mret Done
  end.

(** The reply, or the exception raised. *)
Definition answer {W} (st : ObjectStorage W) (r : request) : M exc W (exc + reply) := attempt (perform st r).

Section bucket.
Context {W : Type} `{!S3Client W} (bucket : string) `{!Bucket W bucket}.
Context (ttl threshold part_size : Z).

(** Both stores hold the same objects. *)
Definition same_objects (ws : W) (wm : World) : Prop :=
  NoDup (w_objects wm).*1 ∧
  ∀ key, s3_objects ws key =
    (λ '(data, content_type, digest), (data, content_type, [("sha256", digest)])) <$>
      dget (w_objects wm) key.

(** The answers of the two stores to one request: the same reply; but for the
    reading of a missing object the bucket's store raises the client's error, with
    the code of a missing object, and the in-memory store [FileNotFoundError]. *)
Definition agree (r : request) (a : (exc + reply) * (exc + reply)) : Prop :=
  match r, a with
  | _, (inr x, inr y) => x = y
  | GetBytes key, (inl e, inl e') =>
      isinstance e FileNotFoundError = false ∧ s3_missing (s3_error_response e) ∧
      e' = mk_exc FileNotFoundError key
  | _, _ => False
  end.

(** The two agree and keep holding the same objects. *)
Definition alike {A} (G : A * A → Prop) (m : M exc W A) (m' : Mem A) : Prop :=
  ∀ ws wm, same_objects ws wm → ∃ a b ws' wm',
    m ws = (Ret a, ws') ∧ m' wm = (Ret b, wm') ∧ G (a, b) ∧ same_objects ws' wm'.

Lemma alike_collect {A B} (G : A → B * B → Prop) (f : A → M exc W B) f' l ws wm :
  (∀ x, alike (G x) (f x) (f' x)) → same_objects ws wm → ∃ bs ws' wm',
    collect f l ws = (Ret bs.*1, ws') ∧ collect f' l wm = (Ret bs.*2, wm') ∧
    Forall2 G l bs ∧ same_objects ws' wm'.
Proof.
  intros Hf. revert ws wm. induction l as [|x l IH]; intros ws wm HR; simpl.
  { exists [], ws, wm. by split_and!. }
  destruct (Hf x ws wm HR) as (b & b' & ws1 & wm1 & H1 & H2 & HG & HR1).
  destruct (IH ws1 wm1 HR1) as (bs & ws2 & wm2 & H3 & H4 & HGs & HR2).
  exists ((b, b') :: bs), ws2, wm2.
  rewrite (bind_run _ _ _ _ _ H1), (bind_run _ _ _ _ _ H2), (bind_run _ _ _ _ _ H3), (bind_run _ _ _ _ _ H4).
  split_and!; [done | done | by constructor | done].
Qed.

Abbreviation s3 := (s3_storage bucket ttl threshold part_size).

Lemma same_calm (ws ws' : W) wm :
  s3_objects ws' = s3_objects ws → same_objects ws wm → same_objects ws' wm.
Proof. intros H [Hd HR]. split; [done|]. intros k. rewrite H. apply HR. Qed.

Lemma not_found_code e : s3_missing (s3_error_response e) → S3ObjectStorage.is_not_found e = inr true.
Proof.
  intros (code & Hc & E). unfold S3ObjectStorage.is_not_found. rewrite E. simpl.
  rewrite bool_decide_eq_true_2; [done | set_solver].
Qed.

Lemma alike_stat key :
  alike (agree (StatObject key)) (answer s3 (StatObject key)) (answer memory_storage (StatObject key)).
Proof.
  intros ws wm HR. destruct (bucket_head key ws) as (ws' & Hs & H).
  pose proof (proj2 HR key) as Hk. pose proof (same_calm _ _ _ Hs HR) as HR'.
  unfold answer, perform, attempt, mbind, M_bind. cbn [storage_stat s3_storage memory_storage].
  unfold S3ObjectStorage.stat, try_else, atomic, atomic_alone, InMemoryObjectStorage.stat, gets.
  rewrite Hk in H. destruct (dget (w_objects wm) key) as [[[data ct] digest]|] eqn:Hg; simpl in H.
  - rewrite H. simpl. by eexists _, _, ws', wm.
  - destruct H as (e & He & Hi & Hm). rewrite He, Hi, (not_found_code _ Hm). simpl.
    by eexists _, _, ws', wm.
Qed.

Lemma alike_get key :
  alike (agree (GetBytes key)) (answer s3 (GetBytes key)) (answer memory_storage (GetBytes key)).
Proof.
  intros ws wm HR. destruct (bucket_get key ws) as (ws' & Hs & H).
  pose proof (proj2 HR key) as Hk. pose proof (same_calm _ _ _ Hs HR) as HR'.
  unfold answer, perform, attempt, mbind, M_bind. cbn [storage_get_bytes s3_storage memory_storage].
  unfold S3ObjectStorage.get_bytes, InMemoryObjectStorage.get_bytes, atomic, atomic_alone, gets.
  rewrite Hk in H. destruct (dget (w_objects wm) key) as [[[data ct] digest]|] eqn:Hg; simpl in H.
  - destruct H as (read & w1 & H1 & H2). unfold mbind, M_bind. rewrite H1, H2. simpl.
    rewrite Hg. by eexists _, _, ws', wm.
  - destruct H as (e & He & Hi & Hm). unfold mbind, M_bind. rewrite He. simpl. rewrite Hg.
    by eexists _, _, ws', wm.
Qed.

Lemma alike_put key data content_type :
  alike (agree (PutBytes key data content_type)) (answer s3 (PutBytes key data content_type))
    (answer memory_storage (PutBytes key data content_type)).
Proof.
  intros ws wm HR.
  destruct (bucket_put key data content_type [("sha256", sha256 data)] ws) as (ws' & H & Hs).
  unfold answer, perform, attempt, mbind, M_bind. cbn [storage_put_bytes s3_storage memory_storage].
  unfold S3ObjectStorage.put_bytes, mbind, M_bind. rewrite H.
  eexists _, _, ws', _. split; [done|]. split; [reflexivity|]. split; [reflexivity|]. split; simpl.
  - by apply dset_NoDup, HR.
  - intros k. rewrite Hs, dget_dset. case_decide; [done | apply HR].
Qed.

Lemma alike_delete key :
  alike (agree (DeleteObject key)) (answer s3 (DeleteObject key)) (answer memory_storage (DeleteObject key)).
Proof.
  intros ws wm HR. destruct (bucket_delete key ws) as (ws' & H & Hs).
  unfold answer, perform, attempt, mbind, M_bind. cbn [storage_delete_object s3_storage memory_storage].
  unfold S3ObjectStorage.delete_object. rewrite H.
  eexists _, _, ws', _. split; [done|]. split; [reflexivity|]. split; [reflexivity|]. split; simpl.
  - by apply dpop_keys, HR.
  - intros k. rewrite Hs, dget_dpop by apply HR. case_decide; [done | apply HR].
Qed.

(** C33: over a bucket that behaves as S3 does, the S3 adapter is the in-memory
    store the backend is tested with, but for one case: from the same objects, any
    sequence of [stat], [get_bytes], [put_bytes] and [delete_object] gets the same
    replies from both, digests, sizes and content types included, and leaves both
    with the same objects again.  Only [get_bytes] of a missing object raises, in
    both, but not alike: [FileNotFoundError] in memory, and the client's own
    error, which is none, over the bucket. *)
Theorem s3_refines_memory (rs : list request) ws wm :
  same_objects ws wm → ∃ replies ws' wm',
    collect (answer s3) rs ws = (Ret replies.*1, ws') ∧
    collect (answer memory_storage) rs wm = (Ret replies.*2, wm') ∧
    Forall2 agree rs replies ∧ same_objects ws' wm'.
Proof.
  apply alike_collect. intros [key|key|key data content_type|key].
  - apply alike_stat.
  - apply alike_get.
  - apply alike_put.
  - apply alike_delete.
Qed.
End bucket.

(** A bucket with nothing else, whose URLs name the operation and the part. *)
Module SampleBucket.

Abbreviation Objects := (list (string * (string * string * list (string * string)))).

Definition missing (code : string) : exc := mk_exc (Foreign "ClientError") code.

#[global] Instance client : S3Client Objects := {
  s3_generate_presigned_url op params ttl := mret (op +:+ " " +:+ py_str (JObj params));
  s3_head_object bucket key := λ w, (match dget w key with
    | Some (data, ct, metadata) => Ret (MkS3Head (bytes_len data) (Some ct) (Some metadata))
    | None => Exn (missing "404") end, w);
  s3_get_object bucket key := λ w, (match dget w key with
    | Some (data, _, _) => Ret (mret data)
    | None => Exn (missing "NoSuchKey") end, w);
  s3_put_object bucket key data ct metadata := modify (λ w, dset w key (data, ct, metadata));
  s3_create_multipart_upload params := mret [("UploadId", JStr "u1")];
  s3_complete_multipart_upload _ _ _ _ := mret ();
  s3_delete_object bucket key := modify (filter (λ kv, kv.1 ≠ key));
  s3_abort_multipart_upload _ _ _ := mret ();
  s3_error_response e := Some (JObj [("Error", JObj [("Code", JStr (exc_msg e))])])
}.

#[global, refine] Instance answers : S3Answers Objects := {
  presigned op params _ _ := op +:+ " " +:+ py_str (JObj params)
}.
Proof.
  - intros. by eexists.
  - intros. by eexists _, _.
Defined.

Lemma dget_filter (w : Objects) key k :
  dget (filter (λ kv, kv.1 ≠ key) w) k = if decide (key = k) then None else dget w k.
Proof.
  induction w as [|[k' v] w IH]; [by case_decide|].
  rewrite filter_cons. simpl. repeat case_decide; subst; simpl;
    rewrite ?decide_True, ?decide_False by done; try done; congruence.
Qed.

#[global, refine] Instance bucket : Bucket Objects "b" := { s3_objects w k := dget w k }.
Proof.
  - intros key w. exists w. split; [done|]. simpl. destruct (dget w key) as [[[] ]|] eqn:E; [done|].
    exists (missing "404"). split_and!; [done | done |]. exists "404". split; [set_solver | done].
  - intros key w. exists w. split; [done|]. simpl. destruct (dget w key) as [[[] ]|] eqn:E.
    + by eexists _, w.
    + exists (missing "NoSuchKey"). split_and!; [done | done |]. exists "NoSuchKey". split; [set_solver | done].
  - intros key data ct md w. exists (dset w key (data, ct, md)). split; [done|]. intros k. apply dget_dset.
  - intros key w. eexists. split; [done|]. intros k. apply dget_filter.
Defined.

End SampleBucket.

(** 10 bytes in parts of 4: three of them. *)
Example upload_plan_ex :
  match (S3ObjectStorage.create_upload_target (W := SampleBucket.Objects)
    "b" 900 8 4 "k" "image/png" 10 "aa" []).1 with
  | Ret t => (target_upload_id t, (target_part_urls t).*1)
  | _ => (None, [])
  end = (Some "u1", [1; 2; 3]).
Proof. vm_compute. reflexivity. Qed.

Lemma upload_plan_witness : 0 < 4 ∧ 0 < 10 ∧ ∃ t w',
  S3ObjectStorage.create_upload_target "b" 900 8 4 "k" "image/png" 10 "aa"
    ([] : SampleBucket.Objects) = (Ret t, w') ∧ planned "b" 900 8 4 "k" "image/png" 10 "aa" t.
Proof. split; [lia|]. split; [lia|]. apply upload_plan; lia. Defined.

Lemma s3_refines_memory_witness :
  let rs := [PutBytes "k" "abc" "text/plain"; StatObject "k"; GetBytes "k"; DeleteObject "k"; GetBytes "k"] in
  ∃ replies ws' wm',
    collect (answer (s3_storage "b" 900 8 4)) rs ([] : SampleBucket.Objects) = (Ret replies.*1, ws') ∧
    collect (answer memory_storage) rs empty_world = (Ret replies.*2, wm') ∧
    Forall2 agree rs replies ∧ same_objects "b" ws' wm'.
Proof. apply s3_refines_memory. split; [constructor | done]. Defined.

(** ** The answers of the storage service *)

(** The reason given in an envelope *)
Definition reason_of (payload : dict) : string :=
  py_str (or_json (jget payload "error_reason") (JStr "storage_service_error")).

(** The service says that there is no such object: HTTP 404, or a refusal whose
    code or reason means so. *)
Definition absent (r : StorageHTTPResponse) : Prop :=
  response_status_code r = 404 ∨
  response_status_code r = 200 ∧ ∃ payload code n,
    response_json r = inr (JObj payload) ∧ dget payload "internal_code" = Some code ∧
    py_int code = inr n ∧ n ≠ 0 ∧
    (n = 10002 ∨ reason_of payload ∈ StorageServiceObjectStorage.not_found_reasons).

(** The service has done what it was asked, and answers with [data]. *)
Definition accepted (r : StorageHTTPResponse) (data : dict) : Prop :=
  response_status_code r = 200 ∧ ∃ payload code,
    response_json r = inr (JObj payload) ∧ dget payload "internal_code" = Some code ∧
    py_int code = inr 0 ∧ jget payload "data" = JObj data.

(** A body that is no JSON is not reported as a missing file. *)
Definition honest_json (r : StorageHTTPResponse) : Prop :=
  ∀ e, response_json r = inl e → isinstance e FileNotFoundError = false.

Lemma py_int_error v e : py_int v = inl e → isinstance e FileNotFoundError = false.
Proof.
  destruct v; simpl; try congruence; try (intros [= <-]; reflexivity).
  - case_match; [done|]. by intros [= <-].
  - unfold int_base10. repeat case_match; try done; by intros [= <-].
Qed.

Lemma item_error d k e : item d k = inl e → isinstance e FileNotFoundError = false.
Proof. unfold item. destruct (dget d k); [done|]. by intros [= <-]. Qed.

(** Take an assumed answer apart, and compare it with the present one. *)
Local Ltac answer_inv :=
  repeat match goal with
  | H : _ ∨ _ |- _ => destruct H
  | H : _ ∧ _ |- _ => destruct H
  | H : ∃ _, _ |- _ => destruct H
  end; try congruence.

(** The classification of the answers: an answer is accepted with its data, or
    the refusal raised is a [FileNotFoundError] exactly if the object is absent. *)
Lemma unwrap_spec r : honest_json r →
  match StorageServiceObjectStorage.unwrap r with
  | inr data => accepted r data ∧ ¬ absent r
  | inl e => (isinstance e FileNotFoundError = true ↔ absent r) ∧ ∀ data, ¬ accepted r data
  end.
Proof.
  intros Hj. unfold StorageServiceObjectStorage.unwrap, absent, accepted.
  case_bool_decide as Hs; simpl.
  2:{ case_bool_decide as H4.
      - split; [by split; [left|]|]. by intros data [? _].
      - split; [split; [done|]|]; repeat intro; answer_inv; by destruct H4 || by destruct Hs. }
  rewrite Hs. destruct (response_json r) as [e|payload] eqn:Hr; simpl.
  { rewrite (Hj e Hr). split; [split; [done|]|]; repeat intro; answer_inv. }
  destruct payload as [| | | | | |d];
    try (split; [split; [done|]|]; repeat intro; answer_inv).
  simpl. destruct (dget d "internal_code") as [code|] eqn:Hc;
    [|split; [split; [done|]|]; repeat intro; answer_inv].
  simpl. destruct (py_int code) as [e|n] eqn:Hn; simpl.
  { rewrite (py_int_error _ _ Hn). split; [split; [done|]|]; repeat intro; answer_inv. }
  case_bool_decide as H0; simpl.
  - subst n. destruct (jget d "data") as [| | | | | |data] eqn:Hd;
      try (split; [split; [done|]|]; repeat intro; answer_inv).
    by exists d, code.
  - fold (reason_of d). destruct (_ || _) eqn:Ho.
    + apply orb_true_iff in Ho. rewrite !bool_decide_eq_true in Ho.
      split; [split; [|done] | repeat intro; answer_inv].
      intros _. right. split; [done|]. by exists d, code, n.
    + apply orb_false_iff in Ho as [Ho1%bool_decide_eq_false Ho2%bool_decide_eq_false].
      split; [split; [done|]|]; repeat intro; answer_inv.
Qed.

Section service.
Context {W : Type} `{!StorageHTTPClient W} (base_url service_token bucket : string).

Lemma object_info_error key data e :
  StorageServiceObjectStorage.object_info key data = inl e → isinstance e FileNotFoundError = false.
Proof.
  unfold StorageServiceObjectStorage.object_info.
  destruct (or_json _ _) as [| | | | | |m]; destruct (item data "size") as [e1|v] eqn:Hi; simpl;
    try (intros [= <-]; by apply item_error in Hi);
    destruct (py_int v) as [e2|size] eqn:Hn; simpl; intros [= <-]; try done; by apply py_int_error in Hn.
Qed.

(** C35: [stat] through the storage service: it answers [None] exactly when the
    service says that the object is absent, it describes the object only when
    the service accepted the request, and whatever else happened is raised, but
    never as a [FileNotFoundError], so that a failing service is never taken
    for a missing object. *)
Theorem service_absent key w r w1 :
  storage_http_post (StorageServiceObjectStorage.endpoint base_url "/objects/stat")
    (StorageServiceObjectStorage.headers service_token)
    (JObj [("bucket", JStr bucket); ("object_key", JStr key); ("expires_in", JInt 0)]) w = (Ret r, w1) →
  honest_json r →
  let result := (StorageServiceObjectStorage.stat base_url service_token bucket key w).1 in
  (result = Ret None ↔ absent r) ∧
  (∀ info, result = Ret (Some info) → info_object_key info = key ∧ ∃ data, accepted r data) ∧
  (∀ e, result = Exn e → isinstance e FileNotFoundError = false).
Proof.
  intros Hpost Hj. cbv zeta. unfold StorageServiceObjectStorage.stat.
  rewrite (bind_run _ _ _ _ _ Hpost). pose proof (unwrap_spec r Hj) as Hu.
  destruct (StorageServiceObjectStorage.unwrap r) as [e|data]; simpl; unfold try_else; simpl.
  - destruct Hu as [Ha Hn]. destruct (isinstance e FileNotFoundError) eqn:He; simpl.
    + split; [split; [by intros _; apply Ha | done]|]. by split.
    + split; [split; [done | intros [=]%Ha]|]. split; [done|]. by intros ? [= <-].
  - destruct Hu as [Ha Hn].
    destruct (StorageServiceObjectStorage.object_info key data) as [e|info] eqn:Hi; simpl.
    + split; [split; [done | intros ?; by destruct Hn]|]. split; [done|].
      intros ? [= <-]. by apply object_info_error in Hi.
    + split; [split; [done | intros ?; by destruct Hn]|]. split; [|done].
      intros ? [= <-]. split; [|by exists data].
      revert Hi. unfold StorageServiceObjectStorage.object_info.
      repeat (case_match || destruct (item _ _) || destruct (py_int _) || simpl); try done; by intros [= <-].
Qed.
End service.

(** ** Object URLs *)

Lemma hex_upper_inj m n : (m < 16)%N → (n < 16)%N → hex_upper m = hex_upper n → m = n.
Proof.
  intros Hm Hn H. apply (f_equal code) in H. unfold hex_upper, code in H.
  destruct (N.ltb_spec m 10), (N.ltb_spec n 10); rewrite !N_ascii_embedding in H by lia; lia.
Qed.

(** [quote] is a prefix code: an escape starts with a percent sign, and a
    percent sign is always escaped. *)
Lemma quote_char_inj safe c c' l l' : "%"%char ∉ safe →
  quote_char safe c ++ l = quote_char safe c' ++ l' → c = c' ∧ l = l'.
Proof.
  intros Hs. unfold quote_char.
  assert (∀ c, is_unreserved c || bool_decide (c ∈ safe) = true → c ≠ "%"%char) as Hp.
  { intros x [Hx|Hx%bool_decide_eq_true]%orb_true_iff ->; done. }
  destruct (is_unreserved c || _) eqn:E; destruct (is_unreserved c' || _) eqn:E'; simpl.
  - by intros [= -> ->].
  - intros [= -> _]. by apply Hp in E.
  - intros [= <- _]. by apply Hp in E'.
  - intros [= H1 H2 ->]. split; [|done].
    pose proof (code_bound c). pose proof (code_bound c').
    apply hex_upper_inj in H1; [|apply N.Div0.div_lt_upper_bound; lia..].
    apply hex_upper_inj in H2; [|apply N.mod_lt; lia..].
    rewrite <- (ascii_code c), <- (ascii_code c'). f_equal.
    rewrite (N.div_mod (code c) 16), (N.div_mod (code c') 16) by lia. congruence.
Qed.

Lemma quote_inj safe s t : "%"%char ∉ safe → quote safe s = quote safe t → s = t.
Proof.
  intros Hs H. apply (f_equal chars) in H. unfold quote in H. rewrite !chars_of_chars in H.
  apply chars_inj. revert H. generalize (chars s) (chars t). clear s t.
  assert (∀ c l, quote_char safe c ++ l ≠ []) as Hne
    by (intros; unfold quote_char; by case_match).
  intros l. induction l as [|c l IH]; intros [|c' l']; simpl; [done|..].
  - intros E. symmetry in E. by apply Hne in E.
  - intros E. by apply Hne in E.
  - intros [-> H]%quote_char_inj; [|done]. f_equal. by apply IH.
Qed.

(** A quoted bucket has no slash. *)
Lemma quote_no_slash s : "/"%char ∉ chars (quote [] s).
Proof.
  unfold quote. rewrite chars_of_chars, list_elem_of_bind. intros (c & Hc & _). revert Hc.
  unfold quote_char. rewrite bool_decide_eq_false_2, orb_false_r by apply not_elem_of_nil.
  destruct (is_unreserved c) eqn:E.
  - intros <-%list_elem_of_singleton. done.
  - rewrite !elem_of_cons. pose proof (code_bound c) as Hb.
    assert (∀ n, (n < 16)%N → "/"%char ≠ hex_upper n) as Hh.
    { intros n Hn H. apply (f_equal code) in H. revert H. unfold hex_upper, code.
      case_match; rewrite N_ascii_embedding by lia; change (N_of_ascii "/") with 47%N; lia. }
    intros [?|[?|[?|?%not_elem_of_nil]]]; [done|..|done]; revert select ("/"%char = _);
      apply Hh; [apply N.Div0.div_lt_upper_bound | apply N.mod_lt]; lia.
Qed.

Lemma until_sep {A} (sep : A) (l l' r r' : list A) :
  sep ∉ l → sep ∉ l' → l ++ sep :: r = l' ++ sep :: r' → l = l' ∧ r = r'.
Proof.
  revert l'. induction l as [|x l IH]; intros [|x' l'] Hl Hl'; simpl.
  - by intros [= ->].
  - intros [= -> _]. destruct Hl'. by left.
  - intros [= <- _]. destruct Hl. by left.
  - intros [= -> H]. destruct (IH l' ltac:(set_solver) ltac:(set_solver) H) as [-> ->]. done.
Qed.

(** The storage service finds an object by its URL alone: objects of
    different buckets or with different keys have different URLs, whatever
    characters their names are made of. *)
Lemma object_url_inj base_url bucket bucket' key key' :
  StorageServiceObjectStorage.object_url base_url bucket key =
    StorageServiceObjectStorage.object_url base_url bucket' key' →
  bucket = bucket' ∧ key = key'.
Proof.
  unfold StorageServiceObjectStorage.object_url. intros H%str_append_inj_l%str_append_inj_l.
  apply (f_equal chars) in H. rewrite !chars_app in H.
  apply until_sep in H as [H1%chars_inj H2%chars_inj]; [|apply quote_no_slash..].
  split; [by apply quote_inj in H1; [|set_solver] | by apply quote_inj in H2; [|set_solver]].
Qed.

Lemma object_url_inj_witness :
  let url := StorageServiceObjectStorage.object_url "http://s/" "a/b" in
  url "c%2Fd" = "http://s/objects/a%2Fb/c%252Fd" ∧ ("a/b" = "a/b" ∧ "c%2Fd" = "c%2Fd").
Proof.
  split; [vm_compute; reflexivity|].
  apply (object_url_inj "http://s/"). reflexivity.
Defined.

(** A service that knows no object. *)
Module SampleService.
#[global] Instance client : StorageHTTPClient () := {
  storage_http_post url headers body := mret (MkStorageHTTPResponse 200 "" []
    (inr (JObj [("internal_code", JInt 59999); ("error_reason", JStr "object_not_found")])));
  storage_http_get url headers := mret (MkStorageHTTPResponse 404 "" [] (inl (mk_exc JSONDecodeError "")));
  storage_http_put url headers data := mret (MkStorageHTTPResponse 500 "" [] (inl (mk_exc JSONDecodeError "")))
}.
End SampleService.

Lemma service_absent_witness :
  let result := (StorageServiceObjectStorage.stat (W := ()) "http://s" "t" "b" "k" ()).1 in
  result = Ret None ∧
  (result = Ret None ↔ absent (MkStorageHTTPResponse 200 "" []
    (inr (JObj [("internal_code", JInt 59999); ("error_reason", JStr "object_not_found")])))).
Proof.
  split; [vm_compute; reflexivity|].
  refine (proj1 (service_absent "http://s" "t" "b" "k" () _ () eq_refl _)). by intros e [=].
Defined.
