(* ===== verification/Outbox.v ===== *)
(** * The outbox dispatcher's task

    Models [_run_outbox] and [_cancel_task] of [container.py]: the background
    task of an API process that dispatches the outbox ([Messaging.dispatch_once])
    for as long as its connection holds the advisory lock that all processes
    share.

    The PostgreSQL pool is a parameter.  [asyncio.sleep] takes microseconds.
    - [outbox_guarded]: it reads, publishes and marks work orders only while it
      holds the lock; no error ends it, and when it is cancelled the lock and
      the connection are given back. *)

From S2P Require Import Prelude PyData PyText PyValue Json Status Domain Ports Messaging.

#[local] Open Scope Z_scope.

(** [pool.acquire()], [connection.fetchval(query, argument)], [pool.release(connection)];
    connections are numbered. *)
Class OutboxPool (W : Type) := {
  pool_acquire : M exc W Z;
  connection_fetchval : Z → string → string → M exc W json;
  pool_release : Z → M exc W ()
}.

Definition OUTBOX_ADVISORY_LOCK_NAME : string := "monkeyocr:outbox-dispatcher".
Definition try_lock_query : string := "SELECT pg_try_advisory_lock(hashtextextended($1,0))".
Definition unlock_query : string := "SELECT pg_advisory_unlock(hashtextextended($1,0))".

(** The fields of ["outbox_dispatch_failed"] *)
Definition failure_fields (e : exc) : dict :=
  ("error_type", JStr (cls_name (exc_cls e))) ::
  match internal_code e, error_reason e with
  | Some code, Some reason =>
      [("internal_code", JInt (code_value code)); ("internal_status_name", JStr (code_name code));
       ("error_reason", JStr reason)]
  | _, _ => []
  end.

Section run_outbox.
Context {W : Type} `{!OutboxPool W, !OutboxRepository W, !QueuePublisher W, !StructuredLogger W,
  !EventLoop W}.

(** Both [except] clauses of [_run_outbox] *)
Definition report_failure (e : exc) : M exc W () :=
  if isinstance e CancelledError then raise e
  else if isinstance e Exception_ then
    _ ← logger_error "outbox_dispatch_failed" (failure_fields e);
    loop_sleep 1000000
  else raise e.

(** The inner [while True] *)
Definition dispatch_round : M exc W () :=
  try_except
    (count ← dispatch_once 100;
     loop_sleep (if bool_decide (count = 0) then 500000 else 100000))
    (λ e, Some (report_failure e)).

Fixpoint dispatch_rounds (fuel : nat) : M exc W () :=
  match fuel with
  | O => out_of_fuel
  | S fuel => _ ← dispatch_round; dispatch_rounds fuel
  end.

(** The outer [try] body.  What leaves it comes with [connection] and
    [lock_acquired] as they are then. *)
Definition locked_dispatch (fuel : nat) :
    M (exc * (option Z * bool)) W (option Z * bool) :=
  connection ← at_local (None, false) pool_acquire;
  granted ← at_local (Some connection, false)
    (connection_fetchval connection try_lock_query OUTBOX_ADVISORY_LOCK_NAME);
  let lock_acquired := json_truthy granted in
  let locals := (Some connection, lock_acquired) in
  _ ← at_local locals (if negb lock_acquired then loop_sleep 1000000 else dispatch_rounds fuel);
  mret locals.

(** The [finally] clause *)
Definition give_back (locals : option Z * bool) : M exc W () :=
  match locals with
  | (None, _) => mret ()
  | (Some connection, lock_acquired) =>
      _ ← (if lock_acquired : bool then
             try_except
               (_ ← connection_fetchval connection unlock_query OUTBOX_ADVISORY_LOCK_NAME; mret ())
               (λ e, if isinstance e Exception_ then Some (mret ()) else None)
           else mret ());
      pool_release connection
  end.

(** One round of the outer [while True] *)
Definition outbox_round (fuel : nat) : M exc W () :=
  r ← attempt (locked_dispatch fuel);
  match r with
  | inr locals => give_back locals
  | inl (e, locals) => try_finally (report_failure e) (give_back locals)
  end.

Fixpoint run_outbox (fuel inner_fuel : nat) : M exc W () :=
  match fuel with
  | O => out_of_fuel
  | S fuel => _ ← outbox_round inner_fuel; run_outbox fuel inner_fuel
  end.

(** ** The lock *)

Context (I : W → Prop) (R : relation W) `{!PreOrder R}.

(** [held w] is the connection the task has, and whether the advisory lock is
    granted to it.  A failed query may have taken effect, and a released
    connection is reset, which gives its advisory locks back.  Every call may
    raise, the unlocking query and the release included, and be cancelled. *)
Class PoolLaws := {
  held : W → option (Z * bool);
  has connection w := ∃ locked, held w = Some (connection, locked);
  acquire_law : rg I R (λ w, held w = None) pool_acquire
    (λ c w, held w = Some (c, false)) (λ _ w, held w = None);
  try_lock_law c : rg I R (λ w, held w = Some (c, false))
    (connection_fetchval c try_lock_query OUTBOX_ADVISORY_LOCK_NAME)
    (λ granted w, held w = Some (c, json_truthy granted)) (λ _, has c);
  unlock_law c : rg I R (has c)
    (connection_fetchval c unlock_query OUTBOX_ADVISORY_LOCK_NAME)
    (λ _, has c) (λ _, has c);
  release_law c : rg I R (has c) (pool_release c)
    (λ _ w, held w = None) (λ _ w, held w = None ∨ has c w)
}.
Context `{!PoolLaws}.

(** The steps of the dispatch are specified for a task that holds the lock, and
    only for such a task. *)
Definition locked (c : Z) (w : W) : Prop := held w = Some (c, true).

Class DispatchLaws := {
  pending_law c limit : rg I R (locked c) (outbox_pending limit) (λ _, locked c) (λ _, locked c);
  publish_law c message :
    rg I R (locked c) (publisher_publish message) (λ _, locked c) (λ _, locked c);
  mark_law c i : rg I R (locked c) (outbox_mark_published i) (λ _, locked c) (λ _, locked c)
}.
Context `{!DispatchLaws}.

(** The logger and [asyncio.sleep] leave the connection alone, and raise nothing
    but a cancellation. *)
Definition quiet (m : M exc W ()) : Prop := ∀ s,
  rg I R (λ w, held w = s) m (λ _ w, held w = s)
    (λ e w, held w = s ∧ isinstance e Exception_ = false).
Context (logger_quiet : ∀ event fields, quiet (logger_error event fields))
        (sleep_quiet : ∀ d, quiet (loop_sleep d)).

Lemma rg_report e s :
  rg I R (λ w, held w = s) (report_failure e) (λ _ w, held w = s)
    (λ e w, held w = s ∧ isinstance e Exception_ = false).
Proof.
  unfold report_failure. destruct (isinstance e CancelledError) eqn:Hc.
  { rule rg_raise. intros w Hw. split; [done|]. revert Hc. unfold isinstance.
    destruct e as [[] ? ?]; vm_compute; congruence. }
  destruct (isinstance e Exception_) eqn:He; [|rule rg_raise; by intros w Hw].
  rule_bind; [apply logger_quiet|]. intros ?. apply sleep_quiet.
Qed.

Lemma rg_outbox_call {A} c message (m : M exc W A) :
  rg I R (locked c) m (λ _, locked c) (λ _, locked c) →
  rg I R (locked c) (outbox_call message m) (λ _, locked c) (λ _, locked c).
Proof.
  intros Hm. unfold outbox_call. rule rg_try_except; [exact Hm|]. intros e.
  destruct (isinstance e DependencyError); [done|]. destruct (isinstance e Exception_); [|done].
  by rule rg_raise.
Qed.

Lemma rg_dispatch c limit :
  rg I R (locked c) (dispatch_once limit) (λ _, locked c) (λ _, locked c).
Proof.
  unfold dispatch_once. rule_bind; [apply rg_outbox_call, pending_law|].
  intros events. generalize 0. induction events as [|ev events IH]; intros n; simpl; [by rule rg_ret|].
  rule_bind mid (λ _, locked c); [|intros ?; apply IH].
  unfold dispatch_event. case_match; [by rule rg_ret|].
  rule rg_bind_lift. destruct (message_of_payload _); [done|].
  rule_bind; [apply publish_law|]. intros ?.
  rule_bind; [apply rg_outbox_call, mark_law|]. intros ?. by rule rg_ret.
Qed.

Lemma rg_rounds c fuel :
  rg I R (locked c) (dispatch_rounds fuel) (λ _ _, False) (λ e, locked c).
Proof.
  induction fuel as [|fuel IH]; simpl; [rule rg_out_of_fuel|].
  rule_bind mid (λ _, locked c); [|intros ?; apply IH]. unfold dispatch_round.
  eapply rg_try_except with (X := λ _, locked c); [typeclasses eauto|..].
  - rule_bind; [apply rg_dispatch|]. intros n.
    eapply rg_conseq; [apply sleep_quiet | done | done | by intros ?? []].
  - intros e. eapply rg_conseq; [apply rg_report | done | done | by intros ?? []].
Qed.

(** The locals tell what the task has. *)
Definition local (l : option Z * bool) (w : W) : Prop :=
  match l.1 with None => held w = None | Some c => has c w end.

Lemma rg_locked_dispatch fuel :
  rg I R (λ w, held w = None) (locked_dispatch fuel) local (λ e, local e.2).
Proof.
  unfold locked_dispatch. rule_bind.
  { apply rg_at_local. eapply rg_conseq; [apply acquire_law | done | done | done]. }
  intros c. rule_bind; [apply rg_at_local, try_lock_law|]. intros granted.
  rule_bind mid (λ _, has c); [apply rg_at_local | intros ?; by rule rg_ret].
  destruct (json_truthy granted); simpl.
  - eapply rg_conseq; [apply (rg_rounds c) | done | done |]. intros e w Hw. by exists true.
  - eapply rg_conseq; [apply (sleep_quiet _ (Some (c, false))) | done | intros ? w Hw; by exists false |].
    intros e w [Hw _]. by exists false.
Qed.

(** Giving back has failed: the task was cancelled in the unlocking query, after
    which the release is not tried, or the release raised. *)
Definition stuck (e : exc) (w : W) : Prop := ∃ c w1,
  (isinstance e Exception_ = false ∧
   connection_fetchval c unlock_query OUTBOX_ADVISORY_LOCK_NAME w1 = (Exn e, w)) ∨
  pool_release c w1 = (Exn e, w).

(** How the task ends. *)
Definition ended (e : exc) (w : W) : Prop :=
  (held w = None ∧ isinstance e Exception_ = false) ∨ stuck e w.

(** What a call raises, with the call itself. *)
Lemma rg_raises {A} P (m : M exc W A) Q X :
  rg I R P m Q X → rg I R P m Q (λ e w, X e w ∧ ∃ w1, m w1 = (Exn e, w)).
Proof.
  intros Hm w Hi Hw. destruct (Hm w Hi Hw) as (? & ? & Hx). split_and!; [done..|].
  destruct (m w) as [[a|e|] w'] eqn:E; [done | split; [done | by exists w] | done].
Qed.

Lemma rg_give_back l :
  rg I R (local l) (give_back l) (λ _ w, held w = None) (λ e w, stuck e w).
Proof.
  destruct l as [[c|] locked_]; simpl; [|by rule rg_ret].
  rule_bind mid (λ _, has c).
  2:{ intros ?. eapply rg_conseq; [apply rg_raises, release_law | done | done |].
      intros e w [_ [w1 Hw]]. exists c, w1. by right. }
  destruct locked_; [|by rule rg_ret].
  eapply rg_try_except with (X := λ e w, has c w ∧
    ∃ w1, connection_fetchval c unlock_query OUTBOX_ADVISORY_LOCK_NAME w1 = (Exn e, w)); [typeclasses eauto|..].
  - rule_bind; [apply rg_raises, unlock_law | intros ?; by rule rg_ret].
  - intros e. destruct (isinstance e Exception_) eqn:He; [rule rg_ret; by intros w [? _]|].
    intros w [_ [w1 Hw]]. exists c, w1. by left.
Qed.

Lemma local_stable l w w' : held w' = held w → local l w → local l w'.
Proof.
  intros E. unfold local. destruct (l.1); [|congruence]. intros [b Hb]. exists b. congruence.
Qed.

Lemma rg_outbox_round fuel :
  rg I R (λ w, held w = None) (outbox_round fuel) (λ _ w, held w = None) ended.
Proof.
  unfold outbox_round. rule_bind; [apply rg_attempt, rg_locked_dispatch|].
  intros [[e l]|l].
  2:{ eapply rg_conseq; [apply rg_give_back | done | done | by right]. }
  eapply rg_try_finally with (Q := λ _, local l) (X := λ e w, local l w ∧ isinstance e Exception_ = false);
    [typeclasses eauto|..].
  - intros w Hi Hw. destruct (rg_report e (held w) w Hi eq_refl) as (? & ? & Hr).
    split_and!; [done..|]. destruct ((report_failure e w).1); [| |done].
    + by apply (local_stable l w).
    + destruct Hr. split; [by apply (local_stable l w) | done].
  - intros ?. eapply rg_conseq; [apply rg_give_back | done | done | by right].
  - intros e'. intros w Hi [Hw He]. destruct (rg_give_back l w Hi Hw) as (? & ? & Hr).
    split_and!; [done..|]. destruct ((give_back l w).1); [by left | by right | done].
Qed.

(** C39: the dispatcher's task.  The outbox is read, work orders are published
    and they are marked only by a task whose connection has been granted the
    advisory lock: these calls are specified for such a task alone
    ([DispatchLaws]).  The task never returns, and no exception of the
    dispatch, of acquiring a connection or of a query ends it.  It ends when it
    is cancelled, and then the connection, and with it the lock, has been given
    back; or because giving back failed: it was cancelled (once more) in the
    unlocking query, after which the release is not tried, or the release
    raised.  The logger is taken to raise nothing of its own. *)
Theorem outbox_guarded fuel inner_fuel :
  rg I R (λ w, held w = None) (run_outbox fuel inner_fuel) (λ _ _, False) ended.
Proof.
  induction fuel as [|fuel IH]; simpl; [rule rg_out_of_fuel|].
  rule_bind; [apply rg_outbox_round|]. intros ?. apply IH.
Qed.
End run_outbox.

(** [_cancel_task]: cancel, and wait for the task's end. *)
Definition cancel_and_wait {W} (cancelled_task : M exc W ()) : M exc W () :=
  try_except cancelled_task
    (λ e, if isinstance e CancelledError then Some (mret ()) else None).

(** ** A process that is cancelled at its fifth sleep *)

Module SampleOutbox.

Record World := MkWorld {
  w_held : option (Z * bool);
  w_pending : list OutboxEvent;
  w_sent : list UUID;
  w_log : list string;
  w_sleeps : nat;
  w_broken : bool                  (* the reset of a released connection fails *)
}.

Definition put (h : option (Z * bool)) (s : string) (w : World) : World :=
  MkWorld h (w_pending w) (w_sent w) (w_log w ++ [s]) (w_sleeps w) (w_broken w).

(** The first connection is refused, and the lock is granted at the second query. *)
#[global] Instance pool : OutboxPool World := {
  pool_acquire w :=
    if decide (w_log w = []) then (Exn (mk_exc OSError "connection refused"), put None "refused" w)
    else (Ret 1, put (Some (1, false)) "acquire" w);
  connection_fetchval c query name w :=
    if decide (query = try_lock_query) then
      let granted := bool_decide (4 < length (w_log w))%nat in
      (Ret (JBool granted), put (Some (c, granted)) (if granted then "lock" else "wait") w)
    else (Ret (JBool true), put (Some (c, false)) "unlock" w);
  pool_release c w :=
    if w_broken w then (Exn (mk_exc OSError "connection lost"), put None "lost" w)
    else (Ret (), put None "release" w)
}.

#[global] Instance outbox : OutboxRepository World := {
  outbox_add e := mret ();
  outbox_pending limit := gets w_pending;
  outbox_mark_published i := modify (λ w, MkWorld (w_held w)
    (filter (λ e, outbox_id e ≠ i) (w_pending w)) (w_sent w) (w_log w) (w_sleeps w) (w_broken w))
}.

#[global] Instance publisher : QueuePublisher World := λ m, modify (λ w,
  MkWorld (w_held w) (w_pending w) (w_sent w ++ [msg_job_id m]) (w_log w) (w_sleeps w) (w_broken w)).

#[global] Instance logger : StructuredLogger World := {
  logger_info e f := modify (λ w, put (w_held w) e w);
  logger_error e f := modify (λ w, put (w_held w) e w)
}.

#[global] Instance loop : EventLoop World := {
  loop_time := mret 0;
  loop_sleep d w :=
    if decide (w_sleeps w = 0)%nat then (Exn (mk_exc CancelledError ""), w)
    else (Ret (), MkWorld (w_held w) (w_pending w) (w_sent w) (w_log w) (w_sleeps w - 1) (w_broken w))
}.

Abbreviation any := (λ _ : World, True).
Abbreviation all := (λ _ _ : World, True).

#[global, refine] Instance laws : PoolLaws any all := {| held := w_held |}.
Proof.
  - intros w _ Hw. simpl. by case_decide.
  - by intros c w _ Hw.
  - intros c w _ Hw. split_and!; [done..|]. simpl. by exists false.
  - intros c w _ Hw. split_and!; [done..|]. simpl. by destruct (w_broken w); [left|].
Defined.

#[global] Instance dispatch_laws : DispatchLaws any all.
Proof. split; by intros. Defined.

#[global] Instance all_preorder : PreOrder all.
Proof. done. Defined.

Definition order (i : N) : OutboxEvent := MkOutboxEvent i "ocr.job.requested.v1"
  [("job_id", JStr (uuid_str i)); ("attempt", JInt 1); ("request_id", JStr "r")] "r" i 0 None.

Definition start : World := MkWorld None [order 2; order 3] [] [] 4 false.
Definition broken : World := MkWorld None [order 2; order 3] [] [] 4 true.

End SampleOutbox.

Lemma outbox_guarded_witness :
  match (run_outbox 9 9 SampleOutbox.start).1 with
  | Ret _ => False
  | Exn e => ended SampleOutbox.any SampleOutbox.all e (run_outbox 9 9 SampleOutbox.start).2
  | NoFuel => True
  end.
Proof.
  pose proof (outbox_guarded SampleOutbox.any SampleOutbox.all) as H.
  specialize (H ltac:(by intros event fields s w _ Hw)).
  specialize (H ltac:(intros d s w _ Hw; unfold loop_sleep, SampleOutbox.loop;
    case_decide; by split_and!) 9%nat 9%nat SampleOutbox.start I eq_refl).
  exact (proj2 (proj2 H)).
Defined.

Example outbox_ex :
  let w := (run_outbox 9 9 SampleOutbox.start).2 in
  (SampleOutbox.w_log w, SampleOutbox.w_sent w, SampleOutbox.w_pending w) =
  (["refused"; "outbox_dispatch_failed"; "acquire"; "wait"; "release"; "acquire"; "lock"; "unlock"; "release"],
   [2; 3]%N, []).
Proof. vm_compute. reflexivity. Qed.

(** A release that raises ends the task: the [finally] clause is outside the
    [except] clauses of the loop, so nothing is dispatched any more. *)
Example outbox_release_ends :
  let '(r, w) := run_outbox 9 9 SampleOutbox.broken in
  (r, map outbox_id (SampleOutbox.w_pending w)) = (Exn (mk_exc OSError "connection lost"), [2; 3]%N).
Proof. vm_compute. reflexivity. Qed.
