(* ===== verification/RetentionMain.v ===== *)
(** * The retention process

    Models [run] of [retention_main.py]: the loop around
    [RetentionCleanupService.run_batch] ([Retention.run_batch]), which ends after
    one batch with [--once].  The settings are arguments, the interval in
    microseconds; [create_retention_service] is in [Container].
    - [retention_loop]: a loop of batches is as safe as one batch, a failing
      batch does not end it, and with [--once] the process ends as its batch. *)

From S2P Require Import Prelude PyData PyText Json Status Domain Ports Retention RetentionFacts.

#[local] Open Scope Z_scope.

Definition batch_fields (result : RetentionBatchResult) : dict :=
  [("claimed", JInt (batch_claimed result)); ("completed", JInt (batch_completed result));
   ("deferred", JInt (batch_deferred result)); ("deleted_objects", JInt (batch_deleted_objects result))].

Section run.
Context {W : Type}.
Context `{!RetentionRepository W, !ObjectStorage W, !StructuredLogger W, !Runtime W, !EventLoop W}.
Context (schedule : list string → list string).
Context (retry_seconds batch_size lease_seconds interval : Z) (once : bool).

(** The [try] block *)
Definition clean_batch : M exc W RetentionBatchResult :=
  result ← run_batch schedule retry_seconds batch_size lease_seconds None;
  _ ← (if bool_decide (batch_claimed result = 0) then mret ()
       else logger_info "retention_batch_completed" (batch_fields result));
  mret result.

(** The pause after a batch: a full batch is followed by the next one. *)
Definition pause_after (result : RetentionBatchResult) : Z :=
  if decide (batch_size ≤ batch_claimed result) then 0 else interval.

(** The body of [while True]; [true] to [return]. *)
Definition cleanup_round : M exc W bool :=
  try_else clean_batch
    (λ e, if isinstance e CancelledError then None
          else if isinstance e Exception_ then Some (
            _ ← logger_error "retention_batch_failed" [("error_type", JStr (cls_name (exc_cls e)))];
            if once then raise e else
            _ ← loop_sleep interval;
            mret false)
          else None)
    (λ result,
      if once then mret true else
      _ ← loop_sleep (pause_after result);
      mret false).

Fixpoint run (fuel : nat) : M exc W () :=
  match fuel with
  | O => out_of_fuel
  | S fuel =>
      stop ← cleanup_round;
      if stop : bool then mret () else run fuel
  end.

(** ** Facts *)

Context (inv : W → Prop) (R : relation W) `{!PreOrder R}.
Context (gone : string → W → Prop) `{!RetentionStore inv R gone}.
Hypothesis Hschedule : ∀ l, schedule l ≡ₚ l.
Hypothesis Herror : ∀ event fields w, ∃ w', logger_error event fields w = (Ret (), w').
Hypothesis Hsleep : ∀ d, rg inv R (λ _, True) (loop_sleep d)
  (λ _ _, True) (λ e _, isinstance e Exception_ = false).

Lemma rg_clean_batch :
  rg inv R (λ _, True) clean_batch (λ _ _, True) (λ _ _, True).
Proof.
  unfold clean_batch. rule_bind; [by apply (rg_run_batch inv R gone)|]. intros result.
  rule_bind mid (λ _ _, True); [|intros ?; by rule rg_ret].
  case_bool_decide; [by rule rg_ret | exact (info_rg inv R gone _ _)].
Qed.

(** What a round ends with: whether the process goes on. *)
Lemma rg_cleanup_round :
  rg inv R (λ _, True) cleanup_round (λ stop _, stop = once)
    (λ e _, once = true ∨ isinstance e Exception_ = false).
Proof.
  unfold cleanup_round. eapply rg_try_else; [typeclasses eauto | apply rg_clean_batch | |].
  - intros result. destruct once; [by rule rg_ret|].
    rule_bind; [|intros ?; by rule rg_ret].
    eapply rg_conseq; [apply Hsleep | done | done | by right].
  - intros e. destruct (isinstance e CancelledError) eqn:Hc.
    { intros w _. right. revert Hc. unfold isinstance. destruct e as [[] ? ?]; vm_compute; congruence. }
    destruct (isinstance e Exception_) eqn:He; [|by right].
    rule_bind mid (λ _ _, True).
    { intros w Hi _. pose proof (error_rg inv R gone "retention_batch_failed"
        [("error_type", JStr (cls_name (exc_cls e)))] w Hi I) as (? & ? & _).
      split_and!; [done..|]. by destruct (Herror "retention_batch_failed"
        [("error_type", JStr (cls_name (exc_cls e)))] w) as [w' ->]. }
    intros ?. destruct once; [rule rg_raise; by left|].
    rule_bind; [|intros ?; by rule rg_ret].
    eapply rg_conseq; [apply Hsleep | done | done | by right].
Qed.

Lemma rg_run fuel :
  rg inv R (λ _, True) (run fuel) (λ _ _, once = true)
    (λ e _, once = true ∨ isinstance e Exception_ = false).
Proof.
  induction fuel as [|fuel IH]; simpl; [rule rg_out_of_fuel|].
  rule_bind; [apply rg_cleanup_round|]. intros [].
  - rule rg_ret. intros w Hs. exact (eq_sym Hs).
  - eapply rg_pre; [apply IH | done].
Qed.

(** How a coroutine that ends as [o] leaves the process. *)
Definition exit_of {A} (o : outcome exc A) : outcome exc () :=
  match o with Ret _ => Ret () | Exn e => Exn e | NoFuel => NoFuel end.

(** C40: the cleanup process.  Running batch after batch keeps every invariant
    that a batch keeps (in particular, no row is deleted before its objects),
    for as long as the process runs.  Without [--once] no failure of a batch
    ends the process: it never returns, and only a cancellation ends it.  With
    [--once] it runs one batch and ends as the batch did. *)
Theorem retention_loop fuel w :
  inv w →
  let r := run (S fuel) w in
  inv r.2 ∧ R w r.2 ∧
  (if once then r.1 = exit_of (clean_batch w).1
   else match r.1 with
        | Ret _ => False
        | Exn e => isinstance e Exception_ = false
        | NoFuel => True
        end).
Proof.
  intros Hw r. destruct (rg_run (S fuel) w Hw I) as (Hi & HR & Ho). fold r in Hi, HR, Ho.
  split_and!; [done..|]. unfold r in *. clear r Hi HR. revert Ho. generalize rg_clean_batch. intros _.
  destruct once eqn:Hon; [intros _ | destruct ((run (S fuel) w).1); naive_solver].
  simpl. unfold cleanup_round, try_else. unfold mbind at 1, M_bind at 1. rewrite Hon.
  destruct (clean_batch w) as [[result|e|] w1]; simpl; [done| |done].
  destruct (isinstance e CancelledError); [done|]. destruct (isinstance e Exception_); [|done]. simpl.
  destruct (Herror "retention_batch_failed" [("error_type", JStr (cls_name (exc_cls e)))] w1) as [w2 H2].
  by rewrite (bind_run _ _ _ _ _ H2).
Qed.
End run.

(** ** The sample store of [RetentionFacts], cleaned twice and then interrupted *)

#[export] Instance sample_loop : EventLoop SampleRetention.World := {
  loop_time w := (Ret 0, w);
  loop_sleep d w := if decide (length (SampleRetention.records w) < 5)%nat then (Ret (), w)
                    else (Exn (mk_exc CancelledError ""), w)
}.

Lemma retention_loop_witness :
  let r := run (W := SampleRetention.World) reverse 30 10 60 1000000 false 9 SampleRetention.world in
  SampleRetention.owned SampleRetention.world ∧ SampleRetention.owned r.2 ∧
  match r.1 with Ret _ => False | Exn e => isinstance e Exception_ = false | NoFuel => True end.
Proof.
  split; [apply SampleRetention.world_owned|].
  pose proof (retention_loop reverse 30 10 60 1000000 false SampleRetention.owned SampleRetention.shrinks
    SampleRetention.gone reverse_Permutation ltac:(intros; by eexists)
    ltac:(intros d w Hi _; unfold loop_sleep, sample_loop; case_decide; by split_and!)
    8 SampleRetention.world SampleRetention.world_owned) as H.
  exact (conj (proj1 H) (proj2 (proj2 H))).
Defined.

Example retention_loop_ex :
  let r := run (W := SampleRetention.World) reverse 30 10 60 1000000 false 9 SampleRetention.world in
  (match r.1 with Exn e => exc_cls e | _ => BaseException end,
   SampleRetention.objects r.2, SampleRetention.records r.2) =
  (CancelledError, ["locked"],
   ["retention_candidate_deleted"; "retention_candidate_failed"; "retention_batch_completed";
    "retention_candidate_failed"; "retention_batch_completed"]).
Proof. vm_compute. reflexivity. Qed.
