(* ===== verification/SandboxCommand.v ===== *)
(** * The sandbox as a command

    Models [SubprocessSandboxPreprocessor] of [infrastructure/preprocessor.py]:
    a configured command is run without a shell on a temporary directory, and
    the pages of the manifest it leaves there are taken over.

    [shlex.split] and the plain fields of [str.format_map] are modelled as the
    standard library has them; a field with a conversion, a format
    specification, an attribute or an index is formatted by the parameter
    [format_other].  The processes, the temporary directories and the files are
    parameters; what a process writes to its standard error is UTF-8.
    - [command_contained]: what [prepare] takes over and what it leaves behind. *)

From Stdlib Require Import Ascii.
From Stdlib Require String.
From S2P Require Import Prelude PyData PyText PyValue Json Status Domain Ports Messaging.
From S2P Require Import Preprocessor.

#[local] Open Scope Z_scope.

(** ** [shlex.split(s)] *)

Definition backslash_char : ascii := Json.backslash.
Definition shlex_space (c : ascii) : bool :=
  let n := code c in ((n =? 32) || (n =? 9) || (n =? 13) || (n =? 10))%N.

Definition push (c : ascii) (token : option (list ascii)) : option (list ascii) :=
  Some (default [] token ++ [c]).
Definition flush (token : option (list ascii)) : list string :=
  match token with Some l => [of_chars l] | None => [] end.

Definition no_closing : exc := mk_exc ValueError "No closing quotation".
Definition no_escaped : exc := mk_exc ValueError "No escaped character".

(** [quote] is the quotation mark that is open, [token] the token begun. *)
Fixpoint shlex (quote : option ascii) (token : option (list ascii)) (l : list ascii) :
    exc + list string :=
  match l with
  | [] => match quote with None => inr (flush token) | Some _ => inl no_closing end
  | c :: l =>
      match quote with
      | None =>
          if shlex_space c then tokens ← shlex None None l; inr (flush token ++ tokens)
          else if decide (c = backslash_char) then
            match l with [] => inl no_escaped | d :: l => shlex None (push d token) l end
          else if decide (c = "'"%char ∨ c = dquote) then shlex (Some c) (Some (default [] token)) l
          else shlex None (push c token) l
      | Some q =>
          if decide (c = q) then shlex None token l
          else if decide (c = backslash_char ∧ q = dquote) then
            match l with
            | [] => inl no_escaped
            | d :: l =>
                if decide (d = backslash_char ∨ d = dquote) then shlex (Some q) (push d token) l
                else shlex (Some q) (push d (push c token)) l
            end
          else shlex (Some q) (push c token) l
      end
  end.

Definition shlex_split (s : string) : exc + list string := shlex None None (chars s).

Example shlex_split_ex :
  (shlex_split "run --in='{input}' x\ y a''b", shlex_split "run 'open", shlex_split "a \") =
  (inr ["run"; "--in={input}"; "x y"; "ab"], inl no_closing, inl no_escaped).
Proof. vm_compute. reflexivity. Qed.

(** ** [s.format_map(values)] *)

Definition plain_field (c : ascii) : bool :=
  negb (bool_decide (c ∈ ["!"%char; ":"%char; "."%char; "["%char; "{"%char])).

(** The text of a field, up to the closing brace, and what follows it. *)
Fixpoint span_field (l : list ascii) : option (list ascii * list ascii) :=
  match l with
  | [] => None
  | c :: l =>
      if decide (c = "}"%char) then Some ([], l)
      else '(field, rest) ← span_field l; Some (c :: field, rest)
  end.

Section format.
Context (format_other : list (string * string) → list ascii → exc + list ascii).
Context (values : list (string * string)).

(** One field: positional fields are refused by [format_map]. *)
Definition format_field (field : list ascii) : exc + list ascii :=
  if forallb is_digit field
  then inl (mk_exc ValueError "Format string contains positional fields")
  else match dget values (of_chars field) with
       | Some v => inr (chars v)
       | None => inl (mk_exc KeyError (of_chars field))
       end.

(** [fuel] bounds the length of the text. *)
Fixpoint format_chars (fuel : nat) (l : list ascii) : exc + list ascii :=
  match fuel, l with
  | O, _ | _, [] => inr []
  | S fuel, c :: l' =>
      if decide (c = "{"%char) then
        match l' with
        | [] => inl (mk_exc ValueError "Single '{' encountered in format string")
        | d :: l'' =>
            if decide (d = "{"%char) then r ← format_chars fuel l''; inr (c :: r)
            else
            match span_field l' with
            | None => inl (mk_exc ValueError "expected '}' before end of string")
            | Some (field, rest) =>
                if forallb plain_field field
                then v ← format_field field; r ← format_chars fuel rest; inr (v ++ r)
                else format_other values l
            end
        end
      else if decide (c = "}"%char) then
        match l' with
        | d :: l'' =>
            if decide (d = "}"%char) then r ← format_chars fuel l''; inr (c :: r)
            else inl (mk_exc ValueError "Single '}' encountered in format string")
        | [] => inl (mk_exc ValueError "Single '}' encountered in format string")
        end
      else r ← format_chars fuel l'; inr (c :: r)
  end.

Definition format_map (s : string) : exc + string :=
  r ← format_chars (String.length s) (chars s); inr (of_chars r).
End format.

Example format_map_ex :
  let f := format_map (λ _ _, inl (mk_exc ValueError "")) [("input", "/t/in"); ("n", "3")] in
  (f "--x={input}/{n}", f "{{{n}}}", f "{nope}", f "{}", f "a}") =
  (inr "--x=/t/in/3", inr "{3}", inl (mk_exc KeyError "nope"),
   inl (mk_exc ValueError "Format string contains positional fields"),
   inl (mk_exc ValueError "Single '}' encountered in format string")).
Proof. vm_compute. reflexivity. Qed.

(** ** Processes and temporary directories *)

(** [asyncio.create_subprocess_exec(argv..., cwd=..., env=...)],
    [wait_for(process.communicate(), timeout)], [process.kill()],
    [process.wait()] and [process.returncode]; processes are numbered. *)
Class Processes (W : Type) := {
  create_process : list string → Path → list (string * string) → M exc W Z;
  communicate : Z → Z → M exc W (string * string);
  process_kill : Z → M exc W ();
  process_wait : Z → M exc W ();
  process_returncode : Z → M exc W Z
}.

(** [tempfile.TemporaryDirectory(prefix=...)] and its [__exit__] *)
Class TemporaryDirectory (W : Type) := {
  temporary_create : string → M exc W Path;
  temporary_cleanup : Path → M exc W ()
}.

(** The [PATH] of the environment, if it is set *)
Class Environ (W : Type) := environ_path : M exc W (option string).

(** [str(path)] *)
Definition path_str (p : Path) : string :=
  (if path_absolute p then "/" else "") +:+ join "/" (path_parts p).

(** The last [n] code points of a string. *)
Definition last_points (n : Z) (s : string) : string :=
  let skip := Z.to_nat (py_len s - n) in
  of_chars (drop (length (take_points skip (chars s))) (chars s)).

(** ** [SubprocessSandboxPreprocessor] *)

Definition command_of (command : string) : exc + list string :=
  argv ← shlex_split command;
  if bool_decide (argv = []) || negb (existsb (contains "{input}") argv)
  then inl (mk_exc ValueError "sandbox command must contain {input}")
  else if negb (existsb (contains "{output_dir}") argv)
  then inl (mk_exc ValueError "sandbox command must contain {output_dir}")
  else inr argv.

Section prepare.
Context {W : Type} `{!ObjectStorage W, !FileSystem W, !Processes W, !TemporaryDirectory W, !Environ W}.
Context (format_other : list (string * string) → list ascii → exc + list ascii).
Context (command : list string) (timeout max_pages : Z).

Definition command_values (upload : Upload.t) (job : Job.t) (input_path output_dir : Path) :
    list (string * string) :=
  [("input", path_str input_path); ("output_dir", path_str output_dir);
   ("content_type", or_str (Upload.detected_content_type upload) (Upload.content_type upload));
   ("request_id", Job.request_id job);
   ("sha256", Upload.sha256 upload)].

(** Run the command to its end, or kill it at the timeout. *)
Definition run_command (argv : list string) (root : Path) : M exc W () :=
  path ← environ_path;
  process ← create_process argv root
    [("PATH", default "/usr/bin:/bin" path); ("HOME", path_str root); ("TMPDIR", path_str root);
     ("LANG", "C.UTF-8")];
  '(stdout, stderr) ← try_except (communicate process timeout) (λ e,
    if isinstance e TimeoutError then Some (
      _ ← process_kill process;
      _ ← process_wait process;
      raise (preprocessing_error "sandbox preprocessor timed out"))
    else None);
  returncode ← process_returncode process;
  if bool_decide (returncode = 0) then mret ()
  else raise (preprocessing_error ("sandbox preprocessor failed with exit " +:+ str_Z returncode +:+
         ": " +:+ last_points 500 stderr)).

(** The pages of the manifest; the output directory is resolved anew for each. *)
Definition import_manifest (output_dir : Path) (job : Job.t) : M exc W (list PreparedPage) :=
  manifest ← try_except (text ← fs_read_text (sub output_dir "manifest.json"); json_loads text)
    (λ e, if isinstance_any e [OSError; JSONDecodeError]
          then Some (raise (preprocessing_error "sandbox did not produce a valid manifest"))
          else None);
  match manifest with
  | JObj d =>
      match dget d "pages" with
      | Some (JList descriptors) =>
          if negb (bool_decide (1 ≤ Z.of_nat (length descriptors) ≤ max_pages))
          then raise (preprocessing_error "sandbox page count is invalid")
          else import_pages output_dir (fs_resolve output_dir) job 1 descriptors
      | _ => raise (preprocessing_error "sandbox page count is invalid")
      end
  | _ => raise (preprocessing_error "sandbox page count is invalid")
  end.

(** The body of [with tempfile.TemporaryDirectory(...)] *)
Definition prepare_in (root : Path) (source : string) (upload : Upload.t) (job : Job.t) :
    M exc W (list PreparedPage) :=
  let suffix := if bool_decide (Upload.detected_content_type upload = Some "application/pdf")
                then ".pdf" else ".image" in
  let input_path := sub root ("input" +:+ suffix) in
  let output_dir := sub root "output" in
  _ ← fs_mkdir output_dir;
  _ ← fs_write input_path source;
  argv ← lift (traverse (format_map format_other (command_values upload job input_path output_dir))
           command);
  _ ← run_command argv root;
  import_manifest output_dir job.

Definition subprocess_prepare (upload : Upload.t) (job : Job.t) : M exc W (list PreparedPage) :=
  source ← storage_get_bytes (Upload.object_key upload);
  root ← temporary_create "monkeyocr-sandbox-";
  try_finally (prepare_in root source upload job) (temporary_cleanup root).
End prepare.

(** ** What it takes over, and what it leaves behind *)

(** A list without an element *)
Definition without {A} `{!EqDecision A} (x : A) (l : list A) : list A := filter (λ y, y ≠ x) l.

Lemma without_cons {A} `{!EqDecision A} (x : A) l : x ∉ l → without x (x :: l) = l.
Proof.
  intros Hx. unfold without. rewrite filter_cons_False by tauto.
  induction l as [|y l IH]; [done|]. apply not_elem_of_cons in Hx as [Hxy Hx].
  rewrite filter_cons_True by congruence. f_equal. by apply IH.
Qed.

Section command_contained.
Context {W : Type} `{!ObjectStorage W, !FileSystem W, !Processes W, !TemporaryDirectory W, !Environ W}.
Context (format_other : list (string * string) → list ascii → exc + list ascii).
Context (command : list string) (timeout max_pages : Z).

(** The accesses made so far, the processes started here that run, and the
    temporary directories that exist.  What a process starts in its turn is not
    among them. *)
Context (trace : W → list Access) (running : W → list Z) (temporary : W → list Path).

(** The world after a call made in [w]. *)
Definition after (w : W) (l : list Access) (ps : list Z) (ds : list Path) (w' : W) : Prop :=
  trace w' = trace w ++ l ∧ running w' = ps ∧ temporary w' = ds.

(** A call that ends, and leaves processes and directories alone. *)
Definition aside {A} (m : M exc W A) (l' : A → list Access) (l'' : list Access) : Prop := ∀ w,
  total (eq w) m (λ a, after w (l' a) (running w) (temporary w))
    (raised (after w l'' (running w) (temporary w))).

Hypothesis Hformat : ∀ values l e,
  format_other values l = inl e → isinstance e Exception_ = true.
Hypothesis Hget : ∀ k, aside (storage_get_bytes k) (λ _, []) [].
Hypothesis Hput : ∀ k d c, aside (storage_put_bytes k d c) (λ _, [Stored k d]) [].
Hypothesis Hmkdir : ∀ p, aside (fs_mkdir p) (λ _, []) [].
Hypothesis Hwrite : ∀ p s, aside (fs_write p s) (λ _, []) [].
Hypothesis Htext : ∀ p, aside (fs_read_text p) (λ _, [ReadText p]) [ReadText p].
Hypothesis Hread : ∀ p, aside (fs_read_bytes p) (λ data, [ReadBytes p (Some data)]) [ReadBytes p None].
Hypothesis Hresolve : ∀ p, aside (fs_resolve p) (λ q, [Resolved p q]) [].
Hypothesis Hpath : aside environ_path (λ _, []) [].
Hypothesis Hcode : ∀ p, aside (process_returncode p) (λ _, []) [].
(** A process runs until its output has been read, until it has been waited
    for, or until [kill] finds that it has ended. *)
Hypothesis Hcreate : ∀ argv cwd env w,
  total (eq w) (create_process argv cwd env)
    (λ p w', (p ∉ running w) ∧ after w [] (p :: running w) (temporary w) w')
    (raised (after w [] (running w) (temporary w))).
Hypothesis Hcommunicate : ∀ p t w,
  total (eq w) (communicate p t) (λ _, after w [] (without p (running w)) (temporary w))
    (λ e w', isinstance e TimeoutError = true ∧ after w [] (running w) (temporary w) w').
Hypothesis Hkill : ∀ p w,
  total (eq w) (process_kill p) (λ _, after w [] (running w) (temporary w))
    (raised (after w [] (without p (running w)) (temporary w))).
Hypothesis Hwait : ∀ p w,
  total (eq w) (process_wait p) (λ _, after w [] (without p (running w)) (temporary w)) never.
Hypothesis Htemporary : ∀ prefix w,
  total (eq w) (temporary_create prefix) (λ d, after w [] (running w) (d :: temporary w))
    (raised (after w [] (running w) (temporary w))).
(** The removal of a directory may fail; it is then taken to be left. *)
Hypothesis Hcleanup : ∀ d w ds, temporary w = d :: ds →
  total (eq w) (temporary_cleanup d) (λ _, after w [] (running w) ds)
    (raised (after w [] (running w) (temporary w))).

(** *** The accesses *)

#[local] Abbreviation clock := (λ _ : W, 0).

Lemma traced {A} (m : M exc W A) l' l'' :
  (∀ w, total (eq w) m (λ a w', trace w' = trace w ++ l' a)
    (raised (λ w', trace w' = trace w ++ l''))) → makes trace clock m l' l''.
Proof.
  intros Hm l t w [<- Ht]. specialize (Hm w w eq_refl). unfold raised, at_ in *.
  destruct (m w) as [[a|e|] w']; tauto.
Qed.

Lemma aside_makes {A} (m : M exc W A) l' l'' : aside m l' l'' → makes trace clock m l' l''.
Proof.
  intros Hm. apply traced. intros w. eapply total_conseq; [apply Hm | done | |]; unfold raised, after; tauto.
Qed.

#[local] Ltac process_plain H :=
  apply traced; intros ?; eapply total_conseq; [apply H | done | |];
  unfold raised, never, after; try tauto.

Lemma trace_run_command texts o job r argv root :
  total (knows trace clock texts o job r [] 0) (run_command timeout argv root)
    (λ _, knows trace clock texts o job r [] 0) (raised (read_inside trace texts o job r)).
Proof.
  unfold run_command. eapply total_bind; [apply total_plain, aside_makes, Hpath|]. intros path.
  eapply total_bind; [apply total_plain; process_plain Hcreate|]. intros p.
  eapply total_bind with (Q := λ _, knows trace clock texts o job r [] 0).
  - eapply total_try_except with
      (X := λ e w, knows trace clock texts o job r [] 0 w ∧ isinstance e TimeoutError = true).
    + intros w (l & [Hl Ht] & Hd). pose proof (Hcommunicate p timeout w w eq_refl) as H.
      assert (∀ w', trace w' = trace w ++ [] → knows trace clock texts o job r [] 0 w') as Hk.
      { intros w' Hw. exists l. split; [|done]. split; [|done]. by rewrite Hw, app_nil_r. }
      unfold after in H. destruct (communicate p timeout w) as [[a|e|] w']; naive_solver.
    + intros e. destruct (isinstance e TimeoutError) eqn:He; [|intros w [_ ?]; congruence].
      eapply total_pre; [|intros w [Hw _]; exact Hw].
      eapply total_bind; [apply total_plain; process_plain Hkill|]. intros ?.
      eapply total_bind; [apply total_plain; process_plain Hwait|]. intros ?. by apply total_refuse.
  - intros [out err]. eapply total_bind; [apply total_plain, aside_makes, Hcode|]. intros code.
    case_bool_decide; [by apply total_ret | by apply total_refuse].
Qed.

Lemma trace_import_manifest texts o job r : sub o "manifest.json" ∈ texts →
  total (knows trace clock texts o job r [] 0) (import_manifest max_pages o job)
    (imported max_pages trace texts o job r) (raised (read_inside trace texts o job r)).
Proof.
  intros Htexts. unfold import_manifest.
  eapply total_bind with (Q := λ _, knows trace clock texts o job r [] 0).
  { eapply total_try_except.
    - eapply total_bind; [apply total_text; [|done]; intros; apply aside_makes, Htext|].
      intros text. apply total_json_loads.
    - intros e. destruct (isinstance_any e [OSError; JSONDecodeError]); [|done].
      apply total_raise. by intros w [Hw _]. }
  intros manifest. destruct manifest as [| | | | | |d]; try by apply total_refuse.
  destruct (dget d "pages") as [[| | | | |l|]|]; try by apply total_refuse.
  destruct (bool_decide (1 ≤ _ ≤ max_pages)) eqn:Eb; [|by apply total_refuse].
  apply bool_decide_eq_true in Eb. cbn [negb].
  eapply total_conseq; [eapply total_import_pages
      with (texts := texts) (r := r) (facts := []) (t := 0) | done | | done];
    try (intros; by apply aside_makes).
  - apply root_known_resolve. intros; by apply aside_makes.
  - intros pages w (Hl & Hn & facts & Hw & Hf & _). eapply imported_intro; [|done..]. lia.
Qed.

Lemma format_map_error values item e :
  format_map format_other values item = inl e → isinstance e Exception_ = true.
Proof.
  unfold format_map. generalize (chars item) as l, (String.length item) as fuel. intros l fuel.
  assert (∀ l e, format_chars format_other values fuel l = inl e → isinstance e Exception_ = true) as H.
  { clear l e. induction fuel as [|fuel IH]; intros [|c l] e; simpl; try done.
    unfold format_field. repeat first
      [ case_match
      | progress simplify_eq/=
      | match goal with |- context [format_chars _ _ fuel ?l] => destruct (format_chars _ _ fuel l) eqn:? end
      ]; simpl; try (by intros [= <-]); try done; intros; simplify_eq; eauto. }
  destruct (format_chars _ _ fuel l) eqn:E; [|done]. intros [= <-]. by apply H in E.
Qed.

Lemma traverse_format_error values e :
  traverse (format_map format_other values) command = inl e → isinstance e Exception_ = true.
Proof. intros E. apply traverse_error in E as (item & _ & E). by eapply format_map_error. Qed.

Lemma trace_prepare_in root source upload job r :
  let o := sub root "output" in let texts := [sub o "manifest.json"] in
  total (knows trace clock texts o job r [] 0)
    (prepare_in format_other command timeout max_pages root source upload job)
    (imported max_pages trace texts o job r) (raised (read_inside trace texts o job r)).
Proof.
  intros o texts. unfold prepare_in. fold o.
  eapply total_bind; [apply total_plain, aside_makes, Hmkdir|]. intros ?.
  eapply total_bind; [apply total_plain, aside_makes, Hwrite|]. intros ?.
  eapply total_bind with (Q := λ _, knows trace clock texts o job r [] 0).
  { apply total_lift. destruct (traverse _ command) as [e|argv] eqn:E; [|done].
    intros w Hw. split; [by eapply known_seen | by eapply traverse_format_error]. }
  intros argv. eapply total_bind; [apply trace_run_command|]. intros ?.
  apply trace_import_manifest. left.
Qed.

(** *** The processes and the directories *)

Definition owns (ps : list Z) (ds : list Path) (w : W) : Prop := running w = ps ∧ temporary w = ds.

Lemma total_owns {A} (m : M exc W A) l' l'' ps ds : aside m l' l'' →
  total (owns ps ds) m (λ _, owns ps ds) (raised (owns ps ds)).
Proof.
  intros Hm w [<- <-]. specialize (Hm w w eq_refl). unfold raised, after, owns in *.
  destruct (m w) as [[a|e|] w']; tauto.
Qed.

Lemma owns_refuse {A} (e : exc) ps ds (Q : A → W → Prop) : isinstance e Exception_ = true →
  total (owns ps ds) (raise (A := A) e) Q (raised (owns ps ds)).
Proof. intros He. by apply total_raise. Qed.

Lemma owns_import_page o job n d ps ds :
  total (owns ps ds) (import_page o (fs_resolve o) job n d) (λ _, owns ps ds) (raised (owns ps ds)).
Proof.
  unfold import_page. destruct d as [| | | | | |d]; try by apply owns_refuse.
  eapply total_bind with (Q := λ _, owns ps ds).
  { apply total_lift. destruct (py_int _) as [e|] eqn:E; [|done]. intros w Hw. split; [done|].
    by eapply py_int_exception. }
  intros number. case_match; [by apply owns_refuse|].
  destruct (dget d "path") as [[| | | |relative| |]|]; try by apply owns_refuse.
  eapply total_bind; [eapply total_owns, Hresolve|]. intros p.
  eapply total_bind; [eapply total_owns, Hresolve|]. intros root.
  destruct (inside root p); [|by apply owns_refuse].
  eapply total_bind; [eapply total_owns, Hread|]. intros data. simpl.
  destruct (truthy data); [|by apply owns_refuse].
  eapply total_bind; [eapply total_owns, Hput|]. intros ?. by apply total_ret.
Qed.

Lemma owns_import_pages o job n l ps ds :
  total (owns ps ds) (import_pages o (fs_resolve o) job n l) (λ _, owns ps ds) (raised (owns ps ds)).
Proof.
  revert n. induction l as [|d l IH]; intros n; simpl; [by apply total_ret|].
  eapply total_bind; [apply owns_import_page|]. intros page.
  eapply total_bind; [apply IH|]. intros pages. by apply total_ret.
Qed.

Lemma owns_import_manifest o job ps ds :
  total (owns ps ds) (import_manifest max_pages o job) (λ _, owns ps ds) (raised (owns ps ds)).
Proof.
  unfold import_manifest. eapply total_bind with (Q := λ _, owns ps ds).
  { eapply total_try_except.
    - eapply total_bind; [eapply total_owns, Htext|]. intros text. unfold json_loads.
      destruct (loads text); [by apply total_ret | by apply owns_refuse].
    - intros e. destruct (isinstance_any e [OSError; JSONDecodeError]); [|done].
      apply total_raise. by intros w [Hw _]. }
  intros manifest. destruct manifest as [| | | | | |d]; try by apply owns_refuse.
  destruct (dget d "pages") as [[| | | | |l|]|]; try by apply owns_refuse.
  case_match; [by apply owns_refuse | apply owns_import_pages].
Qed.

(** The process started is waited for, or killed and waited for. *)
Lemma owns_run_command argv root ps ds :
  total (owns ps ds) (run_command timeout argv root) (λ _, owns ps ds) (raised (owns ps ds)).
Proof.
  unfold run_command. eapply total_bind; [eapply total_owns, Hpath|]. intros path.
  eapply total_bind with (Q := λ p w, (p ∉ ps) ∧ owns (p :: ps) ds w).
  { intros w [<- <-]. pose proof (Hcreate argv root
      [("PATH", default "/usr/bin:/bin" path); ("HOME", path_str root); ("TMPDIR", path_str root);
       ("LANG", "C.UTF-8")] w w eq_refl) as H. unfold raised, after, owns in *.
    destruct (create_process _ _ _ w) as [[p|e|] w']; tauto. }
  intros p. apply (total_fact (p ∉ ps)); [tauto|]. intros Hp. pose proof (without_cons p ps Hp) as Hps.
  assert (∀ w w', owns (p :: ps) ds w → after w [] (without p (running w)) (temporary w) w' →
    owns ps ds w') as Hgone.
  { intros w w' [H1 H2] (_ & H3 & H4). rewrite H1, Hps in H3. split; congruence. }
  eapply total_bind with (Q := λ _, owns ps ds).
  - eapply total_try_except with (X := λ e w, owns (p :: ps) ds w ∧ isinstance e TimeoutError = true).
    + intros w [_ Hw]. pose proof (Hcommunicate p timeout w w eq_refl) as H.
      destruct (communicate p timeout w) as [[a|e|] w']; [by eapply Hgone | | done].
      destruct H as (He & _ & H1 & H2). destruct Hw as [H3 H4]. unfold owns. split; [split|]; congruence.
    + intros e. destruct (isinstance e TimeoutError) eqn:He; [|intros w [_ ?]; congruence].
      eapply total_pre with (owns (p :: ps) ds); [|tauto].
      eapply total_bind with (Q := λ _, owns (p :: ps) ds).
      { intros w Hw. pose proof (Hkill p w w eq_refl) as H.
        destruct (process_kill p w) as [[u|e'|] w']; [| |done].
        - destruct H as (_ & H1 & H2), Hw as [H3 H4]. split; congruence.
        - destruct H as [H He']. split; [by eapply Hgone | done]. }
      intros ?. eapply total_bind with (Q := λ _, owns ps ds); [|intros ?; by apply owns_refuse].
      intros w Hw. pose proof (Hwait p w w eq_refl) as H.
      destruct (process_wait p w) as [[u|e'|] w']; [by eapply Hgone | by destruct H | done].
  - intros [out err]. eapply total_bind; [eapply total_owns, Hcode|]. intros code.
    case_bool_decide; [by apply total_ret | by apply owns_refuse].
Qed.

Lemma owns_prepare_in root source upload job ps ds :
  total (owns ps ds) (prepare_in format_other command timeout max_pages root source upload job)
    (λ _, owns ps ds) (raised (owns ps ds)).
Proof.
  unfold prepare_in. eapply total_bind; [eapply total_owns, Hmkdir|]. intros ?.
  eapply total_bind; [eapply total_owns, Hwrite|]. intros ?.
  eapply total_bind with (Q := λ _, owns ps ds).
  { apply total_lift. destruct (traverse _ command) as [e|argv] eqn:E; [|done].
    intros w Hw. split; [done | by eapply traverse_format_error]. }
  intros argv. eapply total_bind; [apply owns_run_command|]. intros ?. apply owns_import_manifest.
Qed.

(** *** The whole call *)

(** The temporary directory [root] has been removed, or its removal raised what
    [prepare] then raises. *)
Definition removed (root : Path) (ds : list Path) (e : exc) (w' : W) : Prop :=
  temporary w' = ds ∨
  (∃ w1, temporary_cleanup root w1 = (Exn e, w')) ∧ temporary w' = root :: ds.

Lemma cleanup_spec root ps ds (P : list Access → Prop) :
  total (λ w, P (trace w) ∧ owns ps (root :: ds) w) (temporary_cleanup root)
    (λ _ w', P (trace w') ∧ owns ps ds w')
    (λ e w', isinstance e Exception_ = true ∧ P (trace w') ∧ running w' = ps ∧ removed root ds e w').
Proof.
  intros w (HP & Hps & Hds). pose proof (Hcleanup root w ds Hds w eq_refl) as H.
  destruct (temporary_cleanup root w) as [[a|e|] w'] eqn:E; [| |done].
  - destruct H as (Ht & Hp & Hd). rewrite Ht, app_nil_r. split_and!; [done | split; congruence].
  - destruct H as [(Ht & Hp & Hd) He]. rewrite Ht, app_nil_r. split_and!; [done | done | congruence |].
    right. split; [by eexists | congruence].
Qed.

End command_contained.

(** ** A command that hangs on a PDF, and finds one page in anything else *)

Module SampleCommand.

Record World := MkWorld {
  w_trace : list Access;
  w_running : list Z;
  w_temporary : list Path
}.

Definition ret {A} (a : A) : M exc World A := mret a.
Definition put_running ps w := MkWorld (w_trace w) ps (w_temporary w).
Definition put_temporary ds w := MkWorld (w_trace w) (w_running w) ds.

Definition access (a : Access) (w : World) : World :=
  MkWorld (w_trace w ++ [a]) (w_running w) (w_temporary w).

(** A number above those of the running processes; the one of a command that
    hangs is odd. *)
Definition new_process (hangs : bool) (w : World) : Z :=
  2 * (1 + foldr Z.max 0 (w_running w)) + (if hangs then 1 else 0).

#[global] Instance processes : Processes World := {
  create_process argv cwd env w :=
    let pid := new_process (existsb (endswith ".pdf") argv) w in
    (Ret pid, put_running (pid :: w_running w) w);
  communicate pid t w :=
    if Z.odd pid then (Exn (mk_exc TimeoutError ""), w)
    else (Ret ("", "done"), put_running (without pid (w_running w)) w);
  process_kill _ := ret ();
  process_wait pid := modify (λ w, put_running (without pid (w_running w)) w);
  process_returncode _ := ret 0
}.

#[global] Instance temporary_directory : TemporaryDirectory World := {
  temporary_create prefix w :=
    let d := MkPath true ["tmp"; prefix +:+ "x"] in (Ret d, put_temporary (d :: w_temporary w) w);
  temporary_cleanup d := modify (λ w, put_temporary (tail (w_temporary w)) w)
}.

#[global] Instance environ : Environ World := ret None.

#[global] Instance fs : FileSystem World := {
  fs_mkdir _ := ret ();
  fs_write _ _ := ret ();
  fs_replace _ _ := ret ();
  fs_exists _ := ret true;
  fs_read_text p w := (Ret (SampleExchange.manifest ["a.png"]), access (ReadText p) w);
  fs_read_bytes p w := (Ret "pixels", access (ReadBytes p (Some "pixels")) w);
  fs_resolve p w :=
    (Ret (SampleExchange.resolve p), access (Resolved p (SampleExchange.resolve p)) w);
  fs_rmtree _ := ret ()
}.

#[global] Instance storage : ObjectStorage World := {
  storage_create_upload_target _ _ _ _ := raise (mk_exc AssertionError "unused");
  storage_stat _ := raise (mk_exc AssertionError "unused");
  storage_complete_upload _ _ _ := ret ();
  storage_get_bytes _ := ret "source";
  storage_put_bytes k d c w := (Ret (MkStoredObject k (bytes_len d) "" c), access (Stored k d) w);
  storage_delete_object _ := ret ();
  storage_abort_multipart_upload _ _ := ret ();
  storage_create_download_url _ := ret ""
}.

Definition format_other (values : list (string * string)) (l : list ascii) : exc + list ascii :=
  inl (mk_exc ValueError "not a plain field").

Definition prepare (upload : Upload.t) : outcome exc (list PreparedPage) * World :=
  subprocess_prepare (W := World) format_other ["render"; "{input}"; "{output_dir}"] 120 500 upload
    SampleExchange.job (MkWorld [] [] []).

Definition image : Upload.t :=
  Upload.Mk "owner" "a.png" 6 "image/png" "" "uploads/2/source" 2
    UploadState_COMPLETED 0 (Some 1) (Some "image/png") None.

Definition pages_read (w : World) : list Path :=
  omap (λ a, match a with ReadBytes p _ => Some p | _ => None end) (w_trace w).

Lemma new_process_fresh hangs w : new_process hangs w ∉ w_running w.
Proof.
  unfold new_process. generalize (w_running w). intros l.
  assert (∀ p, p ∈ l → p ≤ foldr Z.max 0 l) as H.
  { induction l as [|q l IH]; intros p Hp; [by apply not_elem_of_nil in Hp|]. simpl.
    apply elem_of_cons in Hp as [->|Hp]; [lia | specialize (IH p Hp); lia]. }
  intros Hp. specialize (H _ Hp). assert (0 ≤ foldr Z.max 0 l) by (clear; induction l; simpl; lia).
  destruct hangs; lia.
Qed.

End SampleCommand.

Example command_ex :
  (let '(r, w) := SampleCommand.prepare SampleCommand.image in
   (match r with Ret pages => map prepared_page_number pages | _ => [] end,
    map path_parts (SampleCommand.pages_read w), SampleCommand.w_running w),
   let '(r, w) := SampleCommand.prepare SampleExchange.upload in
   (match r with Exn e => exc_msg e | _ => "" end, SampleCommand.w_running w)) =
  (([1], [["tmp"; "monkeyocr-sandbox-x"; "output"; "a.png"]], []),
   ("sandbox preprocessor timed out", [])).
Proof. vm_compute. reflexivity. Qed.

