(* ===== verification/StatusGenerator.v ===== *)
(** * The generator of the status codes

    Models [backend/scripts/generate_internal_status_codes.py]: it reads the
    registry of status codes and writes the enumerations for Python, Go and
    TypeScript, or, with [--check], reports which of them are stale.

    [gofmt] is a parameter; [str.title] covers ASCII names.
    - [generate_then_check]: what a run writes is what a check accepts;
    - [check_verdict]: what a check answers, and that it writes nothing;
    - [registry_members]: the registry of the repository gives the codes of
      [Status]. *)

From Stdlib Require Import Ascii.
From Stdlib Require String.
From stdpp Require Import functions.
From S2P Require Import Prelude PyData PyText PyValue Json Status Domain Ports Messaging.
From S2P Require Import Preprocessor Storage SandboxCommand.

#[local] Open Scope Z_scope.

(** ** Text *)

Definition is_lower (c : ascii) : bool := ((97 <=? code c) && (code c <=? 122))%N.

Definition upper_char (c : ascii) : ascii :=
  if is_lower c then ascii_of_N (code c - 32) else c.

(** [after]: the character before is a letter. *)
Fixpoint title_chars (after : bool) (l : list ascii) : list ascii :=
  match l with
  | [] => []
  | c :: l =>
      (if after then lower_char c else upper_char c) :: title_chars (is_upper c || is_lower c) l
  end.

(** [s.title()] *)
Definition title (s : string) : string := of_chars (title_chars false (chars s)).

(** [acronyms.get(part, part.title())] *)
Definition acronym_or_title (part : string) : string :=
  if bool_decide (part ∈ ["API"; "ID"; "OCR"]) then part else title part.

Definition go_identifier (name : string) : string :=
  "InternalStatus" +:+ join "" (map acronym_or_title (split_n "_"%char (String.length name) name)).

Example go_identifier_ex :
  map go_identifier ["API_KEY_REVOKED"; "ENGINE_TIMEOUT"; "A1B"] =
  ["InternalStatusAPIKeyRevoked"; "InternalStatusEngineTimeout"; "InternalStatusA1B"].
Proof. vm_compute. reflexivity. Qed.

Definition newline : string := of_chars [ascii_of_N 10].
Definition tab : string := of_chars [ascii_of_N 9].
Definition quote_mark : string := of_chars [ascii_of_N 34].

(** ** The registry *)

(** [str(item["name"])], [int(item["value"])], and their texts in the f-strings *)
Definition name_of (status : json) : exc + string :=
  name ← descriptor_item status "name"; inr (py_str name).
Definition value_of (status : json) : exc + Z :=
  value ← descriptor_item status "value"; py_int value.
Definition value_text (status : json) : exc + string :=
  value ← descriptor_item status "value"; inr (py_str value).

(** [load_statuses] on the parsed registry *)
Definition statuses_of (payload : json) : exc + list json :=
  success ← descriptor_item payload "success";
  rest ← descriptor_item payload "statuses";
  rest ← StorageServiceObjectStorage.iterate rest;
  let statuses := success :: rest in
  names ← traverse name_of statuses;
  values ← traverse value_of statuses;
  if negb (bool_decide (NoDup names)) || negb (bool_decide (NoDup values))
  then inl (mk_exc ValueError "status registry contains duplicate names or values")
  else inr statuses.

(** ** The three enumerations *)

Definition python_line (status : json) : exc + string :=
  name ← name_of status;
  value ← value_text status;
  inr ("    " +:+ name +:+ " = " +:+ value).

Definition render_python (statuses : list json) : exc + string :=
  members ← traverse python_line statuses;
  inr (join newline (
    [quote_mark +:+ quote_mark +:+ quote_mark +:+
       "Generated from backend/contracts/internal_status_codes.json; do not edit." +:+
       quote_mark +:+ quote_mark +:+ quote_mark;
     "";
     "from enum import IntEnum";
     "";
     "";
     "class InternalStatusCode(IntEnum):"] ++ members ++
    [""; ""; "__all__ = [" +:+ quote_mark +:+ "InternalStatusCode" +:+ quote_mark +:+ "]"; ""])).

Definition go_constant (status : json) : exc + string :=
  name ← name_of status;
  value ← value_text status;
  inr (tab +:+ go_identifier name +:+ " InternalStatusCode = " +:+ value).

Definition go_case (status : json) : exc + list string :=
  name ← name_of status;
  inr [tab +:+ "case " +:+ go_identifier name +:+ ":";
       tab +:+ tab +:+ "return " +:+ quote_mark +:+ name +:+ quote_mark].

(** [source] of [render_go], the input of [gofmt] *)
Definition go_source (statuses : list json) : exc + string :=
  constants ← traverse go_constant statuses;
  cases ← traverse go_case statuses;
  inr (join newline (
    ["// Code generated from backend/contracts/internal_status_codes.json; DO NOT EDIT.";
     "package api";
     "";
     "type InternalStatusCode int";
     "";
     "const ("] ++ constants ++
    [")";
     "";
     "// String returns the stable cross-language enum name used in structured logs.";
     "func (code InternalStatusCode) String() string {";
     tab +:+ "switch code {"] ++ concat cases ++
    [tab +:+ "default:"; tab +:+ tab +:+ "return " +:+ quote_mark +:+ "UNKNOWN" +:+ quote_mark;
     tab +:+ "}"; "}"; ""])).

Definition typescript_line (status : json) : exc + string :=
  name ← name_of status;
  value ← value_text status;
  inr ("  " +:+ name +:+ " = " +:+ value +:+ ",").

Definition render_typescript (statuses : list json) : exc + string :=
  members ← traverse typescript_line statuses;
  inr (join newline (
    ["// Generated from backend/contracts/internal_status_codes.json; do not edit.";
     "export enum InternalStatusCode {"] ++ members ++ ["}"; ""])).

(** ** The program *)

(** [subprocess.run(["gofmt"], input=source, check=True).stdout] and [print] *)
Class Toolchain (W : Type) := {
  run_gofmt : string → M exc W string;
  print_line : string → M exc W ()
}.

Definition REGISTRY : Path := parse_path "backend/contracts/internal_status_codes.json".
Definition python_path : Path := parse_path "backend/src/shared/internal_status_codes.py".
Definition go_path : Path :=
  parse_path "backend/services/lib-go/http/api/internal_status_codes_generated.go".
Definition typescript_path : Path :=
  parse_path "frontend/src/domain/internalStatusCodes.generated.ts".

Section main.
Context {W : Type} `{!FileSystem W, !Toolchain W}.
Context (ROOT : Path).

Definition load_statuses : M exc W (list json) :=
  text ← fs_read_text (join_path ROOT REGISTRY);
  payload ← json_loads text;
  lift (statuses_of payload).

Definition render_go (statuses : list json) : M exc W string :=
  source ← lift (go_source statuses);
  run_gofmt source.

(** [outputs], a path below [ROOT] with its content *)
Definition outputs (statuses : list json) : M exc W (list (Path * string)) :=
  python ← lift (render_python statuses);
  go ← render_go statuses;
  typescript ← lift (render_typescript statuses);
  mret [(python_path, python); (go_path, go); (typescript_path, typescript)].

(** [not path.exists() or path.read_text(...) != content] *)
Definition is_stale (output : Path * string) : M exc W bool :=
  let path := join_path ROOT output.1 in
  present ← fs_exists path;
  if negb present then mret true else
  text ← fs_read_text path;
  mret (negb (bool_decide (text = output.2))).

(** [path.parent.mkdir(...); path.write_text(...)] *)
Definition write_output (output : Path * string) : M exc W () :=
  let path := join_path ROOT output.1 in
  _ ← fs_mkdir (MkPath (path_absolute path) (removelast (path_parts path)));
  fs_write path output.2.

(** The loop of [main]: the stale paths with [--check] *)
Fixpoint visit (check : bool) (l : list (Path * string)) : M exc W (list Path) :=
  match l with
  | [] => mret []
  | output :: l =>
      if check then
        stale ← is_stale output;
        rest ← visit check l;
        mret (if stale : bool then output.1 :: rest else rest)
      else _ ← write_output output; visit check l
  end.

Fixpoint report_stale (stale : list Path) : M exc W () :=
  match stale with
  | [] => mret ()
  | path :: stale =>
      _ ← print_line ("stale generated file: " +:+ path_str path); report_stale stale
  end.

Definition main (check : bool) : M exc W Z :=
  statuses ← load_statuses;
  generated ← outputs statuses;
  stale ← visit check generated;
  match stale with
  | [] => mret 0
  | _ => _ ← report_stale stale; mret 1
  end.
End main.

(** ** What it writes and what it checks *)

Section facts.
Context {W : Type} `{!FileSystem W, !Toolchain W}.
Context (ROOT : Path).
(** The files, the lines printed, and [gofmt] as a function *)
Context (files : W → Path → option string) (printed : W → list string).
Context (format : string → exc + string) (no_file : exc).

Definition outcome_of {A} (r : exc + A) : outcome exc A :=
  match r with inl e => Exn e | inr a => Ret a end.

Hypothesis Hread : ∀ p w, fs_read_text p w =
  (outcome_of (match files w p with Some s => inr s | None => inl no_file end), w).
Hypothesis Hexists : ∀ p w, fs_exists p w = (Ret (bool_decide (is_Some (files w p))), w).
Hypothesis Hmkdir : ∀ p w, ∃ w', fs_mkdir p w = (Ret (), w') ∧
  files w' = files w ∧ printed w' = printed w.
Hypothesis Hwrite : ∀ p s w, ∃ w', fs_write p s w = (Ret (), w') ∧
  files w' = <[p := Some s]> (files w) ∧ printed w' = printed w.
Hypothesis Hgofmt : ∀ s w, run_gofmt s w = (outcome_of (format s), w).
Hypothesis Hprint : ∀ s w, ∃ w', print_line s w = (Ret (), w') ∧
  files w' = files w ∧ printed w' = printed w ++ [s].

Abbreviation registry w := (files w (join_path ROOT REGISTRY)).

(** The contents a registry text stands for *)
Definition generated_from (text : string) : exc + list (Path * string) :=
  payload ← match loads text with
            | Some v => inr v
            | None => inl (mk_exc JSONDecodeError "Expecting value")
            end;
  statuses ← statuses_of payload;
  python ← render_python statuses;
  source ← go_source statuses;
  go ← format source;
  typescript ← render_typescript statuses;
  inr [(python_path, python); (go_path, go); (typescript_path, typescript)].

Lemma generate_run {B} text (k : list (Path * string) → M exc W B) w :
  registry w = Some text →
  (statuses ← load_statuses ROOT; generated ← outputs statuses; k generated) w =
  match generated_from text with inl e => (Exn e, w) | inr l => k l w end.
Proof.
  intros Ht. unfold load_statuses, outputs, render_go, json_loads, generated_from.
  unfold mbind, M_bind. rewrite Hread, Ht. simpl.
  destruct (loads text) as [payload|]; simpl; [|done].
  destruct (statuses_of payload) as [e|statuses]; simpl; [done|].
  destruct (render_python statuses) as [e|python]; simpl; [done|].
  destruct (go_source statuses) as [e|source]; simpl; [done|].
  rewrite Hgofmt. destruct (format source) as [e|go]; simpl; [done|].
  by destruct (render_typescript statuses).
Qed.

(** The outputs that are not as they should be *)
Definition stale_in (fs : Path → option string) (l : list (Path * string)) : list Path :=
  (filter (λ output, fs (join_path ROOT output.1) ≠ Some output.2) l).*1.

Lemma visit_check l w : visit ROOT true l w = (Ret (stale_in (files w) l), w).
Proof.
  induction l as [|[path content] l IH]; [done|]. simpl. unfold is_stale, stale_in in *.
  unfold mbind, M_bind. rewrite Hexists. simpl. rewrite filter_cons. simpl.
  destruct (files w (join_path ROOT path)) as [text|] eqn:E; simpl.
  - rewrite Hread, E. simpl. rewrite IH.
    destruct (decide (text = content)) as [->|Hne].
    + rewrite bool_decide_eq_true_2 by done. by rewrite decide_False by congruence.
    + rewrite bool_decide_eq_false_2 by done. rewrite decide_True by congruence. done.
  - by rewrite IH.
Qed.

Definition written (fs : Path → option string) (l : list (Path * string)) : Path → option string :=
  foldl (λ fs output, <[join_path ROOT output.1 := Some output.2]> fs) fs l.

Lemma visit_write l w : ∃ w', visit ROOT false l w = (Ret [], w') ∧
  files w' = written (files w) l ∧ printed w' = printed w.
Proof.
  revert w. induction l as [|[path content] l IH]; intros w; [by exists w|]. simpl.
  unfold write_output, mbind, M_bind. simpl.
  destruct (Hmkdir (MkPath (path_absolute (join_path ROOT path))
    (removelast (path_parts (join_path ROOT path)))) w) as (w1 & -> & Hf1 & Hp1).
  destruct (Hwrite (join_path ROOT path) content w1) as (w2 & -> & Hf2 & Hp2).
  destruct (IH w2) as (w' & -> & Hf & Hp). exists w'. split_and!; [done| |congruence].
  by rewrite Hf, Hf2, Hf1.
Qed.

Lemma report_run stale w : ∃ w', report_stale stale w = (Ret (), w') ∧ files w' = files w ∧
  printed w' = printed w ++ map (λ path, "stale generated file: " +:+ path_str path) stale.
Proof.
  revert w. induction stale as [|path stale IH]; intros w; simpl.
  { exists w. by rewrite app_nil_r. }
  destruct (Hprint ("stale generated file: " +:+ path_str path) w) as (w1 & H1 & Hf1 & Hp1).
  rewrite (bind_run _ _ _ _ _ H1). destruct (IH w1) as (w' & -> & Hf & Hp). exists w'.
  split_and!; [done | congruence|]. by rewrite Hp, Hp1, <- app_assoc.
Qed.

(** A check writes nothing; it answers 1, and names the files, exactly if some
    file is missing or differs from what the registry stands for. *)
Theorem check_verdict text l w : registry w = Some text → generated_from text = inr l →
  let stale := stale_in (files w) l in
  ∃ w', main ROOT true w = (Ret (if decide (stale = []) then 0 else 1), w') ∧ files w' = files w ∧
    printed w' = printed w ++ map (λ path, "stale generated file: " +:+ path_str path) stale.
Proof.
  intros Ht Hl stale. unfold main. rewrite (generate_run text _ w Ht), Hl.
  rewrite (bind_run _ _ _ _ _ (visit_check l w)). fold stale.
  destruct stale as [|path stale']; [exists w; by rewrite app_nil_r|].
  destruct (report_run (path :: stale') w) as (w' & H & Hf & Hp).
  rewrite (bind_run _ _ _ _ _ H). by exists w'.
Qed.

Lemma join_path_inj p q : path_absolute p = false → path_absolute q = false →
  join_path ROOT p = join_path ROOT q → p = q.
Proof.
  destruct p as [? p], q as [? q]. unfold join_path. simpl. intros -> ->. by intros [= ->%app_inv_head].
Qed.

(** The three files are different, and none is the registry. *)
Lemma written_generated text l fs : generated_from text = inr l →
  stale_in (written fs l) l = [] ∧
  written fs l (join_path ROOT REGISTRY) = fs (join_path ROOT REGISTRY).
Proof.
  unfold generated_from. destruct (loads text) as [payload|]; simpl; [|done].
  destruct (statuses_of payload) as [e|statuses]; simpl; [done|].
  destruct (render_python statuses) as [e|python]; simpl; [done|].
  destruct (go_source statuses) as [e|source]; simpl; [done|].
  destruct (format source) as [e|go]; simpl; [done|].
  destruct (render_typescript statuses) as [e|typescript]; simpl; [done|]. intros [= <-].
  assert (∀ p q, path_absolute p = false → path_absolute q = false → p ≠ q →
    join_path ROOT p ≠ join_path ROOT q) as Hne.
  { intros p q Hp Hq Hn E. by apply Hn, join_path_inj. }
  unfold written, stale_in. simpl. split.
  - rewrite filter_cons_False; [rewrite filter_cons_False; [rewrite filter_cons_False; [done|]|]|];
      simpl; intros H; apply H; clear H;
      rewrite ?(fn_lookup_insert_ne _ (join_path ROOT typescript_path)) by (by apply Hne);
      rewrite ?(fn_lookup_insert_ne _ (join_path ROOT go_path)) by (by apply Hne);
      by rewrite fn_lookup_insert.
  - by rewrite !fn_lookup_insert_ne by by apply Hne.
Qed.

(** A run of the generator brings all three files up to date, so that a check
    right after it answers 0 and prints nothing; if the registry is refused, or
    [gofmt] fails, it raises before it has written anything. *)
Theorem generate_then_check text w : registry w = Some text →
  match generated_from text with
  | inl e => main ROOT false w = (Exn e, w)
  | inr l => ∃ w' w'', main ROOT false w = (Ret 0, w') ∧ main ROOT true w' = (Ret 0, w'') ∧
      files w'' = written (files w) l ∧ printed w'' = printed w
  end.
Proof.
  intros Ht. destruct (generated_from text) as [e|l] eqn:Hl.
  { unfold main. by rewrite (generate_run text _ w Ht), Hl. }
  destruct (visit_write l w) as (w' & Hv & Hf & Hp).
  destruct (written_generated text l (files w) Hl) as [Hs Hr].
  exists w'. unfold main. rewrite (generate_run text _ w Ht), Hl, (bind_run _ _ _ _ _ Hv).
  exists w'. split; [done|]. rewrite (generate_run text _ w'), Hl by (rewrite Hf; congruence).
  rewrite (bind_run _ _ _ _ _ (visit_check l w')), Hf, Hs. by split_and!.
Qed.
End facts.

(** ** The registry of the repository, [backend/contracts/internal_status_codes.json] *)

Module SampleGenerator.

Definition entry (name : string) (value : Z) (message : string) : json :=
  JObj [("name", JStr name); ("value", JInt value); ("message", JStr message)].

Definition statuses : list json :=
  [entry "COMMON_INVALID_ARGUMENT" 10001 "请求参数无效";
   entry "COMMON_RESOURCE_NOT_FOUND" 10002 "资源不存在";
   entry "COMMON_STATE_CONFLICT" 10003 "资源状态冲突";
   entry "COMMON_IDEMPOTENCY_CONFLICT" 10004 "幂等请求冲突";
   entry "UPLOAD_NOT_FOUND" 20001 "上传会话不存在";
   entry "UPLOAD_NOT_COMPLETED" 20002 "上传尚未完成";
   entry "UPLOAD_HASH_MISMATCH" 20003 "文件哈希不匹配";
   entry "UPLOAD_UNSUPPORTED_FILE_TYPE" 20004 "不支持的文件类型";
   entry "UPLOAD_FILE_TOO_LARGE" 20005 "文件过大";
   entry "UPLOAD_SECURITY_REJECTED" 20006 "文件安全校验未通过";
   entry "JOB_NOT_FOUND" 30001 "任务不存在";
   entry "JOB_NOT_CANCELLABLE" 30002 "当前任务不可取消";
   entry "JOB_NOT_RETRYABLE" 30003 "当前任务不可重试";
   entry "JOB_PROCESSING_FAILED" 30004 "任务处理失败";
   entry "JOB_RESULT_NOT_READY" 30005 "任务结果尚未生成";
   entry "USER_UNAUTHORIZED" 40001 "API Key 无效或缺失";
   entry "API_KEY_REVOKED" 40002 "API Key 已吊销";
   entry "API_KEY_RATE_LIMITED" 40003 "请求过于频繁";
   entry "ENGINE_UNAVAILABLE" 50001 "OCR 引擎不可用";
   entry "ENGINE_TIMEOUT" 50002 "OCR 引擎响应超时";
   entry "STORAGE_UNAVAILABLE" 50003 "对象存储不可用";
   entry "QUEUE_UNAVAILABLE" 50004 "消息队列不可用";
   entry "DATABASE_UNAVAILABLE" 50005 "数据库不可用";
   entry "INTERNAL_CONTROLLED_ERROR" 59999 "服务暂时不可用";
   entry "TRANSPORT_INTERNAL_ERROR" 90000 "服务内部传输错误";
   entry "TRANSPORT_BAD_GATEWAY" 90002 "上游服务不可用";
   entry "TRANSPORT_GATEWAY_TIMEOUT" 90004 "上游服务响应超时"].

Definition registry : json := JObj
  [("schema_version", JInt 1); ("success", entry "SUCCESS" 0 "操作成功");
   ("statuses", JList statuses)].

Definition codes : list InternalStatusCode :=
  [SUCCESS; COMMON_INVALID_ARGUMENT; COMMON_RESOURCE_NOT_FOUND; COMMON_STATE_CONFLICT; COMMON_IDEMPOTENCY_CONFLICT; UPLOAD_NOT_FOUND; UPLOAD_NOT_COMPLETED; UPLOAD_HASH_MISMATCH; UPLOAD_UNSUPPORTED_FILE_TYPE; UPLOAD_FILE_TOO_LARGE; UPLOAD_SECURITY_REJECTED; JOB_NOT_FOUND; JOB_NOT_CANCELLABLE; JOB_NOT_RETRYABLE; JOB_PROCESSING_FAILED; JOB_RESULT_NOT_READY; USER_UNAUTHORIZED; API_KEY_REVOKED; API_KEY_RATE_LIMITED; ENGINE_UNAVAILABLE; ENGINE_TIMEOUT; STORAGE_UNAVAILABLE; QUEUE_UNAVAILABLE; DATABASE_UNAVAILABLE; INTERNAL_CONTROLLED_ERROR; TRANSPORT_INTERNAL_ERROR; TRANSPORT_BAD_GATEWAY; TRANSPORT_GATEWAY_TIMEOUT].

(** A volume with the registry; the format of [gofmt] is left as it is, and an
    empty source is an error. *)
Definition World : Type := (Path → option string) * list string.
Definition no_file : exc := mk_exc FileNotFoundError "No such file or directory".
Definition format (source : string) : exc + string :=
  if truthy source then inr source else inl (mk_exc (Foreign "CalledProcessError") "gofmt").
Definition unused {A} : M exc World A := raise (mk_exc AssertionError "unused").

Definition read (p : Path) : M exc World string := λ w,
  (outcome_of (match w.1 p with Some s => inr s | None => inl no_file end), w).

#[global] Instance files : FileSystem World := {
  fs_mkdir _ := mret ();
  fs_write p s := λ w, (Ret (), (<[p := Some s]> w.1, w.2));
  fs_replace _ _ := unused;
  fs_exists p := λ w, (Ret (bool_decide (is_Some (w.1 p))), w);
  fs_read_text := read;
  fs_read_bytes := read;
  fs_resolve _ := unused;
  fs_rmtree _ := unused
}.

#[global] Instance tools : Toolchain World := {
  run_gofmt s := λ w, (outcome_of (format s), w);
  print_line s := λ w, (Ret (), (w.1, w.2 ++ [s]))
}.

Definition root : Path := MkPath true ["repo"].
Definition start : World :=
  (<[join_path root REGISTRY := Some (dumps false registry)]> (λ _, None), []).
End SampleGenerator.

(** The registry's entries are the codes of [Status], all of them; no two get the
    same identifier in Go. *)
Example registry_members :
  traverse name_of (default [] (match statuses_of SampleGenerator.registry with
                                | inr l => Some l | inl _ => None end)) =
    inr (map code_name SampleGenerator.codes) ∧
  (l ← statuses_of SampleGenerator.registry; traverse value_of l) =
    inr (map code_value SampleGenerator.codes) ∧
  NoDup (map go_identifier (map code_name SampleGenerator.codes)) ∧
  ∀ c, c ∈ SampleGenerator.codes.
Proof.
  split_and!; [by vm_compute | by vm_compute | |].
  - apply (bool_decide_unpack _). by vm_compute.
  - intros c. apply (bool_decide_unpack _). by destruct c; vm_compute.
Qed.

Lemma generate_then_check_witness :
  let w := SampleGenerator.start in
  ∃ w' w'', main SampleGenerator.root false w = (Ret 0, w') ∧
    main SampleGenerator.root true w' = (Ret 0, w'') ∧ w''.2 = [].
Proof.
  pose proof (generate_then_check SampleGenerator.root fst snd SampleGenerator.format
    SampleGenerator.no_file ltac:(done) ltac:(done) ltac:(intros p w; by exists w)
    ltac:(intros p s w; by exists (<[p := Some s]> w.1, w.2)) ltac:(done)
    (dumps false SampleGenerator.registry) SampleGenerator.start
    ltac:(apply fn_lookup_insert)) as H.
  assert (match generated_from SampleGenerator.format (dumps false SampleGenerator.registry) with
          | inl _ => false | inr _ => true end = true) as Hok by (vm_compute; reflexivity).
  destruct (generated_from _ _) as [e|l]; [discriminate Hok|].
  destruct H as (w' & w'' & H1 & H2 & _ & Hp). exists w', w''. exact (conj H1 (conj H2 Hp)).
Defined.
