(* ===== verification/Container.v ===== *)
(** * The wiring of the processes

    Models [container.py]: [create_memory_container] and
    [create_runtime_container], and [create_retention_service] of
    [retention_main.py], and [lifespan] of [main.py]: which adapter is built from which setting, what is
    refused, and the resources that are opened and closed around the program.

    A container is the list of choices made ([AppContainer]); the adapters
    themselves are modelled in their own files.  An [AsyncExitStack] whose
    callbacks are pushed right after their resource is opened is a nest of
    [with_resource].  The pool, the clients, the producer and the dispatcher's task are
    parameters.
    - [production_wires]: the settings that load in production build a container
      of durable adapters only, and everything opened is closed. *)

From Stdlib Require Import QArith.
From S2P Require Import Prelude PyData PyText Json Status Domain Ports Messaging.
From S2P Require Import Retention Config SandboxCommand.

#[local] Open Scope Z_scope.

(** ** The choices *)

Inductive StorageChoice :=
  | MemoryStorage
  | ServiceStorage (base_url service_token bucket : string)
      (presign_ttl_seconds multipart_threshold_bytes multipart_part_size_bytes : Z)
  | S3Storage (bucket : string)
      (presign_ttl_seconds multipart_threshold_bytes multipart_part_size_bytes : Z).

Inductive PreprocessorChoice :=
  | Passthrough
  | Directory (exchange_dir : string) (timeout_seconds : Q) (max_pages max_pixels dpi : Z)
  | Subprocess (command : list string) (timeout_seconds : Q) (max_pages : Z)
  | SandboxHTTP (base_url : string) (timeout_seconds : Q).

Inductive EngineChoice :=
  | FakeEngine
  | PaddleOCRVL (base_url endpoint_path : string) (timeout_seconds : Q)
      (model_name engine_version : string).

Inductive LoggerChoice :=
  | InMemoryLogger
  | StdlibLogger (service_name : string)
  | LoggingService (base_url service_token service_name : string) (timeout_seconds : Q).

Inductive AuthenticatorChoice :=
  | DevelopmentKeys (api_key_id : string)
  | PostgresKeys (pepper : string).

Inductive RepositoryChoice :=
  | MemoryRepositories
  | PostgresRepositories (upload_ttl_seconds : Z) (topic : string) (retention_days : Z).

Inductive ProbeChoice :=
  | PostgresProbe
  | ObjectStorageProbe
  | KafkaProbe (topic : string)
  | HTTPStatusProbe (url : string)
  | HeartbeatProbe (exchange_dir : string).

Record AppContainer := MkContainer {
  c_max_upload_bytes : Z;
  c_repositories : RepositoryChoice;
  c_storage : StorageChoice;
  c_preprocessor : PreprocessorChoice;
  c_authenticator : AuthenticatorChoice;
  c_engine : EngineChoice;
  c_logger : LoggerChoice;
  c_outbox_dispatcher : bool;
  c_readiness : list (string * InternalStatusCode * ProbeChoice)
}.

Definition create_memory_container (settings : Settings) : AppContainer := {|
  c_max_upload_bytes := max_upload_bytes settings;
  c_repositories := MemoryRepositories;
  c_storage := MemoryStorage;
  c_preprocessor := Passthrough;
  c_authenticator := DevelopmentKeys (dev_api_key_id settings);
  c_engine := FakeEngine;
  c_logger := InMemoryLogger;
  c_outbox_dispatcher := false;
  c_readiness := []
|}.

(** ** The resources *)

Inductive Resource :=
  | DatabasePool (url : string) (min_size max_size : Z)
  | HTTPClient
  | S3Session (endpoint_url : option string) (region : string)
      (access_key_id secret_access_key : option string)
  | KafkaProducer (brokers client_id : string)
  | OutboxTask.

Class Resources (W : Type) := {
  open_resource : Resource → M exc W ();
  close_resource : Resource → M exc W ()
}.

Definition refused_start (message : string) : exc := mk_exc RuntimeError message.

(** The default of [multipart_threshold_bytes] and of [multipart_part_size_bytes] *)
Definition default_threshold : Z := 16 * 1024 * 1024.
Definition default_part_size : Z := 8 * 1024 * 1024.

(** [value] of an option a check has found to be truthy *)
Definition text_of (value : option string) : string := default "" value.

Section wiring.
Context {W : Type} `{!Resources W}.

(** Open a resource, and push its closing on the stack. *)
Definition with_resource {A} (r : Resource) (body : M exc W A) : M exc W A :=
  _ ← open_resource r;
  try_finally body (close_resource r).

Definition with_storage {A} (settings : Settings) (part_size : Z) (memory_message : string)
    (body : StorageChoice → M exc W A) : M exc W A :=
  if bool_decide (storage_adapter settings = "storage-service") then
    if negb (truthy_opt (storage_service_url settings)) ||
       negb (truthy_opt (storage_service_token settings))
    then raise (refused_start "storage-service URL and token are required")
    else body (ServiceStorage (text_of (storage_service_url settings))
           (text_of (storage_service_token settings)) (s3_bucket settings)
           (s3_presign_ttl_seconds settings) default_threshold part_size)
  else if bool_decide (storage_adapter settings = "s3") then
    with_resource (S3Session (s3_endpoint_url settings) (s3_region settings)
             (s3_access_key_id settings) (s3_secret_access_key settings))
      (body (S3Storage (s3_bucket settings) (s3_presign_ttl_seconds settings)
               default_threshold part_size))
  else raise (refused_start memory_message).

Definition choose_preprocessor (settings : Settings) : exc + PreprocessorChoice :=
  if negb (bool_decide (preprocessor_adapter settings = "sandbox")) then inr Passthrough
  else if truthy_opt (sandbox_exchange_dir settings) then
    inr (Directory (text_of (sandbox_exchange_dir settings)) (sandbox_timeout_seconds settings)
           (sandbox_max_pages settings) (sandbox_max_pixels settings) (sandbox_pdf_dpi settings))
  else if truthy_opt (sandbox_command settings) then
    command ← command_of (text_of (sandbox_command settings));
    inr (Subprocess command (sandbox_timeout_seconds settings) (sandbox_max_pages settings))
  else if truthy_opt (sandbox_base_url settings) then
    inr (SandboxHTTP (text_of (sandbox_base_url settings)) (sandbox_timeout_seconds settings))
  else inl (refused_start "sandbox preprocessor configuration is required").

Definition choose_engine (settings : Settings) : exc + EngineChoice :=
  if negb (bool_decide (engine_adapter settings = "paddleocr-vl")) then inr FakeEngine
  else if negb (truthy_opt (paddleocr_vl_base_url settings))
  then inl (refused_start "OCR_ENGINE_URL is required")
  else inr (PaddleOCRVL (text_of (paddleocr_vl_base_url settings))
         (paddleocr_vl_endpoint_path settings) (paddleocr_vl_timeout_seconds settings)
         (paddleocr_vl_model_name settings) (paddleocr_vl_engine_version settings)).

Definition choose_logger (settings : Settings) (service_name stdlib_name : string) : LoggerChoice :=
  if truthy_opt (logging_service_url settings) && truthy_opt (logging_service_token settings)
  then LoggingService (text_of (logging_service_url settings))
         (text_of (logging_service_token settings)) service_name
         (logging_service_timeout_seconds settings)
  else StdlibLogger stdlib_name.

Definition choose_authenticator (settings : Settings) : exc + AuthenticatorChoice :=
  if negb (truthy_opt (api_key_pepper settings))
  then inl (refused_start "MONKEYOCR_API_KEY_PEPPER is required with PostgreSQL")
  else inr (PostgresKeys (text_of (api_key_pepper settings))).

(** The producer and the dispatcher's task, if they are asked for *)
Definition with_dispatcher {A} (settings : Settings) (start_outbox_dispatcher : bool)
    (body : M exc W A) : M exc W A :=
  if negb start_outbox_dispatcher then body
  else if negb (truthy_opt (kafka_bootstrap_servers settings))
  then raise (refused_start "KAFKA_BROKERS is required")
  else with_resource (KafkaProducer (text_of (kafka_bootstrap_servers settings))
                (kafka_client_id settings +:+ "-outbox"))
         (with_resource OutboxTask body).

Definition readiness_checks (settings : Settings) (producer : bool) :
    list (string * InternalStatusCode * ProbeChoice) :=
  [("postgresql", DATABASE_UNAVAILABLE, PostgresProbe);
   ("object_storage", STORAGE_UNAVAILABLE, ObjectStorageProbe)] ++
  (if producer then [("kafka", QUEUE_UNAVAILABLE, KafkaProbe (kafka_jobs_topic settings))] else []) ++
  (if bool_decide (engine_adapter settings = "paddleocr-vl") &&
      truthy_opt (paddleocr_vl_base_url settings)
   then [("paddleocr_vl", ENGINE_UNAVAILABLE, HTTPStatusProbe
           (rstrip_slash (text_of (paddleocr_vl_base_url settings)) +:+ "/health/ready"))]
   else []) ++
  (if truthy_opt (sandbox_exchange_dir settings)
   then [("sandbox", INTERNAL_CONTROLLED_ERROR,
          HeartbeatProbe (text_of (sandbox_exchange_dir settings)))]
   else []).

(** [async with create_runtime_container(settings, start_outbox_dispatcher=...) as container: body] *)
Definition create_runtime_container {A} (settings : Settings) (start_outbox_dispatcher : bool)
    (body : AppContainer → M exc W A) : M exc W A :=
  if negb (bool_decide (repository_adapter settings = "postgres")) ||
     negb (truthy_opt (database_url settings))
  then raise (refused_start "durable runtime requires DATABASE_URL")
  else
  with_resource (DatabasePool (text_of (database_url settings)) 1 (database_pool_size settings))
  (with_resource HTTPClient
  (with_storage settings (multipart_part_size_bytes settings)
     "durable runtime cannot use memory storage" (λ storage,
   preprocessor ← lift (choose_preprocessor settings);
   engine ← lift (choose_engine settings);
   let logger := choose_logger settings (logging_service_name settings) "monkeyocr-backend" in
   authenticator ← lift (choose_authenticator settings);
   with_dispatcher settings start_outbox_dispatcher (body {|
     c_max_upload_bytes := max_upload_bytes settings;
     c_repositories := PostgresRepositories (upload_session_ttl_seconds settings)
       (kafka_jobs_topic settings) (job_retention_days settings);
     c_storage := storage;
     c_preprocessor := preprocessor;
     c_authenticator := authenticator;
     c_engine := engine;
     c_logger := logger;
     c_outbox_dispatcher := start_outbox_dispatcher;
     c_readiness := readiness_checks settings start_outbox_dispatcher
   |})))).

(** [create_retention_service]: the store, the logger and the two parameters of
    the cleanup service *)
Definition create_retention_service {A} (settings : Settings)
    (body : StorageChoice → LoggerChoice → Z → Z → M exc W A) : M exc W A :=
  if negb (bool_decide (repository_adapter settings = "postgres")) ||
     negb (truthy_opt (database_url settings))
  then raise (refused_start "retention cleanup requires DATABASE_URL")
  else
  with_resource (DatabasePool (text_of (database_url settings)) 1 2)
  (with_resource HTTPClient
  (with_storage settings default_part_size
     "retention cleanup requires durable object storage" (λ storage,
   let concurrency := retention_cleanup_delete_concurrency settings in
   let retry := retention_cleanup_retry_seconds settings in
   _ ← lift (retention_init concurrency retry);
   body storage
     (choose_logger settings "monkeyocr-retention-cleanup" "monkeyocr-retention-cleanup")
     concurrency retry))).

(** [create_app.lifespan]: the container the application runs with *)
Definition lifespan {A} (settings : Settings) (provided_container : option AppContainer)
    (body : AppContainer → M exc W A) : M exc W A :=
  match provided_container with
  | Some container => body container
  | None =>
      if bool_decide (repository_adapter settings = "memory") &&
         bool_decide (storage_adapter settings = "memory")
      then body (create_memory_container settings)
      else create_runtime_container settings true body
  end.
End wiring.

(** ** Facts *)

(** A container of durable adapters only. *)
Definition durable (c : AppContainer) : Prop :=
  (∃ ttl topic days, c_repositories c = PostgresRepositories ttl topic days) ∧
  c_storage c ≠ MemoryStorage ∧ c_preprocessor c ≠ Passthrough ∧ c_engine c ≠ FakeEngine ∧
  (∃ pepper, c_authenticator c = PostgresKeys pepper ∧ 32 ≤ py_len pepper) ∧
  (∃ url token name timeout, c_logger c = LoggingService url token name timeout).

(** What the settings are refused for *)
Definition storage_refusal (settings : Settings) (message : string) (e : exc) : Prop :=
  (storage_adapter settings = "storage-service" ∧
     negb (truthy_opt (storage_service_url settings)) ||
     negb (truthy_opt (storage_service_token settings)) = true ∧
     e = refused_start "storage-service URL and token are required") ∨
  (storage_adapter settings ≠ "storage-service" ∧ storage_adapter settings ≠ "s3" ∧
     e = refused_start message).

Definition dispatcher_refusal (settings : Settings) (start : bool) (e : exc) : Prop :=
  start = true ∧ truthy_opt (kafka_bootstrap_servers settings) = false ∧
  e = refused_start "KAFKA_BROKERS is required".

Definition refusal (settings : Settings) (start : bool) (e : exc) : Prop :=
  (negb (bool_decide (repository_adapter settings = "postgres")) ||
     negb (truthy_opt (database_url settings)) = true ∧
     e = refused_start "durable runtime requires DATABASE_URL") ∨
  storage_refusal settings "durable runtime cannot use memory storage" e ∨
  choose_preprocessor settings = inl e ∨ choose_engine settings = inl e ∨
  choose_authenticator settings = inl e ∨ dispatcher_refusal settings start e.

(** The container was built from the settings. *)
Definition wired (settings : Settings) (c : AppContainer) : Prop :=
  (∃ ttl topic days, c_repositories c = PostgresRepositories ttl topic days) ∧
  c_storage c ≠ MemoryStorage ∧
  choose_preprocessor settings = inr (c_preprocessor c) ∧
  choose_engine settings = inr (c_engine c) ∧
  choose_authenticator settings = inr (c_authenticator c) ∧
  c_logger c = choose_logger settings (logging_service_name settings) "monkeyocr-backend".

(** The one thing the settings are not checked for when they are loaded: a
    sandbox command, where it is what the sandbox is, that does not split or
    that lacks the fields for its input or its output. *)
Definition unusable_command (settings : Settings) (e : exc) : Prop :=
  truthy_opt (sandbox_exchange_dir settings) = false ∧
  truthy_opt (sandbox_command settings) = true ∧
  command_of (text_of (sandbox_command settings)) = inl e.

Lemma production_complete settings start e :
  production_ready settings → refusal settings start e → unusable_command settings e.
Proof.
  intros [[H1 H1'] H2 [H3 H3'] [H4 H4'] H5 H6 _ H9]. unfold configured in *. unfold refusal.
  apply secret_spec in H6 as [H6 _].
  rewrite (bool_decide_eq_true_2 _ H1), H1'. simpl. intros [[? _]|[Hs|[Hs|[Hs|[Hs|Hs]]]]]; [done|..].
  - destruct H2 as [(E & Ha & Hb)|[E _]], Hs as [(? & Hm & _)|(Hn & Hn' & _)]; try congruence.
    apply secret_spec in Hb as [Hb _]. by rewrite Ha, Hb in Hm.
  - unfold choose_preprocessor in Hs. rewrite (bool_decide_eq_true_2 _ H4) in Hs. simpl in Hs.
    unfold sandbox_target in H4'.
    destruct (truthy_opt (sandbox_exchange_dir settings)) eqn:Hx; [done|].
    destruct (truthy_opt (sandbox_command settings)) eqn:Hc.
    + unfold unusable_command. split_and!; [done..|]. unfold mbind, result_bind in Hs.
      destruct (command_of _); [congruence | done].
    + by destruct (truthy_opt (sandbox_base_url settings)).
  - unfold choose_engine in Hs. by rewrite (bool_decide_eq_true_2 _ H3), H3' in Hs.
  - unfold choose_authenticator in Hs. by rewrite H6 in Hs.
  - destruct Hs as (_ & Hs & _). congruence.
Qed.

Lemma production_durable settings c : production_ready settings → wired settings c → durable c.
Proof.
  intros [_ _ [H3 H3'] [H4 _] _ H6 [H7 H8] _] (Hrep & Hst & Hp & He & Ha & Hl). unfold configured in *.
  apply secret_spec in H8 as [H8 _].
  split_and!; try done.
  - intros E. rewrite E in Hp. unfold choose_preprocessor in Hp.
    rewrite (bool_decide_eq_true_2 _ H4) in Hp. simpl in Hp.
    repeat case_match; try done. by destruct (command_of _).
  - intros E. rewrite E in He. unfold choose_engine in He.
    by rewrite (bool_decide_eq_true_2 _ H3), H3' in He.
  - destruct H6 as (v & Hv & _ & Hlen). unfold choose_authenticator in Ha. rewrite Hv in Ha.
    destruct (negb _); [done|]. injection Ha as <-. by exists v.
  - rewrite Hl. unfold choose_logger. rewrite H7, H8. by do 4 eexists.
Qed.

Section container.
Context {W : Type} `{!Resources W}.
Context (I : W → Prop) (R : relation W) `{!PreOrder R}.

(** [opened w]: the resources that are open, the last one first.  What the
    resources raise is a [failure]. *)
Context (opened : W → list Resource) (failure : exc → Prop).

Definition stack (rs : list Resource) (w : W) : Prop := opened w = rs.

Class ResourceLaws := {
  open_law r rs : rg I R (stack rs) (open_resource r) (λ _, stack (r :: rs))
    (λ e w, failure e ∧ stack rs w);
  close_law r rs : rg I R (stack (r :: rs)) (close_resource r) (λ _, stack rs)
    (λ e w, failure e ∧ stack rs w)
}.
Context `{!ResourceLaws}.

(** A program part that leaves what is open as it was. *)
Definition tidy {A} (rs : list Resource) (m : M exc W A) : Prop :=
  rg I R (stack rs) m (λ _, stack rs) (λ e w, failure e ∧ stack rs w).

Lemma tidy_with_resource {A} r rs (m : M exc W A) : tidy (r :: rs) m → tidy rs (with_resource r m).
Proof.
  intros Hm. unfold with_resource, tidy. rule_bind; [apply open_law|]. intros ?.
  rule rg_try_finally; [apply Hm | intros ?; apply close_law |].
  intros e w Hi [He Hw]. destruct (close_law r rs w Hi Hw) as (? & ? & Hc).
  split_and!; [done..|]. by destruct ((close_resource r w).1).
Qed.

Lemma tidy_conseq {A} rs (m m' : M exc W A) : m = m' → tidy rs m → tidy rs m'.
Proof. by intros ->. Qed.

Lemma tidy_raise {A} rs e : failure e → tidy rs (raise (A := A) e).
Proof. intros He. rule rg_raise. by intros w Hw. Qed.

Lemma tidy_lift {A B} rs (r : exc + A) (k : A → M exc W B) :
  (∀ e, r = inl e → failure e) → (∀ a, r = inr a → tidy rs (k a)) → tidy rs (lift r ≫= k).
Proof.
  intros He Hk. rule rg_bind_lift. destruct r as [e|a]; [|by apply Hk].
  intros w Hw. split; [by apply He | done].
Qed.

Lemma tidy_with_storage {A} settings part_size message rs (body : StorageChoice → M exc W A) :
  (∀ e, storage_refusal settings message e → failure e) →
  (∀ storage rs, storage ≠ MemoryStorage → tidy rs (body storage)) →
  tidy rs (with_storage settings part_size message body).
Proof.
  intros He Hb. unfold with_storage. case_bool_decide as H1.
  - destruct (negb _ || _) eqn:Hm; [|by apply Hb]. apply tidy_raise, He. by left.
  - case_bool_decide as H2; [by apply tidy_with_resource, Hb|]. apply tidy_raise, He. by right.
Qed.

Lemma tidy_with_dispatcher {A} settings start rs (m : M exc W A) :
  (∀ e, dispatcher_refusal settings start e → failure e) → (∀ rs, tidy rs m) →
  tidy rs (with_dispatcher settings start m).
Proof.
  intros He Hm. unfold with_dispatcher. destruct start; [|apply Hm]. simpl.
  destruct (truthy_opt _) eqn:Hk; simpl; [by do 2 apply tidy_with_resource|].
  apply tidy_raise, He. by split_and!.
Qed.

(** Whatever the settings, what is opened is closed again, and only a refusal
    of the settings, a failure of a resource or of the body is raised. *)
Lemma tidy_runtime {A} settings start rs (body : AppContainer → M exc W A) :
  (∀ e, refusal settings start e → failure e) →
  (∀ c rs, wired settings c → tidy rs (body c)) →
  tidy rs (create_runtime_container settings start body).
Proof.
  intros He Hb. unfold create_runtime_container. destruct (negb _ || _) eqn:Hd.
  { apply tidy_raise, He. by left. }
  do 2 apply tidy_with_resource. apply tidy_with_storage.
  { intros e Hs. apply He. right. by left. }
  intros storage rs' Hstorage.
  apply tidy_lift; [intros e E; apply He; unfold refusal; tauto | intros preprocessor Hp].
  apply tidy_lift; [intros e E; apply He; unfold refusal; tauto | intros engine Hen]. cbv zeta.
  apply tidy_lift; [intros e E; apply He; unfold refusal; tauto | intros authenticator Ha].
  apply tidy_with_dispatcher; [intros e E; apply He; unfold refusal; tauto|].
  intros rs''. apply Hb. by split_and!; [by do 3 eexists|..].
Qed.

(** An application started from settings alone uses memory adapters only if the
    settings ask for them; one in production never does. *)
Lemma lifespan_production {A} loaded settings (body : AppContainer → M exc W A) :
  load loaded = inr settings → environment settings = "production" →
  lifespan settings None body = create_runtime_container settings true body.
Proof.
  intros Hl Hp. destruct (load_production _ _ Hl Hp) as [[Hr _] _ _ _ _ _ _ _]. unfold lifespan.
  by rewrite Hr.
Qed.
End container.

Section production.
Context {W : Type} `{!Resources W}.
Context (I : W → Prop) (R : relation W) `{!PreOrder R}.
Context (opened : W → list Resource) (failure : exc → Prop).
Context `{!ResourceLaws I R opened failure}.

(** More may be counted as a failure. *)
Lemma weaken_failure (failure' : exc → Prop) :
  (∀ e, failure e → failure' e) → ResourceLaws I R opened failure'.
Proof.
  intros Hf. split; intros r rs.
  - eapply rg_conseq; [exact (open_law I R opened failure r rs) | done | done |].
    intros e w [He Hw]. split; [by apply Hf | done].
  - eapply rg_conseq; [exact (close_law I R opened failure r rs) | done | done |].
    intros e w [He Hw]. split; [by apply Hf | done].
Qed.

(** C38: production starts.  Settings that have been loaded for production are
    complete but for one thing: starting with them raises nothing of its own,
    except the [ValueError] for a sandbox command that does not name its input
    and output (loading does not look into the command).  The container is made
    of durable adapters only, keys are checked with a pepper of at least 32
    characters, and the pool, the clients, the producer and the dispatcher's
    task are closed again, the last opened first, whatever the program did or
    raised. *)
Theorem production_wires {A} loaded settings start rs (body : AppContainer → M exc W A) :
  load loaded = inr settings → environment settings = "production" →
  (∀ c rs, durable c → tidy I R opened failure rs (body c)) →
  tidy I R opened (λ e, failure e ∨ unusable_command settings e) rs
    (create_runtime_container settings start body).
Proof.
  intros Hl Hp Hb. pose proof (load_production _ _ Hl Hp) as Hr.
  pose proof (weaken_failure (λ e, failure e ∨ unusable_command settings e)
    (λ e H, or_introl H)) as Hlaws.
  apply tidy_runtime; [done | done |..].
  - intros e He. right. by eapply production_complete.
  - intros c rs' Hw. eapply rg_conseq; [apply Hb | done | done |].
    + by eapply production_durable.
    + intros e w [He Hw']. split; [by left | done].
Qed.
End production.

(** ** Resources that are a stack *)

Module SampleResources.

Abbreviation World := (list Resource).

#[global] Instance resources : Resources World := {
  open_resource r := modify (cons r);
  close_resource r := modify tail
}.

Abbreviation any := (λ _ : World, True).
Abbreviation all := (λ _ _ : World, True).

#[global] Instance all_preorder : PreOrder all.
Proof. done. Defined.

#[global] Instance laws : ResourceLaws any all (λ w, w) (λ _, False).
Proof. split; intros r rs w _ Hw; split_and!; try done; unfold stack in *; simpl; by rewrite Hw. Defined.

Definition settings : Settings := Eval vm_compute in
  match load production_settings with inr s => s | inl _ => defaults end.

(** A program that looks at what is open. *)
Definition program (c : AppContainer) : M exc World (nat * nat) :=
  gets (λ w, (length w, length (c_readiness c))).

End SampleResources.

(** Loading accepts a command without the fields; starting refuses it, and
    closes what it has opened. *)
Example unusable_command_ex :
  match load (production_with None (Some "render --fast")) with
  | inr settings => environment settings = "production" ∧
      create_runtime_container settings true SampleResources.program [] =
        (Exn (mk_exc ValueError "sandbox command must contain {input}"), [])
  | inl _ => False
  end.
Proof. vm_compute. by split. Qed.

Example production_ex :
  (create_runtime_container SampleResources.settings true SampleResources.program [],
   (create_runtime_container defaults true SampleResources.program []).1) =
  ((Ret (5, 5)%nat, []), Exn (refused_start "durable runtime requires DATABASE_URL")).
Proof. vm_compute. reflexivity. Qed.

Lemma production_wires_witness :
  let r := create_runtime_container SampleResources.settings true SampleResources.program [] in
  r.2 = [] ∧ match r.1 with Ret _ => True | Exn e => False | NoFuel => True end.
Proof.
  pose proof (production_wires SampleResources.any SampleResources.all (λ w, w) (λ _, False)
    production_settings SampleResources.settings true [] SampleResources.program
    ltac:(vm_compute; reflexivity) ltac:(reflexivity)
    ltac:(intros c rs Hc w _ Hw; by split_and!) [] I eq_refl) as (_ & _ & H).
  split; [vm_compute; reflexivity|].
  destruct ((create_runtime_container SampleResources.settings true SampleResources.program []).1);
    [exact I | | exact I].
  destruct H as [[H|(_ & H & _)] _]; [exact H | vm_compute in H; discriminate H].
Defined.
