(* ===== verification/Sandbox.v ===== *)
(** * The sandbox

    Models the two programs of the network-isolated container,
    [infrastructure/sandbox/validate_and_render.py] and [daemon.py]: the
    validation of a file and its rendering to page images, and the mailbox
    daemon that serves the exchange directory of
    [Preprocessor.DirectorySandboxPreprocessor].

    PyMuPDF, libmagic, Pillow and the file system are parameters.  The sizes of
    PDF pages are the rationals that the floats denote, without the rounding of
    [dpi / 72] and of the products.  [hashlib] reads a file chunk by chunk; its
    digest is that of the whole content.

    The facts are in [SandboxBox], [SandboxExchange] and [SandboxHeartbeat];
    [daemon_ends]: a request that is removed while it is served ends the daemon. *)

From Stdlib Require Import Ascii QArith.
From Stdlib Require String.
From S2P Require Import Prelude PyData PyText PyValue Json Status Domain Ports Sha256 Messaging.
From S2P Require Import Preprocessor.

#[local] Open Scope Z_scope.

(** ** Text and paths *)

(** [str(exc)]: the text of a [KeyError] is the representation of the key. *)
Definition str_exc (e : exc) : string :=
  if bool_decide (exc_cls e = KeyError) then repr_str (exc_msg e) else exc_msg e.

(** [name.rfind(".")] *)
Fixpoint last_dot (l : list ascii) (i : nat) (found : option nat) : option nat :=
  match l with
  | [] => found
  | c :: l => last_dot l (S i) (if decide (c = "."%char) then Some i else found)
  end.

(** [name] with its suffix replaced: a suffix starts at the last dot, which
    neither starts nor ends the name. *)
Definition name_with_suffix (suffix name : string) : string :=
  let l := chars name in
  of_chars (match last_dot l 0 None with
            | Some i => if decide (0 < i < length l - 1)%nat then take i l else l
            | None => l
            end) +:+ suffix.

(** [path.with_suffix(suffix)] *)
Definition with_suffix (suffix : string) (p : Path) : Path :=
  MkPath (path_absolute p)
    (match reverse (path_parts p) with
     | name :: rest => reverse (name_with_suffix suffix name :: rest)
     | [] => []
     end).

Example with_suffix_ex :
  map (name_with_suffix ".tmp") ["response.json"; ".heartbeat.json"; ".hidden"; "a.b.c"; "a.b."] =
  ["response.tmp"; ".heartbeat.tmp"; ".hidden.tmp"; "a.b.tmp"; "a.b..tmp"].
Proof. vm_compute. reflexivity. Qed.

(** [path.parent] *)
Definition parent (p : Path) : Path := MkPath (path_absolute p) (removelast (path_parts p)).

(** ** The libraries *)

(** Documents of PyMuPDF are of type [D]; [render_page document index dpi path]
    is [page.get_pixmap(...)] and [pixmap.save(path)]. *)
Class Renderers (W D : Type) := {
  magic_from_file : Path → M exc W string;
  fitz_open : Path → M exc W D;
  needs_pass : D → M exc W bool;
  page_count : D → M exc W Z;
  page_rect : D → Z → M exc W (Q * Q);
  render_page : D → Z → Z → Path → M exc W ();
  document_close : D → M exc W ();
  image_verify : Z → Path → M exc W ();
  image_size : Path → M exc W (Z * Z);
  image_save_rgb_png : Path → Path → M exc W ()
}.

Definition ALLOWED_MIME : list string :=
  ["application/pdf"; "image/jpeg"; "image/png"; "image/tiff"; "image/webp"; "image/bmp"].

(** [int(x * scale + 0.5)] with [scale = dpi / 72]: towards zero *)
Definition pixels (x : Q) (dpi : Z) : Z :=
  let v := (x * (dpi # 72) + (1 # 2))%Q in Z.quot (Qnum v) (Zpos (Qden v)).

Example pixels_ex : (pixels 612 180, pixels (8419 # 10) 180, pixels (-100) 72) = (1530, 2105, -99).
Proof. vm_compute. reflexivity. Qed.

Section render.
Context {W D : Type} `{!FileSystem W, !Renderers W D}.

(** [sha256(path)] *)
Definition sha256_file (path : Path) : M exc W string :=
  data ← fs_read_bytes path; mret (sha256 data).

Definition page_name (number : Z) : string := "page-" +:+ fmt06 number +:+ ".png".

(** An entry of [pages] *)
Definition page_entry (number : Z) (digest : string) : json :=
  JObj [("page_number", JInt number); ("path", JStr (page_name number)); ("sha256", JStr digest)].

(** The body of the loop over the document *)
Definition render_pdf_page (document : D) (output : Path) (max_pixels dpi index : Z) : M exc W json :=
  '(rect_width, rect_height) ← page_rect document index;
  let width := pixels rect_width dpi in
  let height := pixels rect_height dpi in
  if bool_decide (width ≤ 0) || bool_decide (height ≤ 0) || bool_decide (max_pixels < width * height)
  then raise (mk_exc ValueError "image_pixel_limit")
  else
  let page_path := sub output (page_name (index + 1)) in
  _ ← render_page document index dpi page_path;
  digest ← sha256_file page_path;
  mret (page_entry (index + 1) digest).

Definition render_pdf (source output : Path) (max_pages max_pixels dpi : Z) : M exc W (list json) :=
  document ← fitz_open source;
  encrypted ← needs_pass document;
  if encrypted : bool then raise (mk_exc ValueError "encrypted_pdf") else
  count ← page_count document;
  if bool_decide (count < 1) || bool_decide (max_pages < count)
  then raise (mk_exc ValueError "invalid_page_count") else
  pages ← collect (render_pdf_page document output max_pixels dpi) (seqZ 0 count);
  _ ← document_close document;
  mret pages.

Definition normalize_image (source output : Path) (max_pixels : Z) : M exc W (list json) :=
  _ ← image_verify max_pixels source;
  '(width, height) ← image_size source;
  if bool_decide (max_pixels < width * height)
  then raise (mk_exc ValueError "image_pixel_limit") else
  let page_path := sub output (page_name 1) in
  _ ← image_save_rgb_png source page_path;
  digest ← sha256_file page_path;
  mret [page_entry 1 digest].

Definition validate_and_render (source output : Path) (expected_sha256 : string)
    (max_pages max_pixels dpi : Z) : M exc W json :=
  _ ← fs_mkdir output;
  actual_hash ← sha256_file source;
  if negb (bool_decide (actual_hash = lower expected_sha256))
  then raise (mk_exc ValueError "hash_mismatch") else
  mime ← magic_from_file source;
  if negb (bool_decide (mime ∈ ALLOWED_MIME))
  then raise (mk_exc ValueError "unsupported_file_type") else
  pages ← (if bool_decide (mime = "application/pdf")
           then render_pdf source output max_pages max_pixels dpi
           else normalize_image source output max_pixels);
  let manifest := JObj [("sha256", JStr actual_hash); ("detected_content_type", JStr mime);
                        ("pages", JList pages)] in
  _ ← fs_write (sub output "manifest.json") (dumps false manifest);
  mret manifest.

(** ** [daemon.py] *)

Definition atomic_json (path : Path) (payload : json) : M exc W () :=
  let temporary := with_suffix ".tmp" path in
  _ ← fs_write temporary (dumps false payload);
  fs_replace temporary path.

(** [int(request.get(key, default))] *)
Definition int_option (request : json) (key : string) (default_ : Z) : exc + Z :=
  match request with
  | JObj d => py_int (default (JInt default_) (dget d key))
  | _ => inl (mk_exc AttributeError "object has no attribute 'get'")
  end.

(** The second [try] body of [process_request] *)
Definition serve_request (request_dir claimed : Path) : M exc W () :=
  text ← fs_read_text claimed;
  request ← json_loads text;
  input ← lift (descriptor_item request "input");
  source ← fs_resolve (join_path request_dir (parse_path (py_str input)));
  output ← fs_resolve (sub request_dir "output");
  root ← fs_resolve request_dir;
  if negb (inside root source) then raise (mk_exc ValueError "sandbox_path_escape") else
  root ← fs_resolve request_dir;
  if negb (inside root output) then raise (mk_exc ValueError "sandbox_path_escape") else
  expected ← lift (descriptor_item request "sha256");
  max_pages ← lift (int_option request "max_pages" 500);
  max_pixels ← lift (int_option request "max_pixels" 100000000);
  dpi ← lift (int_option request "dpi" 180);
  _ ← validate_and_render source output (py_str expected) max_pages max_pixels dpi;
  atomic_json (sub request_dir "response.json") (JObj [("ok", JBool true)]).

(** [str(exc)[:160] or type(exc).__name__] *)
Definition refusal_reason (e : exc) : string :=
  let text := take_str 160 (str_exc e) in
  if truthy text then text else cls_name (exc_cls e).

Definition process_request (request_file : Path) : M exc W () :=
  let request_dir := parent request_file in
  let claimed := sub request_dir "processing.json" in
  try_else (fs_replace request_file claimed)
    (λ e, if isinstance e FileNotFoundError then Some (mret ()) else None)
    (λ _, try_except (serve_request request_dir claimed)
      (λ e, if isinstance e Exception_ then Some
          (atomic_json (sub request_dir "response.json")
             (JObj [("ok", JBool false); ("error_reason", JStr (refusal_reason e))]))
        else None)).
End render.

(** [root.glob("*/request.json")] *)
Class Mailbox (W : Type) := glob_requests : Path → M exc W (list Path).

(** [time.sleep(seconds)] in microseconds *)
Class Sleep (W : Type) := thread_sleep : Z → M exc W ().

Section main.
Context {W D : Type} `{!FileSystem W, !Renderers W D, !Mailbox W, !Sleep W}.

(** One round of [main]'s loop *)
Definition scan (root : Path) : M exc W () :=
  requests ← glob_requests root;
  foreach requests process_request.

Fixpoint serve (fuel : nat) (root : Path) (interval : Z) : M exc W () :=
  match fuel with
  | O => out_of_fuel
  | S fuel => _ ← scan root; _ ← thread_sleep interval; serve fuel root interval
  end.
End main.

(** ** The heartbeat *)

Definition SANDBOX_HEARTBEAT_FILENAME : string := ".heartbeat.json".

(** [time.time()], the rational that the float denotes *)
Class WallClock (W : Type) := time_time : M exc W Q.

(** The value of a float literal of JSON, without rounding *)
Definition float_value (lit : string) : Q :=
  let '(neg, m, e) := float_parts lit in
  let v := (inject_Z (Z.of_N m) * Qpower (inject_Z 10) e)%Q in
  if neg : bool then Qopp v else v.

Section heartbeat.
Context {W : Type} `{!FileSystem W, !WallClock W}.
(** [repr] of a float, and [float(text)] of a string *)
Context (float_repr : Q → string) (float_of_text : string → exc + Q).

Definition write_heartbeat (root : Path) (now : option Q) : M exc W () :=
  now ← match now with Some now => mret now | None => time_time end;
  atomic_json (sub root SANDBOX_HEARTBEAT_FILENAME)
    (JObj [("status", JStr "ok"); ("updated_at_unix", JFloat (float_repr now))]).

(** [float(value)] *)
Definition py_float (value : json) : exc + Q :=
  match value with
  | JInt n => inr (inject_Z n)
  | JBool b => inr (inject_Z (int_of_bool b))
  | JFloat lit => inr (float_value lit)
  | JStr s => float_of_text s
  | _ => inl (mk_exc TypeError "float() argument must be a string or a real number")
  end.

(** [SandboxHeartbeatReadinessProbe.__init__] *)
Definition heartbeat_probe_init (max_age_seconds : Q) : exc + () :=
  if Qle_bool max_age_seconds 0
  then inl (mk_exc ValueError "sandbox heartbeat max age must be positive") else inr ().

(** [SandboxHeartbeatReadinessProbe.__call__] *)
Definition heartbeat_probe (exchange_dir : Path) (max_age_seconds : Q) : M exc W () :=
  text ← fs_read_text (sub exchange_dir SANDBOX_HEARTBEAT_FILENAME);
  payload ← json_loads text;
  match payload with
  | JObj d =>
      if negb (bool_decide (dget d "status" = Some (JStr "ok")))
      then raise (mk_exc RuntimeError "sandbox heartbeat is invalid")
      else
      updated_at ← lift (item d "updated_at_unix");
      updated_at ← lift (py_float updated_at);
      now ← time_time;
      let age := (now - updated_at)%Q in
      if negb (Qle_bool (-1) age) || negb (Qle_bool age max_age_seconds)
      then raise (mk_exc RuntimeError "sandbox heartbeat is stale")
      else mret ()
  | _ => raise (mk_exc AttributeError "object has no attribute 'get'")
  end.
End heartbeat.

Section heartbeat_loop.
Context {W : Type} `{!FileSystem W, !WallClock W, !Sleep W}.
Context (float_repr : Q → string).

(** [heartbeat_loop], the thread next to [serve]; microseconds *)
Fixpoint heartbeat_loop (fuel : nat) (root : Path) (interval : Z) : M exc W () :=
  match fuel with
  | O => out_of_fuel
  | S fuel =>
      _ ← write_heartbeat float_repr root None;
      _ ← thread_sleep interval;
      heartbeat_loop fuel root interval
  end.
End heartbeat_loop.

(** ** A request that is removed while it is served *)

Section removed.
Context {W D : Type} `{!FileSystem W, !Renderers W D, !Mailbox W, !Sleep W}.

(** The backend removes the request's directory when it stops waiting.  From then
    on nothing can be read or written there ([e], a [FileNotFoundError]): the
    answer that reports the failure fails as well, outside any [try], and ends
    the daemon. *)
Lemma daemon_ends fuel root interval request_file rest w w1 e :
  glob_requests root w = (Ret (request_file :: rest), w) →
  fs_replace request_file (sub (parent request_file) "processing.json") w = (Ret (), w1) →
  (∀ p, fs_read_text p w1 = (Exn e, w1)) → (∀ p s, fs_write p s w1 = (Exn e, w1)) →
  isinstance e FileNotFoundError = true →
  serve (S fuel) root interval w = (Exn e, w1).
Proof.
  intros Hglob Hclaim Hread Hwrite He.
  assert (isinstance e Exception_ = true) as Hexc
    by by apply (issubclass_trans _ FileNotFoundError).
  simpl. unfold scan. rewrite (bind_run_exn _ _ w e w1); [done|].
  rewrite (bind_run _ _ _ _ _ Hglob). simpl. rewrite (bind_run_exn _ _ w e w1); [done|].
  unfold process_request, try_else at 1. rewrite Hclaim. unfold try_except, try_else.
  unfold serve_request. rewrite (bind_run_exn _ _ w1 e w1) by apply Hread. rewrite Hexc.
  unfold atomic_json. by rewrite (bind_run_exn _ _ w1 e w1) by apply Hwrite.
Qed.
End removed.
