(* ===== verification/SandboxBox.v ===== *)
(** * The sandbox's side of the mailbox

    The world of [SandboxExchange]: a volume (a list of files without links),
    the objects stored, and the clock of the event loop.  The libraries of the
    sandbox are functions of a file's content.
    - [in_box]: what the volume holds, and the rules of its operations;
    - [inspect]: the validation of a file as a function of its bytes;
    - [total_serve], [total_process_request]: the daemon answers a request with
      that function. *)

From Stdlib Require Import Ascii QArith.
From Stdlib Require String.
From stdpp Require Import functions.
From S2P Require Import Prelude PyData PyText PyValue Json JsonFacts Status Domain Ports Sha256.
From S2P Require Import Messaging Preprocessor Sandbox.

#[local] Open Scope Z_scope.

(** ** The names of the pages *)

Lemma undec_zeros k l : undec (replicate k "0"%char ++ l) = undec l.
Proof. induction k as [|k IH]; [done|]. simpl. exact IH. Qed.

Lemma fmt06_chars n : 0 ≤ n → ∃ k, chars (fmt06 n) = replicate k "0"%char ++ dec_N (Z.to_N n).
Proof.
  intros Hn. unfold fmt06. rewrite decide_False by lia. unfold zpad, str_Z.
  rewrite (proj2 (Z.ltb_ge n 0) Hn), !chars_of_chars. simpl.
  replace (Z.abs_N n) with (Z.to_N n) by lia. by eexists.
Qed.

Lemma fmt06_inj m n : 0 ≤ m → 0 ≤ n → fmt06 m = fmt06 n → m = n.
Proof.
  intros Hm Hn H. destruct (fmt06_chars m Hm) as [j Hj], (fmt06_chars n Hn) as [k Hk].
  rewrite H, Hk in Hj. apply (f_equal undec) in Hj. rewrite !undec_zeros, !undec_dec_N in Hj. lia.
Qed.

Lemma fmt06_digits n : 0 ≤ n → Forall (λ c, is_digit c = true) (chars (fmt06 n)).
Proof.
  intros Hn. destruct (fmt06_chars n Hn) as [k ->]. apply Forall_app. split; [|apply dec_digits].
  by apply Forall_replicate.
Qed.

Lemma page_name_inj m n : 0 ≤ m → 0 ≤ n → page_name m = page_name n → m = n.
Proof.
  intros Hm Hn H. apply fmt06_inj; [done..|]. unfold page_name in H. apply str_append_inj_l in H.
  apply chars_inj. apply (f_equal chars) in H. rewrite !chars_app in H. by apply app_inv_tail in H.
Qed.

Lemma page_image_key_inj job m n : 0 ≤ m → 0 ≤ n →
  page_image_key job m = page_image_key job n → m = n.
Proof.
  intros Hm Hn H. apply fmt06_inj; [done..|]. unfold page_image_key in H. apply str_append_inj_l, str_append_inj_l in H.
  apply chars_inj. apply (f_equal chars) in H. rewrite !chars_app in H. by apply app_inv_tail in H.
Qed.

Lemma split_chars_none sep n cur l : sep ∉ l →
  split_chars sep n cur l = [of_chars (reverse cur ++ l)].
Proof.
  revert n cur. induction l as [|c l IH]; intros n cur Hs; simpl; [by rewrite app_nil_r|].
  destruct n as [|n]; [done|]. rewrite decide_False by set_solver. rewrite IH by set_solver.
  by rewrite reverse_cons, <- app_assoc.
Qed.

Lemma page_name_path n : 0 ≤ n → parse_path (page_name n) = MkPath false [page_name n].
Proof.
  intros Hn. unfold parse_path, split_n. rewrite split_chars_none.
  - simpl. rewrite of_chars_chars. rewrite filter_cons_True; [done|]. split; [done|].
    unfold page_name. done.
  - unfold page_name. rewrite !chars_app, !not_elem_of_app. split_and!; [by vm_compute; set_solver | |].
    + intros H. pose proof (fmt06_digits n Hn) as Hd. rewrite Forall_forall in Hd.
      specialize (Hd _ H). by vm_compute in Hd.
    + by vm_compute; set_solver.
Qed.

(** ** The libraries as functions of the content *)

Record Libraries := MkLibraries {
  mime_of : string → string;
  open_pdf : string → exc + list (Q * Q);
  is_encrypted : string → bool;
  draw : string → Z → Z → string;
  verify : Z → string → exc + ();
  size_of : string → exc + Z * Z;
  to_rgb_png : string → string
}.

(** ** The volume *)

(** The files, the stored objects, and the clock of the event loop *)
Record Box := MkBox {
  b_files : list (Path * string);
  b_objects : list (string * (string * string * string));
  b_now : Z
}.

Definition put_files fs b := MkBox fs (b_objects b) (b_now b).

Section box.
Context (L : Libraries) (hex : string) (request_file : Path).

Definition no_file : exc := mk_exc FileNotFoundError "No such file or directory".

Definition read_file (p : Path) : M exc Box string := λ b,
  (match dget (b_files b) p with Some s => Ret s | None => Exn no_file end, b).

(** [..] goes up; there are no links. *)
Definition resolve_dots (p : Path) : Path :=
  MkPath (path_absolute p) (foldl (λ acc c,
    if decide (c = "..") then take (length acc - 1) acc else acc ++ [c]) [] (path_parts p)).

#[local] Instance box_files : FileSystem Box := {
  fs_mkdir p := mret ();
  fs_write p s := modify (λ b, put_files (dset (b_files b) p s) b);
  fs_replace p q b :=
    match dget (b_files b) p with
    | Some s => (Ret (), put_files (dset (dpop (b_files b) p) q s) b)
    | None => (Exn no_file, b)
    end;
  fs_exists p := gets (λ b, bool_decide (is_Some (dget (b_files b) p)));
  fs_read_text := read_file;
  fs_read_bytes := read_file;
  fs_resolve p := mret (resolve_dots p);
  fs_rmtree d := modify (λ b, put_files (filter (λ f, inside d f.1 = false) (b_files b)) b)
}.

#[local] Instance box_renderers : Renderers Box string := {
  magic_from_file p := s ← read_file p; mret (mime_of L s);
  fitz_open p := s ← read_file p; _ ← lift (open_pdf L s); mret s;
  needs_pass s := mret (is_encrypted L s);
  page_count s := rects ← lift (open_pdf L s); mret (Z.of_nat (length rects));
  page_rect s i :=
    rects ← lift (open_pdf L s);
    match rects !! Z.to_nat i with Some r => mret r | None => raise (mk_exc IndexError "page") end;
  render_page s i dpi p := fs_write p (draw L s i dpi);
  document_close s := mret ();
  image_verify max_pixels p := s ← read_file p; lift (verify L max_pixels s);
  image_size p := s ← read_file p; lift (size_of L s);
  image_save_rgb_png p q := s ← read_file p; fs_write q (to_rgb_png L s)
}.

(** The only request is that of the exchange. *)
#[local] Instance box_mailbox : Mailbox Box := λ root,
  gets (λ b, if decide (is_Some (dget (b_files b) request_file)) then [request_file] else []).

#[local] Instance box_loop : EventLoop Box := {
  loop_time := gets b_now;
  loop_sleep d := _ ← scan (parent (parent request_file));
                  modify (λ b, MkBox (b_files b) (b_objects b) (b_now b + d))
}.

#[local] Instance box_hex : RandomHex Box := mret hex.

#[local] Instance box_storage : ObjectStorage Box := {
  storage_create_upload_target _ _ _ _ := raise (mk_exc AssertionError "unused");
  storage_stat _ := raise (mk_exc AssertionError "unused");
  storage_complete_upload _ _ _ := mret ();
  storage_get_bytes k b :=
    (match dget (b_objects b) k with
     | Some (data, _, _) => Ret data
     | None => Exn (mk_exc FileNotFoundError k)
     end, b);
  storage_put_bytes k d c b :=
    (Ret (MkStoredObject k (bytes_len d) (sha256 d) c),
     MkBox (b_files b) (dset (b_objects b) k (d, c, sha256 d)) (b_now b));
  storage_delete_object _ := mret ();
  storage_abort_multipart_upload _ _ := mret ();
  storage_create_download_url _ := mret ""
}.

(** ** The files of one exchange *)

(** [exchange dir fs os t K]: the files outside [dir] are [fs], the stored
    objects are [os], the clock shows [t], and [K] is the content of [dir]. *)
Definition in_box (dir : Path) (fs : list (Path * string)) (os : list (string * (string * string * string)))
    (t : Z) (K : Path → option string) (b : Box) : Prop :=
  filter (λ f, inside dir f.1 = false) (b_files b) = fs ∧ NoDup (b_files b).*1 ∧
  b_objects b = os ∧ b_now b = t ∧
  ∀ p, inside dir p = true → dget (b_files b) p = K p.

Section rules.
Context (dir : Path) (fs : list (Path * string)) (os : list (string * (string * string * string))) (t : Z).
Abbreviation in_dir := (in_box dir fs os t).

Lemma filter_dset p v (l : list (Path * string)) : inside dir p = true →
  filter (λ f, inside dir f.1 = false) (dset l p v) = filter (λ f, inside dir f.1 = false) l.
Proof.
  intros Hp. induction l as [|[k x] l IH]; simpl.
  - rewrite filter_cons_False by (simpl; congruence). done.
  - case_decide; [subst k|].
    + rewrite !filter_cons_False by (simpl; congruence). done.
    + rewrite !filter_cons. by case_decide; [f_equal|].
Qed.

Lemma filter_dpop p (l : list (Path * string)) : inside dir p = true →
  filter (λ f, inside dir f.1 = false) (dpop l p) = filter (λ f, inside dir f.1 = false) l.
Proof.
  intros Hp. induction l as [|[k x] l IH]; simpl; [done|]. case_decide; [subst k|].
  - rewrite filter_cons_False by (simpl; congruence). done.
  - rewrite !filter_cons. by case_decide; [f_equal|].
Qed.

Lemma box_write K p v : inside dir p = true →
  total (in_dir K) (fs_write p v) (λ _, in_dir (<[p := Some v]> K)) never.
Proof.
  intros Hp b (Hf & Hn & Ho & Ht & HK). simpl. split_and!; simpl; [| |done..|].
  - by rewrite filter_dset.
  - by apply dset_NoDup.
  - intros q Hq. rewrite dget_dset. unfold insert, fn_insert. case_decide; [done | by apply HK].
Qed.

Lemma box_read K p v : inside dir p = true → K p = Some v →
  total (in_dir K) (read_file p) (λ r b, r = v ∧ in_dir K b) never.
Proof.
  intros Hp Hv b Hb. pose proof Hb as (Hf & Hn & Ho & Ht & HK). unfold read_file.
  by rewrite (HK p Hp), Hv.
Qed.

Lemma box_replace K p q v : inside dir p = true → inside dir q = true → K p = Some v →
  total (in_dir K) (fs_replace p q) (λ _, in_dir (<[q := Some v]> (<[p := None]> K))) never.
Proof.
  intros Hp Hq Hv b (Hf & Hn & Ho & Ht & HK). simpl. rewrite (HK p Hp), Hv.
  split_and!; simpl; [| |done..|].
  - by rewrite filter_dset, filter_dpop.
  - by apply dset_NoDup, dpop_keys.
  - intros x Hx. rewrite dget_dset. unfold insert, fn_insert. case_decide; [done|].
    rewrite dget_dpop by done. case_decide; [done | by apply HK].
Qed.

Lemma box_exists K p : inside dir p = true →
  total (in_dir K) (fs_exists p) (λ r b, r = bool_decide (is_Some (K p)) ∧ in_dir K b) never.
Proof.
  intros Hp b Hb. pose proof Hb as (Hf & Hn & Ho & Ht & HK). simpl. by rewrite (HK p Hp).
Qed.
End rules.

Lemma box_put dir fs os t K k d c :
  total (in_box dir fs os t K) (storage_put_bytes k d c)
    (λ _, in_box dir fs (dset os k (d, c, sha256 d)) t K) never.
Proof. intros b (Hf & Hn & <- & Ht & HK). done. Qed.

(** Paths below the directory *)
Lemma inside_sub dir name : inside dir (sub dir name) = true.
Proof.
  unfold inside, sub, join_path. simpl. rewrite length_app, take_app_length. simpl.
  rewrite !bool_decide_eq_true_2 by (done || lia). done.
Qed.

Lemma inside_sub_sub dir name name' : inside dir (sub (sub dir name) name') = true.
Proof.
  unfold inside, sub, join_path. simpl. rewrite <- app_assoc, length_app, take_app_length. simpl.
  rewrite !bool_decide_eq_true_2 by (done || lia). done.
Qed.

Lemma sub_inj dir name name' : sub dir name = sub dir name' → name = name'.
Proof. unfold sub, join_path. simpl. intros [= H%app_inj_tail]. by destruct H. Qed.

Lemma sub_deeper dir name name' name'' : sub dir name ≠ sub (sub dir name') name''.
Proof.
  unfold sub, join_path. simpl. intros [= H]. apply (f_equal length) in H.
  rewrite !length_app in H. simpl in H. lia.
Qed.

(** Paths without [..] resolve to themselves. *)
Definition plain_path (p : Path) : Prop := ".." ∉ path_parts p.

Lemma resolve_plain p : plain_path p → resolve_dots p = p.
Proof.
  intros Hp. destruct p as [a parts]. unfold resolve_dots. f_equal. simpl.
  unfold plain_path in Hp. simpl in Hp.
  assert (∀ acc, foldl (λ acc c, if decide (c = "..") then take (length acc - 1) acc else acc ++ [c]) acc parts
    = acc ++ parts) as H; [|apply (H [])].
  induction parts as [|c parts IH]; intros acc; simpl; [by rewrite app_nil_r|].
  rewrite decide_False by set_solver. rewrite IH by set_solver. by rewrite <- app_assoc.
Qed.

Lemma plain_sub p name : plain_path p → name ≠ ".." → plain_path (sub p name).
Proof. unfold plain_path, sub, join_path. simpl. set_solver. Qed.

(** ** The validation as a function of the bytes *)

Definition bad_value (reason : string) : exc := mk_exc ValueError reason.

Definition page_fits (max_pixels dpi : Z) (rect : Q * Q) : bool :=
  let width := pixels rect.1 dpi in
  let height := pixels rect.2 dpi in
  (0 <? width) && (0 <? height) && (width * height <=? max_pixels).

(** The page images of a file of an accepted type, or the exception it is refused with *)
Definition inspect_pages (source : string) (max_pages max_pixels dpi : Z) : exc + list string :=
  if bool_decide (mime_of L source = "application/pdf") then
    rects ← open_pdf L source;
    if is_encrypted L source then inl (bad_value "encrypted_pdf")
    else if bool_decide (Z.of_nat (length rects) < 1) || bool_decide (max_pages < Z.of_nat (length rects))
    then inl (bad_value "invalid_page_count")
    else if negb (forallb (page_fits max_pixels dpi) rects) then inl (bad_value "image_pixel_limit")
    else inr (map (λ i, draw L source i dpi) (seqZ 0 (Z.of_nat (length rects))))
  else
    _ ← verify L max_pixels source;
    '(width, height) ← size_of L source;
    if bool_decide (max_pixels < width * height) then inl (bad_value "image_pixel_limit")
    else inr [to_rgb_png L source].

(** The page images of a file, or the exception it is refused with. *)
Definition inspect (source expected : string) (max_pages max_pixels dpi : Z) : exc + list string :=
  if negb (bool_decide (sha256 source = lower expected)) then inl (bad_value "hash_mismatch")
  else if negb (bool_decide (mime_of L source ∈ ALLOWED_MIME))
  then inl (bad_value "unsupported_file_type")
  else inspect_pages source max_pages max_pixels dpi.

(** The entries of the manifest and the files for [images], numbered from [n + 1]. *)
Fixpoint entries (n : Z) (images : list string) : list json :=
  match images with
  | [] => []
  | image :: images => page_entry (n + 1) (sha256 image) :: entries (n + 1) images
  end.

Fixpoint with_pages (output : Path) (n : Z) (images : list string) (K : Path → option string) :
    Path → option string :=
  match images with
  | [] => K
  | image :: images =>
      with_pages output (n + 1) images (<[sub output (page_name (n + 1)) := Some image]> K)
  end.

Lemma with_pages_other output n images K p :
  (∀ i, p ≠ sub output (page_name i)) → with_pages output n images K p = K p.
Proof.
  intros Hp. revert n K. induction images as [|image images IH]; intros n K; simpl; [done|].
  rewrite IH, fn_lookup_insert_ne; [done|]. intros E. by apply (Hp (n + 1)).
Qed.

Lemma with_pages_earlier output n images K m : 0 ≤ m ≤ n →
  with_pages output n images K (sub output (page_name m)) = K (sub output (page_name m)).
Proof.
  revert n K. induction images as [|image images IH]; intros n K Hm; simpl; [done|].
  rewrite IH, fn_lookup_insert_ne; [done| |lia]. intros E%sub_inj%page_name_inj; lia.
Qed.

Lemma with_pages_lookup output n images K i image : 0 ≤ n → images !! i = Some image →
  with_pages output n images K (sub output (page_name (n + 1 + Z.of_nat i))) = Some image.
Proof.
  revert n K i. induction images as [|image' images IH]; intros n K i Hn Hi; [done|]. simpl.
  destruct i as [|i]; simpl in Hi.
  - injection Hi as ->. rewrite Z.add_0_r, with_pages_earlier by lia. apply fn_lookup_insert.
  - replace (n + 1 + Z.of_nat (S i)) with (n + 1 + 1 + Z.of_nat i) by lia. apply IH; [lia | done].
Qed.

Section render.
Context (dir : Path) (fs : list (Path * string)) (os : list (string * (string * string * string))) (t : Z).
Abbreviation in_dir := (in_box dir fs os t).
Context (source : string) (max_pages max_pixels dpi : Z).
Abbreviation output := (sub dir "output").

(** Refused, with some files left behind. *)
Definition left_behind (refused : exc → Prop) (e : exc) (b : Box) : Prop :=
  refused e ∧ ∃ K, in_dir K b.

Lemma left_now K (refused : exc → Prop) e {A} Q :
  refused e → total (in_dir K) (raise (A := A) e) Q (left_behind refused).
Proof. intros He. apply total_raise. intros b Hb. split; [done | by exists K]. Qed.

Lemma total_sha256_file K p v (X : exc → Box → Prop) : inside dir p = true → K p = Some v →
  total (in_dir K) (sha256_file p) (λ d b, d = sha256 v ∧ in_dir K b) X.
Proof.
  intros Hp Hv. apply total_never. unfold sha256_file. eapply total_bind_eq; [by apply box_read|].
  by apply total_ret.
Qed.

Lemma total_render_page K rects i rect :
  open_pdf L source = inr rects → 0 ≤ i → rects !! Z.to_nat i = Some rect →
  total (in_dir K) (render_pdf_page source output max_pixels dpi i)
    (λ e b, e = page_entry (i + 1) (sha256 (draw L source i dpi)) ∧ page_fits max_pixels dpi rect = true ∧
       in_dir (<[sub output (page_name (i + 1)) := Some (draw L source i dpi)]> K) b)
    (left_behind (λ e, e = bad_value "image_pixel_limit" ∧ page_fits max_pixels dpi rect = false)).
Proof.
  intros Hr Hi Hrect. unfold render_pdf_page. destruct rect as [rw rh].
  eapply total_bind_eq with (a := (rw, rh)) (P' := in_dir K).
  { simpl. rewrite Hr. intros b Hb. by rewrite (bind_lift_run rects), Hrect. }
  cbv zeta. unfold page_fits. simpl.
  set (w := pixels rw dpi). set (h := pixels rh dpi).
  destruct (decide (w ≤ 0 ∨ h ≤ 0 ∨ max_pixels < w * h)) as [Hbad|Hok].
  - replace (bool_decide (w ≤ 0) || bool_decide (h ≤ 0) || bool_decide (max_pixels < w * h)) with true
      by (symmetry; rewrite !orb_true_iff, !bool_decide_eq_true; tauto).
    apply left_now. split; [done|]. rewrite !andb_false_iff. lia.
  - rewrite !bool_decide_eq_false_2 by lia. simpl.
    eapply total_bind.
    { apply total_never, box_write, inside_sub_sub. }
    intros ?. eapply total_bind_eq; [apply total_sha256_file; [apply inside_sub_sub | apply fn_lookup_insert]|].
    apply total_ret. intros b Hb. split_and!; [done | | done]. rewrite !andb_true_iff. lia.
Qed.

(** The pages from index [n] on, the last [length l] of the document *)
Lemma total_render_pages rects n l : open_pdf L source = inr rects → 0 ≤ n →
  drop (Z.to_nat n) rects = l → ∀ K,
  let images := map (λ i, draw L source i dpi) (seqZ n (Z.of_nat (length l))) in
  total (in_dir K) (collect (render_pdf_page source output max_pixels dpi) (seqZ n (Z.of_nat (length l))))
    (λ es b, es = entries n images ∧ forallb (page_fits max_pixels dpi) l = true ∧
       in_dir (with_pages output n images K) b)
    (left_behind (λ e, e = bad_value "image_pixel_limit" ∧ forallb (page_fits max_pixels dpi) l = false)).
Proof.
  intros Hr Hn Hl. revert n Hn Hl. induction l as [|rect l IH]; intros n Hn Hl K.
  { by apply total_ret. }
  cbn [length]. rewrite Nat2Z.inj_succ, seqZ_cons by lia. rewrite Z.pred_succ.
  assert (rects !! Z.to_nat n = Some rect) as Hrect.
  { rewrite <- (Nat.add_0_r (Z.to_nat n)), <- lookup_drop, Hl. done. }
  assert (drop (Z.to_nat (Z.succ n)) rects = l) as Hl'.
  { rewrite Z2Nat.inj_succ by done. replace (S (Z.to_nat n)) with (Z.to_nat n + 1)%nat by lia.
    by rewrite <- drop_drop, Hl. }
  cbv zeta. cbn [collect map entries with_pages forallb].
  eapply total_bind.
  { eapply total_conseq; [by eapply (total_render_page K rects) | done | intros e b H; exact H |].
    intros e b [[-> Hf] HK]. split; [|done]. by rewrite Hf. }
  intros e. eapply total_bind with (Q := λ es b,
    e = page_entry (n + 1) (sha256 (draw L source n dpi)) ∧ page_fits max_pixels dpi rect = true ∧
    es = entries (Z.succ n) (map (λ i, draw L source i dpi) (seqZ (Z.succ n) (Z.of_nat (length l)))) ∧
    forallb (page_fits max_pixels dpi) l = true ∧
    in_dir (with_pages output (Z.succ n) (map (λ i, draw L source i dpi) (seqZ (Z.succ n) (Z.of_nat (length l))))
      (<[sub output (page_name (n + 1)) := Some (draw L source n dpi)]> K)) b).
  - intros b (-> & Hf & Hb).
    pose proof (IH (Z.succ n) ltac:(lia) Hl' (<[sub output (page_name (n + 1)) := Some (draw L source n dpi)]> K) b Hb) as H.
    destruct (collect _ _ b) as [[es|e|] b']; [| |done].
    + by destruct H as (-> & ? & ?).
    + destruct H as [[-> Hl2] HK]. split; [|done]. by rewrite Hl2, andb_false_r.
  - intros es. apply total_ret. intros b (-> & Hf & -> & Hl2 & Hb). rewrite Hf. by split_and!.
Qed.

Lemma total_render_pdf K input : inside dir input = true → K input = Some source →
  mime_of L source = "application/pdf" → 
  let result := 
    rects ← open_pdf L source;
    if is_encrypted L source then inl (bad_value "encrypted_pdf")
    else if bool_decide (Z.of_nat (length rects) < 1) || bool_decide (max_pages < Z.of_nat (length rects))
    then inl (bad_value "invalid_page_count")
    else if negb (forallb (page_fits max_pixels dpi) rects) then inl (bad_value "image_pixel_limit")
    else inr (map (λ i, draw L source i dpi) (seqZ 0 (Z.of_nat (length rects)))) in
  total (in_dir K) (render_pdf input output max_pages max_pixels dpi)
    (λ es b, ∃ images, result = inr images ∧ es = entries 0 images ∧
       in_dir (with_pages output 0 images K) b)
    (left_behind (λ e, result = inl e)).
Proof.
  intros Hi HK Hmime. cbv zeta. unfold render_pdf. destruct (open_pdf L source) as [e|rects] eqn:Hr.
  { eapply total_bind with (Q := λ _ _, False); [|by intros ???].
    eapply total_bind_eq; [by apply total_never, box_read|]. rewrite Hr. simpl. by apply left_now. }
  eapply total_bind_eq with (a := source) (P' := in_dir K).
  { eapply total_bind_eq; [by apply total_never, box_read|]. rewrite Hr. by apply total_ret. }
  eapply total_bind_eq with (a := is_encrypted L source) (P' := in_dir K); [by apply total_ret|].
  simpl. destruct (is_encrypted L source); [by apply left_now|].
  eapply total_bind_eq with (a := Z.of_nat (length rects)) (P' := in_dir K).
  { simpl. rewrite Hr. by apply total_ret. }
  destruct (_ || _); [by apply left_now|].
  eapply total_bind.
  { eapply total_conseq; [apply (total_render_pages rects 0 rects Hr ltac:(done) eq_refl) | done |
      intros es b H; exact H |].
    intros e b [[-> Hf] HK']. split; [by rewrite Hf | done]. }
  intros es b (-> & Hf & Hb). simpl. rewrite Hf. by eexists.
Qed.

Lemma total_normalize_image K input : inside dir input = true → K input = Some source →
  let result :=
    _ ← verify L max_pixels source;
    '(width, height) ← size_of L source;
    if bool_decide (max_pixels < width * height) then inl (bad_value "image_pixel_limit")
    else inr [to_rgb_png L source] in
  total (in_dir K) (normalize_image input output max_pixels)
    (λ es b, ∃ images, result = inr images ∧ es = entries 0 images ∧
       in_dir (with_pages output 0 images K) b)
    (left_behind (λ e, result = inl e)).
Proof.
  intros Hi HK. cbv zeta. unfold normalize_image.
  eapply total_bind with (Q := λ _ b, (∃ u, verify L max_pixels source = inr u) ∧ in_dir K b).
  { eapply total_bind_eq; [by apply total_never, box_read|].
    destruct (verify L max_pixels source) as [e|u]; [by apply left_now | apply total_ret].
    intros b Hb. split; [by exists u | done]. }
  intros ?. eapply total_fact; [intros b [Hv _]; exact Hv|]. intros [u ->].
  eapply total_pre with (in_dir K); [|tauto]. simpl.
  eapply total_bind with (Q := λ r b, size_of L source = inr r ∧ in_dir K b).
  { eapply total_bind_eq; [by apply total_never, box_read|].
    destruct (size_of L source) as [e|u']; [by apply left_now | by apply total_ret]. }
  intros [width height]. eapply total_fact; [intros b [Hv _]; exact Hv|]. intros ->.
  eapply total_pre with (in_dir K); [|tauto]. simpl.
  case_bool_decide; [by apply left_now|].
  eapply total_bind with (Q := λ _, in_dir (<[sub output (page_name 1) := Some (to_rgb_png L source)]> K)).
  { eapply total_bind_eq; [by apply total_never, box_read|]. apply total_never, box_write, inside_sub_sub. }
  intros ?. eapply total_bind_eq; [apply total_sha256_file; [apply inside_sub_sub | apply fn_lookup_insert]|].
  apply total_ret. intros b Hb. by eexists.
Qed.

Definition manifest_of (images : list string) : json :=
  JObj [("sha256", JStr (sha256 source)); ("detected_content_type", JStr (mime_of L source));
        ("pages", JList (entries 0 images))].

Lemma total_validate K input expected : inside dir input = true → K input = Some source →
  total (in_dir K) (validate_and_render input output expected max_pages max_pixels dpi)
    (λ _ b, ∃ images, inspect source expected max_pages max_pixels dpi = inr images ∧
       in_dir (<[sub output "manifest.json" := Some (dumps false (manifest_of images))]>
                 (with_pages output 0 images K)) b)
    (left_behind (λ e, inspect source expected max_pages max_pixels dpi = inl e)).
Proof.
  intros Hi HK. unfold validate_and_render, inspect.
  eapply total_bind with (Q := λ _, in_dir K); [by apply total_ret|]. intros ?.
  eapply total_bind_eq; [by eapply total_sha256_file|].
  destruct (negb (bool_decide (sha256 source = _))); [by apply left_now|].
  eapply total_bind_eq with (a := mime_of L source) (P' := in_dir K).
  { eapply total_bind_eq; [by apply total_never, box_read|]. by apply total_ret. }
  destruct (negb _); [by apply left_now|].
  eapply total_bind with (Q := λ es b, ∃ images,
    inspect_pages source max_pages max_pixels dpi = inr images ∧ es = entries 0 images ∧
    in_dir (with_pages output 0 images K) b).
  { unfold inspect_pages. case_bool_decide; [by apply total_render_pdf | by apply total_normalize_image]. }
  intros es b (images & Hr & -> & Hb). rewrite Hr.
  pose proof (box_write dir fs os t (with_pages output 0 images K) (sub output "manifest.json")
    (dumps false (manifest_of images)) (inside_sub_sub _ _ _) b Hb) as H.
  unfold manifest_of in *. simpl in *. by exists images.
Qed.

(** ** The daemon's answer *)

Abbreviation response := (sub dir "response.json").

(** Nothing but an [Exception] leaves the libraries. *)
Definition fine_libraries : Prop :=
  (∀ s e, open_pdf L s = inl e → isinstance e Exception_ = true) ∧
  (∀ m s e, verify L m s = inl e → isinstance e Exception_ = true) ∧
  (∀ s e, size_of L s = inl e → isinstance e Exception_ = true).

Lemma inspect_exception expected e : fine_libraries →
  inspect source expected max_pages max_pixels dpi = inl e → isinstance e Exception_ = true.
Proof.
  intros (H1 & H2 & H3). unfold inspect, inspect_pages.
  destruct (negb (bool_decide (sha256 source = _))); [by intros [= <-]|].
  destruct (negb _); [by intros [= <-]|].
  destruct (bool_decide (mime_of L source = _)).
  - destruct (open_pdf L source) as [e'|rects] eqn:E; simpl; [intros [= <-]; by eapply H1|].
    repeat case_match; by intros [= <-].
  - destruct (verify L max_pixels source) as [e'|u] eqn:E; simpl; [intros [= <-]; by eapply H2|].
    destruct (size_of L source) as [e'|[w h]] eqn:E'; simpl; [intros [= <-]; by eapply H3|].
    case_match; by intros [= <-].
Qed.

Lemma with_suffix_sub name :
  with_suffix ".tmp" (sub dir name) = sub dir (name_with_suffix ".tmp" name).
Proof.
  unfold with_suffix, sub, join_path. simpl. rewrite reverse_app. simpl.
  by rewrite reverse_cons, reverse_involutive.
Qed.

Lemma total_atomic_json K name payload (X : exc → Box → Prop) :
  total (in_dir K) (atomic_json (sub dir name) payload)
    (λ _ b, ∃ K', in_dir K' b ∧ K' (sub dir name) = Some (dumps false payload) ∧
       ∀ p, p ≠ sub dir name → p ≠ sub dir (name_with_suffix ".tmp" name) → K' p = K p) X.
Proof.
  apply total_never. unfold atomic_json. rewrite with_suffix_sub.
  eapply total_bind; [apply box_write, inside_sub|]. intros ?.
  eapply total_conseq; [eapply box_replace; [apply inside_sub.. | apply fn_lookup_insert] | done | | done].
  intros ? b Hb. eexists. split; [exact Hb|]. split; [apply fn_lookup_insert|].
  intros p H1 H2. by rewrite !fn_lookup_insert_ne.
Qed.

(** What the daemon leaves for the backend to take *)
Definition served (images : list string) (K : Path → option string) : Prop :=
  K response = Some (dumps false (JObj [("ok", JBool true)])) ∧
  K (sub output "manifest.json") = Some (dumps false (manifest_of images)) ∧
  ∀ i image, images !! i = Some image →
    K (sub output (page_name (1 + Z.of_nat i))) = Some image.

Definition refusal_json (e : exc) : json :=
  JObj [("ok", JBool false); ("error_reason", JStr (refusal_reason e))].

Context (upload : Upload.t) (job : Job.t).
Abbreviation request := (sandbox_request max_pages max_pixels dpi upload job).
Abbreviation inspected := (inspect source (Upload.sha256 upload) max_pages max_pixels dpi).

Lemma page_name_manifest i : 0 ≤ i → page_name i ≠ "manifest.json".
Proof. intros Hi. unfold page_name. by intros [=]. Qed.

Lemma total_serve K : plain_path dir →
  K (sub dir "processing.json") = Some (dumps false request) → K (sub dir "input") = Some source →
  total (in_dir K) (serve_request dir (sub dir "processing.json"))
    (λ _ b, ∃ images K', inspected = inr images ∧ in_dir K' b ∧ served images K')
    (left_behind (λ e, inspected = inl e)).
Proof.
  intros Hdir Hreq Hin. unfold serve_request.
  eapply total_bind_eq; [eapply total_never, box_read; [apply inside_sub | exact Hreq]|].
  eapply total_bind_eq with (a := request) (P' := in_dir K).
  { unfold json_loads. rewrite loads_dumps_wf by done. by apply total_ret. }
  eapply total_bind_eq with (a := JStr "input") (P' := in_dir K); [by apply total_ret|].
  eapply total_bind_eq with (a := sub dir "input") (P' := in_dir K).
  { apply total_ret. intros b Hb. split; [|done]. by apply resolve_plain, plain_sub. }
  eapply total_bind_eq with (a := output) (P' := in_dir K).
  { apply total_ret. intros b Hb. split; [|done]. by apply resolve_plain, plain_sub. }
  do 2 (eapply total_bind_eq with (a := dir) (P' := in_dir K);
    [apply total_ret; intros b Hb; split; [by apply resolve_plain | done]|];
    rewrite inside_sub; cbn [negb]).
  eapply total_bind_eq with (a := JStr (Upload.sha256 upload)) (P' := in_dir K); [by apply total_ret|].
  eapply total_bind_eq with (a := max_pages) (P' := in_dir K); [by apply total_ret|].
  eapply total_bind_eq with (a := max_pixels) (P' := in_dir K); [by apply total_ret|].
  eapply total_bind_eq with (a := dpi) (P' := in_dir K); [by apply total_ret|].
  eapply total_bind; [apply total_validate; [apply inside_sub | done]|].
  intros m b (images & Hr & Hb).
  pose proof (total_atomic_json _ "response.json" (JObj [("ok", JBool true)]) never b Hb) as H.
  destruct (atomic_json response _ b) as [[u|e|] b']; [|done..].
  destruct H as (K' & HK' & Hresp & Hother). exists images, K'. split_and!; [done..|]. split_and!; [done| |].
  - rewrite Hother by (apply not_eq_sym, sub_deeper). apply fn_lookup_insert.
  - intros i image Hi. rewrite Hother by (apply not_eq_sym, sub_deeper).
    rewrite fn_lookup_insert_ne by (intros E%sub_inj; symmetry in E; revert E; apply page_name_manifest; lia).
    by apply (with_pages_lookup output 0).
Qed.

Lemma parent_sub name : parent (sub dir name) = dir.
Proof. unfold parent, sub, join_path. simpl. rewrite removelast_last. by destruct dir. Qed.

(** What is known after the daemon has processed the request *)
Definition answered (K : Path → option string) : Prop :=
  match inspected with
  | inr images => served images K
  | inl e => K response = Some (dumps false (refusal_json e))
  end.

Lemma total_process_request K : plain_path dir → fine_libraries →
  K (sub dir "request.json") = Some (dumps false request) → K (sub dir "input") = Some source →
  total (in_dir K) (process_request (sub dir "request.json"))
    (λ _ b, ∃ K', in_dir K' b ∧ answered K') never.
Proof.
  intros Hdir Hfine Hreq Hin b Hb. unfold process_request. rewrite parent_sub. cbv zeta. unfold try_else at 1.
  pose proof (box_replace dir fs os t K (sub dir "request.json") (sub dir "processing.json") _
    (inside_sub _ _) (inside_sub _ _) Hreq b Hb) as H.
  destruct (fs_replace _ _ b) as [[u|e|] b1]; [|done..].
  set (K1 := <[sub dir "processing.json" := _]> _) in H. revert b1 H. fold (total (E := exc) (in_dir K1)
    (try_except (serve_request dir (sub dir "processing.json")) (λ e, if isinstance e Exception_
       then Some (atomic_json response (refusal_json e)) else None))
    (λ _ b, ∃ K', in_dir K' b ∧ answered K') never).
  eapply total_try_except with (X := left_behind (λ e, inspected = inl e)).
  - eapply total_conseq; [apply (total_serve K1) | done | | done]; unfold K1.
    + done.
    + apply fn_lookup_insert.
    + rewrite !fn_lookup_insert_ne by by intros E%sub_inj. exact Hin.
    + intros ? b' (images & K' & Hr & HK' & Hs). exists K'. split; [done|]. unfold answered. by rewrite Hr.
  - intros e. destruct (isinstance e Exception_) eqn:He.
    + intros b' [Hr [K' HK']].
      pose proof (total_atomic_json K' "response.json" (refusal_json e) never b' HK') as H.
      destruct (atomic_json response _ b') as [[u'|e'|] b2]; [|done..].
      destruct H as (K2 & HK2 & Hresp & _). exists K2. split; [done|]. unfold answered. by rewrite Hr.
    + intros b' [Hr _]. pose proof (inspect_exception _ _ Hfine Hr). congruence.
Qed.
End render.
End box.
