(* ===== verification/SandboxHeartbeat.v ===== *)
(** * The sandbox's heartbeat

    The daemon's [write_heartbeat] and the backend's
    [SandboxHeartbeatReadinessProbe] on the volume of [SandboxBox], with the
    clock of the box in microseconds as the wall clock of both.
    - [heartbeat_fresh]: the probe accepts a heartbeat exactly as long as its age
      is within the limits. *)

From Stdlib Require Import QArith.
From Stdlib Require String.
From S2P Require Import Prelude PyData PyText PyValue Json JsonFacts Status Domain Ports.
From S2P Require Import Messaging Preprocessor Sandbox SandboxBox.

#[local] Open Scope Z_scope.

(** Microseconds as seconds *)
Definition seconds (n : Z) : Q := n # 1000000.

Lemma seconds_sub m n : (seconds m - seconds n == seconds (m - n))%Q.
Proof. unfold seconds, Qeq. simpl. lia. Qed.

#[export] Instance box_clock : WallClock Box := gets (λ b, seconds (b_now b)).

Section heartbeat.
(** [repr] of a float and [float] of a string; the literal of the time of writing
    is read back as that time. *)
Context (float_repr : Q → string) (float_of_text : string → exc + Q).
#[local] Existing Instances box_files.
Abbreviation heartbeat root := (sub root SANDBOX_HEARTBEAT_FILENAME).

Definition beat (t : Z) : json :=
  JObj [("status", JStr "ok"); ("updated_at_unix", JFloat (float_repr (seconds t)))].

(** The two writings of a moment *)
Definition reads_back (t : Z) : Prop :=
  wf_json (JFloat (float_repr (seconds t))) = true ∧
  (float_value (float_repr (seconds t)) == seconds t)%Q.

Lemma total_write_heartbeat root fs os t K :
  total (in_box root fs os t K) (write_heartbeat float_repr root None)
    (λ _ b, ∃ K', in_box root fs os t K' b ∧ K' (heartbeat root) = Some (dumps false (beat t)) ∧
       ∀ p, p ≠ heartbeat root → p ≠ sub root ".heartbeat.tmp" → K' p = K p) never.
Proof.
  eapply total_bind_eq with (a := seconds t) (P' := in_box root fs os t K).
  { intros b Hb. pose proof Hb as (_ & _ & _ & Ht & _). simpl. by rewrite Ht. }
  apply (total_atomic_json root fs os t K SANDBOX_HEARTBEAT_FILENAME).
Qed.

Lemma heartbeat_probe_run root max_age t b : reads_back t →
  dget (b_files b) (heartbeat root) = Some (dumps false (beat t)) →
  let age := seconds (b_now b - t) in
  heartbeat_probe float_of_text root max_age b =
  (if Qle_bool (-1) age && Qle_bool age max_age then Ret ()
   else Exn (mk_exc RuntimeError "sandbox heartbeat is stale"), b).
Proof.
  intros [Hwf Hv] Hb age. unfold heartbeat_probe. simpl. unfold read_file, json_loads.
  rewrite (bind_run _ _ b (dumps false (beat t)) b) by (by rewrite Hb).
  rewrite loads_dumps_wf by (unfold beat; simpl in *; by rewrite Hwf).
  rewrite (bind_run _ _ b (beat t) b) by done. unfold beat. simpl.
  unfold mbind at 1 2 3, M_bind at 1 2 3. simpl.
  assert (seconds (b_now b) - float_value (float_repr (seconds t)) == age)%Q as Hage.
  { rewrite Hv. apply seconds_sub. }
  rewrite (Qleb_comp _ _ (Qeq_refl (-1)) _ _ Hage), (Qleb_comp _ _ Hage _ _ (Qeq_refl max_age)).
  by destruct (Qle_bool (-1) age), (Qle_bool age max_age).
Qed.

(** The heartbeat of the sandbox: the daemon replaces one file of the exchange
    directory and touches no request, and as long as the file stays, the
    backend's probe accepts it at every moment at which it is at most [max_age]
    seconds old (or at most a second ahead of the backend's clock), and raises at
    every other. *)
Theorem heartbeat_fresh root max_age b : NoDup (b_files b).*1 → reads_back (b_now b) →
  ∃ b1, write_heartbeat float_repr root None b = (Ret (), b1) ∧
    (∀ p, p ≠ heartbeat root → p ≠ sub root ".heartbeat.tmp" → inside root p = true →
       dget (b_files b1) p = dget (b_files b) p) ∧
    b_objects b1 = b_objects b ∧
    ∀ b2, dget (b_files b2) (heartbeat root) = dget (b_files b1) (heartbeat root) →
      let age := seconds (b_now b2 - b_now b) in
      heartbeat_probe float_of_text root max_age b2 =
      (if Qle_bool (-1) age && Qle_bool age max_age then Ret ()
       else Exn (mk_exc RuntimeError "sandbox heartbeat is stale"), b2).
Proof.
  intros Hn Hr.
  pose proof (total_write_heartbeat root _ (b_objects b) (b_now b) (dget (b_files b)) b
    (conj eq_refl (conj Hn (conj eq_refl (conj eq_refl (λ p _, eq_refl)))))) as H.
  destruct (write_heartbeat _ _ _ b) as [[[]|e|] b1]; [|done..].
  destruct H as (K' & (Hf & Hn' & Ho & Ht & HK) & Hhb & Hrest). exists b1. split; [done|].
  split; [|split; [done|]].
  - intros p H1 H2 Hp. rewrite HK by done. by apply Hrest.
  - intros b2 Hb2. apply heartbeat_probe_run; [done|]. rewrite Hb2, HK by apply inside_sub. exact Hhb.
Qed.
End heartbeat.

(** A heartbeat written half a second after the epoch's second 1700000000 *)
Module SampleHeartbeat.

(** Six decimals *)
Definition float_repr (q : Q) : string :=
  let n := (Qnum q * 1000000) / Zpos (Qden q) in
  str_Z (n / 1000000) +:+ "." +:+ fmt06 (n mod 1000000).
Definition float_of_text (s : string) : exc + Q := inl (mk_exc ValueError s).

Definition box : Box := MkBox [] [] 1700000000500000.
Definition root : Path := MkPath true ["exchange"].
Definition at_time (t : Z) : Box :=
  MkBox (b_files (write_heartbeat (FileSystem0 := box_files) float_repr root None box).2) [] t.
Definition probe (t : Z) : outcome exc () :=
  (heartbeat_probe (FileSystem0 := box_files) float_of_text root 5 (at_time t)).1.
End SampleHeartbeat.

Example heartbeat_ex :
  map SampleHeartbeat.probe [1700000000500000; 1700000005500000; 1700000005500001; 1699999999400000] =
  let stale := Exn (mk_exc RuntimeError "sandbox heartbeat is stale") in
  [Ret (); Ret (); stale; stale].
Proof. vm_compute. reflexivity. Qed.

Lemma heartbeat_fresh_witness :
  reads_back SampleHeartbeat.float_repr (b_now SampleHeartbeat.box) ∧
  ∃ b1, write_heartbeat (FileSystem0 := box_files) SampleHeartbeat.float_repr
    SampleHeartbeat.root None SampleHeartbeat.box = (Ret (), b1).
Proof.
  assert (reads_back SampleHeartbeat.float_repr (b_now SampleHeartbeat.box)) as Hr
    by (split; vm_compute; reflexivity).
  split; [exact Hr|].
  destruct (heartbeat_fresh SampleHeartbeat.float_repr SampleHeartbeat.float_of_text
    SampleHeartbeat.root 5 SampleHeartbeat.box (NoDup_nil_2 (A := Path)) Hr) as (b1 & H & _).
  exists b1. exact H.
Defined.
