(* ===== verification/SandboxExchange.v ===== *)
(** * The sandbox mailbox, end to end

    The backend's [DirectorySandboxPreprocessor] ([Preprocessor]) and the
    sandbox's daemon ([Sandbox]) on the volume they share ([SandboxBox]); the
    daemon's scan runs while the backend sleeps.
    - [exchange_inspects]: preparing a document through the mailbox is the same
      as calling the sandbox's validation on its bytes. *)

From Stdlib Require Import Ascii QArith.
From Stdlib Require String.
From stdpp Require Import functions.
From S2P Require Import Prelude PyData PyText PyValue Json JsonFacts Status Domain Ports Sha256.
From S2P Require Import Messaging Preprocessor Sandbox SandboxBox.

#[local] Open Scope Z_scope.

Section box.
Context (L : Libraries) (hex : string) (request_file : Path).
#[local] Existing Instances box_files box_storage.
#[local] Instance backend_renderers : Renderers Box string := box_renderers L.
#[local] Instance backend_mailbox : Mailbox Box := box_mailbox request_file.
#[local] Instance backend_loop : EventLoop Box := box_loop L request_file.
#[local] Instance backend_hex : RandomHex Box := box_hex hex.
#[local] Abbreviation inspect := (SandboxBox.inspect L).
#[local] Abbreviation manifest_of := (SandboxBox.manifest_of L).
#[local] Abbreviation served := (SandboxBox.served L).
#[local] Abbreviation answered := (SandboxBox.answered L).
#[local] Abbreviation fine_libraries := (SandboxBox.fine_libraries L).

(** ** The backend's side *)

(** The pages returned and the objects stored for [images], numbered from [n + 1] *)
Fixpoint prepared (job : Job.t) (n : Z) (images : list string) : list PreparedPage :=
  match images with
  | [] => []
  | _ :: images => MkPreparedPage (n + 1) (page_image_key job (n + 1)) :: prepared job (n + 1) images
  end.

Fixpoint store_pages (job : Job.t) (n : Z) (images : list string)
    (os : list (string * (string * string * string))) : list (string * (string * string * string)) :=
  match images with
  | [] => os
  | image :: images => store_pages job (n + 1) images
      (dset os (page_image_key job (n + 1)) (image, "image/png", sha256 image))
  end.

Lemma entries_length n images : length (entries n images) = length images.
Proof. revert n. induction images as [|image images IH]; intros n; simpl; congruence. Qed.

Lemma wf_entries n images : forallb wf_json (entries n images) = true.
Proof. revert n. induction images as [|image images IH]; intros n; [done|]. simpl. by rewrite IH. Qed.

Lemma wf_manifest source images : wf_json (manifest_of source images) = true.
Proof. unfold manifest_of. cbn [wf_json forallb snd]. by rewrite wf_entries. Qed.

Lemma inspect_length source expected max_pages max_pixels dpi images : 1 ≤ max_pages →
  inspect source expected max_pages max_pixels dpi = inr images →
  1 ≤ Z.of_nat (length images) ≤ max_pages.
Proof.
  intros Hmax. unfold inspect, inspect_pages.
  destruct (negb (bool_decide (sha256 source = _))); [done|]. destruct (negb _); [done|].
  destruct (bool_decide (mime_of L source = _)).
  - destruct (open_pdf L source) as [e|rects]; simpl; [done|].
    destruct (is_encrypted L source); [done|].
    case_bool_decide; [done|]. case_bool_decide; [done|]. simpl.
    destruct (negb _); [done|]. intros [= <-]. rewrite length_map, length_seqZ. lia.
  - destruct (verify L max_pixels source) as [e|u]; simpl; [done|].
    destruct (size_of L source) as [e|[w h]]; simpl; [done|]. case_match; [done|].
    intros [= <-]. simpl. lia.
Qed.

Section backend.
Context (dir : Path) (fs : list (Path * string)) (t : Z).
Abbreviation output := (sub dir "output").

Lemma total_take_over job K n images os : plain_path dir → 0 ≤ n →
  Forall (λ image, truthy image = true) images →
  (∀ i image, images !! i = Some image → K (sub output (page_name (n + 1 + Z.of_nat i))) = Some image) →
  total (in_box dir fs os t K) (import_pages output (mret output) job (n + 1) (entries n images))
    (λ pages b, pages = prepared job n images ∧ in_box dir fs (store_pages job n images os) t K b) never.
Proof.
  intros Hdir Hn. revert n Hn os. induction images as [|image images IH]; intros n Hn os Ht HK; simpl.
  { by apply total_ret. }
  apply Forall_cons in Ht as [Himage Ht].
  assert (K (sub output (page_name (n + 1))) = Some image) as H0.
  { pose proof (HK 0%nat image eq_refl) as H. by rewrite Z.add_0_r in H. }
  eapply total_bind_eq with (a := MkPreparedPage (n + 1) (page_image_key job (n + 1)))
    (P' := in_box dir fs (dset os (page_image_key job (n + 1)) (image, "image/png", sha256 image)) t K).
  - unfold import_page, page_entry. cbn [dget decide]. simpl.
    eapply total_bind_eq with (a := n + 1) (P' := in_box dir fs os t K); [by apply total_ret|].
    rewrite bool_decide_eq_true_2 by done. cbn [negb].
    rewrite page_name_path by lia.
    eapply total_bind_eq with (a := sub output (page_name (n + 1))) (P' := in_box dir fs os t K).
    { apply total_ret. intros b Hb. split; [|done]. apply resolve_plain, plain_sub; [by apply plain_sub | done]. }
    eapply total_bind_eq with (a := output) (P' := in_box dir fs os t K); [by apply total_ret|].
    rewrite inside_sub. cbn [negb].
    eapply total_bind_eq; [eapply box_read; [apply inside_sub_sub | exact H0]|]. rewrite Himage. cbn [negb].
    eapply total_bind; [apply box_put|]. intros ?. by apply total_ret.
  - eapply total_bind_eq; [apply IH; [lia | done |] | by apply total_ret].
    intros i image' Hi. specialize (HK (S i) image' Hi).
    by replace (n + 1 + 1 + Z.of_nat i) with (n + 1 + Z.of_nat (S i)) by lia.
Qed.

Lemma total_upload job source K max_pages images os : plain_path dir →
  served dir source images K → 1 ≤ Z.of_nat (length images) ≤ max_pages →
  Forall (λ image, truthy image = true) images →
  total (in_box dir fs os t K) (upload_pages max_pages output job)
    (λ pages b, pages = prepared job 0 images ∧ in_box dir fs (store_pages job 0 images os) t K b) never.
Proof.
  intros Hdir (_ & Hman & Hpages) Hlen Ht. unfold upload_pages.
  eapply total_bind_eq with (a := manifest_of source images) (P' := in_box dir fs os t K).
  { eapply total_try_except with (X := never); [|intros e; destruct (isinstance_any e _); by intros ? []].
    eapply total_bind_eq; [eapply box_read; [apply inside_sub_sub | exact Hman]|].
    unfold json_loads. rewrite loads_dumps_wf by apply wf_manifest. by apply total_ret. }
  unfold manifest_of. simpl. rewrite entries_length, bool_decide_eq_true_2 by done. cbn [negb].
  eapply total_bind_eq with (a := output) (P' := in_box dir fs os t K).
  { apply total_ret. intros b Hb. split; [|done]. by apply resolve_plain, plain_sub. }
  by apply (total_take_over job K 0).
Qed.

(** The daemon's scan while the backend sleeps *)
Lemma total_sleep K os source max_pages max_pixels dpi upload job d :
  request_file = sub dir "request.json" → plain_path dir → fine_libraries →
  K request_file = Some (dumps false (sandbox_request max_pages max_pixels dpi upload job)) →
  K (sub dir "input") = Some source →
  total (in_box dir fs os t K) (loop_sleep d)
    (λ _ b, ∃ K', in_box dir fs os (t + d) K' b ∧
       answered dir source max_pages max_pixels dpi upload K') never.
Proof.
  intros Hrf Hdir Hfine Hreq Hin. simpl.
  eapply total_bind with (Q := λ _ b, ∃ K', in_box dir fs os t K' b ∧
    answered dir source max_pages max_pixels dpi upload K').
  - unfold scan. eapply total_bind_eq with (a := [request_file]) (P' := in_box dir fs os t K).
    { intros b Hb. simpl. pose proof Hb as (_ & _ & _ & _ & HK). split; [|done].
      rewrite HK by (rewrite Hrf; apply inside_sub). by rewrite Hreq. }
    rewrite Hrf in *. eapply total_bind; [by eapply total_process_request | intros ?; by apply total_ret].
  - intros ? b (K' & (Hf & Hn & Ho & Ht & HK) & Ha). exists K'. split; [|done].
    by split_and!; simpl; [..|congruence|].
Qed.

(** The reason the backend reports for a refusal *)
Definition reported_reason (e : exc) : string :=
  take_str 160 (if truthy (refusal_reason e) then refusal_reason e else "sandbox_failed").

Lemma total_check_answer source max_pages max_pixels dpi upload job K os :
  plain_path dir → 1 ≤ max_pages →
  answered dir source max_pages max_pixels dpi upload K →
  (∀ images, inspect source (Upload.sha256 upload) max_pages max_pixels dpi = inr images →
     Forall (λ image, truthy image = true) images) →
  total (in_box dir fs os t K)
    (text ← fs_read_text (sub dir "response.json");
     response ← json_loads text;
     _ ← check_response response;
     upload_pages max_pages (sub dir "output") job)
    (λ pages b, ∃ images K', inspect source (Upload.sha256 upload) max_pages max_pixels dpi = inr images ∧
       pages = prepared job 0 images ∧ in_box dir fs (store_pages job 0 images os) t K' b)
    (λ e b, ∃ e0 K', inspect source (Upload.sha256 upload) max_pages max_pixels dpi = inl e0 ∧
       e = preprocessing_error ("sandbox preprocessor rejected input: " +:+ reported_reason e0) ∧
       in_box dir fs os t K' b).
Proof.
  intros Hdir Hmax Ha Ht. unfold answered in Ha.
  destruct (inspect source _ _ _ _) as [e0|images] eqn:Hi.
  - eapply total_bind_eq; [eapply total_never, box_read; [apply inside_sub | exact Ha]|].
    eapply total_bind_eq with (a := refusal_json e0) (P' := in_box dir fs os t K).
    { unfold json_loads. rewrite loads_dumps_wf by done. by apply total_ret. }
    eapply total_bind with (Q := λ _ _, False); [|by intros ???]. unfold refusal_json. simpl.
    apply total_raise. intros b Hb. exists e0, K. split_and!; [done | | done].
    unfold reported_reason. by destruct (truthy (refusal_reason e0)).
  - pose proof Ha as (Hresp & _ & _).
    eapply total_bind_eq; [eapply total_never, box_read; [apply inside_sub | exact Hresp]|].
    eapply total_bind_eq with (a := JObj [("ok", JBool true)]) (P' := in_box dir fs os t K).
    { unfold json_loads. rewrite loads_dumps_wf by done. by apply total_ret. }
    eapply total_bind with (Q := λ _, in_box dir fs os t K); [by apply total_ret|]. intros ?.
    eapply total_conseq; [apply (total_upload job source K max_pages images os Hdir Ha) | done | |].
    + by eapply inspect_length.
    + by apply Ht.
    + intros pages b [-> Hb]. by exists images, K.
    + by intros ? ? [].
Qed.
End backend.

Section exchange_box.
Context (dir : Path) (fs : list (Path * string)) (source : string) (upload : Upload.t) (job : Job.t).
Context (timeout poll_interval max_pages max_pixels dpi : Z).
Hypothesis Hrf : request_file = sub dir "request.json".
Hypothesis Hdir : plain_path dir.
Hypothesis Hfine : fine_libraries.
Hypothesis Htimeout : 0 < timeout.
Hypothesis Hmax : 1 ≤ max_pages.
Abbreviation inspected := (inspect source (Upload.sha256 upload) max_pages max_pixels dpi).
Hypothesis Himages : ∀ images, inspected = inr images → Forall (λ image, truthy image = true) images.

Lemma total_exchange_box os t ct dg :
  dget os (Upload.object_key upload) = Some (source, ct, dg) →
  total (in_box dir fs os t (λ _, None))
    (exchange timeout poll_interval max_pages max_pixels dpi dir upload job)
    (λ pages b, ∃ images t' K', inspected = inr images ∧ pages = prepared job 0 images ∧
       in_box dir fs (store_pages job 0 images os) t' K' b)
    (λ e b, ∃ e0 t' K', inspected = inl e0 ∧
       e = preprocessing_error ("sandbox preprocessor rejected input: " +:+ reported_reason e0) ∧
       in_box dir fs os t' K' b).
Proof.
  intros Hos. unfold exchange.
  set (K1 := <[sub dir "input" := Some source]> (λ _, None) : Path → option string).
  set (text := dumps false (sandbox_request max_pages max_pixels dpi upload job)).
  set (K2 := <[sub dir "request.tmp" := Some text]> K1).
  set (K3 := <[sub dir "request.json" := Some text]> (<[sub dir "request.tmp" := None]> K2)).
  eapply total_bind with (Q := λ _, in_box dir fs os t (λ _, None)); [by apply total_ret|]. intros ?.
  eapply total_bind_eq with (a := source) (P' := in_box dir fs os t (λ _, None)).
  { intros b Hb. pose proof Hb as (_ & _ & Ho & _). simpl. by rewrite Ho, Hos. }
  eapply total_bind; [apply total_never, box_write, inside_sub|]. intros ?. fold K1.
  eapply total_bind; [apply total_never, box_write, inside_sub|]. intros ?. fold text K2.
  eapply total_bind.
  { eapply total_never, box_replace; [apply inside_sub.. | apply fn_lookup_insert]. }
  intros ?. fold K3.
  assert (K3 request_file = Some text) as Hreq by (rewrite Hrf; apply fn_lookup_insert).
  assert (K3 (sub dir "input") = Some source) as Hin.
  { unfold K3, K2, K1. rewrite !fn_lookup_insert_ne by by intros E%sub_inj. apply fn_lookup_insert. }
  assert (K3 (sub dir "response.json") = None) as Hresp.
  { unfold K3, K2, K1. by rewrite !fn_lookup_insert_ne by by intros E%sub_inj. }
  eapply total_bind_eq with (a := t) (P' := in_box dir fs os t K3).
  { intros b Hb. split; [apply Hb | done]. }
  eapply total_bind with (Q := λ _ b, ∃ K', in_box dir fs os (t + poll_interval) K' b ∧
    answered dir source max_pages max_pixels dpi upload K').
  - unfold wait_fuel. rewrite (Nat.add_comm _ 3). cbn [Nat.add wait_response].
    eapply total_bind_eq; [apply total_never, box_exists, inside_sub|]. rewrite Hresp. simpl.
    eapply total_bind_eq with (a := t) (P' := in_box dir fs os t K3).
    { intros b Hb. split; [apply Hb | done]. }
    rewrite decide_False by lia.
    eapply total_bind; [by eapply total_never, total_sleep|].
    intros ?. apply total_ex. intros K'.
    apply (total_fact (answered dir source max_pages max_pixels dpi upload K')); [by intros ? []|]. intros Ha.
    assert (is_Some (K' (sub dir "response.json"))) as Hsome.
    { unfold answered in Ha. destruct inspected as [e|images]; [by eexists | destruct Ha as [Ha _]; by eexists]. }
    eapply total_bind_eq.
    { eapply total_pre; [apply total_never, box_exists, inside_sub | by intros ? []]. }
    rewrite bool_decide_eq_true_2 by done. apply total_ret. intros b Hb. by exists K'.
  - intros ?. apply total_ex. intros K'.
    apply (total_fact (answered dir source max_pages max_pixels dpi upload K')); [by intros ? []|]. intros Ha.
    eapply total_conseq; [by apply total_check_answer | by intros ? [] | |].
    + intros pages b (images & K2' & ? & ? & ?). by exists images, (t + poll_interval), K2'.
    + intros e b (e0 & K2' & ? & ? & ?). by exists e0, (t + poll_interval), K2'.
Qed.
End exchange_box.

(** ** The exchange and the validation *)

Section equivalence.
Context (exchange_dir : Path) (timeout poll_interval max_pages max_pixels dpi : Z).
Context (upload : Upload.t) (job : Job.t).
Abbreviation dir := (sub exchange_dir
  (uuid_str (Job.id job) +:+ "-" +:+ str_Z (Job.attempt job) +:+ "-" +:+ hex)).

Lemma plain_request_dir : plain_path exchange_dir → plain_path dir.
Proof.
  intros H. apply plain_sub; [done|]. intros E. apply (f_equal chars) in E. rewrite !chars_app in E.
  assert ("-"%char ∈ chars "..") as Hin by (rewrite <- E; set_solver). by vm_compute in Hin; set_solver.
Qed.

(** What the caller of [prepare] sees of an inspection *)
Definition reported (r : exc + list string) : outcome exc (list PreparedPage) :=
  match r with
  | inr images => Ret (prepared job 0 images)
  | inl e => Exn (preprocessing_error ("sandbox preprocessor rejected input: " +:+ reported_reason e))
  end.

(** The objects in the storage afterwards *)
Definition stored_after (r : exc + list string) os :=
  match r with inr images => store_pages job 0 images os | inl _ => os end.

Definition settled (r : exc + list string) (b b' : Box) : Prop :=
  b_files b' = b_files b ∧ b_objects b' = stored_after r (b_objects b).

Lemma in_box_empty b : NoDup (b_files b).*1 → Forall (λ f, inside dir f.1 = false) (b_files b) →
  in_box dir (b_files b) (b_objects b) (b_now b) (λ _, None) b.
Proof.
  intros Hn Hout. split_and!; [|done..|].
  { clear Hn. induction Hout as [|f l Hf _ IH]; [done|]. by rewrite filter_cons_True, IH. }
  intros p Hp. destruct (dget (b_files b) p) as [v|] eqn:E; [|done]. apply dget_Some_elem in E.
  rewrite Forall_forall in Hout. specialize (Hout _ E). simpl in Hout. congruence.
Qed.

Lemma total_prepare source ct dg fs os t :
  request_file = sub dir "request.json" → plain_path exchange_dir → fine_libraries →
  0 < timeout → 1 ≤ max_pages → dget os (Upload.object_key upload) = Some (source, ct, dg) →
  let r := inspect source (Upload.sha256 upload) max_pages max_pixels dpi in
  (∀ images, r = inr images → Forall (λ image, truthy image = true) images) →
  let after o b := o = reported r ∧ b_files b = fs ∧ b_objects b = stored_after r os in
  total (in_box dir fs os t (λ _, None))
    (directory_prepare exchange_dir timeout poll_interval max_pages max_pixels dpi upload job)
    (λ pages, after (Ret pages)) (λ e, after (Exn e)).
Proof.
  intros Hrf Hplain Hfine Ht Hmax Hsrc r Himages after. unfold directory_prepare.
  eapply total_bind_eq with (a := hex) (P' := in_box dir fs os t (λ _, None)); [by apply total_ret|].
  eapply total_try_finally with
    (Q := λ pages b, ∃ images t' K', r = inr images ∧ pages = prepared job 0 images ∧
       in_box dir fs (store_pages job 0 images os) t' K' b)
    (X := λ e b, ∃ e0 t' K', r = inl e0 ∧
       e = preprocessing_error ("sandbox preprocessor rejected input: " +:+ reported_reason e0) ∧
       in_box dir fs os t' K' b).
  - eapply total_try_except; [by eapply total_exchange_box, Hsrc; [|apply plain_request_dir|..]|].
    intros e. destruct (isinstance e PreprocessingError) eqn:E; [done|].
    destruct (isinstance e Exception_); [|done].
    apply (total_fact False); [|done]. intros b (e0 & ? & ? & _ & -> & _). by vm_compute in E.
  - intros pages b (images & t' & K' & Hr & -> & HK). unfold after. by rewrite Hr; destruct HK as (? & _ & ? & _).
  - intros e b (e0 & t' & K' & Hr & -> & HK). unfold after. by rewrite Hr; destruct HK as (? & _ & ? & _).
Qed.

(** C36: preparing a document through the exchange directory, with the sandbox's daemon
    scanning it, returns the pages (or reports the refusal) of [inspect] applied to
    the source's bytes, the upload's hash and the limits; the page images end up
    in the object storage under the job's keys and nowhere else, and the exchange
    directory is left as it was found. *)
Theorem exchange_inspects source ct dg b :
  request_file = sub dir "request.json" → plain_path exchange_dir → fine_libraries →
  0 < timeout → 1 ≤ max_pages →
  NoDup (b_files b).*1 → Forall (λ f, inside dir f.1 = false) (b_files b) →
  dget (b_objects b) (Upload.object_key upload) = Some (source, ct, dg) →
  let r := inspect source (Upload.sha256 upload) max_pages max_pixels dpi in
  (∀ images, r = inr images → Forall (λ image, truthy image = true) images) →
  ∃ b', settled r b b' ∧
    directory_prepare exchange_dir timeout poll_interval max_pages max_pixels dpi upload job b =
    (reported r, b').
Proof.
  intros Hrf Hplain Hfine Ht Hmax Hn Hout Hsrc r Himages.
  pose proof (total_prepare source ct dg _ _ _ Hrf Hplain Hfine Ht Hmax Hsrc Himages b
    (in_box_empty b Hn Hout)) as H. fold r in H.
  destruct (directory_prepare _ _ _ _ _ _ _ _ b) as [[pages|e|] b']; [| |done];
    destruct H as (-> & Hf & Ho); by exists b'.
Qed.
End equivalence.
End box.

(** ** A document of two pages, and an encrypted one *)

Module SampleBox.

Definition libraries : Libraries := {|
  mime_of s := if decide (s = "text") then "text/plain" else "application/pdf";
  open_pdf s := inr [(100#1, 200#1); (50#1, 50#1)]%Q;
  is_encrypted s := bool_decide (s = "locked");
  draw s i dpi := "page " +:+ str_Z i;
  verify _ _ := inr ();
  size_of _ := inr (1, 1);
  to_rgb_png s := s
|}.

Definition upload (source : string) : Upload.t :=
  Upload.Mk "owner" "a.pdf" (bytes_len source) "application/pdf" (sha256 source) "uploads/2/source" 2
    UploadState_COMPLETED 0 (Some 1) (Some "application/pdf") None.
Definition job : Job.t := Job.new "owner" 2 "req" [] None 7 0 0.
Definition root : Path := MkPath true ["exchange"].
Definition request_path : Path :=
  sub (sub root (uuid_str 7 +:+ "-" +:+ str_Z (Job.attempt job) +:+ "-ab")) "request.json".

(** The mailbox holds the daemon's heartbeat; the storage holds the source. *)
Definition box (source : string) : Box :=
  MkBox [(sub root "heartbeat.json", "{}")]
    [("uploads/2/source", (source, "application/pdf", sha256 source))] 0.

#[local] Existing Instances box_files box_renderers box_mailbox box_loop box_hex box_storage.

Definition prepare (source : string) : outcome exc (list PreparedPage) * Box :=
  directory_prepare (W := Box)
    (FileSystem0 := box_files) (EventLoop0 := box_loop libraries request_path)
    (RandomHex0 := box_hex "ab") (ObjectStorage0 := box_storage)
    root 1000000 100000 500 100000000 72 (upload source) job (box source).

Example two_pages : let (r, b) := prepare "%PDF" in
  (r, b_files b, (b_objects b).*1, b_now b) =
  (Ret [MkPreparedPage 1 (page_image_key job 1); MkPreparedPage 2 (page_image_key job 2)],
   [(sub root "heartbeat.json", "{}")],
   ["uploads/2/source"; page_image_key job 1; page_image_key job 2], 100000).
Proof. vm_compute. reflexivity. Qed.

Example encrypted : (prepare "locked").1 =
  Exn (preprocessing_error "sandbox preprocessor rejected input: encrypted_pdf").
Proof. vm_compute. reflexivity. Qed.

Lemma libraries_fine : fine_libraries libraries.
Proof. split_and!; by intros. Qed.
End SampleBox.

Lemma exchange_inspects_witness :
  let r := inspect SampleBox.libraries "%PDF" (sha256 "%PDF") 500 100000000 72 in
  (∀ images, r = inr images → Forall (λ image, truthy image = true) images) ∧
  ∃ b', settled SampleBox.job r (SampleBox.box "%PDF") b' ∧
    SampleBox.prepare "%PDF" = (reported SampleBox.job r, b').
Proof.
  intros r.
  assert (∀ images, r = inr images → Forall (λ image, truthy image = true) images) as Himages.
  { intros images E. vm_compute in E. injection E as <-. by repeat constructor. }
  split; [exact Himages|].
  refine (exchange_inspects SampleBox.libraries "ab" SampleBox.request_path SampleBox.root 1000000 100000 500
    100000000 72 (SampleBox.upload "%PDF") SampleBox.job "%PDF" "application/pdf" (sha256 "%PDF")
    (SampleBox.box "%PDF") eq_refl _ SampleBox.libraries_fine _ _ _ _ eq_refl Himages).
  - clear. by intros [?|[]%elem_of_nil]%elem_of_cons.
  - lia.
  - lia.
  - clear. apply NoDup_singleton.
  - clear. by apply Forall_singleton.
Defined.
